(* ===== verification/_CoqProject ===== *)
-Q . S2P
Prelude.v
PfnList.v
Protocol.v
KernelText.v
PageWalk.v
MalState.v
MalHooks.v
PageFault.v
XenMmu.v
Hypercall.v
XenPin.v
XenPinCorrect.v
XenPinAccept.v
XenCr3.v
XenRegion.v
XenRemap.v
XenBoot.v
XenBootCorrect.v
XenInit.v
MalIrq.v
MalReport.v
MalThread.v
MalRegister.v
Monitor.v
MonitorReport.v
System.v
UclBits.v
UclDecode.v
UclEncode.v
UclChecksum.v
UclRoundtrip.v
UclSafe.v
UclSwd.v
UclWindow.v
UclCompress.v
UclCorrect.v
UclSize.v
UclInPlace.v
Stub.v
Layout.v
Exepak.v
ExepakCorrect.v
Uclpack.v
UclpackCorrect.v
Sstrip.v
Clients.v
