(* ===== verification/Prelude.v ===== *)
(** * Maitland: a verification of its drivers, of the kernel code they hook, and of its packer

    Maitland watches packed programs in the domains of a Xen host.  A driver in
    every guest (DomU, src/drivers/xen/malpage) is called by the page-fault
    handler and the page-table code of a patched kernel
    (src/linux-2.6-pvops.git); it sends violations over a shared ring to a
    driver in the host (Dom0, src/drivers/xen/monitor), which knows the watched
    processes and answers; a process that is to be reported is stopped, its
    frames are granted to the host and published in XenStore, where a service
    picks them up and maps them through the Dom0 driver's device.  The programs
    it is tried on are packed by exepak (src/packers), whose compression is UCL.

    ** Files

    - Prelude: machine integers with their wrap-around written out, the
      [outcome] monad (a C function returns or goes wrong in a named way),
      arrays, loops with fuel, tactics, lemmas on lists and bits.
    - PfnList: the linked list of frame numbers (malpage.c, pfnlist_...), on an
      explicit heap; PageWalk: the two enumerations of a process's frames
      (pfnlist, pfnlist_vmarea, addr_to_mfn), page tables being a class.
    - Protocol: operation codes, ring messages, the shared page with its indices
      (malpage.h, monitor.h), the ring macros as the class [RingMacros] with
      [RingLaws]; Layout: the structs of either driver as C lays them out, and
      the bytes of a slot read and written through each.
    - KernelText: text buffers with their sizes, sprintf, the allocator's size
      classes.
    - MalState: globals of the DomU driver, its locks and signals; MalHooks: its
      page-fault and page-table hooks; MalIrq: its event handler
      (malpage_irq_handle); MalReport: report and watch of a process
      (malpage_report, malpage_xs_..., malpage_ioctl); MalThread: the report
      thread, as a step relation interleaved with the event handler;
      MalRegister: loading, registration and unloading.
    - Monitor: the watch list, the event handler and the commands of the Dom0
      driver; MonitorReport: its registration, reports, read and ioctl.
    - System: the two drivers on one ring page, from a fault to the report.
    - PageFault: arch/x86/mm/fault.c with the driver's hook and the completion
      of kernel mappings (vmalloc_fault); XenMmu: the entries and updates of
      arch/x86/xen/mmu.c with the other hook.
    - Hypercall: the multicall entries of hypercall.h and the operations of
      xen.h, with the class [McBuffer] of the buffer that collects them; XenPin:
      the walk of mmu.c over a process's page tables, pinning and unpinning, the
      hooks for tables gained and lost; XenPinCorrect: the walk and the marks;
      XenPinAccept: what the hypervisor checks of the calls; XenCr3: the page
      table a processor runs on, and its teardown; XenRegion: frames exchanged
      for contiguous ones; XenRemap: frames of another domain mapped in batches;
      XenBoot: the page table the kernel boots with, XenBootCorrect: what that
      table maps when it is switched to; XenInit: the tables it then builds for
      its memory, fixed mappings, and the table of operations (pv_mmu_ops).
    - Clients: the loader that starts a program as a watched process
      (domU/c_loader) and the older command of the guest (domU/c_client).
    - UclBits: the bit buffers of getbit.h and ucl_mchw.ch, with the class
      [BitBufferLaws] between them and their clients; UclDecode: the
      decompressors n2b_d.c, n2d_d.c, n2e_d.c in all compilations; UclEncode: the
      encoder of n2_99.ch; UclRoundtrip: the decompressors read back what it
      writes; UclSafe: the decompressors on arbitrary input.
    - UclSwd: the sliding window of ucl_swd.ch (ring buffer, hash chains, search);
      UclWindow: its invariant, position by position; UclCompress:
      [ucl_nrv_99_compress] and find_match; UclCorrect: its main loop divides
      the input; UclSize: what the compressor promises its callers; UclInPlace:
      decompression in the buffer that holds the source, and the test for it
      (n2?_to.c); UclChecksum: ucl_adler32 and ucl_crc32.
    - Stub: the extracting stub of a packed program (stub.s); Exepak: exepak.c on
      a map of files, with an oracle for the calls that may fail; ExepakCorrect:
      what becomes of a program, packed and unpacked; Uclpack: the packer of
      files of the library (uclpack.c), UclpackCorrect: what it writes and
      accepts; Sstrip: the tool that cuts the end off executables (sstrip.c).

    A definition has the name of its C function, a record the name of its
    struct, where the name was free; a field that two structs share has a
    prefix.  Comments name the statement a definition translates.  Memory is
    explicit: a heap of list nodes, the pages and infos of a driver, buffers as
    lists with bounds; an access outside is an [Err], never a default.  What a
    driver does to the outside (signals, grants, XenStore, notifications) is a
    log in its state.  Code that is not in the repository (the allocator, ring
    macros, XenStore, the hypervisor, page-table accessors, the rest of the
    kernel) is a parameter of the definitions, with its documented behaviour as
    class laws; each such class has an instance the witnesses run on.

    ** What the theorems show

    The DomU driver: the scans find every present page of a region and one
    address too many (PageWalk); duplicates are removed and freed (PfnList); the
    event handler takes all responses in order (MalIrq), and in every
    interleaving with the report thread queue, semaphore and lock agree and
    pids are taken in order (MalThread); a report grants every frame once and
    raises the ready flag last (MalReport); loading leaves a connected driver
    (MalRegister).  The Dom0 driver: every request is answered with its verdict
    (Monitor), registration, reports and reads do what they are called for, on
    every failure path too (MonitorReport).  Both: a batch of violations that
    fits the ring passes through and the watched violators are reported
    (System), and a slot is the same message to all four structs that the two
    drivers read it through (Layout).  The kernel: the fault handler terminates and keeps its lock
    balanced; entries survive the conversion to machine frames (PageFault,
    XenMmu); the walk visits every table once, children first (XenPinCorrect);
    a page is marked pinned exactly if its mapping is read-only, whatever is
    pinned, gained and lost; the hypervisor accepts the calls of pinning and of
    unpinning, and the second undoes the first (XenPinAccept); exit_mmap unpins a
    table only after every processor has left it, by the history of operations
    of all processors (XenCr3); a region is made contiguous by one
    exchange of its frames, keeps them when the hypervisor refuses, and gives the
    extent back when it is destroyed (XenRegion);
    frames of another domain are mapped in batches, all of them exactly when 0
    is returned (XenRemap); the tables the kernel adds to the page
    table it boots with are read-only before that is pinned, and the page tables
    it goes on using keep their entries (XenBootCorrect); no
    table the kernel takes while it maps its memory is writable, and none of the
    operations it installs runs the driver's hook by itself (XenInit); a missing
    kernel mapping of a process is copied, once (PageFault).  The loader watches
    its process before it becomes the program (Clients).  The packer: for every
    input, level and configuration the compressor returns, never leaves its
    arrays, and decompression undoes it; its output has at most twice the length
    of the input and eleven bytes, and for inputs of up to 341 KB, or 127 KB in
    NRV2B, at most an eighth and 256 bytes more than it (UclSize); what the
    overlap test accepts decompresses in
    place, and in a buffer of that size it accepts what the compressor wrote
    (UclInPlace); both checksums are what their definitions say, and the sums of
    the one never wrap (UclChecksum); uclpack makes a file out of its archive
    again, and without -F accepts no archive whose checksum is wrong
    (UclpackCorrect); sstrip cuts a program whose headers are in the usual place
    down to what they refer to and keeps what is loaded (Sstrip); a packed
    program, mapped by its own program header, extracts itself, and exepak -x
    finds its marker and restores it with its owner, mode and times
    (ExepakCorrect; how the kernel maps a segment is written out there, and what
    is relied on of the stub the build makes is [stub_fields], [fits_stub] and
    [has_marker]); compression is undone for any division of
    the input into runs and repetitions (UclRoundtrip); SAFE decompressors never
    leave their buffers by more than one byte and one group, and otherwise agree
    with the fast ones (UclSafe).

    And where the code does not do what it is for, a theorem says so: true
    no-execute violations never reach the driver; a ring that overflows loses the
    oldest and the newest violations;
    unacknowledged batches are reported twice; a held lock deadlocks the
    handler; an unsolicited command deafens the monitor; XenStore paths overflow
    their buffers; failed steps of registration are ignored; exepak loses small
    programs, the second program of a run, and what lies behind a read error;
    uclpack reads behind its buffer on a damaged archive; sstrip loses program
    headers that are in another place.

    ** Fuel

    A loop that is not structural takes fuel, and each theorem says how much is
    enough: the number of list nodes for the lists, of half pages for the
    scans, the distance of the ring indices for the handlers (computed by the
    definitions themselves), two attempts for the fault handler, the length of
    the output and 33 for decompression (a prefix code has at most 32 digits),
    eight times the source for decompression of arbitrary input, 32 for the
    prefix codes of the encoder and the costs of a match, the length of the
    input for the main loop of the compressor (it advances in every turn), the
    number of bytes of the loops of the checksums, the number of pages of a
    foreign mapping.  uclpack computes the fuel itself: what is left of its
    input for the loops over blocks, [block_fuel] for a block; so does sstrip for
    its loop over trailing zeros, one turn for each byte and two more.

    ** Not modelled

    The Python servers and clients, the web service and the scripts (not C);
    umonitor (one ioctl with a structure it does not fill in) and the sample
    targets; of the stub, the mode that extracts into a temporary directory and
    executes what it finds there, and the machine code of its decompressor, which
    is taken to be the C function it was generated from; stub.c and
    stubencode.c (not part of a packed program); of UCL, the headers that detect
    compilers, the self test at start, the wrappers of memcpy, the assembler
    versions and simple.c; init/main.c, which only declares the hooks; the stock
    parts of fault.c and mmu.c that neither run nor feed the hooks (oops
    printing, the eager synchronisation of vmalloc areas, the debug check of new
    entries, cr2, the operations of HVM guests); the buffer of multicalls.c and
    the table of machine frames (not in the repository: classes); the page-table
    accessors, the ring macros and the rest of the kernel (not in the
    repository, or its environment).
    Functions of malpage.c that are commented out have no definition. *)

From stdpp Require Export base gmap list strings.
From Stdlib Require Export ZArith Lia.

#[global] Open Scope Z_scope.

(** ** Machine integers

    A C integer is a [Z] kept in the range of its type; the wrap-around of an
    assignment or of an unsigned operation is written out with these. *)

Definition u16 (x : Z) : Z := x mod 2 ^ 16.
Definition u32 (x : Z) : Z := x mod 2 ^ 32.
Definition u64 (x : Z) : Z := x mod 2 ^ 64.
Definition s32 (x : Z) : Z := (x + 2 ^ 31) mod 2 ^ 32 - 2 ^ 31.
Definition s64 (x : Z) : Z := (x + 2 ^ 63) mod 2 ^ 64 - 2 ^ 63.

Definition is_u16 (x : Z) : Prop := 0 <= x < 2 ^ 16.
Definition is_u32 (x : Z) : Prop := 0 <= x < 2 ^ 32.
Definition is_u64 (x : Z) : Prop := 0 <= x < 2 ^ 64.
Definition is_s32 (x : Z) : Prop := - 2 ^ 31 <= x < 2 ^ 31.

(** The null pointer. *)
Definition NULL : Z := 0.

(** ** Outcomes

    A C function either returns or goes wrong; [Err] says how. *)

Inductive fault : Type :=
  | NullDeref      (** a load or store through a null pointer *)
  | WildAccess     (** a load or store through a pointer to no live object *)
  | OutOfBounds    (** an access outside the array it indexes *)
  | BadFree        (** [kfree] of a pointer that was not allocated *)
  | BugOn          (** a [BUG_ON] or [BUG] of the source *)
  | SelfDeadlock   (** waiting for what nobody will do: a lock never released, a pipe never closed *)
  | OutOfFuel.     (** the fuel of the model ran out: the loop went on *)

#[export] Instance fault_eq_dec : EqDecision fault.
Proof. solve_decision. Defined.

Inductive outcome (A : Type) : Type :=
  | Ret (a : A)
  | Err (f : fault).
Arguments Ret {A} a.
Arguments Err {A} f.

#[export] Instance outcome_ret : MRet outcome := λ A, Ret.
#[export] Instance outcome_bind : MBind outcome := λ A B k m,
  match m with Ret a => k a | Err f => Err f end.
#[export] Instance outcome_fmap : FMap outcome := λ A B g m,
  match m with Ret a => Ret (g a) | Err f => Err f end.

Definition of_option {A} (f : fault) (o : option A) : outcome A :=
  match o with Some a => Ret a | None => Err f end.

Definition is_ret {A} (m : outcome A) : bool :=
  match m with Ret _ => true | Err _ => false end.

(** A loop [while (cond) body] with fuel: [body] answers [inl s] to go on
    with state [s] and [inr r] to leave the loop with [r]. *)
Fixpoint iterate {S R} (fuel : nat) (body : S → outcome (S + R)) (s : S) : outcome R :=
  match fuel with
  | O => Err OutOfFuel
  | S n =>
      match body s with
      | Ret (inl s') => iterate n body s'
      | Ret (inr r) => Ret r
      | Err f => Err f
      end
  end.

(** ** Arrays: null, or the elements *)

(** [a[i]] *)
Definition array_get (a : option (list Z)) (i : Z) : outcome Z :=
  l ← of_option NullDeref a; of_option OutOfBounds (l !! Z.to_nat i).

(** [a[i] = v] *)
Definition array_set (a : option (list Z)) (i v : Z) : outcome (option (list Z)) :=
  l ← of_option NullDeref a;
  if decide (0 ≤ i < Z.of_nat (length l)) then Ret (Some (<[Z.to_nat i := v]> l))
  else Err OutOfBounds.

(** ** Lists *)

(** [nub_by k l] keeps, of the elements of [l] with the same key, the first. *)
Fixpoint nub_by {A} (k : A → Z) (l : list A) : list A :=
  match l with
  | [] => []
  | x :: l' => x :: filter (λ y, k y ≠ k x) (nub_by k l')
  end.

(** ** Tactics *)

(** Turn boolean tests of the context and the goal into propositions. *)
Ltac to_prop :=
  repeat
    match goal with
    | H : context [bool_decide _ = true] |- _ => rewrite bool_decide_eq_true in H
    | H : context [bool_decide _ = false] |- _ => rewrite bool_decide_eq_false in H
    | H : (_ && _)%bool = true |- _ => apply andb_true_iff in H; destruct H
    | H : (_ || _)%bool = false |- _ => apply orb_false_iff in H; destruct H
    | H : negb _ = true |- _ => apply negb_true_iff in H
    | H : negb _ = false |- _ => apply negb_false_iff in H
    | H : (_ =? _)%Z = true |- _ => apply Z.eqb_eq in H
    | H : (_ =? _)%Z = false |- _ => apply Z.eqb_neq in H
    | H : (_ <? _)%Z = true |- _ => apply Z.ltb_lt in H
    | H : (_ <? _)%Z = false |- _ => apply Z.ltb_ge in H
    | H : (_ <=? _)%Z = true |- _ => apply Z.leb_le in H
    | H : (_ <=? _)%Z = false |- _ => apply Z.leb_gt in H
    end.

(** Split every [if] and [match] of the goal, keeping the equations. *)
Ltac split_ifs :=
  repeat (case_match || case_decide); simplify_eq/=; to_prop.

(** Unfold the machine-integer wrappers and finish with [lia]. *)
Ltac zwrap :=
  unfold u16, u32, u64, s32, s64, is_u16, is_u32, is_u64, is_s32 in *;
  Z.div_mod_to_equations; lia.

(** ** Lemmas *)

(** A sequence returns when its steps do. *)
Lemma bind_Ret {A B} (m : outcome A) (k : A → outcome B) b :
  (m ≫= k) = Ret b → ∃ a, m = Ret a ∧ k a = Ret b.
Proof. destruct m as [a|f]; simpl; [eauto|done]. Qed.

(** Peel the steps off a sequence that is known to return. *)
Tactic Notation "bind_inv" hyp(H) :=
  apply bind_Ret in H; let a := fresh "r" in let E := fresh "E" in destruct H as (a & E & H).

Lemma array_get_app (l1 l2 : list Z) v : array_get (Some (l1 ++ v :: l2)) (Z.of_nat (length l1)) = Ret v.
Proof. unfold array_get. simpl. rewrite Nat2Z.id, lookup_app_r, Nat.sub_diag by lia. done. Qed.

Lemma array_set_app (l1 l2 : list Z) v w :
  array_set (Some (l1 ++ v :: l2)) (Z.of_nat (length l1)) w = Ret (Some (l1 ++ w :: l2)).
Proof.
  unfold array_set. simpl. rewrite length_app. simpl. rewrite decide_True by lia.
  by rewrite Nat2Z.id, insert_app_r_alt, Nat.sub_diag by lia.
Qed.

Lemma u16_small x : is_u16 x → u16 x = x.
Proof. intros H. by apply Z.mod_small. Qed.

Lemma u32_small x : is_u32 x → u32 x = x.
Proof. intros H. by apply Z.mod_small. Qed.

Lemma u64_small x : is_u64 x → u64 x = x.
Proof. intros H. by apply Z.mod_small. Qed.

Lemma s64_small x : -2 ^ 63 ≤ x < 2 ^ 63 → s64 x = x.
Proof. intros Hx. unfold s64. rewrite Z.mod_small; lia. Qed.

Lemma s32_small x : is_s32 x → s32 x = x.
Proof. unfold s32, is_s32. intros H. rewrite Z.mod_small; lia. Qed.

Lemma u32_range x : is_u32 (u32 x).
Proof. apply Z.mod_pos_bound. lia. Qed.

Lemma u16_range x : is_u16 (u16 x).
Proof. apply Z.mod_pos_bound. lia. Qed.

Lemma u32_add_l x y : u32 (u32 x + y) = u32 (x + y).
Proof. unfold u32. by rewrite Zplus_mod_idemp_l. Qed.

(** *** Bits *)

Lemma shiftl_1_bit k n : 0 ≤ k → Z.testbit (Z.shiftl 1 k) n = (k =? n).
Proof. intros Hk. by rewrite Z.shiftl_1_l, Z.pow2_bits_eqb. Qed.

(** Testing one bit with a mask. *)
Lemma land_bit_0 c k : 0 ≤ k → Z.land c (Z.shiftl 1 k) = 0 ↔ Z.testbit c k = false.
Proof.
  intros Hk. split.
  - intros H. apply (f_equal (λ z, Z.testbit z k)) in H.
    by rewrite Z.land_spec, shiftl_1_bit, Z.eqb_refl, andb_true_r, Z.bits_0 in H.
  - intros H. apply Z.bits_inj'. intros n Hn. rewrite Z.land_spec, shiftl_1_bit, Z.bits_0 by done.
    destruct (Z.eqb_spec k n) as [<-|]; [by rewrite H|by rewrite andb_false_r].
Qed.

(** Nonnegative numbers are equal when their bits are. *)
Lemma ones_bit k n : 0 ≤ k → 0 ≤ n → Z.testbit (Z.ones k) n = (n <? k).
Proof.
  intros Hk Hn. destruct (Z.ltb_spec n k); [by apply Z.ones_spec_low|by apply Z.ones_spec_high].
Qed.

Lemma high_bit x k n : 0 ≤ x < 2 ^ k → k ≤ n → Z.testbit x n = false.
Proof.
  intros Hx Hn. destruct (decide (x = 0)) as [->|]; [apply Z.bits_0|].
  apply Z.bits_above_log2; [lia|]. assert (Z.log2 x < k) by (apply Z.log2_lt_pow2; lia). lia.
Qed.

Lemma bits_bound x k : 0 ≤ k → 0 ≤ x → (∀ n, k ≤ n → Z.testbit x n = false) → x < 2 ^ k.
Proof.
  intros Hk Hx Hbits. destruct (decide (x = 0)) as [->|]; [lia|]. apply Z.log2_lt_pow2; [lia|].
  apply Z.nle_gt. intros Hl. pose proof (Z.bit_log2 x) as Hb. rewrite Hbits in Hb by done.
  discriminate Hb. lia.
Qed.

Create HintDb mait.
Create Rewrite HintDb mait.
#[export] Hint Rewrite u32_add_l : mait.
#[export] Hint Resolve u32_range u16_range : mait.

Section nub.
  Context {A : Type} (k : A → Z).

Lemma elem_of_nub_by l x : x ∈ nub_by k l → x ∈ l.
Proof.
  induction l as [|y l IH]; simpl; [done|].
  rewrite !elem_of_cons, list_elem_of_filter. naive_solver.
Qed.

Lemma nub_by_key l x : x ∈ l → ∃ y, y ∈ nub_by k l ∧ k y = k x.
Proof.
  induction l as [|z l IH]; simpl; [by rewrite elem_of_nil|].
  rewrite elem_of_cons. intros [->|Hx]; [exists z; set_solver|].
  destruct (IH Hx) as (y & Hy & Hk).
  destruct (decide (k y = k z)) as [E|E].
  - exists z. split; [set_solver|congruence].
  - exists y. rewrite elem_of_cons, list_elem_of_filter. naive_solver.
Qed.

Lemma nub_by_sublist l : nub_by k l `sublist_of` l.
Proof.
  induction l as [|x l IH]; simpl; [done|].
  apply sublist_skip. etrans; [apply sublist_filter|done].
Qed.

Lemma NoDup_keys_filter (P : A → Prop) `{∀ x, Decision (P x)} l :
  NoDup (k <$> l) → NoDup (k <$> filter P l).
Proof.
  intros Hl. eapply sublist_NoDup; [done|]. apply fmap_sublist, sublist_filter.
Qed.

Lemma nub_by_NoDup l : NoDup (k <$> nub_by k l).
Proof.
  induction l as [|x l IH]; csimpl; [constructor|].
  constructor; [|by apply NoDup_keys_filter].
  rewrite list_elem_of_fmap. intros (y & Hk & Hy).
  apply list_elem_of_filter in Hy as [? _]. congruence.
Qed.

(** Removing a key and removing duplicates commute. *)
Lemma nub_by_filter_key l z :
  nub_by k (filter (λ y, k y ≠ z) l) = filter (λ y, k y ≠ z) (nub_by k l).
Proof.
  induction l as [|x l IH]; simpl; [done|].
  rewrite !filter_cons. destruct (decide (k x ≠ z)) as [Hx|Hx]; simpl.
  - rewrite IH. f_equal. rewrite !list_filter_filter.
    apply list_filter_iff. intros y. tauto.
  - rewrite IH, list_filter_filter. apply list_filter_iff. intros y.
    apply dec_stable in Hx. rewrite Hx. tauto.
Qed.

End nub.
