(* ===== verification/PfnList.v ===== *)
(** * The linked list of page frame numbers (drivers/xen/malpage/malpage.c)

    [pfn_ll_node] lists live in a heap of nodes, [gmap Z pfn_ll_node]; a
    pointer is an address in it and [NULL] is 0.  The operations walk and edit
    the heap exactly as the C loops do, with fuel for the loops; a null or
    dangling dereference and a bad [kfree] are outcomes.  [linked] is the
    abstraction: the list of (address, pfn) pairs a root pointer stands for. *)

From S2P Require Import Prelude.

(** ** Data *)

(** [typedef struct pfn_ll_node]. *)
Record pfn_ll_node : Type := mk_pfn_ll_node { pfn : Z; next : Z }.

(** [p->...]: read the node at [p]. *)
Definition load (h : gmap Z pfn_ll_node) (p : Z) : outcome pfn_ll_node :=
  if decide (p = NULL) then Err NullDeref else of_option WildAccess (h !! p).

(** [p->pfn = v] *)
Definition store_pfn (h : gmap Z pfn_ll_node) (p v : Z) : outcome (gmap Z pfn_ll_node) :=
  n ← load h p; Ret (<[p := mk_pfn_ll_node v (next n)]> h).

(** [p->next = q] *)
Definition store_next (h : gmap Z pfn_ll_node) (p q : Z) : outcome (gmap Z pfn_ll_node) :=
  n ← load h p; Ret (<[p := mk_pfn_ll_node (pfn n) q]> h).

(** [kfree(p)]: freeing a null pointer does nothing. *)
Definition kfree (h : gmap Z pfn_ll_node) (p : Z) : outcome (gmap Z pfn_ll_node) :=
  if decide (p = NULL) then Ret h
  else match h !! p with Some _ => Ret (delete p h) | None => Err BadFree end.

(** ** Operations *)

(** The loop of [free_pfn_ll]: [while(front) { tmp = front; front =
    front->next; kfree(tmp); }]. *)
Fixpoint free_pfn_ll_loop (fuel : nat) (h : gmap Z pfn_ll_node) (front : Z)
    : outcome (gmap Z pfn_ll_node) :=
  if decide (front = NULL) then Ret h else
  match fuel with
  | O => Err OutOfFuel
  | S n =>
      nd ← load h front;
      h' ← kfree h front;
      free_pfn_ll_loop n h' (next nd)
  end.

(** [static int free_pfn_ll(pfn_ll_node *root)] *)
Definition free_pfn_ll (fuel : nat) (h : gmap Z pfn_ll_node) (root : Z)
    : outcome (Z * gmap Z pfn_ll_node) :=
  h' ← free_pfn_ll_loop fuel h root; Ret (0, h').

(** The loop of [pfnlist_size]; [count] is an [int]. *)
Fixpoint pfnlist_size_loop (fuel : nat) (h : gmap Z pfn_ll_node) (front count : Z)
    : outcome Z :=
  if decide (front = NULL) then Ret count else
  match fuel with
  | O => Err OutOfFuel
  | S n => nd ← load h front; pfnlist_size_loop n h (next nd) (s32 (count + 1))
  end.

(** [static int pfnlist_size(pfn_ll_node *root)] *)
Definition pfnlist_size (fuel : nat) (h : gmap Z pfn_ll_node) (root : Z) : outcome Z :=
  pfnlist_size_loop fuel h root 0.

(** The loop of [pfnlist_mkarray]: [count] is unsigned, so [length] is
    converted to [unsigned int] in the comparison; [None] is the null pointer
    of a failed [kzalloc]. *)
Fixpoint pfnlist_mkarray_loop (fuel : nat) (h : gmap Z pfn_ll_node)
    (pfn_array : option (list Z)) (front length count : Z) : outcome (option (list Z)) :=
  if decide (count < u32 length ∧ front ≠ NULL) then
    match fuel with
    | O => Err OutOfFuel
    | S n =>
        nd ← load h front;
        match pfn_array with
        | None => Err NullDeref
        | Some arr =>
            if decide (count < Z.of_nat (List.length arr)) then
              pfnlist_mkarray_loop n h (Some (<[Z.to_nat count := pfn nd]> arr))
                (next nd) length (u32 (count + 1))
            else Err OutOfBounds
        end
    end
  else Ret pfn_array.

(** [static unsigned long* pfnlist_mkarray(pfn_ll_node *root, int length)]:
    [alloc_ok] says whether [kzalloc] finds the memory, which it zeroes. *)
Definition pfnlist_mkarray (fuel : nat) (alloc_ok : bool) (h : gmap Z pfn_ll_node)
    (root length : Z) : outcome (option (list Z)) :=
  let pfn_array := if alloc_ok then Some (replicate (Z.to_nat length) 0) else None in
  pfnlist_mkarray_loop fuel h pfn_array root length 0.

(** The loop of [pfnlist_find_parent_of]. *)
Fixpoint pfnlist_find_parent_of (fuel : nat) (h : gmap Z pfn_ll_node)
    (front_parent front needle : Z) : outcome Z :=
  if decide (front = NULL) then Ret NULL else
  match fuel with
  | O => Err OutOfFuel
  | S n =>
      nd ← load h front;
      if decide (pfn nd = needle) then Ret front_parent
      else
        par ← load h front_parent;
        pfnlist_find_parent_of n h (next par) (next nd) needle
  end.

(** The inner loop of [pfnlist_mkunique]: [while((tmp =
    pfnlist_find_parent_of(front, front->next, front->pfn)) != NULL) { ... }]. *)
Fixpoint mkunique_inner (fuel wfuel : nat) (h : gmap Z pfn_ll_node) (front removed : Z)
    : outcome (Z * gmap Z pfn_ll_node) :=
  f ← load h front;
  tmp ← pfnlist_find_parent_of fuel h front (next f) (pfn f);
  if decide (tmp = NULL) then Ret (removed, h) else
  match wfuel with
  | O => Err OutOfFuel
  | S n =>
      t ← load h tmp;
      let needle_node := next t in
      nn ← load h needle_node;
      h1 ← store_next h tmp (next nn);
      h2 ← kfree h1 needle_node;
      mkunique_inner fuel n h2 front (s32 (removed + 1))
  end.

(** The outer loop of [pfnlist_mkunique]: [while(front) { ...; front =
    front->next; }]. *)
Fixpoint mkunique_outer (fuel ofuel : nat) (h : gmap Z pfn_ll_node) (front removed : Z)
    : outcome (Z * gmap Z pfn_ll_node) :=
  if decide (front = NULL) then Ret (removed, h) else
  match ofuel with
  | O => Err OutOfFuel
  | S n =>
      r ← mkunique_inner fuel fuel h front removed;
      f ← load r.2 front;
      mkunique_outer fuel n r.2 (next f) r.1
  end.

(** [static int pfnlist_mkunique(pfn_ll_node *root)] *)
Definition pfnlist_mkunique (fuel : nat) (h : gmap Z pfn_ll_node) (root : Z)
    : outcome (Z * gmap Z pfn_ll_node) :=
  mkunique_outer fuel fuel h root 0.

(** ** The abstraction *)

(** The address of the first node. *)
Definition head_addr (l : list (Z * Z)) : Z :=
  match l with [] => NULL | (a, _) :: _ => a end.

(** The heap holds the nodes of [l], each pointing to the following one and
    the last one to [NULL]. *)
Fixpoint linked (h : gmap Z pfn_ll_node) (l : list (Z * Z)) : Prop :=
  match l with
  | [] => True
  | (a, v) :: l' =>
      a ≠ NULL ∧ h !! a = Some (mk_pfn_ll_node v (head_addr l')) ∧ linked h l'
  end.

(** The pointer [p] stands for the list [l]. *)
Definition is_list (h : gmap Z pfn_ll_node) (p : Z) (l : list (Z * Z)) : Prop :=
  p = head_addr l ∧ linked h l.

(** Outside the addresses of [l] the two heaps agree. *)
Definition same_outside (l : list (Z * Z)) (h h' : gmap Z pfn_ll_node) : Prop :=
  ∀ a, a ∉ l.*1 → h' !! a = h !! a.

(** ** Facts about linked lists *)

Lemma load_some h a n : a ≠ NULL → h !! a = Some n → load h a = Ret n.
Proof. intros Ha Hh. unfold load. rewrite decide_False by done. by rewrite Hh. Qed.

(** Run the loads whose node the context knows. *)
Ltac run_loads :=
  repeat (erewrite load_some by eassumption; simpl).

Lemma linked_app_r h l1 l2 : linked h (l1 ++ l2) → linked h l2.
Proof. induction l1 as [|[a v] l1 IH]; simpl; [done|]. intros (_ & _ & ?). auto. Qed.

Lemma linked_frame h h' l :
  linked h l → (∀ a, a ∈ l.*1 → h' !! a = h !! a) → linked h' l.
Proof.
  induction l as [|[a v] l IH]; simpl; [done|]. intros (? & Hh & ?) Hf.
  split_and!; [done| |].
  - rewrite Hf by set_solver. done.
  - apply IH; [done|]. intros b Hb. apply Hf. set_solver.
Qed.

Lemma linked_not_null h l : linked h l → NULL ∉ l.*1.
Proof.
  induction l as [|[a v] l IH]; csimpl; [set_solver|]. intros (? & _ & ?). set_solver.
Qed.

(** A list that ends in [NULL] visits no node twice. *)
Lemma linked_det h l1 l2 :
  linked h l1 → linked h l2 → head_addr l1 = head_addr l2 → l1 = l2.
Proof.
  revert l2. induction l1 as [|[a v] l1 IH]; intros [|[b w] l2]; simpl; try done.
  - intros _ (? & _) ?. congruence.
  - intros (? & _) _ ?. congruence.
  - intros (_ & Ha & ?) (_ & Hb & ?) ->. rewrite Ha in Hb. simplify_eq.
    f_equal. by apply IH.
Qed.

Lemma linked_suffix h l a : linked h l → a ∈ l.*1 → ∃ l1 v l2, l = l1 ++ (a, v) :: l2.
Proof.
  intros _ ([b v] & -> & Hin)%list_elem_of_fmap.
  apply list_elem_of_split in Hin as (l1 & l2 & ->). eauto.
Qed.

Lemma linked_NoDup h l : linked h l → NoDup l.*1.
Proof.
  induction l as [|[a v] l IH]; csimpl; [constructor|]. intros Hl.
  destruct Hl as (Ha & Hh & Hl). constructor; [|auto]. intros Hin.
  destruct (linked_suffix h l a Hl Hin) as (l1 & w & l2 & ->).
  assert (Heq : (a, v) :: l1 ++ (a, w) :: l2 = (a, w) :: l2).
  { apply (linked_det h); [done| |done]. by apply linked_app_r in Hl. }
  apply (f_equal length) in Heq. simpl in Heq. rewrite length_app in Heq. simpl in Heq. lia.
Qed.

(** The address of the last node of [l1], or [par] when there is none. *)
Definition last_addr (par : Z) (l1 : list (Z * Z)) : Z :=
  match last l1 with Some (a, _) => a | None => par end.

Lemma last_addr_cons par a v l : last_addr par ((a, v) :: l) = last_addr a l.
Proof. unfold last_addr. rewrite last_cons. by destruct (last l) as [[]|]. Qed.

Lemma find_parent_none fuel h par pv l v :
  linked h ((par, pv) :: l) → (length l ≤ fuel)%nat → v ∉ l.*2 →
  pfnlist_find_parent_of fuel h par (head_addr l) v = Ret NULL.
Proof.
  revert fuel par pv. induction l as [|[b w] l IH]; intros fuel par pv Hl Hf Hv.
  - destruct fuel; done.
  - destruct Hl as (? & ? & ? & ? & ?). destruct fuel as [|n]; simpl in *; [lia|].
    rewrite decide_False by done. run_loads.
    rewrite decide_False by set_solver. run_loads.
    apply (IH _ _ w); [done|lia|set_solver].
Qed.

Lemma find_parent_some fuel h par pv l1 b v l2 :
  linked h ((par, pv) :: l1 ++ (b, v) :: l2) → (length l1 < fuel)%nat → v ∉ l1.*2 →
  pfnlist_find_parent_of fuel h par (head_addr (l1 ++ (b, v) :: l2)) v = Ret (last_addr par l1).
Proof.
  revert fuel par pv. induction l1 as [|[c w] l1 IH]; intros fuel par pv Hl Hf Hv;
    destruct fuel as [|n]; simpl in *; try lia;
    destruct Hl as (? & ? & ? & ? & ?); rewrite decide_False by done; run_loads.
  - by rewrite decide_True.
  - rewrite decide_False by set_solver. run_loads.
    rewrite last_addr_cons. apply (IH _ _ w); [done|lia|set_solver].
Qed.

(** Every address list with a value [v] splits at its first node holding [v]. *)
Lemma split_first (l : list (Z * Z)) v :
  v ∈ l.*2 → ∃ l1 b l2, l = l1 ++ (b, v) :: l2 ∧ v ∉ l1.*2.
Proof.
  induction l as [|[a w] l IH]; csimpl; [by rewrite elem_of_nil|].
  destruct (decide (w = v)) as [->|Hw].
  - intros _. exists [], a, l. split; [done|set_solver].
  - intros Hv. destruct IH as (l1 & b & l2 & -> & Hv'); [set_solver|].
    exists ((a, w) :: l1), b, l2. split; [done|]. csimpl. set_solver.
Qed.

(** Unlinking the node [b] that follows [q]. *)
Lemma linked_unlink h l1 q w b v l2 :
  linked h (l1 ++ (q, w) :: (b, v) :: l2) →
  linked (delete b (<[q := mk_pfn_ll_node w (head_addr l2)]> h)) (l1 ++ (q, w) :: l2).
Proof.
  intros Hl. pose proof (linked_NoDup _ _ Hl) as Hnd.
  induction l1 as [|[c u] l1 IH]; csimpl in *.
  - destruct Hl as (? & _ & ? & _ & Hl2).
    apply NoDup_cons in Hnd as [Hq [Hb _]%NoDup_cons].
    split_and!; [done| |].
    + rewrite lookup_delete_ne by set_solver. by rewrite lookup_insert_eq.
    + apply (linked_frame h); [done|]. intros d Hd.
      rewrite lookup_delete_ne, lookup_insert_ne by set_solver. done.
  - destruct Hl as (? & Hc & Hl). apply NoDup_cons in Hnd as [Hcn Hnd].
    rewrite fmap_app in Hcn. csimpl in *. split_and!; [done| |by apply IH].
    rewrite lookup_delete_ne, lookup_insert_ne by set_solver.
    rewrite Hc. by destruct l1 as [|[]].
Qed.

Lemma split_last_addr (a v : Z) (l1 : list (Z * Z)) :
  ∃ l0 w, (a, v) :: l1 = l0 ++ [(last_addr a l1, w)].
Proof.
  destruct l1 as [|x l1 _] using rev_ind; [by exists [], v|].
  destruct x as [q w]. exists ((a, v) :: l1), w. unfold last_addr. by rewrite last_snoc.
Qed.

(** The part of the list [pfnlist_mkunique] keeps behind a node of value [v]. *)
Abbreviation drop_val v l := (filter (λ y : Z * Z, y.2 ≠ v) l).

(** What a run that turns the list [l] into [l'] leaves in the heap: the nodes
    of [l'], nothing freed but nodes of [l], and every other node of [l] freed. *)
Definition pruned (l l' : list (Z * Z)) (h h' : gmap Z pfn_ll_node) : Prop :=
  linked h' l' ∧ same_outside l h h' ∧ ∀ a, a ∈ l.*1 → a ∉ l'.*1 → h' !! a = None.

Lemma pruned_refl h l : linked h l → pruned l l h h.
Proof. intros Hl. split_and!; [done|by intros ??|done]. Qed.

Lemma pruned_trans l l1 l2 h h1 h2 :
  l2.*1 ⊆ l1.*1 → l1.*1 ⊆ l.*1 → pruned l l1 h h1 → pruned l1 l2 h1 h2 → pruned l l2 h h2.
Proof.
  intros Hs1 Hs2 (_ & Ho1 & Hf1) (Hl2 & Ho2 & Hf2). split_and!; [done| |].
  - intros a Ha. rewrite Ho2 by set_solver. auto.
  - intros a Ha Ha2. destruct (decide (a ∈ l1.*1)); [auto|].
    rewrite Ho2 by done. auto.
Qed.

Lemma sublist_addrs (l l' : list (Z * Z)) : l' `sublist_of` l → l'.*1 ⊆ l.*1.
Proof. intros Hs a (x & -> & Hx)%list_elem_of_fmap. apply list_elem_of_fmap.
  exists x. split; [done|]. by eapply sublist_subseteq. Qed.

Lemma pruned_unlink h a v l1 b l2 :
  linked h ((a, v) :: l1 ++ (b, v) :: l2) →
  ∃ w, load h (last_addr a l1) = Ret (mk_pfn_ll_node w b) ∧
    load h b = Ret (mk_pfn_ll_node v (head_addr l2)) ∧
    pruned ((a, v) :: l1 ++ (b, v) :: l2) ((a, v) :: l1 ++ l2) h
      (delete b (<[last_addr a l1 := mk_pfn_ll_node w (head_addr l2)]> h)) ∧
    b ≠ last_addr a l1.
Proof.
  intros Hl. destruct (split_last_addr a v l1) as (l0 & w & Hq).
  pose proof Hl as Hl0. pose proof (linked_NoDup _ _ Hl) as Hnd.
  rewrite app_comm_cons, Hq, <-app_assoc in Hl, Hnd. simpl in Hl, Hnd.
  pose proof (linked_app_r _ _ _ Hl) as (? & ? & ? & ? & _).
  rewrite fmap_app in Hnd. apply NoDup_app in Hnd as (_ & _ & Hnd). csimpl in Hnd.
  apply NoDup_cons in Hnd as [Hqb _].
  exists w. split_and!; [by apply load_some|by apply load_some| |set_solver].
  split_and!.
  - rewrite app_comm_cons, Hq, <-app_assoc. by eapply linked_unlink.
  - intros c Hc. rewrite app_comm_cons, Hq in Hc. rewrite !fmap_app in Hc. csimpl in Hc.
    rewrite lookup_delete_ne, lookup_insert_ne by set_solver. done.
  - intros c Hc1 Hc2. destruct (decide (c = b)) as [->|]; [apply lookup_delete_eq|].
    rewrite !fmap_cons, !fmap_app in Hc1, Hc2. csimpl in *. set_solver.
Qed.

Lemma drop_val_app (l1 l2 : list (Z * Z)) b v :
  drop_val v (l1 ++ (b, v) :: l2) = drop_val v (l1 ++ l2).
Proof. rewrite !filter_app, filter_cons, decide_False by naive_solver. done. Qed.

Lemma drop_val_none (l : list (Z * Z)) v : v ∉ l.*2 → drop_val v l = l.
Proof.
  induction l as [|[a w] l IH]; csimpl; [done|]. intros Hv.
  rewrite filter_cons, decide_True by set_solver. f_equal. apply IH. set_solver.
Qed.

Lemma mkunique_inner_spec fuel wfuel h a v l removed :
  linked h ((a, v) :: l) → (length l ≤ fuel)%nat → (length l ≤ wfuel)%nat →
  0 ≤ removed → removed + Z.of_nat (length l) < 2 ^ 31 →
  ∃ h', mkunique_inner fuel wfuel h a removed
        = Ret (removed + Z.of_nat (length l - length (drop_val v l)), h') ∧
    pruned ((a, v) :: l) ((a, v) :: drop_val v l) h h'.
Proof.
  revert h l removed. induction wfuel as [|n IH]; intros h l removed Hl Hf Hw Hr Hb.
  all: assert (Hload : load h a = Ret (mk_pfn_ll_node v (head_addr l)))
    by (destruct Hl as (? & ? & _); by apply load_some).
  all: destruct (decide (v ∈ l.*2)) as [Hin|Hni].
  1: { destruct l; [set_solver|simpl in *; lia]. }
  2: destruct (split_first _ _ Hin) as (l1 & b & l2 & -> & Hv).
  1,3: exists h; simpl; rewrite Hload; simpl;
    rewrite (find_parent_none _ _ _ _ _ _ Hl Hf Hni); simpl;
    rewrite drop_val_none, Nat.sub_diag by done;
    split; [do 2 f_equal; lia|by apply pruned_refl].
  destruct (pruned_unlink _ _ _ _ _ _ Hl) as (w & Hq & Hb' & Hp & Hne).
  assert (Hq0 : last_addr a l1 ≠ NULL)
    by (intros E; rewrite E in Hq; by unfold load in Hq).
  rewrite length_app in Hf, Hw, Hb. simpl in Hf, Hw, Hb.
  simpl. rewrite Hload. simpl.
  rewrite (find_parent_some _ _ _ _ _ _ _ _ Hl) by (done || lia). simpl.
  rewrite decide_False by done. rewrite Hq. simpl. rewrite Hb'. simpl.
  unfold store_next. rewrite Hq. simpl. unfold kfree.
  rewrite decide_False by (intros ->; by unfold load in Hb').
  rewrite lookup_insert_ne by done.
  assert (Hbb : is_Some (h !! b)).
  { unfold load in Hb'. case_decide; [done|]. destruct (h !! b); [eauto|done]. }
  destruct Hbb as [nb ->]. simpl.
  destruct (IH _ (l1 ++ l2) (s32 (removed + 1)) (proj1 Hp)) as (h' & -> & Hp').
  1-4: rewrite ?length_app; rewrite ?s32_small by (unfold is_s32; lia); lia.
  exists h'. rewrite drop_val_app, s32_small by (unfold is_s32; lia). split.
  - do 2 f_equal. pose proof (length_filter (λ y : Z * Z, y.2 ≠ v) (l1 ++ l2)).
    rewrite !length_app in *. simpl. lia.
  - eapply pruned_trans; [| |exact Hp|exact Hp'].
    + apply sublist_addrs, sublist_skip, sublist_filter.
    + apply sublist_addrs, sublist_skip, sublist_app; [done|]. by apply sublist_cons.
Qed.

Lemma nub_drop_val v (l : list (Z * Z)) :
  drop_val v (nub_by snd l) = nub_by snd (drop_val v l).
Proof. by rewrite (nub_by_filter_key snd l v). Qed.

Lemma nub_length (l : list (Z * Z)) : (length (nub_by snd l) ≤ length l)%nat.
Proof. apply sublist_length, nub_by_sublist. Qed.

Lemma mkunique_outer_spec fuel ofuel h l removed :
  linked h l → (length l ≤ fuel)%nat → (length l ≤ ofuel)%nat →
  0 ≤ removed → removed + Z.of_nat (length l) < 2 ^ 31 →
  ∃ h', mkunique_outer fuel ofuel h (head_addr l) removed
        = Ret (removed + Z.of_nat (length l - length (nub_by snd l)), h') ∧
    pruned l (nub_by snd l) h h'.
Proof.
  revert h l removed. induction ofuel as [|n IH]; intros h [|[a v] l] removed Hl Hf Ho Hr Hb;
    simpl in Ho; try lia.
  1,2: exists h; simpl; split; [do 2 f_equal; lia|by apply pruned_refl].
  simpl in Hf, Hb. simpl. rewrite decide_False by (by destruct Hl).
  destruct (mkunique_inner_spec fuel fuel h a v l removed) as (h1 & -> & Hp); try done; try lia.
  pose proof Hp as ((Ha & Hh & Hl1) & _ & _). simpl. rewrite (load_some _ _ _ Ha Hh). simpl.
  pose proof (length_filter (λ y : Z * Z, y.2 ≠ v) l) as Hlen.
  destruct (IH h1 (drop_val v l) (removed + Z.of_nat (length l - length (drop_val v l))))
    as (h' & -> & Hp'); try lia; try done.
  pose proof (nub_length (drop_val v l)) as Hlen'.
  exists h'. rewrite nub_drop_val. split; [do 2 f_equal; lia|].
  eapply (pruned_trans _ ((a, v) :: drop_val v l)).
  - apply sublist_addrs, sublist_skip, nub_by_sublist.
  - apply sublist_addrs, sublist_skip, sublist_filter.
  - done.
  - pose proof (linked_NoDup _ _ (proj1 Hp)) as [Hna _]%NoDup_cons.
    destruct Hp' as (Hl2 & Ho2 & Hf2). split_and!.
    + split_and!; [done| |done]. rewrite Ho2 by done. rewrite Hh.
      by destruct (drop_val v l) as [|[]].
    + intros c Hc. apply Ho2. set_solver.
    + intros c Hc Hc'. csimpl in *. apply Hf2; set_solver.
Qed.

Lemma mkunique_run fuel h root l :
  is_list h root l → (length l ≤ fuel)%nat → Z.of_nat (length l) < 2 ^ 31 →
  ∃ h', pfnlist_mkunique fuel h root
        = Ret (Z.of_nat (length l - length (nub_by snd l)), h') ∧
    is_list h' root (nub_by snd l) ∧ pruned l (nub_by snd l) h h'.
Proof.
  intros [-> Hl] Hf Hb. unfold pfnlist_mkunique.
  destruct (mkunique_outer_spec fuel fuel h l 0) as (h' & -> & Hp); try done; try lia.
  exists h'. split_and!; [done| |done]. split; [by destruct l as [|[]]|by destruct Hp].
Qed.

Lemma size_loop_spec fuel h l count :
  linked h l → (length l ≤ fuel)%nat → 0 ≤ count → count + Z.of_nat (length l) < 2 ^ 31 →
  pfnlist_size_loop fuel h (head_addr l) count = Ret (count + Z.of_nat (length l)).
Proof.
  revert fuel count. induction l as [|[a v] l IH]; intros [|n] count Hl Hf Hc Hb;
    simpl in *; try lia; try (f_equal; lia).
  destruct Hl as (? & ? & ?). rewrite decide_False by done. run_loads.
  rewrite s32_small by (unfold is_s32; lia). rewrite IH by (done || lia). f_equal. lia.
Qed.

Lemma mkarray_loop_spec fuel h l done_ rest len :
  linked h l → (length l ≤ fuel)%nat → is_s32 len → 0 ≤ len →
  Z.of_nat (length done_ + length rest) = len →
  pfnlist_mkarray_loop fuel h (Some (done_ ++ rest)) (head_addr l) len (Z.of_nat (length done_))
  = Ret (Some (done_ ++ take (length rest) l.*2 ++ drop (length l) rest)).
Proof.
  revert fuel done_ rest. induction l as [|[a v] l IH];
    intros [|n] done_ rest Hl Hf Hs Hp Hlen; simpl in *; try lia;
    rewrite ?u32_small by (unfold is_u32, is_s32 in *; lia).
  1,2: rewrite decide_False by (unfold NULL; lia); by rewrite take_nil, drop_0.
  destruct Hl as (? & ? & ?). destruct rest as [|r rest]; simpl in *.
  - rewrite decide_False by lia. done.
  - rewrite decide_True by (split; [lia|done]). run_loads. rewrite length_app. simpl.
    rewrite decide_True by lia. rewrite Nat2Z.id, insert_app_r_alt, Nat.sub_diag by lia. simpl.
    replace (done_ ++ v :: rest) with ((done_ ++ [v]) ++ rest) by (by rewrite <-app_assoc).
    replace (Z.of_nat (length done_) + 1) with (Z.of_nat (length (done_ ++ [v])))
      by (rewrite length_app; simpl; lia).
    rewrite IH by (done || (rewrite ?length_app; simpl; lia)).
    by rewrite <-app_assoc.
Qed.

Lemma free_loop_spec fuel h l :
  linked h l → (length l ≤ fuel)%nat →
  ∃ h', free_pfn_ll_loop fuel h (head_addr l) = Ret h' ∧
    same_outside l h h' ∧ ∀ a, a ∈ l.*1 → h' !! a = None.
Proof.
  revert fuel h. induction l as [|[a v] l IH]; intros [|n] h Hl Hf; simpl in *; try lia.
  1,2: exists h; split_and!; [done|by intros ??|set_solver].
  pose proof (linked_NoDup h ((a, v) :: l) Hl) as [Hna _]%NoDup_cons.
  destruct Hl as (? & Hh & Hl). rewrite decide_False by done. run_loads.
  unfold kfree. rewrite decide_False by done. rewrite Hh. simpl.
  destruct (IH n (delete a h)) as (h' & -> & Ho & Hfr).
  { apply (linked_frame h); [done|]. intros b Hb. apply lookup_delete_ne. set_solver. }
  { lia. }
  exists h'. split_and!; [done| |].
  - intros b Hb. csimpl in Hb. rewrite Ho by set_solver. apply lookup_delete_ne. set_solver.
  - intros b Hb. csimpl in Hb. destruct (decide (b ∈ l.*1)); [auto|].
    assert (b = a) as -> by set_solver. rewrite Ho by done. apply lookup_delete_eq.
Qed.

(** The size and the array of a list, as their clients use them. *)
Lemma pfnlist_array_run fuel h root l len :
  is_list h root l → (length l ≤ fuel)%nat → Z.of_nat (length l) < 2 ^ 31 →
  0 ≤ len < 2 ^ 31 →
  pfnlist_size fuel h root = Ret (Z.of_nat (length l)) ∧
  pfnlist_mkarray fuel true h root len =
    Ret (Some (take (Z.to_nat len) l.*2 ++ replicate (Z.to_nat len - length l) 0)) ∧
  pfnlist_mkarray fuel true h root (Z.of_nat (length l)) = Ret (Some l.*2).
Proof.
  intros [-> Hl] Hf Hb Hlen. split.
  { unfold pfnlist_size. rewrite size_loop_spec by (done || lia). f_equal. }
  assert (G : ∀ n, 0 ≤ n < 2 ^ 31 → pfnlist_mkarray fuel true h (head_addr l) n =
    Ret (Some (take (Z.to_nat n) l.*2 ++ replicate (Z.to_nat n - length l) 0))).
  { intros n Hn. unfold pfnlist_mkarray.
    rewrite (mkarray_loop_spec _ _ _ [] (replicate (Z.to_nat n) 0));
      [|done|done|unfold is_s32; lia|lia|rewrite length_replicate; simpl; lia].
    by rewrite length_replicate, drop_replicate. }
  split; [auto|]. rewrite G by lia.
  rewrite Nat2Z.id, Nat.sub_diag, app_nil_r, take_ge; [done|]. by rewrite length_fmap.
Qed.

(** ** Properties *)

(** C14: on a well-formed list, [pfnlist_mkunique] terminates (fuel: the length
    of the list), keeps exactly the first node of every page frame number, in
    order, leaves the list well formed from the same root, returns how many
    nodes it removed, frees exactly those and touches no other object. *)
Theorem pfnlist_mkunique_correct fuel h root l :
  is_list h root l → (length l ≤ fuel)%nat → Z.of_nat (length l) < 2 ^ 31 →
  ∃ h' l', pfnlist_mkunique fuel h root = Ret (Z.of_nat (length l - length l'), h') ∧
    l' = nub_by snd l ∧ is_list h' root l' ∧
    NoDup l'.*2 ∧ l' `sublist_of` l ∧ (∀ v, v ∈ l.*2 ↔ v ∈ l'.*2) ∧
    (∀ a, a ∉ l.*1 → h' !! a = h !! a) ∧ (∀ a, a ∈ l.*1 → a ∉ l'.*1 → h' !! a = None).
Proof.
  intros Hl Hf Hb. destruct (mkunique_run fuel h root l) as (h' & E & Hl' & _ & Ho & Hfr);
    try done. exists h', (nub_by snd l).
  split_and!; try done; [apply nub_by_NoDup|apply nub_by_sublist|].
  intros v. rewrite !list_elem_of_fmap. split.
  - intros (x & -> & Hx). destruct (nub_by_key snd l x Hx) as (y & Hy & Hk). eauto.
  - intros (x & -> & Hx%elem_of_nub_by). eauto.
Qed.

Example list_heap : gmap Z pfn_ll_node :=
  <[16 := mk_pfn_ll_node 7 32]> (<[32 := mk_pfn_ll_node 9 48]> (<[48 := mk_pfn_ll_node 7 64]>
  {[64 := mk_pfn_ll_node 7 NULL]})).

Lemma pfnlist_mkunique_correct_witness :
  ∃ h', pfnlist_mkunique 4 list_heap 16 = Ret (2, h') ∧ is_list h' 16 [(16, 7); (32, 9)] ∧
    h' !! 64 = None.
Proof.
  destruct (pfnlist_mkunique_correct 4 list_heap 16 [(16, 7); (32, 9); (48, 7); (64, 7)])
    as (h' & l' & E & -> & Hl & _ & _ & _ & _ & Hfr).
  - split; [done|]. simpl. done.
  - simpl. lia.
  - simpl. lia.
  - exists h'. split_and!; [exact E|exact Hl|]. apply Hfr; vm_compute; set_solver.
Defined.

(** [pfnlist_size] counts the nodes, and the array [pfnlist_mkarray] builds
    with any non-negative [length] holds the first [length] page frame numbers
    and zeros behind them, so with the computed size it is the list itself. *)
Theorem pfnlist_array_correct fuel h root l len :
  is_list h root l → (length l ≤ fuel)%nat → Z.of_nat (length l) < 2 ^ 31 →
  0 ≤ len < 2 ^ 31 →
  pfnlist_size fuel h root = Ret (Z.of_nat (length l)) ∧
  pfnlist_mkarray fuel true h root len =
    Ret (Some (take (Z.to_nat len) l.*2 ++ replicate (Z.to_nat len - length l) 0)) ∧
  pfnlist_mkarray fuel true h root (Z.of_nat (length l)) = Ret (Some l.*2).
Proof. apply pfnlist_array_run. Qed.

Lemma pfnlist_array_correct_witness :
  pfnlist_mkarray 4 true list_heap 16 6 = Ret (Some [7; 9; 7; 7; 0; 0]).
Proof.
  apply (pfnlist_array_correct 4 list_heap 16 [(16, 7); (32, 9); (48, 7); (64, 7)] 6).
  - split; [done|]. simpl. done.
  - simpl. lia.
  - simpl. lia.
  - lia.
Defined.

(** [free_pfn_ll] terminates, frees every node of the list and nothing
    else, and returns 0: no node is freed twice or read after it was freed. *)
Theorem free_pfn_ll_correct fuel h root l :
  is_list h root l → (length l ≤ fuel)%nat →
  ∃ h', free_pfn_ll fuel h root = Ret (0, h') ∧
    (∀ a, a ∈ l.*1 → h' !! a = None) ∧ (∀ a, a ∉ l.*1 → h' !! a = h !! a).
Proof.
  intros [-> Hl] Hf. unfold free_pfn_ll.
  destruct (free_loop_spec fuel h l Hl Hf) as (h' & -> & Ho & Hfr). simpl. eauto.
Qed.

Lemma free_pfn_ll_correct_witness :
  ∃ h', free_pfn_ll 4 list_heap 16 = Ret (0, h') ∧ h' !! 48 = None.
Proof.
  destruct (free_pfn_ll_correct 4 list_heap 16 [(16, 7); (32, 9); (48, 7); (64, 7)])
    as (h' & E & Hfr & _).
  - split; [done|]. simpl. done.
  - simpl. lia.
  - exists h'. split; [exact E|]. apply Hfr. set_solver.
Defined.
