(* ===== verification/Protocol.v ===== *)
(** * The protocol of the two drivers (malpage.h, monitor.h)

    The operation codes, the ioctl numbers, the messages of the shared ring, and
    the ring itself; the bytes of a message are in Layout.  The ring macros of
    Xen's [ring.h] are not part of this repository: they are the methods of
    the class [RingMacros], and the class [RingLaws] states of them what the
    Xen headers document and the drivers rely on. *)

From S2P Require Import Prelude.

(** ** Operation codes *)

Definition MALPAGE_RING_REPORT : Z := 1.
Definition MALPAGE_RING_NONOP : Z := 2.
Definition MALPAGE_RING_KILL : Z := 3.
Definition MALPAGE_RING_RESUME : Z := 4.
Definition MALPAGE_RING_HALT : Z := 5.
Definition MALPAGE_RING_MMUUPDATE : Z := 6.
Definition MALPAGE_RING_NX : Z := 7.
Definition MALPAGE_RING_NXVIOLATION : Z := 8.

Definition MONITOR_RING_REPORT : Z := 1.
Definition MONITOR_RING_NONOP : Z := 2.
Definition MONITOR_RING_KILL : Z := 3.
Definition MONITOR_RING_RESUME : Z := 4.
Definition MONITOR_RING_HALT : Z := 5.
Definition MONITOR_RING_MMUUPDATE : Z := 6.
Definition MONITOR_RING_NX : Z := 7.
Definition MONITOR_RING_NXVIOLATION : Z := 8.

(** ** ioctl numbers; the macros are unparenthesised sums *)

Definition MALPAGE_IOC_MAGIC : Z := 250.
Definition MALPAGE_REPORT : Z := MALPAGE_IOC_MAGIC + 1.
Definition MALPAGE_TEST : Z := MALPAGE_IOC_MAGIC + 9.
Definition MALPAGE_WATCH : Z := MALPAGE_IOC_MAGIC + 10.

Definition MONITOR_IOC_MAGIC : Z := 270.
Definition MONITOR_REPORT : Z := MONITOR_IOC_MAGIC + 1.
Definition MONITOR_REGISTER : Z := MONITOR_IOC_MAGIC + 8.
Definition MONITOR_DEREGISTER : Z := MONITOR_IOC_MAGIC + 9.
Definition MONITOR_WATCH : Z := MONITOR_IOC_MAGIC + 10.
Definition MONITOR_DUMP : Z := MONITOR_IOC_MAGIC + 11.
Definition MONITOR_RESUME : Z := MONITOR_IOC_MAGIC + 12.
Definition MONITOR_KILL : Z := MONITOR_IOC_MAGIC + 13.
Definition MONITOR_DONE_REPORT : Z := MONITOR_IOC_MAGIC + 14.

(** ** Error codes and bounds *)

Definition MALPAGE_BADCMD : Z := -10.
Definition MALPAGE_GENERALERR : Z := -9.
Definition MALPAGE_GRANTERR : Z := -12.
Definition MALPAGE_XSERR : Z := -14.
Definition MALPAGE_SYSFSERR : Z := -15.
Definition MALPAGE_GRANT_INVALID_REF : Z := 0.
Definition MALPAGE_DOM0_ID : Z := 0.
Definition MALPAGE_64_MMUPTR_TYPE_MASK : Z := 7.

Definition MONITOR_SUCCESS : Z := 0.
Definition MONITOR_BADCMD : Z := -10.
Definition MONITOR_ALLOCERR : Z := -15.
Definition MONITOR_MAX_VMS : Z := 256.
Definition MONITOR_MAX_PROCS : Z := 65536.

(** Errno values the drivers return. *)
Definition ENOMEM : Z := 12.
Definition ENODEV : Z := 19.
Definition EFAULT : Z := 14.

Definition PAGE_SHIFT : Z := 12.
Definition PAGE_SIZE : Z := 4096.

(** The page-fault error bits ([MALPAGE_PF_*]: [1 << n], unparenthesised). *)
Definition MALPAGE_PF_PROT : Z := Z.shiftl 1 0.
Definition MALPAGE_PF_WRITE : Z := Z.shiftl 1 1.
Definition MALPAGE_PF_USER : Z := Z.shiftl 1 2.
Definition MALPAGE_PF_RSVD : Z := Z.shiftl 1 3.
Definition MALPAGE_PF_INSTR : Z := Z.shiftl 1 4.

(** The kinds of [mmu_update], from xen/interface/xen.h. *)
Definition MMU_NORMAL_PT_UPDATE : Z := 0.
Definition MMU_MACHPHYS_UPDATE : Z := 1.
Definition MMU_PT_UPDATE_PRESERVE_AD : Z := 2.

(** ** Messages *)

(** [struct request_t] of malpage.h.  [struct response_t] and the two structs
    of monitor.h have the same fields at the same offsets (see Layout), and a
    ring slot is the union of a request and a
    response, so one record serves for all of them.  The [report] member, which
    neither driver reads or writes, is left out. *)
Record message : Type := mk_message {
  operation : Z;
  pfn_gref : Z;
  msg_pfn : Z;
  process_id : Z;
  domid : Z;
  mmu_ptr : Z;
  fault_addr : Z;
  mmu_val : Z
}.

(** The indices of the shared page and its slots. *)
Record sring : Type := mk_sring {
  req_prod : Z;
  req_event : Z;
  rsp_prod : Z;
  rsp_event : Z;
  ring : gmap Z message
}.

(** [struct as_front_ring]; [front_sring] is the pointer [fring.sring]. *)
Record as_front_ring : Type := mk_as_front_ring {
  req_prod_pvt : Z;
  rsp_cons : Z;
  front_sring : Z
}.

(** [struct as_back_ring]; [back_sring] is the pointer [bring.sring]. *)
Record as_back_ring : Type := mk_as_back_ring {
  rsp_prod_pvt : Z;
  req_cons : Z;
  back_sring : Z
}.

(** The contents of slot [i]; a slot never written reads as zeros. *)
Definition zero_message : message := mk_message 0 0 0 0 0 0 0 0.
Definition slot (s : sring) (i : Z) : message := default zero_message (ring s !! i).
Definition set_slot (s : sring) (i : Z) (m : message) : sring :=
  mk_sring (req_prod s) (req_event s) (rsp_prod s) (rsp_event s) (<[i := m]> (ring s)).

(** ** The ring macros *)

Class RingMacros : Type := {
  (** entries of the ring *)
  RING_SIZE : Z;
  (** the slot [RING_GET_REQUEST] and [RING_GET_RESPONSE] return for an index *)
  ring_slot : Z → Z;
  RING_PUSH_REQUESTS : as_front_ring → sring → sring;
  RING_PUSH_RESPONSES : as_back_ring → sring → sring;
  (** whether to notify, and the shared page after it *)
  RING_PUSH_RESPONSES_AND_CHECK_NOTIFY : as_back_ring → sring → bool * sring;
  (** the macro's [_work_to_do] and the shared page after it *)
  RING_FINAL_CHECK_FOR_RESPONSES : as_front_ring → sring → bool * sring;
  RING_REQUEST_CONS_OVERFLOW : as_back_ring → Z → bool;
  SHARED_RING_INIT : sring → sring;
  FRONT_RING_INIT : Z → as_front_ring;
  BACK_RING_INIT : Z → as_back_ring
}.

Class RingLaws `{RingMacros} : Prop := {
  RING_SIZE_pos : 0 < RING_SIZE;
  (** the size is a power of two, so the free-running 32-bit index wraps well *)
  RING_SIZE_pow2 : ∃ k, 0 ≤ k < 32 ∧ RING_SIZE = 2 ^ k;
  (** slots are chosen by the index modulo the size *)
  ring_slot_mod : ∀ i, ring_slot i = ring_slot (i mod RING_SIZE);
  ring_slot_inj : ∀ i j, 0 ≤ i < RING_SIZE → 0 ≤ j < RING_SIZE →
    ring_slot i = ring_slot j → i = j;
  (** pushing publishes the private producer index and nothing else *)
  RING_PUSH_REQUESTS_law : ∀ f s, RING_PUSH_REQUESTS f s =
    mk_sring (req_prod_pvt f) (req_event s) (rsp_prod s) (rsp_event s) (ring s);
  RING_PUSH_RESPONSES_law : ∀ b s, RING_PUSH_RESPONSES b s =
    mk_sring (req_prod s) (req_event s) (rsp_prod_pvt b) (rsp_event s) (ring s);
  RING_PUSH_RESPONSES_AND_CHECK_NOTIFY_law : ∀ b s,
    (RING_PUSH_RESPONSES_AND_CHECK_NOTIFY b s).2 = RING_PUSH_RESPONSES b s;
  (** "are there responses left?"; if not, ask for an event at the next one *)
  RING_FINAL_CHECK_FOR_RESPONSES_law : ∀ f s, RING_FINAL_CHECK_FOR_RESPONSES f s =
    if decide (u32 (rsp_prod s - rsp_cons f) = 0)
    then (false, mk_sring (req_prod s) (req_event s) (rsp_prod s) (u32 (rsp_cons f + 1)) (ring s))
    else (true, s);
  (** more requests in flight than the ring has entries *)
  RING_REQUEST_CONS_OVERFLOW_law : ∀ b cons,
    RING_REQUEST_CONS_OVERFLOW b cons = bool_decide (RING_SIZE ≤ u32 (cons - rsp_prod_pvt b));
  (** a fresh ring is empty *)
  FRONT_RING_INIT_law : ∀ p, FRONT_RING_INIT p = mk_as_front_ring 0 0 p;
  BACK_RING_INIT_law : ∀ p, BACK_RING_INIT p = mk_as_back_ring 0 0 p;
  SHARED_RING_INIT_law : ∀ s, SHARED_RING_INIT s = mk_sring 0 1 0 1 (ring s)
}.

(** ** A concrete ring, to instantiate the class *)

(** Requests and responses of 88 bytes leave room for 45 slots in a page;
    the ring takes the power of two below. *)
Definition ring32 : RingMacros := {|
  RING_SIZE := 32;
  ring_slot i := Z.land i 31;
  RING_PUSH_REQUESTS f s := mk_sring (req_prod_pvt f) (req_event s) (rsp_prod s) (rsp_event s) (ring s);
  RING_PUSH_RESPONSES b s := mk_sring (req_prod s) (req_event s) (rsp_prod_pvt b) (rsp_event s) (ring s);
  RING_PUSH_RESPONSES_AND_CHECK_NOTIFY b s :=
    (bool_decide (u32 (rsp_prod_pvt b - rsp_event s) < u32 (rsp_prod_pvt b - rsp_prod s)),
     mk_sring (req_prod s) (req_event s) (rsp_prod_pvt b) (rsp_event s) (ring s));
  RING_FINAL_CHECK_FOR_RESPONSES f s :=
    if decide (u32 (rsp_prod s - rsp_cons f) = 0)
    then (false, mk_sring (req_prod s) (req_event s) (rsp_prod s) (u32 (rsp_cons f + 1)) (ring s))
    else (true, s);
  RING_REQUEST_CONS_OVERFLOW b cons := bool_decide (32 ≤ u32 (cons - rsp_prod_pvt b));
  SHARED_RING_INIT s := mk_sring 0 1 0 1 (ring s);
  FRONT_RING_INIT p := mk_as_front_ring 0 0 p;
  BACK_RING_INIT p := mk_as_back_ring 0 0 p
|}.

(** ** Lemmas *)

#[export] Instance ring32_laws : @RingLaws ring32.
Proof.
  split; simpl; try done.
  - exists 5. lia.
  - intros i. change 31 with (Z.ones 5). rewrite !Z.land_ones by lia.
    change (2 ^ 5) with 32. by rewrite Z.mod_mod.
  - intros i j Hi Hj. change 31 with (Z.ones 5). rewrite !Z.land_ones by lia.
    rewrite !Z.mod_small by lia. done.
Qed.

Section laws.
  Context `{HR : RingLaws}.

Lemma ring_slot_eq i j : ring_slot i = ring_slot j ↔ i mod RING_SIZE = j mod RING_SIZE.
Proof.
  pose proof RING_SIZE_pos. rewrite (ring_slot_mod i), (ring_slot_mod j). split; [|by intros ->].
  intros E. by apply ring_slot_inj in E; [|apply Z.mod_pos_bound..].
Qed.

Lemma u32_mod_ring i : u32 i mod RING_SIZE = i mod RING_SIZE.
Proof.
  destruct RING_SIZE_pow2 as (k & Hk & ->). unfold u32.
  replace (2 ^ 32) with (2 ^ k * 2 ^ (32 - k)) by (rewrite <-Z.pow_add_r by lia; f_equal; lia).
  rewrite Z.rem_mul_r by lia. rewrite Z.mul_comm, Z.mod_add by lia.
  by rewrite Z.mod_mod by lia.
Qed.

Lemma ring_slot_u32 i : ring_slot (u32 i) = ring_slot i.
Proof. apply ring_slot_eq, u32_mod_ring. Qed.

(** Two indices less than a ring apart have different slots. *)
Lemma ring_slot_ne i d : 0 < d < RING_SIZE → ring_slot (i + d) ≠ ring_slot i.
Proof.
  intros Hd E. apply ring_slot_eq in E.
  assert (d mod RING_SIZE = 0) as Hz.
  { replace d with ((i + d) - i) by lia. rewrite Zminus_mod, E, Z.sub_diag. by apply Z.mod_0_l; lia. }
  rewrite Z.mod_small in Hz by lia. lia.
Qed.

(** A batch of slots is its first and the rest, across the wrap. *)
Lemma batch_cons s rc (n : nat) :
  (λ k, slot s (ring_slot (rc + k))) <$> seqZ 0 (Z.of_nat (S n)) =
  slot s (ring_slot rc) :: ((λ k, slot s (ring_slot (u32 (rc + 1) + k))) <$> seqZ 0 (Z.of_nat n)).
Proof.
  rewrite seqZ_cons by lia. simpl. rewrite Z.add_0_r. f_equal.
  replace (Z.pred (Z.of_nat (S n))) with (Z.of_nat n) by lia.
  change (Z.succ 0) with (1 + 0). rewrite <-fmap_add_seqZ, <-list_fmap_compose.
  apply list_fmap_ext. intros _ k _. simpl. f_equal.
  rewrite <-(ring_slot_u32 (rc + _)), <-(ring_slot_u32 (u32 _ + _)), u32_add_l.
  do 2 f_equal. lia.
Qed.

End laws.

Lemma slot_set_eq s i m : slot (set_slot s i m) i = m.
Proof. unfold slot, set_slot. simpl. by rewrite lookup_insert_eq. Qed.

Lemma slot_set_ne s i j m : i ≠ j → slot (set_slot s i m) j = slot s j.
Proof. intros. unfold slot, set_slot. simpl. by rewrite lookup_insert_ne. Qed.

#[export] Hint Rewrite slot_set_eq : mait.
#[export] Hint Rewrite @ring_slot_u32 using typeclasses eauto : mait.
