(* ===== verification/KernelText.v ===== *)
(** * Kernel text buffers: [sprintf], [simple_strtoul], heap blocks

    What the drivers use of the C library to build XenStore paths: the
    conversion [%u]/[%lu], its inverse [simple_strtoul], and the [sprintf]
    into a block of the heap, which is an error when the block is too small.
    How many bytes of a block may really be used is up to the allocator. *)

From S2P Require Import Prelude.


(** ** Decimal numbers *)

Definition slen (s : string) : Z := Z.of_nat (String.length s).

Definition digit (d : Z) : Ascii.ascii := Ascii.ascii_of_N (Z.to_N (48 + d)).

(** The digits of [n] in front of [acc], least significant first. *)
Fixpoint number (fuel : nat) (n : Z) (acc : string) : string :=
  match fuel with
  | O => acc
  | S f =>
      let acc' := String (digit (n mod 10)) acc in
      if decide (n / 10 = 0) then acc' else number f (n / 10) acc'
  end.

(** [%u] and [%lu] of an unsigned number; 20 digits are enough for 64 bits. *)
Definition format_u (n : Z) : string := number 20 n EmptyString.

(** [%d] *)
Definition format_d (n : Z) : string := if decide (n < 0) then "-" +:+ format_u (- n) else format_u n.

(** [simple_strtoul(s, NULL, 10)]: stops at the first character that is no
    digit, wraps silently. *)
Fixpoint strtoul_from (acc : Z) (s : string) : Z :=
  match s with
  | EmptyString => acc
  | String c s' =>
      let d := Z.of_N (Ascii.N_of_ascii c) in
      if decide (48 <= d <= 57) then strtoul_from (u64 (acc * 10 + (d - 48))) s' else acc
  end.
Definition simple_strtoul (s : string) : Z := strtoul_from 0 s.

(** ** Blocks of the heap *)

(** The allocator: [kmalloc_size n] is the number of bytes that can be used
    behind the pointer [kzalloc(n)] returns, nothing when it returns null. *)
Class Allocator : Type := { kmalloc_size : Z → option Z }.

Class AllocatorLaws `{Allocator} : Prop := {
  kmalloc_size_ge : ∀ n k, kmalloc_size n = Some k → n ≤ k
}.

(** The size classes of the slab allocator for small blocks, as its
    documentation gives them: 8, 16, 32 (there is no class of 24). *)
Class SlabClasses `{Allocator} : Prop := {
  slab_8 : ∀ n, 0 < n ≤ 8 → kmalloc_size n = Some 8;
  slab_16 : ∀ n, 8 < n ≤ 16 → kmalloc_size n = Some 16;
  slab_32 : ∀ n, 16 < n ≤ 32 → kmalloc_size n = Some 32
}.

(** [sprintf(p, ...)] of the text [s] into a block [kzalloc(n)]: the text, and
    the terminating zero, must fit. *)
Definition sprintf `{Allocator} (n : Z) (s : string) : outcome string :=
  match kmalloc_size n with
  | None => Err NullDeref
  | Some k => if decide (slen s + 1 ≤ k) then Ret s else Err OutOfBounds
  end.

(** The text [s] fits a block of [n] bytes. *)
Definition fits `{Allocator} (n : Z) (s : string) : Prop :=
  ∃ k, kmalloc_size n = Some k ∧ slen s + 1 ≤ k.

(** A slab allocator with memory. *)
Definition slab : Allocator := {|
  kmalloc_size n :=
    if decide (n ≤ 8) then Some 8
    else if decide (n ≤ 16) then Some 16
    else if decide (n ≤ 32) then Some 32
    else Some n
|}.

#[global] Arguments format_u : simpl never.
#[global] Arguments simple_strtoul : simpl never.
#[global] Arguments slen : simpl never.
#[global] Arguments sprintf : simpl never.

(** ** Lemmas *)

#[export] Instance slab_classes : @SlabClasses slab.
Proof. split; intros n Hn; simpl; repeat case_decide; try done; lia. Qed.

#[export] Instance slab_laws : @AllocatorLaws slab.
Proof. split. intros n k; simpl. repeat case_decide; intros [= <-]; lia. Qed.

Lemma digit_value d : 0 ≤ d < 10 → Z.of_N (Ascii.N_of_ascii (digit d)) = 48 + d.
Proof.
  intros Hd. unfold digit. rewrite Ascii.N_ascii_embedding by lia. lia.
Qed.

Lemma strtoul_number fuel n acc :
  0 ≤ n < 10 ^ Z.of_nat fuel → is_u64 n →
  strtoul_from 0 (number fuel n acc) = strtoul_from n acc.
Proof.
  revert n acc. induction fuel as [|f IH]; intros n acc Hn Hu.
  - simpl. f_equal. simpl in Hn. lia.
  - simpl. assert (Hd : 0 ≤ n mod 10 < 10) by (apply Z.mod_pos_bound; lia).
    assert (Hstep : ∀ a, strtoul_from a (String (digit (n mod 10)) acc) =
      strtoul_from (u64 (a * 10 + n mod 10)) acc).
    { intros a. simpl. rewrite digit_value by done. rewrite decide_True by lia. do 2 f_equal. lia. }
    destruct (decide (n / 10 = 0)) as [E|E].
    + rewrite Hstep. f_equal. rewrite u64_small; [|split; [lia|]]; Z.div_mod_to_equations; lia.
    + rewrite IH, Hstep.
      * f_equal. rewrite Z.mul_comm, <-Z.div_mod by lia. by apply u64_small.
      * rewrite Nat2Z.inj_succ, Z.pow_succ_r in Hn by lia.
        split; [apply Z.div_pos; lia|apply Z.div_lt_upper_bound; lia].
      * unfold is_u64 in *. Z.div_mod_to_equations. lia.
Qed.

Lemma strtoul_format n : is_u64 n → simple_strtoul (format_u n) = n.
Proof.
  intros Hn. unfold simple_strtoul, format_u. rewrite strtoul_number; [done| |done].
  unfold is_u64 in Hn. change (Z.of_nat 20) with 20. lia.
Qed.

Lemma slen_app s1 s2 : slen (s1 +:+ s2) = slen s1 + slen s2.
Proof.
  unfold slen. assert (String.length (s1 +:+ s2) = (String.length s1 + String.length s2)%nat); [|lia].
  induction s1 as [|c s1 IH]; [done|]. simpl in *. by rewrite <-IH.
Qed.

(** [n] has [k] digits. *)
Lemma number_length fuel k n acc :
  (1 ≤ k ≤ fuel)%nat → 0 ≤ n < 10 ^ Z.of_nat k → (k = 1%nat ∨ 10 ^ Z.of_nat (k - 1) ≤ n) →
  String.length (number fuel n acc) = (k + String.length acc)%nat.
Proof.
  revert k n acc. induction fuel as [|f IH]; intros k n acc Hk Hn Hlo; [lia|]. simpl.
  destruct k as [|[|k]]; [lia| |].
  - rewrite decide_True by (apply Z.div_small; simpl in Hn; lia). done.
  - destruct Hlo as [|Hlo]; [done|]. replace (S (S k) - 1)%nat with (S k) in Hlo by lia.
    rewrite Nat2Z.inj_succ, Z.pow_succ_r in Hn by lia.
    assert (10 ≤ n).
    { rewrite Nat2Z.inj_succ, Z.pow_succ_r in Hlo by lia.
      pose proof (Z.pow_pos_nonneg 10 (Z.of_nat k)). lia. }
    rewrite decide_False by (Z.div_mod_to_equations; lia).
    rewrite (IH (S k)); [simpl; lia|lia| |].
    + split; [apply Z.div_pos; lia|apply Z.div_lt_upper_bound; lia].
    + destruct k as [|k]; [by left|right]. apply Z.div_le_lower_bound; [lia|].
      rewrite <-Z.pow_succ_r by lia. replace (Z.succ (Z.of_nat (S (S k) - 1))) with (Z.of_nat (S (S k))) by lia.
      done.
Qed.

Lemma format_u_slen k n :
  1 ≤ k ≤ 20 → 0 ≤ n < 10 ^ k → (k = 1 ∨ 10 ^ (k - 1) ≤ n) → slen (format_u n) = k.
Proof.
  intros Hk Hn Hlo. unfold slen, format_u.
  rewrite (number_length 20 (Z.to_nat k)); [simpl; lia|lia| |].
  - by rewrite Z2Nat.id by lia.
  - destruct Hlo as [->|]; [by left|right]. by replace (Z.of_nat (Z.to_nat k - 1)) with (k - 1) by lia.
Qed.

(** The number of digits is monotone: at most [k] below [10 ^ k]. *)
Lemma format_u_slen_le k n : 1 ≤ k ≤ 20 → 0 ≤ n < 10 ^ k → 1 ≤ slen (format_u n) ≤ k.
Proof.
  intros Hk Hn. assert (∃ j, 1 ≤ j ≤ k ∧ n < 10 ^ j ∧ (j = 1 ∨ 10 ^ (j - 1) ≤ n)) as (j & Hj & Hlt & Hlo).
  { destruct Hk as [Hk1 Hk2]. revert Hk2 Hn. pattern k. apply Zlt_lower_bound_ind with 1; [|lia].
    intros x IH Hx Hx2 Hn. destruct (decide (x = 1)) as [->|Hx1]; [exists 1; lia|].
    destruct (decide (n < 10 ^ (x - 1))) as [Hs|Hs].
    - destruct (IH (x - 1)) as (j & ? & ? & ?); [lia|lia|lia|]. exists j. split; [lia|done].
    - exists x. split; [lia|]. split; [lia|]. right. lia. }
  rewrite (format_u_slen j); [lia|lia|lia|done].
Qed.

Section sprintf.
  Context `{Allocator}.

Lemma sprintf_fits n s : fits n s → sprintf n s = Ret s.
Proof. intros (k & E & Hk). unfold sprintf. rewrite E. by rewrite decide_True. Qed.

Lemma sprintf_overflow n s k : kmalloc_size n = Some k → k < slen s + 1 → sprintf n s = Err OutOfBounds.
Proof. intros E Hk. unfold sprintf. rewrite E. by rewrite decide_False by lia. Qed.

End sprintf.
