(* ===== verification/PageWalk.v ===== *)
(** * Walking a process's memory (drivers/xen/malpage/malpage.c)

    [addr_to_mfn], the two enumerations of a process's machine frames
    ([pfnlist_vmarea] by memory region, [pfnlist] by page table) and the two
    address translations.  The page-table accessors of the kernel are not part
    of the repository: they are the methods of the class [PageTable].  The
    local variables the C code reads before writing them are arguments. *)

From S2P Require Import Prelude PfnList Protocol.

(** ** Data *)

(** The members of [vm_area_struct] a region scan reads. *)
Record vm_bounds : Type := mk_vm_bounds { vm_start : Z; vm_end : Z; vm_flags : Z }.

(** [struct vm_area_struct]: [anon_vma_node] tells whether the list head is
    non-empty, [anon_vma] is the regions on [anon_vma->head], or null. *)
Record vm_area_struct : Type := mk_vm_area_struct {
  vma_bounds : vm_bounds;
  anon_vma_node : bool;
  anon_vma : option (list vm_bounds)
}.

(** [struct mm_struct]; [mmap] is the list of regions linked by [vm_next]. *)
Record mm_struct : Type := mk_mm_struct {
  map_count : Z;
  mmap : list vm_area_struct;
  pgd : Z
}.

(** [struct task_struct]. *)
Record task_struct : Type := mk_task_struct { task_pid : Z; mm : option mm_struct }.

Definition VM_WRITE : Z := 2.

(** What the scans do with locks, in order. *)
Inductive lock_event : Type :=
  | DownRead_mmap_sem | UpRead_mmap_sem
  | SpinLock_page_table | SpinUnlock_page_table
  | AnonLock | AnonUnlock.

#[export] Instance lock_event_eq_dec : EqDecision lock_event.
Proof. solve_decision. Defined.

(** The kernel's page-table accessors: pointers and entries are words, [deref]
    reads the entry at a pointer. *)
Class PageTable : Type := {
  deref : Z → Z;
  pgd_offset : mm_struct → Z → Z;
  pud_offset : Z → Z → Z;
  pmd_offset : Z → Z → Z;
  pte_offset_kernel : Z → Z → Z;
  pgd_none : Z → bool;
  pud_none : Z → bool;
  pmd_none : Z → bool;
  pte_none : Z → bool;
  pte_present : Z → bool;
  pte_mfn : Z → Z;
  (** used by the full scan only *)
  pgd_present : Z → bool; pgd_bad : Z → bool;
  pud_present : Z → bool; pud_bad : Z → bool;
  pmd_present : Z → bool; pmd_bad : Z → bool;
  pte_file : Z → bool;
  pgd_page_vaddr : Z → Z;
  pud_page_vaddr : Z → Z;
  pmd_page_vaddr : Z → Z;
  pte_pfn : Z → Z;
  pfn_to_mfn : Z → Z;
  PTRS_PER_PGD : nat; PTRS_PER_PUD : nat; PTRS_PER_PMD : nat; PTRS_PER_PTE : nat
}.

Section walk.
  Context `{PageTable}.
  (** [kzalloc]: the address of a new zeroed node, or null. *)
  Context (kzalloc : gmap Z pfn_ll_node → Z).

(** ** Operations *)

(** [static unsigned long addr_to_mfn(struct mm_struct *mm, unsigned long addr)] *)
Definition addr_to_mfn (mm : mm_struct) (addr : Z) : Z :=
  let pgd := pgd_offset mm addr in
  if pgd_none (deref pgd) then 0 else
  let pud := pud_offset pgd addr in
  if pud_none (deref pud) then 0 else
  let pmd := pmd_offset pud addr in
  if pmd_none (deref pmd) then 0 else
  let pte := pte_offset_kernel pmd addr in
  if decide (pte = NULL) then 0 else
  if (negb (pte_present (deref pte)) || pte_none (deref pte))%bool then 0 else
  pte_mfn (deref pte).

(** The state of a scan: the heap, [pfn_root], [pfn_tail] (the full scan calls
    it [tmp_pfn_root]) and the lock operations so far, oldest first. *)
Record build : Type := mk_build {
  b_heap : gmap Z pfn_ll_node;
  pfn_root : Z;
  pfn_tail : Z;
  b_locks : list lock_event
}.

Definition log_locks (ls : list lock_event) (b : build) : build :=
  mk_build (b_heap b) (pfn_root b) (pfn_tail b) (b_locks b ++ ls).

(** [tmp_pfn = kzalloc(...); tmp_pfn->pfn = new_mfn; if (pfn_root == NULL)
    ... else ...] *)
Definition append_pfn (b : build) (new_mfn : Z) : outcome build :=
  let tmp_pfn := kzalloc (b_heap b) in
  let h0 := if decide (tmp_pfn = NULL) then b_heap b
            else <[tmp_pfn := mk_pfn_ll_node 0 NULL]> (b_heap b) in
  h1 ← store_pfn h0 tmp_pfn new_mfn;
  if decide (pfn_root b = NULL) then Ret (mk_build h1 tmp_pfn tmp_pfn (b_locks b))
  else
    h2 ← store_next h1 (pfn_tail b) tmp_pfn;
    h3 ← store_next h2 tmp_pfn NULL;
    Ret (mk_build h3 (pfn_root b) tmp_pfn (b_locks b)).

(** [while(length >= 0) { ... }]: from [vm_end - length] up to [vm_end] in
    steps of half a page; [length] is a signed long. *)
Fixpoint scan_region (fuel : nat) (m : mm_struct) (vm_end length : Z) (b : build)
    : outcome build :=
  if decide (0 ≤ length) then
    match fuel with
    | O => Err OutOfFuel
    | S n =>
        let new_mfn := addr_to_mfn m (u64 (vm_end - length)) in
        b' ← (if decide (0 < new_mfn) then append_pfn b new_mfn else Ret b);
        if decide (length ≤ 0) then Ret b'
        else
          let length1 := s64 (length - PAGE_SIZE / 2) in
          let length2 := if decide (length1 < 0) then 0 else length1 in
          scan_region n m vm_end length2 b'
    end
  else Ret b.

(** The scan of one region: [length = vm_end - vm_start], then the loop. *)
Definition scan_bounds (fuel : nat) (m : mm_struct) (v : vm_bounds) (b : build)
    : outcome build :=
  scan_region fuel m (vm_end v) (s64 (u64 (vm_end v - vm_start v))) b.

(** [list_for_each_entry(current_anon_vma, &current_vma->anon_vma->head, ...)]:
    the regions that are not writable are skipped. *)
Fixpoint scan_anon (fuel : nat) (m : mm_struct) (vs : list vm_bounds) (b : build)
    : outcome build :=
  match vs with
  | [] => Ret b
  | v :: vs' =>
      if decide (Z.land (vm_flags v) VM_WRITE = 0) then scan_anon fuel m vs' b
      else b' ← scan_bounds fuel m v b; scan_anon fuel m vs' b'
  end.

(** One turn of the [do ... while] of [pfnlist_vmarea] on [current_vma]. *)
Definition scan_vma (fuel : nat) (m : mm_struct) (anon : bool) (v : vm_area_struct) (b : build)
    : outcome build :=
  b' ← scan_bounds fuel m (vma_bounds v) b;
  if anon then
    let b1 := log_locks [AnonLock] b' in
    b2 ← match anon_vma_node v, anon_vma v with
         | true, Some vs => scan_anon fuel m vs b1
         | _, _ => Ret b1
         end;
    Ret (log_locks [AnonUnlock] b2)
  else Ret b'.

(** The [do ... while(current_vma && vma_count < vma_total)]: the first turn
    dereferences [current_vma] without a test. *)
Fixpoint scan_vmas (fuel : nat) (m : mm_struct) (anon : bool) (vs : list vm_area_struct)
    (vma_count : Z) (b : build) : outcome build :=
  match vs with
  | [] => Err NullDeref
  | v :: vs' =>
      b' ← scan_vma fuel m anon v b;
      let vma_count' := s32 (vma_count + 1) in
      match vs' with
      | [] => Ret b'
      | _ :: _ =>
          if decide (vma_count' < map_count m) then scan_vmas fuel m anon vs' vma_count' b'
          else Ret b'
      end
  end.

(** [static pfn_ll_node* pfnlist_vmarea(struct task_struct *task, int
    duplicates, int anon)]: [root0] and [tail0] are the contents of the
    uninitialised locals [pfn_root] and [pfn_tail]. *)
Definition pfnlist_vmarea (fuel : nat) (h : gmap Z pfn_ll_node) (root0 tail0 : Z)
    (task : task_struct) (duplicates anon : bool)
    : outcome (Z * gmap Z pfn_ll_node * list lock_event) :=
  m ← of_option NullDeref (mm task);
  b ← scan_vmas fuel m anon (mmap m) 0
        (mk_build h root0 tail0 [DownRead_mmap_sem; SpinLock_page_table]);
  let locks := b_locks b ++ [SpinUnlock_page_table; UpRead_mmap_sem] in
  if duplicates then
    r ← pfnlist_mkunique fuel (b_heap b) (pfn_root b);
    Ret (pfn_root b, r.2, locks)
  else Ret (pfn_root b, b_heap b, locks).

(** *** The full page-table scan *)

(** The [i]-th entry of a table: [table[i]], entries are 8 bytes. *)
Definition entry (table : Z) (i : nat) : Z := deref (table + 8 * Z.of_nat i).

(** The innermost loop: the present entries of a page table, as machine
    frames; a zero frame is skipped, every other one is appended.  The list
    keeps its own flag [root_exists] besides [pfn_root]. *)
Definition append_full (rb : bool * build) (tmp : Z) : outcome (bool * build) :=
  let '(root_exists, b) := rb in
  let node := kzalloc (b_heap b) in
  let h0 := if decide (node = NULL) then b_heap b
            else <[node := mk_pfn_ll_node 0 NULL]> (b_heap b) in
  h1 ← store_pfn h0 node tmp;
  h2 ← store_next h1 node NULL;
  if root_exists then
    h3 ← store_next h2 (pfn_tail b) node;
    Ret (true, mk_build h3 (pfn_root b) node (b_locks b))
  else Ret (true, mk_build h2 node node (b_locks b)).

(** [for(pte_count = 0; pte_count < end_pte && list_ptet; pte_count++)], from
    index [i], [n] entries left. *)
Fixpoint scan_pte (n i : nat) (ptet : Z) (rb : bool * build) : outcome (bool * build) :=
  match n with
  | O => Ret rb
  | S n' =>
      if decide (ptet = NULL) then Ret rb else
      let e := entry ptet i in
      if (negb (pte_present e) || pte_file e)%bool then scan_pte n' (S i) ptet rb
      else
        let tmp := pfn_to_mfn (pte_pfn e) in
        if decide (tmp = 0) then scan_pte n' (S i) ptet rb
        else rb' ← append_full rb tmp; scan_pte n' (S i) ptet rb'
  end.

Fixpoint scan_pmd (n i : nat) (pmdt : Z) (rb : bool * build) : outcome (bool * build) :=
  match n with
  | O => Ret rb
  | S n' =>
      if decide (pmdt = NULL) then Ret rb else
      let e := entry pmdt i in
      if (negb (pmd_present e) || pmd_none e || pmd_bad e)%bool then scan_pmd n' (S i) pmdt rb
      else
        rb' ← scan_pte PTRS_PER_PTE 0 (pmd_page_vaddr e) rb;
        scan_pmd n' (S i) pmdt rb'
  end.

Fixpoint scan_pud (n i : nat) (pudt : Z) (rb : bool * build) : outcome (bool * build) :=
  match n with
  | O => Ret rb
  | S n' =>
      if decide (pudt = NULL) then Ret rb else
      let e := entry pudt i in
      if (negb (pud_present e) || pud_none e || pud_bad e)%bool then scan_pud n' (S i) pudt rb
      else
        rb' ← scan_pmd PTRS_PER_PMD 0 (pud_page_vaddr e) rb;
        scan_pud n' (S i) pudt rb'
  end.

Fixpoint scan_pgd (n i : nat) (pgdt : Z) (rb : bool * build) : outcome (bool * build) :=
  match n with
  | O => Ret rb
  | S n' =>
      if decide (pgdt = NULL) then Ret rb else
      let e := entry pgdt i in
      if (negb (pgd_present e) || pgd_none e || pgd_bad e)%bool then scan_pgd n' (S i) pgdt rb
      else
        rb' ← scan_pud PTRS_PER_PUD 0 (pgd_page_vaddr e) rb;
        scan_pgd n' (S i) pgdt rb'
  end.

(** [static pfn_ll_node* pfnlist(struct task_struct *task, int uniq)]: the
    result pointer, or [MALPAGE_GENERALERR] cast to a pointer; [task->mm] is
    dereferenced before it is tested. *)
Definition pfnlist (fuel : nat) (h : gmap Z pfn_ll_node) (root0 tail0 : Z)
    (task : task_struct) (uniq : Z) : outcome (Z * gmap Z pfn_ll_node * list lock_event) :=
  m ← of_option NullDeref (mm task);
  if decide (pgd m = NULL) then Ret (u64 MALPAGE_GENERALERR, h, []) else
  rb ← scan_pgd PTRS_PER_PGD 0 (pgd m)
         (false, mk_build h root0 tail0 [SpinLock_page_table; DownRead_mmap_sem]);
  let b := rb.2 in
  let locks := b_locks b ++ [SpinUnlock_page_table; UpRead_mmap_sem] in
  if decide (0 < uniq) then
    r ← pfnlist_mkunique fuel (b_heap b) (pfn_root b);
    Ret (pfn_root b, r.2, locks)
  else Ret (pfn_root b, b_heap b, locks).

(** ** The reference enumerations *)

(** The addresses a region scan of [length] bytes visits. *)
Definition addrs_from (vm_end length : Z) : list Z :=
  ((λ i, vm_end - length + PAGE_SIZE / 2 * i) <$> seqZ 0 ((length + 2047) / 2048)) ++ [vm_end].

Definition region_addrs (v : vm_bounds) : list Z := addrs_from (vm_end v) (vm_end v - vm_start v).

Definition vma_addrs (anon : bool) (v : vm_area_struct) : list Z :=
  region_addrs (vma_bounds v) ++
  match anon, anon_vma_node v, anon_vma v with
  | true, true, Some vs =>
      concat (region_addrs <$> filter (λ w, Z.land (vm_flags w) VM_WRITE ≠ 0) vs)
  | _, _, _ => []
  end.

(** The frames behind a list of addresses, those that are not mapped left out. *)
Definition mfns_of (m : mm_struct) (addrs : list Z) : list Z :=
  filter (λ f, 0 < f) (addr_to_mfn m <$> addrs).

(** A region the scans handle without wrap-around; [fuel] pays for its loop. *)
Definition region_ok (fuel : nat) (v : vm_bounds) : Prop :=
  0 ≤ vm_start v ≤ vm_end v ∧ vm_end v < 2 ^ 62 ∧
  (vm_end v - vm_start v + 2047) / 2048 < Z.of_nat fuel.

Definition vma_ok (fuel : nat) (v : vm_area_struct) : Prop :=
  region_ok fuel (vma_bounds v) ∧
  match anon_vma v with Some vs => Forall (region_ok fuel) vs | None => True end.

(** The entries of a table of [n] entries, none of a null table. *)
Definition table_entries (n : nat) (table : Z) : list Z :=
  if decide (table = NULL) then [] else entry table <$> seq 0 n.

(** The frames of every valid entry, level by level. *)
Definition pte_frames (ptet : Z) : list Z :=
  filter (λ f, f ≠ 0) ((λ e, pfn_to_mfn (pte_pfn e)) <$>
    filter (λ e, pte_present e = true ∧ pte_file e = false) (table_entries PTRS_PER_PTE ptet)).
Definition pmd_frames (pmdt : Z) : list Z :=
  concat ((λ e, pte_frames (pmd_page_vaddr e)) <$>
    filter (λ e, pmd_present e = true ∧ pmd_none e = false ∧ pmd_bad e = false)
      (table_entries PTRS_PER_PMD pmdt)).
Definition pud_frames (pudt : Z) : list Z :=
  concat ((λ e, pmd_frames (pud_page_vaddr e)) <$>
    filter (λ e, pud_present e = true ∧ pud_none e = false ∧ pud_bad e = false)
      (table_entries PTRS_PER_PUD pudt)).
Definition pgd_frames (pgdt : Z) : list Z :=
  concat ((λ e, pud_frames (pgd_page_vaddr e)) <$>
    filter (λ e, pgd_present e = true ∧ pgd_none e = false ∧ pgd_bad e = false)
      (table_entries PTRS_PER_PGD pgdt)).

(** ** Building a list at its tail *)

(** [b] holds the list [l] it has built so far. *)
Definition builds (b : build) (l : list (Z * Z)) : Prop :=
  linked (b_heap b) l ∧ pfn_root b = head_addr l ∧
  (l ≠ [] → pfn_tail b = last_addr NULL l).

End walk.

Lemma linked_snoc h l q w a v :
  linked h (l ++ [(q, w)]) → h !! a = None → a ≠ NULL →
  linked (<[a := mk_pfn_ll_node v NULL]> (<[q := mk_pfn_ll_node w a]> h))
    (l ++ [(q, w); (a, v)]).
Proof.
  intros Hl Ha Hn. pose proof (linked_NoDup _ _ Hl) as Hnd.
  induction l as [|[c u] l IH]; csimpl in *.
  - destruct Hl as (? & Hq & _). assert (a ≠ q) by congruence.
    split_and!; [done| |done|by rewrite lookup_insert_eq|done].
    rewrite lookup_insert_ne, lookup_insert_eq by done. done.
  - destruct Hl as (? & Hc & Hl). apply NoDup_cons in Hnd as [Hcn Hnd].
    rewrite fmap_app in Hcn. csimpl in *. split_and!; [done| |by apply IH].
    assert (a ≠ c) by congruence. rewrite !lookup_insert_ne by set_solver.
    rewrite Hc. by destruct l as [|[]].
Qed.

Section build.
  Context `{PT : PageTable}.
  Context (kzalloc : gmap Z pfn_ll_node → Z).
  (** [kzalloc] finds memory and returns an address no live node has. *)
  Hypothesis kzalloc_fresh : ∀ h, kzalloc h ≠ NULL ∧ h !! kzalloc h = None.

Lemma append_pfn_spec b l v :
  builds b l → ∃ b' a, append_pfn kzalloc b v = Ret b' ∧
    builds b' (l ++ [(a, v)]) ∧ b_locks b' = b_locks b.
Proof.
  intros (Hl & Hr & Ht). destruct (kzalloc_fresh (b_heap b)) as [Hn Hf].
  set (a := kzalloc (b_heap b)) in *. unfold append_pfn. fold a.
  rewrite (decide_False _ _ Hn). unfold store_pfn.
  rewrite (load_some _ _ _ Hn (lookup_insert_eq _ _ _)). simpl. rewrite insert_insert_eq.
  destruct l as [|x l _] using rev_ind.
  - rewrite decide_True by done. eexists _, a. split; [done|]. split; [|done].
    split_and!; simpl; [|done|done]. by rewrite lookup_insert_eq.
  - destruct x as [q w]. rewrite decide_False.
    2: { rewrite Hr. intros E. apply (linked_not_null _ _ Hl). rewrite fmap_app, elem_of_app.
         destruct l as [|[]]; simpl in *; set_solver. }
    rewrite Ht by (by destruct l). unfold last_addr. rewrite last_snoc.
    pose proof (linked_app_r _ _ _ Hl) as (Hq & Hqh & _).
    assert (a ≠ q) by congruence.
    unfold store_next. rewrite (load_some _ q (mk_pfn_ll_node w NULL) Hq)
      by (by rewrite lookup_insert_ne). simpl.
    rewrite (load_some _ a (mk_pfn_ll_node v NULL) Hn)
      by (by rewrite lookup_insert_ne, lookup_insert_eq). simpl.
    eexists _, a. split; [done|]. split; [|done]. split_and!; simpl.
    + rewrite <-app_assoc. simpl. rewrite (insert_insert_ne _ q a) by done.
      rewrite insert_insert_eq. by apply linked_snoc.
    + rewrite Hr. by destruct l as [|[]].
    + intros _. unfold last_addr. by rewrite last_snoc.
Qed.

(** The computation [f] appends the mapped frames of [addrs], in order, and logs [ls]. *)
Definition visits (m : mm_struct) (f : build → outcome build) (addrs : list Z)
    (ls : list lock_event) : Prop :=
  ∀ b l, builds b l → ∃ b' l', f b = Ret b' ∧ builds b' (l ++ l') ∧
    l'.*2 = mfns_of m addrs ∧ b_locks b' = b_locks b ++ ls.

Lemma mfns_of_app m a1 a2 : mfns_of m (a1 ++ a2) = mfns_of m a1 ++ mfns_of m a2.
Proof. unfold mfns_of. by rewrite fmap_app, filter_app. Qed.

Lemma visits_nil m : visits m Ret [] [].
Proof. intros b l Hb. exists b, []. by rewrite !app_nil_r. Qed.

Lemma visits_bind m f g a1 a2 ls1 ls2 :
  visits m f a1 ls1 → visits m g a2 ls2 → visits m (λ b, f b ≫= g) (a1 ++ a2) (ls1 ++ ls2).
Proof.
  intros Hf Hg b l Hb. destruct (Hf b l Hb) as (b1 & l1 & -> & Hb1 & E1 & L1).
  destruct (Hg b1 _ Hb1) as (b2 & l2 & Hg2 & Hb2 & E2 & L2).
  exists b2, (l1 ++ l2). simpl. rewrite Hg2, app_assoc, fmap_app, mfns_of_app, E1, E2.
  split_and!; [done..|]. by rewrite L2, L1, app_assoc.
Qed.

Lemma visits_ext m f g a a' ls ls' :
  visits m f a ls → (∀ b, f b = g b) → a = a' → ls = ls' → visits m g a' ls'.
Proof. intros Hf Hfg <- <- b l Hb. destruct (Hf b l Hb) as (b' & l' & E & ?).
  exists b', l'. by rewrite <-Hfg. Qed.

Lemma visits_log m ls : visits m (λ b, Ret (log_locks ls b)) [] ls.
Proof. intros b l Hb. exists (log_locks ls b), []. by rewrite !app_nil_r. Qed.

Lemma visits_one m a :
  visits m (λ b, if decide (0 < addr_to_mfn m a) then append_pfn kzalloc b (addr_to_mfn m a)
                 else Ret b) [a] [].
Proof.
  intros b l Hb. unfold mfns_of. csimpl. rewrite filter_cons.
  destruct (decide (0 < addr_to_mfn m a)).
  - destruct (append_pfn_spec b l (addr_to_mfn m a) Hb) as (b' & x & -> & Hb' & ?).
    exists b', [(x, addr_to_mfn m a)]. by rewrite app_nil_r.
  - exists b, []. by rewrite !app_nil_r.
Qed.

Lemma addrs_from_step e length :
  0 < length →
  addrs_from e length = [e - length] ++ addrs_from e (Z.max 0 (length - 2048)).
Proof.
  intros Hp. unfold addrs_from. change (PAGE_SIZE / 2) with 2048.
  rewrite (seqZ_cons 0) by (Z.div_mod_to_equations; lia). csimpl. f_equal; [lia|].
  destruct (decide (length ≤ 2048)) as [Hs|Hs].
  - rewrite Z.max_l by lia. replace ((length + 2047) / 2048) with 1 by (Z.div_mod_to_equations; lia).
    done.
  - rewrite Z.max_r by lia. f_equal.
    replace (Z.pred ((length + 2047) / 2048)) with ((length - 2048 + 2047) / 2048)
      by (Z.div_mod_to_equations; lia).
    change (Z.succ 0) with (1 + 0). rewrite <-(fmap_add_seqZ 1 0), <-list_fmap_compose.
    apply list_fmap_ext. intros i x _. simpl. lia.
Qed.

Lemma half_page_step length :
  0 ≤ length < 2 ^ 62 →
  (if decide (s64 (length - PAGE_SIZE / 2) < 0) then 0 else s64 (length - PAGE_SIZE / 2))
  = Z.max 0 (length - 2048).
Proof.
  intros Hl. change (PAGE_SIZE / 2) with 2048. unfold s64. rewrite Z.mod_small by lia.
  case_decide; lia.
Qed.

Lemma scan_region_visits fuel m e length :
  0 ≤ length ≤ e → e < 2 ^ 62 → (length + 2047) / 2048 < Z.of_nat fuel →
  visits m (scan_region kzalloc fuel m e length) (addrs_from e length) [].
Proof.
  revert length. induction fuel as [|n IH]; intros length Hlen He Hf.
  { Z.div_mod_to_equations; lia. }
  pose proof (visits_one m (e - length)) as H1.
  destruct (decide (length = 0)) as [->|Hz].
  - eapply visits_ext; [exact H1| |by rewrite Z.sub_0_r|done].
    intros b. simpl. rewrite u64_small by (unfold is_u64; lia).
    by destruct (if decide _ then _ else _).
  - pose proof (IH (Z.max 0 (length - 2048))) as H2.
    eapply visits_ext; [eapply visits_bind; [exact H1|apply H2]| |symmetry; apply addrs_from_step; lia|done];
      [lia|lia|Z.div_mod_to_equations; lia|].
    intros b. simpl. rewrite (decide_True (P := 0 ≤ length)) by lia. rewrite u64_small by (unfold is_u64; lia).
    rewrite half_page_step by lia.
    destruct (if decide _ then _ else _); [|done]. simpl.
    by rewrite (decide_False (P := length ≤ 0)) by lia.
Qed.

Lemma scan_bounds_visits fuel m v :
  region_ok fuel v → visits m (scan_bounds kzalloc fuel m v) (region_addrs v) [].
Proof.
  intros (? & ? & ?). unfold scan_bounds, region_addrs.
  rewrite u64_small by (unfold is_u64; lia).
  replace (s64 (vm_end v - vm_start v)) with (vm_end v - vm_start v)
    by (unfold s64; rewrite Z.mod_small by lia; lia).
  apply scan_region_visits; lia.
Qed.

Lemma scan_anon_visits fuel m vs :
  Forall (region_ok fuel) vs →
  visits m (scan_anon kzalloc fuel m vs)
    (concat (region_addrs <$> filter (λ w, Z.land (vm_flags w) VM_WRITE ≠ 0) vs)) [].
Proof.
  induction 1 as [|v vs Hv Hvs IH]; csimpl; [apply visits_nil|].
  rewrite filter_cons. destruct (decide (Z.land (vm_flags v) VM_WRITE = 0)) as [E|E].
  - rewrite decide_False by naive_solver. done.
  - rewrite decide_True by done. csimpl.
    eapply visits_ext; [eapply visits_bind; [by apply scan_bounds_visits|exact IH]|done..].
Qed.

Lemma scan_vma_visits fuel m anon v :
  vma_ok fuel v →
  visits m (scan_vma kzalloc fuel m anon v) (vma_addrs anon v)
    (if anon then [AnonLock; AnonUnlock] else []).
Proof.
  intros [Hb Ha]. unfold scan_vma, vma_addrs.
  pose proof (scan_bounds_visits fuel m _ Hb) as H1. destruct anon.
  - set (rest := match anon_vma_node v, anon_vma v with true, Some _ => _ | _, _ => [] end).
    assert (H2 : visits m (λ b, match anon_vma_node v, anon_vma v with
         | true, Some vs => scan_anon kzalloc fuel m vs b | _, _ => Ret b end) rest []).
    { unfold rest. destruct (anon_vma_node v), (anon_vma v); try apply visits_nil.
      by apply scan_anon_visits. }
    eapply visits_ext;
      [eapply visits_bind; [exact H1|eapply visits_bind; [apply (visits_log m [AnonLock])|
        eapply visits_bind; [exact H2|apply (visits_log m [AnonUnlock])]]]|..].
    + done.
    + by rewrite !app_nil_r.
    + done.
  - eapply visits_ext; [exact H1| |by rewrite app_nil_r|done].
    intros b. by destruct (scan_bounds _ _ _ _ _).
Qed.

Lemma scan_vmas_visits fuel m anon vs count :
  Forall (vma_ok fuel) vs → vs ≠ [] → 0 ≤ count →
  count + Z.of_nat (length vs) ≤ map_count m → map_count m < 2 ^ 31 →
  visits m (scan_vmas kzalloc fuel m anon vs count) (concat (vma_addrs anon <$> vs))
    (concat (replicate (length vs) (if anon then [AnonLock; AnonUnlock] else []))).
Proof.
  intros Hvs. revert count. induction Hvs as [|v vs Hv Hvs IH]; [done|].
  intros count _ Hc Hm Hb. pose proof (scan_vma_visits fuel m anon v Hv) as H1.
  simpl in Hm. destruct vs as [|w vs].
  - csimpl. rewrite !app_nil_r. eapply visits_ext; [exact H1| |done..].
    intros b. by destruct (scan_vma _ _ _ _ _ _).
  - eapply visits_ext; [eapply visits_bind; [exact H1|apply (IH (count + 1))]|..];
      [done|lia|simpl in *; lia|done| |done|done].
    intros b. simpl. destruct (scan_vma _ _ _ _ _ _); [|done]. simpl.
    rewrite (s32_small (count + 1)) by (unfold is_s32; simpl in *; lia).
    simpl in Hm. by rewrite (decide_True (P := count + 1 < map_count m)) by lia.
Qed.

(** *** The full scan *)

(** As [builds], with the flag [root_exists] in place of the null test. *)
Definition full_builds (rb : bool * build) (l : list (Z * Z)) : Prop :=
  linked (b_heap rb.2) l ∧ rb.1 = bool_decide (l ≠ []) ∧
  (l ≠ [] → pfn_root rb.2 = head_addr l ∧ pfn_tail rb.2 = last_addr NULL l).

Definition collects (f : bool * build → outcome (bool * build)) (frames : list Z) : Prop :=
  ∀ rb l, full_builds rb l → ∃ rb' l', f rb = Ret rb' ∧ full_builds rb' (l ++ l') ∧
    l'.*2 = frames ∧ b_locks rb'.2 = b_locks rb.2 ∧
    (l ++ l' = [] → pfn_root rb'.2 = pfn_root rb.2).

Lemma append_full_collects v : collects (λ rb, append_full kzalloc rb v) [v].
Proof.
  intros [re b] l (Hl & Hre & Hrt). simpl in *. subst re. unfold append_full.
  destruct (kzalloc_fresh (b_heap b)) as [Hn Hf].
  set (a := kzalloc (b_heap b)) in *. rewrite (decide_False _ _ Hn). unfold store_pfn, store_next.
  rewrite (load_some _ _ _ Hn (lookup_insert_eq _ _ _)). simpl. rewrite insert_insert_eq.
  rewrite (load_some _ _ _ Hn (lookup_insert_eq _ _ _)). simpl. rewrite insert_insert_eq.
  destruct l as [|x l _] using rev_ind.
  - eexists _, [(a, v)]. split; [done|]. split_and!; simpl; try done.
    split_and!; simpl; try done. by rewrite lookup_insert_eq.
  - destruct x as [q w]. rewrite bool_decide_eq_true_2 by (by destruct l).
    destruct Hrt as [Hr Ht]; [by destruct l|]. rewrite Ht. unfold last_addr. rewrite last_snoc.
    pose proof (linked_app_r _ _ _ Hl) as (Hq & Hqh & _). assert (a ≠ q) by congruence.
    rewrite (load_some _ q (mk_pfn_ll_node w NULL) Hq) by (by rewrite lookup_insert_ne). simpl.
    eexists _, [(a, v)]. split; [done|]. split_and!; simpl; [|done|done|by destruct l].
    split_and!; simpl.
    + rewrite <-app_assoc. simpl. rewrite insert_insert_ne by done. by apply linked_snoc.
    + by destruct l as [|[]].
    + intros _. rewrite Hr. unfold last_addr. rewrite last_snoc. split; [by destruct l as [|[]]|done].
Qed.

Lemma collects_nil : collects Ret [].
Proof. intros rb l Hb. exists rb, []. by rewrite app_nil_r. Qed.

Lemma collects_bind f g fs gs :
  collects f fs → collects g gs → collects (λ rb, f rb ≫= g) (fs ++ gs).
Proof.
  intros Hf Hg rb l Hb. destruct (Hf rb l Hb) as (rb1 & l1 & -> & Hb1 & <- & L1 & R1).
  destruct (Hg rb1 _ Hb1) as (rb2 & l2 & E & Hb2 & <- & L2 & R2).
  exists rb2, (l1 ++ l2). simpl. rewrite E, app_assoc, fmap_app.
  split_and!; [done..|congruence|]. intros Hnil. rewrite R2, R1; [done| |done].
  by apply app_nil in Hnil as [-> _].
Qed.

Lemma collects_ext f g fs gs : collects f fs → (∀ rb, f rb = g rb) → fs = gs → collects g gs.
Proof. intros Hf Hfg <- rb l Hb. destruct (Hf rb l Hb) as (rb' & l' & E & ?).
  exists rb', l'. by rewrite <-Hfg. Qed.

(** The shape the four loops share: skip an entry, or do its work and go on. *)
Lemma collects_loop (loop : nat → nat → Z → bool * build → outcome (bool * build))
    (good : Z → bool) (work : Z → bool * build → outcome (bool * build)) (fr : Z → list Z) :
  (∀ i t rb, loop O i t rb = Ret rb) →
  (∀ n i t rb, loop (S n) i t rb =
    if decide (t = NULL) then Ret rb else
    if good (entry t i) then work (entry t i) rb ≫= loop n (S i) t else loop n (S i) t rb) →
  (∀ e, good e = true → collects (work e) (fr e)) →
  ∀ n t, collects (loop n 0%nat t)
    (concat (fr <$> filter (λ e, good e = true) (table_entries n t))).
Proof.
  intros H0 HS Hw n t. unfold table_entries. destruct (decide (t = NULL)) as [Ht|Ht].
  - eapply collects_ext; [apply collects_nil| |done]. intros rb. destruct n; [by rewrite H0|].
    by rewrite HS, decide_True.
  - generalize O as i. induction n as [|n IH]; intros i; csimpl.
    + eapply collects_ext; [apply collects_nil| |done]. intros rb. by rewrite H0.
    + rewrite filter_cons. destruct (decide (good (entry t i) = true)) as [Hg|Hg].
      * eapply collects_ext; [eapply collects_bind; [by apply Hw|apply (IH (S i))]| |done].
        intros rb. by rewrite HS, decide_False, Hg by done.
      * eapply collects_ext; [apply (IH (S i))| |done].
        intros rb. rewrite HS, decide_False by done. by destruct (good (entry t i)).
Qed.

Lemma concat_singletons (P : Z → Prop) `{∀ x, Decision (P x)} (g : Z → Z) es :
  concat ((λ e, filter P [g e]) <$> es) = filter P (g <$> es).
Proof.
  induction es as [|e es IH]; csimpl; [done|]. rewrite IH. rewrite !filter_cons, filter_nil.
  by destruct (decide (P (g e))).
Qed.

Lemma scan_pte_collects t : collects (scan_pte kzalloc PTRS_PER_PTE 0 t) (pte_frames t).
Proof.
  eapply collects_ext; [apply (collects_loop (scan_pte kzalloc)
    (λ e, pte_present e && negb (pte_file e))
    (λ e rb, if decide (pfn_to_mfn (pte_pfn e) = 0) then Ret rb
             else append_full kzalloc rb (pfn_to_mfn (pte_pfn e)))
    (λ e, filter (λ f, f ≠ 0) [pfn_to_mfn (pte_pfn e)]))| |].
  - done.
  - intros n i u rb. simpl. case_decide; [done|].
    destruct (pte_present (entry u i)), (pte_file (entry u i)); simpl; try done.
    by case_decide.
  - intros e _. rewrite filter_cons, filter_nil. case_decide.
    + rewrite decide_False by naive_solver. apply collects_nil.
    + rewrite decide_True by done. apply append_full_collects.
  - done.
  - rewrite concat_singletons. unfold pte_frames. f_equal. f_equal. apply list_filter_iff.
    intros e. rewrite andb_true_iff, negb_true_iff. done.
Qed.

(** The three upper levels share one shape. *)
Lemma collects_level (loop : nat → nat → Z → bool * build → outcome (bool * build))
    (present none bad : Z → bool) (sub : Z → bool * build → outcome (bool * build))
    (fr : Z → list Z) n t :
  (∀ i t rb, loop O i t rb = Ret rb) →
  (∀ n i t rb, loop (S n) i t rb =
    if decide (t = NULL) then Ret rb else
    if (negb (present (entry t i)) || none (entry t i) || bad (entry t i))%bool
    then loop n (S i) t rb else sub (entry t i) rb ≫= loop n (S i) t) →
  (∀ e, collects (sub e) (fr e)) →
  collects (loop n 0%nat t) (concat (fr <$>
    filter (λ e, present e = true ∧ none e = false ∧ bad e = false) (table_entries n t))).
Proof.
  intros H0 HS Hsub. eapply collects_ext;
    [apply (collects_loop loop (λ e, present e && negb (none e) && negb (bad e)) sub fr)|done|].
  - done.
  - intros k i u rb. rewrite HS. case_decide; [done|].
    by destruct (present (entry u i)), (none (entry u i)), (bad (entry u i)).
  - auto.
  - do 2 f_equal. apply list_filter_iff. intros e.
    rewrite !andb_true_iff, !negb_true_iff. tauto.
Qed.

Lemma scan_pgd_collects t : collects (scan_pgd kzalloc PTRS_PER_PGD 0 t) (pgd_frames t).
Proof.
  apply (collects_level (scan_pgd kzalloc) pgd_present pgd_none pgd_bad
    (λ e, scan_pud kzalloc PTRS_PER_PUD 0 (pgd_page_vaddr e))); [done..|]. intros e1.
  apply (collects_level (scan_pud kzalloc) pud_present pud_none pud_bad
    (λ e, scan_pmd kzalloc PTRS_PER_PMD 0 (pud_page_vaddr e))); [done..|]. intros e2.
  apply (collects_level (scan_pmd kzalloc) pmd_present pmd_none pmd_bad
    (λ e, scan_pte kzalloc PTRS_PER_PTE 0 (pmd_page_vaddr e))); [done..|]. intros e3.
  apply scan_pte_collects.
Qed.

Lemma nub_fmap_snd (l : list (Z * Z)) : (nub_by snd l).*2 = nub_by id l.*2.
Proof.
  induction l as [|x l IH]; csimpl; [done|]. f_equal. rewrite <-IH.
  generalize (nub_by snd l) as k. intros k. induction k as [|y k IHk]; csimpl; [done|].
  rewrite !filter_cons. by destruct (decide (y.2 ≠ x.2)); csimpl; rewrite IHk.
Qed.

Lemma mfns_of_length m addrs : (length (mfns_of m addrs) ≤ length addrs)%nat.
Proof using Type.
  unfold mfns_of. etrans; [apply length_filter|]. by rewrite length_fmap.
Qed.

(** The run of [pfnlist_vmarea], as its clients use it. *)
Lemma pfnlist_vmarea_run fuel h tail0 pid m dup anon :
  mmap m ≠ [] → map_count m = Z.of_nat (length (mmap m)) → map_count m < 2 ^ 31 →
  Forall (vma_ok fuel) (mmap m) →
  (length (concat (vma_addrs anon <$> mmap m)) ≤ fuel)%nat → Z.of_nat fuel < 2 ^ 31 →
  ∃ h' (l : list (Z * Z)) locks,
    pfnlist_vmarea kzalloc fuel h NULL tail0 (mk_task_struct pid (Some m)) dup anon
      = Ret (head_addr l, h', locks) ∧
    linked h' l ∧
    l.*2 = (if dup then nub_by id else id) (mfns_of m (concat (vma_addrs anon <$> mmap m))) ∧
    locks = [DownRead_mmap_sem; SpinLock_page_table] ++
      concat (replicate (length (mmap m)) (if anon then [AnonLock; AnonUnlock] else [])) ++
      [SpinUnlock_page_table; UpRead_mmap_sem].
Proof.
  intros Hne Hc Hb Hok Hlen Hf. unfold pfnlist_vmarea. simpl.
  destruct (scan_vmas_visits fuel m anon (mmap m) 0 Hok Hne ltac:(lia) ltac:(lia) Hb
    (mk_build h NULL tail0 [DownRead_mmap_sem; SpinLock_page_table]) [])
    as (b & l & -> & (Hl & Hr & _) & E & L); [done|]. simpl in *.
  pose proof (mfns_of_length m (concat (vma_addrs anon <$> mmap m))) as Hml.
  rewrite <-E, length_fmap in Hml. destruct dup.
  - destruct (mkunique_run fuel (b_heap b) (pfn_root b) l) as (h' & -> & Hl' & _);
      [by split|lia|lia|]. simpl. rewrite (proj1 Hl').
    eexists h', (nub_by snd l), _. split; [done|]. split; [apply Hl'|].
    split; [by rewrite nub_fmap_snd, E|]. by rewrite L.
  - eexists _, l, _. rewrite Hr. split_and!; [done..|]. by rewrite L.
Qed.

(** ** Properties *)

(** C13: [pfnlist_vmarea] is the comprehension one expects: started with a null
    [pfn_root], on regions whose ends do not wrap, it returns (fuel enough for
    the longest region and for the list) the machine frames mapped at the
    addresses of the regions, in order, every region from its start to its end
    in half-page steps, the writable anonymous regions behind the region they
    belong to, duplicates dropped on request; and it takes [mmap_sem] before
    the page-table lock and releases both. *)
Theorem pfnlist_vmarea_correct fuel h tail0 pid m dup anon :
  mmap m ≠ [] → map_count m = Z.of_nat (length (mmap m)) → map_count m < 2 ^ 31 →
  Forall (vma_ok fuel) (mmap m) →
  (length (concat (vma_addrs anon <$> mmap m)) ≤ fuel)%nat → Z.of_nat fuel < 2 ^ 31 →
  ∃ h' (l : list (Z * Z)) locks,
    pfnlist_vmarea kzalloc fuel h NULL tail0 (mk_task_struct pid (Some m)) dup anon
      = Ret (head_addr l, h', locks) ∧
    linked h' l ∧
    l.*2 = (if dup then nub_by id else id) (mfns_of m (concat (vma_addrs anon <$> mmap m))) ∧
    locks = [DownRead_mmap_sem; SpinLock_page_table] ++
      concat (replicate (length (mmap m)) (if anon then [AnonLock; AnonUnlock] else [])) ++
      [SpinUnlock_page_table; UpRead_mmap_sem].
Proof. apply pfnlist_vmarea_run. Qed.

Lemma elem_of_mfns m addrs f :
  f ∈ mfns_of m addrs ↔ 0 < f ∧ ∃ a, a ∈ addrs ∧ f = addr_to_mfn m a.
Proof using Type.
  unfold mfns_of. rewrite list_elem_of_filter, list_elem_of_fmap. split.
  - intros (? & a & ? & ?). eauto.
  - intros (? & a & ? & ?). eauto.
Qed.

Lemma elem_of_nub_id (l : list Z) x : x ∈ nub_by id l ↔ x ∈ l.
Proof using Type.
  split; [apply elem_of_nub_by|]. intros Hx.
  destruct (nub_by_key id l x Hx) as (y & Hy & E). unfold id in E. by subst.
Qed.

Lemma elem_of_region_addrs v a :
  vm_start v ≤ vm_end v →
  a ∈ region_addrs v ↔
    a = vm_end v ∨ ∃ i, 0 ≤ i ∧ a = vm_start v + 2048 * i ∧ a < vm_end v.
Proof.
  intros Hv. unfold region_addrs, addrs_from. change (PAGE_SIZE / 2) with 2048.
  rewrite elem_of_app, list_elem_of_fmap, list_elem_of_singleton. split.
  - intros [(i & -> & Hi)| ->]; [right|by left]. apply elem_of_seqZ in Hi.
    exists i. Z.div_mod_to_equations. lia.
  - intros [-> |(i & Hi & -> & Ha)]; [by right|left]. exists i. split; [lia|].
    apply elem_of_seqZ. Z.div_mod_to_equations. lia.
Qed.

(** The frames of the returned list, whatever the flag [duplicates]. *)
Lemma vmarea_frames fuel h tail0 pid m dup root h' locks l :
  mmap m ≠ [] → map_count m = Z.of_nat (length (mmap m)) → map_count m < 2 ^ 31 →
  Forall (vma_ok fuel) (mmap m) →
  (length (concat (vma_addrs false <$> mmap m)) ≤ fuel)%nat → Z.of_nat fuel < 2 ^ 31 →
  pfnlist_vmarea kzalloc fuel h NULL tail0 (mk_task_struct pid (Some m)) dup false
    = Ret (root, h', locks) → root = head_addr l → linked h' l →
  ∀ f, f ∈ l.*2 ↔ f ∈ mfns_of m (concat (vma_addrs false <$> mmap m)).
Proof.
  intros Hne Hc Hb Hok Hlen Hf E Hr Hl.
  destruct (scan_vmas_visits fuel m false (mmap m) 0 Hok Hne ltac:(lia) ltac:(lia) Hb
    (mk_build h NULL tail0 [DownRead_mmap_sem; SpinLock_page_table]) [])
    as (b & k & Eb & (Hk & Hkr & _) & Ek & _); [done|]. simpl in *.
  unfold pfnlist_vmarea in E. simpl in E. rewrite Eb in E. simpl in E. rewrite <-Ek.
  pose proof (mfns_of_length m (concat (vma_addrs false <$> mmap m))) as Hml.
  rewrite <-Ek, length_fmap in Hml. destruct dup.
  - destruct (mkunique_run fuel (b_heap b) (pfn_root b) k) as (h2 & E2 & Hl2 & _);
      [by split|lia|lia|]. rewrite E2 in E. simplify_eq/=. destruct Hl2 as [Hr2 Hl2].
    rewrite (linked_det _ _ _ Hl Hl2) by congruence.
    intros f. by rewrite nub_fmap_snd, elem_of_nub_id.
  - simplify_eq/=. by rewrite (linked_det _ _ _ Hl Hk) by congruence.
Qed.

(** under the same conditions the list of frames of [pfnlist_vmarea] is
    complete, every page present in a region is in it, and only one address
    too generous: a frame in it is the frame of an address between the start
    and the end of some region, the end included although it lies outside, so
    that the page behind the region is reported too when it is mapped. *)
Theorem pfnlist_vmarea_covers fuel h tail0 pid m dup root h' locks l :
  mmap m ≠ [] → map_count m = Z.of_nat (length (mmap m)) → map_count m < 2 ^ 31 →
  Forall (vma_ok fuel) (mmap m) →
  (length (concat (vma_addrs false <$> mmap m)) ≤ fuel)%nat → Z.of_nat fuel < 2 ^ 31 →
  pfnlist_vmarea kzalloc fuel h NULL tail0 (mk_task_struct pid (Some m)) dup false
    = Ret (root, h', locks) → is_list h' root l →
  (∀ v i, v ∈ mmap m → 0 ≤ i →
    let a := vm_start (vma_bounds v) + PAGE_SIZE * i in
    a < vm_end (vma_bounds v) → 0 < addr_to_mfn m a → addr_to_mfn m a ∈ l.*2) ∧
  (∀ f, f ∈ l.*2 → ∃ v a, v ∈ mmap m ∧
    vm_start (vma_bounds v) ≤ a ≤ vm_end (vma_bounds v) ∧ f = addr_to_mfn m a) ∧
  (∀ v, v ∈ mmap m → 0 < addr_to_mfn m (vm_end (vma_bounds v)) →
    addr_to_mfn m (vm_end (vma_bounds v)) ∈ l.*2).
Proof.
  intros Hne Hc Hb Hok Hlen Hf E [Hr Hl].
  assert (Hmem := vmarea_frames _ _ _ _ _ _ _ _ _ _ Hne Hc Hb Hok Hlen Hf E Hr Hl).
  rewrite Forall_forall in Hok.
  assert (Hin : ∀ v a, v ∈ mmap m → a ∈ region_addrs (vma_bounds v) → 0 < addr_to_mfn m a →
    addr_to_mfn m a ∈ l.*2).
  { intros v a Hv Ha Hp. rewrite Hmem, elem_of_mfns. split; [done|]. exists a. split; [|done].
    apply list_elem_of_In, in_concat. exists (vma_addrs false v).
    rewrite <-!list_elem_of_In. split; [by apply list_elem_of_fmap_2|].
    unfold vma_addrs. by rewrite app_nil_r. }
  split_and!.
  - intros v i Hv Hi a Ha Hp. apply (Hin v); [done| |done].
    destruct (Hok v Hv) as ((? & _) & _).
    rewrite elem_of_region_addrs by lia. right. exists (2 * i). unfold a, PAGE_SIZE in *. lia.
  - intros f Hfl. rewrite Hmem, elem_of_mfns in Hfl. destruct Hfl as (_ & a & Ha & ->).
    apply list_elem_of_In, in_concat in Ha as (as_ & Hv & Ha).
    rewrite <-!list_elem_of_In in *. apply list_elem_of_fmap in Hv as (v & -> & Hv).
    destruct (Hok v Hv) as ((? & _) & _). unfold vma_addrs in Ha. rewrite app_nil_r in Ha.
    apply elem_of_region_addrs in Ha; [|lia]. exists v, a. split_and!; naive_solver lia.
  - intros v Hv Hp. destruct (Hok v Hv) as ((? & _) & _).
    apply (Hin v); [done| |done]. rewrite elem_of_region_addrs by lia. by left.
Qed.

(** [pfn_root] is never initialised ("Init list" sets only counters).  When
    the stack holds anything but a null pointer there, and a stale [pfn_tail],
    the first mapped page makes [pfnlist_vmarea] write through the stale
    [pfn_tail]: the scan does not produce a list at all. *)
Theorem pfnlist_vmarea_uninit_root fuel h root0 tail0 pid m v vs dup anon :
  mmap m = v :: vs → region_ok (S fuel) (vma_bounds v) →
  0 < addr_to_mfn m (vm_start (vma_bounds v)) →
  root0 ≠ NULL → h !! tail0 = None → tail0 ≠ kzalloc h →
  pfnlist_vmarea kzalloc (S fuel) h root0 tail0 (mk_task_struct pid (Some m)) dup anon
    = Err (if decide (tail0 = NULL) then NullDeref else WildAccess).
Proof.
  intros Hm (Hv1 & Hv2 & _) Hp Hr Ht Hk. unfold pfnlist_vmarea. simpl. rewrite Hm. simpl.
  unfold scan_vma, scan_bounds. simpl.
  rewrite (u64_small (vm_end _ - vm_start _)) by (unfold is_u64; lia).
  replace (s64 (vm_end (vma_bounds v) - vm_start (vma_bounds v)))
    with (vm_end (vma_bounds v) - vm_start (vma_bounds v))
    by (unfold s64; rewrite Z.mod_small by lia; lia).
  rewrite (decide_True (P := 0 ≤ _)) by lia.
  replace (vm_end (vma_bounds v) - (vm_end (vma_bounds v) - vm_start (vma_bounds v)))
    with (vm_start (vma_bounds v)) by lia.
  rewrite (u64_small (vm_start _)) by (unfold is_u64; lia).
  rewrite (decide_True (P := 0 < addr_to_mfn _ _)) by done. unfold append_pfn. simpl. destruct (kzalloc_fresh h) as [Hn Hf].
  rewrite (decide_False _ _ Hn). unfold store_pfn.
  rewrite (load_some _ _ _ Hn (lookup_insert_eq _ _ _)). simpl.
  rewrite (decide_False _ _ Hr). unfold store_next.
  assert (Hload : ∀ h' : gmap Z pfn_ll_node, h' !! tail0 = None →
    load h' tail0 = Err (if decide (tail0 = NULL) then NullDeref else WildAccess)).
  { intros h' E. unfold load. case_decide; [done|]. by rewrite E. }
  rewrite Hload; [done|]. by rewrite !lookup_insert_ne.
Qed.

(** The full scan [pfnlist] of a task whose page directory is not null
    returns, level by level and in table order, the machine frame of every
    valid entry of every valid table (null tables and zero frames skipped),
    duplicates dropped when [uniq > 0]; when there is none it returns the
    uninitialised [pfn_root], and it always takes the page-table spinlock
    before the sleeping [mmap_sem], the opposite of [pfnlist_vmarea]. *)
Theorem pfnlist_correct fuel h root0 tail0 pid m uniq :
  pgd m ≠ NULL → (length (pgd_frames (pgd m)) ≤ fuel)%nat → Z.of_nat fuel < 2 ^ 31 →
  pgd_frames (pgd m) ≠ [] →
  ∃ h' l, pfnlist kzalloc fuel h root0 tail0 (mk_task_struct pid (Some m)) uniq
      = Ret (head_addr l, h', [SpinLock_page_table; DownRead_mmap_sem;
                               SpinUnlock_page_table; UpRead_mmap_sem]) ∧
    linked h' l ∧
    l.*2 = if decide (0 < uniq) then nub_by id (pgd_frames (pgd m)) else pgd_frames (pgd m).
Proof.
  intros Hp Hlen Hf Hne. unfold pfnlist. simpl. rewrite decide_False by done.
  destruct (scan_pgd_collects (pgd m)
    (false, mk_build h root0 tail0 [SpinLock_page_table; DownRead_mmap_sem]) [])
    as ([re b] & l & -> & (Hl & _ & Hrt) & E & L & _);
    [split_and!; [done|symmetry; by apply bool_decide_eq_false_2; intros []|done]|]. simpl in *.
  destruct Hrt as [Hr _]; [by intros ->|].
  assert (Hll : length l = length (pgd_frames (pgd m))) by (by rewrite <-E, length_fmap).
  case_decide.
  - destruct (mkunique_run fuel (b_heap b) (pfn_root b) l) as (h' & -> & Hl' & _);
      [by split|lia|lia|]. simpl. rewrite L, (proj1 Hl').
    eexists h', (nub_by snd l). split; [done|]. split; [apply Hl'|].
    by rewrite nub_fmap_snd, E.
  - eexists _, l. rewrite L, Hr. split_and!; done.
Qed.

End build.

(** ** A concrete address space, for the witnesses *)

(** Four-level tables of 512 entries at 4096, 8192, ...; the process has the
    pages at 4096 and 8192 mapped to the frames 7 and 9. *)
Definition toy_memory : gmap Z Z :=
  <[4096 := 8193]> (<[8192 := 12289]> (<[12288 := 16385]>
  (<[16384 + 8 := 7 * 4096 + 1]> {[16384 + 16 := 9 * 4096 + 1]}))).

Definition toy_index (a k : Z) : Z := 8 * (a / 2 ^ k mod 512).
Definition toy_table (e : Z) : Z := e / 4096 * 4096.

Definition toy_page_table : PageTable := {|
  deref p := default 0 (toy_memory !! p);
  pgd_offset m a := pgd m + toy_index a 39;
  pud_offset p a := toy_table (default 0 (toy_memory !! p)) + toy_index a 30;
  pmd_offset p a := toy_table (default 0 (toy_memory !! p)) + toy_index a 21;
  pte_offset_kernel p a := toy_table (default 0 (toy_memory !! p)) + toy_index a 12;
  pgd_none e := e =? 0; pud_none e := e =? 0; pmd_none e := e =? 0; pte_none e := e =? 0;
  pte_present e := Z.odd e;
  pte_mfn e := e / 4096;
  pgd_present e := Z.odd e; pgd_bad e := false;
  pud_present e := Z.odd e; pud_bad e := false;
  pmd_present e := Z.odd e; pmd_bad e := false;
  pte_file e := false;
  pgd_page_vaddr := toy_table; pud_page_vaddr := toy_table; pmd_page_vaddr := toy_table;
  pte_pfn e := e / 4096;
  pfn_to_mfn f := f;
  PTRS_PER_PGD := 512; PTRS_PER_PUD := 512; PTRS_PER_PMD := 512; PTRS_PER_PTE := 512
|}.

(** An address that no node has. *)
Definition toy_kzalloc (h : gmap Z pfn_ll_node) : Z := fresh ({[NULL]} ∪ dom h).

Definition toy_mm : mm_struct :=
  mk_mm_struct 1 [mk_vm_area_struct (mk_vm_bounds 4096 8192 0) false None] 4096.

Lemma toy_kzalloc_fresh h : toy_kzalloc h ≠ NULL ∧ h !! toy_kzalloc h = None.
Proof.
  pose proof (is_fresh ({[NULL]} ∪ dom h)) as Hf. fold (toy_kzalloc h) in Hf.
  split; [set_solver|]. apply not_elem_of_dom. set_solver.
Qed.

Lemma toy_mm_ok : Forall (vma_ok 8) (mmap toy_mm).
Proof.
  constructor; [|constructor]. split; [|done]. unfold region_ok. simpl.
  split_and!; try lia; by vm_compute.
Qed.

(** The page behind the region (frame 9) is in the list. *)
Lemma pfnlist_vmarea_correct_witness :
  ∃ h' (l : list (Z * Z)) locks,
    @pfnlist_vmarea toy_page_table toy_kzalloc 8 ∅ NULL 99 (mk_task_struct 5 (Some toy_mm)) true false
      = Ret (head_addr l, h', locks) ∧ l.*2 = [7; 9].
Proof.
  destruct (@pfnlist_vmarea_correct toy_page_table toy_kzalloc toy_kzalloc_fresh
    8 ∅ 99 5 toy_mm true false) as (h' & l & locks & E & _ & El & _).
  - done.
  - done.
  - done.
  - exact toy_mm_ok.
  - vm_compute. lia.
  - done.
  - exists h', l, locks. split; [exact E|]. rewrite El. by vm_compute.
Defined.

Lemma pfnlist_vmarea_covers_witness :
  ∃ root h' locks (l : list (Z * Z)),
    @pfnlist_vmarea toy_page_table toy_kzalloc 8 ∅ NULL 99 (mk_task_struct 5 (Some toy_mm)) true false
      = Ret (root, h', locks) ∧ 7 ∈ l.*2 ∧ 9 ∈ l.*2.
Proof.
  destruct (@pfnlist_vmarea_run toy_page_table toy_kzalloc toy_kzalloc_fresh
    8 ∅ 99 5 toy_mm true false) as (h' & l & locks & E & Hl & _ & _);
    [done|done|done|exact toy_mm_ok|vm_compute; lia|done|].
  destruct (@pfnlist_vmarea_covers toy_page_table toy_kzalloc toy_kzalloc_fresh
    8 ∅ 99 5 toy_mm true (head_addr l) h' locks l) as (Hc & _ & Hend);
    [done|done|done|exact toy_mm_ok|vm_compute; lia|done|exact E|by split|].
  set (v := mk_vm_area_struct (mk_vm_bounds 4096 8192 0) false None) in *.
  exists (head_addr l), h', locks, l. split; [exact E|]. split.
  - apply (Hc v 0); [by apply list_elem_of_singleton|lia|done|by vm_compute].
  - apply (Hend v); [by apply list_elem_of_singleton|by vm_compute].
Defined.

Lemma pfnlist_vmarea_uninit_root_witness :
  @pfnlist_vmarea toy_page_table toy_kzalloc 8 ∅ 48 99 (mk_task_struct 5 (Some toy_mm)) true false
    = Err WildAccess.
Proof.
  apply (@pfnlist_vmarea_uninit_root toy_page_table toy_kzalloc toy_kzalloc_fresh
    7 ∅ 48 99 5 toy_mm (mk_vm_area_struct (mk_vm_bounds 4096 8192 0) false None) [] true false).
  - done.
  - unfold region_ok. simpl. split_and!; try lia; by vm_compute.
  - by vm_compute.
  - done.
  - done.
  - by vm_compute.
Defined.

Lemma pfnlist_correct_witness :
  ∃ h' (l : list (Z * Z)) locks,
    @pfnlist toy_page_table toy_kzalloc 8 ∅ 48 99 (mk_task_struct 5 (Some toy_mm)) 1
      = Ret (head_addr l, h', locks) ∧ l.*2 = [7; 9].
Proof.
  destruct (@pfnlist_correct toy_page_table toy_kzalloc toy_kzalloc_fresh 8 ∅ 48 99 5 toy_mm 1)
    as (h' & l & E & _ & El).
  - done.
  - vm_compute. lia.
  - done.
  - by vm_compute.
  - eexists h', l, _. split; [exact E|]. rewrite El. by vm_compute.
Defined.
