(* ===== verification/MalState.v ===== *)
(** * State of the DomU driver and its process operations (drivers/xen/malpage)

    The global variables of malpage.c as one record, the effects other parts of
    the system see (signals, event-channel notifications) as a log, and the
    operations on processes.  Kernel services outside the repository (the task
    list macro, [force_sig], [notify_remote_via_irq], [spin_lock], semaphores
    and [list_head]) act on this state the way their documentation says. *)

From S2P Require Import Prelude PfnList Protocol PageWalk.

(** ** Data *)

(** [typedef struct malpage_share_info_t]. *)
Record malpage_share_info_t : Type := mk_share_info {
  si_domid : Z;
  si_gref : Z;
  si_evtchn : Z;
  si_irq : Z;
  si_ring_mfn : Z;
  si_uuid : string;
  fring : as_front_ring
}.

(** Calls to XenStore. *)
Inductive xs_op : Type :=
  | XsStart                                  (** [xenbus_transaction_start] *)
  | XsMkdir (dir node : string)              (** [xenbus_mkdir] *)
  | XsWrite (dir node value : string)        (** [xenbus_write] *)
  | XsRead (dir node : string)               (** [xenbus_read] *)
  | XsEnd.                                   (** [xenbus_transaction_end(_, 0)] *)

#[export] Instance xs_op_eq_dec : EqDecision xs_op.
Proof. solve_decision. Defined.

(** What the rest of the system observes, oldest first. *)
Inductive event : Type :=
  | Notify (irq : Z)                         (** [notify_remote_via_irq] *)
  | Signal (sig pid : Z)                     (** [force_sig] *)
  | GrantAccess (dom frame readonly ref : Z) (** [gnttab_grant_foreign_access] and its result *)
  | AllocUnbound (remote_dom : Z)            (** [EVTCHNOP_alloc_unbound] *)
  | BindIrq (evtchn : Z)                     (** [bind_evtchn_to_irqhandler] *)
  | UnbindIrq (irq : Z)                      (** [unbind_from_irqhandler] *)
  | InitQueues                               (** locks, list heads and semaphores initialised *)
  | StartThread                              (** [wake_up_process(reporter)] *)
  | SetHook (hook : string)                  (** a kernel hook pointer is set *)
  | Device (present : bool)                  (** the device node is created or destroyed *)
  | Xs (op : xs_op).

#[export] Instance event_eq_dec : EqDecision event.
Proof. solve_decision. Defined.

Definition SIGKILL : Z := 9.
Definition SIGCONT : Z := 18.
Definition SIGSTOP : Z := 19.

(** The globals of malpage.h and the kernel state around them.
    [report_queue] holds the [report_pid] of the queued [req_list_t] nodes;
    [pages] maps a pointer to the shared ring page behind it; [tasks] is what
    [for_each_process] goes through, after [init_task]. *)
Record malpage_state : Type := mk_malpage_state {
  malpage_share_info : option malpage_share_info_t;
  pages : gmap Z sring;
  malpage_mmu_info_lock : bool;
  report_queue_lock : bool;
  report_queue : list Z;
  thread_report_sem : Z;
  init_task : task_struct;
  tasks : list task_struct;
  events : list event
}.

(** One setter per mutable part. *)
Definition set_share_info (i : option malpage_share_info_t) (st : malpage_state) : malpage_state :=
  mk_malpage_state i (pages st) (malpage_mmu_info_lock st) (report_queue_lock st)
    (report_queue st) (thread_report_sem st) (init_task st) (tasks st) (events st).
Definition set_page (p : Z) (s : sring) (st : malpage_state) : malpage_state :=
  mk_malpage_state (malpage_share_info st) (<[p := s]> (pages st)) (malpage_mmu_info_lock st)
    (report_queue_lock st) (report_queue st) (thread_report_sem st) (init_task st) (tasks st)
    (events st).
Definition set_mmu_lock (b : bool) (st : malpage_state) : malpage_state :=
  mk_malpage_state (malpage_share_info st) (pages st) b (report_queue_lock st)
    (report_queue st) (thread_report_sem st) (init_task st) (tasks st) (events st).
Definition set_queue_lock (b : bool) (st : malpage_state) : malpage_state :=
  mk_malpage_state (malpage_share_info st) (pages st) (malpage_mmu_info_lock st) b
    (report_queue st) (thread_report_sem st) (init_task st) (tasks st) (events st).
Definition set_queue (q : list Z) (st : malpage_state) : malpage_state :=
  mk_malpage_state (malpage_share_info st) (pages st) (malpage_mmu_info_lock st)
    (report_queue_lock st) q (thread_report_sem st) (init_task st) (tasks st) (events st).
Definition set_sem (n : Z) (st : malpage_state) : malpage_state :=
  mk_malpage_state (malpage_share_info st) (pages st) (malpage_mmu_info_lock st)
    (report_queue_lock st) (report_queue st) n (init_task st) (tasks st) (events st).
Definition log (e : event) (st : malpage_state) : malpage_state :=
  mk_malpage_state (malpage_share_info st) (pages st) (malpage_mmu_info_lock st)
    (report_queue_lock st) (report_queue st) (thread_report_sem st) (init_task st) (tasks st)
    (events st ++ [e]).

Definition log_all (es : list event) (st : malpage_state) : malpage_state :=
  mk_malpage_state (malpage_share_info st) (pages st) (malpage_mmu_info_lock st)
    (report_queue_lock st) (report_queue st) (thread_report_sem st) (init_task st) (tasks st)
    (events st ++ es).

(** [malpage_share_info->...]: the driver never tests the pointer. *)
Definition share_info (st : malpage_state) : outcome malpage_share_info_t :=
  of_option NullDeref (malpage_share_info st).

(** [fring.sring->...] *)
Definition load_page (st : malpage_state) (p : Z) : outcome sring :=
  if decide (p = NULL) then Err NullDeref else of_option WildAccess (pages st !! p).

Definition set_fring (f : as_front_ring) (i : malpage_share_info_t) : malpage_share_info_t :=
  mk_share_info (si_domid i) (si_gref i) (si_evtchn i) (si_irq i) (si_ring_mfn i) (si_uuid i) f.

(** ** Locks *)

(** [spin_lock]: on a held lock the caller spins for ever (the model runs one
    handler at a time, so nobody would release it). *)
Definition spin_lock_queue (st : malpage_state) : outcome malpage_state :=
  if report_queue_lock st then Err SelfDeadlock else Ret (set_queue_lock true st).
Definition spin_unlock_queue (st : malpage_state) : malpage_state := set_queue_lock false st.
Definition spin_lock_mmu (st : malpage_state) : outcome malpage_state :=
  if malpage_mmu_info_lock st then Err SelfDeadlock else Ret (set_mmu_lock true st).
Definition spin_unlock_mmu (st : malpage_state) : malpage_state := set_mmu_lock false st.

(** ** Processes *)

(** [for_each_process(task) { if (task->pid == procID) break; }]: the variable
    [task] afterwards.  The macro ends at [&init_task], so the variable is
    never null. *)
Fixpoint for_each_process (init : task_struct) (ts : list task_struct) (procID : Z)
    : option task_struct :=
  match ts with
  | [] => Some init
  | t :: ts' => if decide (task_pid t = procID) then Some t
                else for_each_process init ts' procID
  end.

(** [static void malpage_halt_process(struct task_struct *task)] *)
Definition malpage_halt_process (task : task_struct) (st : malpage_state) : malpage_state :=
  if decide (0 < task_pid task) then log (Signal SIGSTOP (task_pid task)) st else st.

(** [static void malpage_resume_process(struct task_struct *task)] *)
Definition malpage_resume_process (task : task_struct) (st : malpage_state) : malpage_state :=
  if decide (0 < task_pid task) then log (Signal SIGCONT (task_pid task)) st else st.

(** [static void malpage_kill_process(struct task_struct *task)] *)
Definition malpage_kill_process (task : task_struct) (st : malpage_state) : malpage_state :=
  if decide (0 < task_pid task) then log (Signal SIGKILL (task_pid task)) st else st.

(** [static int malpage_op_process(unsigned int op, unsigned int pid)] *)
Definition malpage_op_process (op pid : Z) (st : malpage_state) : Z * malpage_state :=
  match for_each_process (init_task st) (tasks st) (s32 pid) with
  | None => (-1, st)
  | Some task =>
      if decide (op = MALPAGE_RING_KILL) then (1, malpage_kill_process task st)
      else if decide (op = MALPAGE_RING_RESUME) then (1, malpage_resume_process task st)
      else if decide (op = MALPAGE_RING_HALT) then (1, malpage_halt_process task st)
      else (-1, st)
  end.

(** The signal of an operation. *)
Definition signal_of (op : Z) : option Z :=
  if decide (op = MALPAGE_RING_KILL) then Some SIGKILL
  else if decide (op = MALPAGE_RING_RESUME) then Some SIGCONT
  else if decide (op = MALPAGE_RING_HALT) then Some SIGSTOP
  else None.

(** ** Lemmas *)

Lemma log_all_nil st : log_all [] st = st.
Proof. destruct st. unfold log_all. simpl. by rewrite app_nil_r. Qed.

Lemma log_all_app es es' st : log_all es' (log_all es st) = log_all (es ++ es') st.
Proof. unfold log_all. simpl. by rewrite <-app_assoc. Qed.

Lemma log_log_all e st : log e st = log_all [e] st.
Proof. done. Qed.

Lemma for_each_process_found init ts t :
  t ∈ ts → ∃ t', for_each_process init ts (task_pid t) = Some t' ∧ t' ∈ ts ∧
    task_pid t' = task_pid t.
Proof.
  induction ts as [|u ts IH]; simpl; [set_solver|]. intros Ht.
  case_decide as E; [exists u; set_solver|].
  destruct IH as (t' & ? & ? & ?); [set_solver|]. exists t'. set_solver.
Qed.

Lemma for_each_process_missing init ts p :
  p ∉ task_pid <$> ts → for_each_process init ts p = Some init.
Proof.
  induction ts as [|u ts IH]; csimpl; [done|]. intros Hp.
  rewrite decide_False by set_solver. apply IH. set_solver.
Qed.

(** Signalling touches the event log only. *)
Lemma op_process_frame op pid st :
  ∃ es, (malpage_op_process op pid st).2 =
    mk_malpage_state (malpage_share_info st) (pages st) (malpage_mmu_info_lock st)
      (report_queue_lock st) (report_queue st) (thread_report_sem st) (init_task st) (tasks st)
      (events st ++ es).
Proof.
  assert (Hst : st = mk_malpage_state (malpage_share_info st) (pages st)
    (malpage_mmu_info_lock st) (report_queue_lock st) (report_queue st) (thread_report_sem st)
    (init_task st) (tasks st) (events st ++ [])) by (rewrite app_nil_r; by destruct st).
  unfold malpage_op_process, malpage_kill_process, malpage_resume_process, malpage_halt_process.
  repeat case_match; simpl; try (exists []; exact Hst); by eexists [_].
Qed.

(** What [malpage_op_process] does with an operation that has a signal. *)
Lemma op_process_run op pid sig st :
  signal_of op = Some sig → task_pid (init_task st) = 0 →
  Forall (λ t, 0 < task_pid t) (tasks st) →
  malpage_op_process op pid st =
    (1, if decide (s32 pid ∈ task_pid <$> tasks st) then log (Signal sig (s32 pid)) st else st).
Proof.
  intros Hop Hi Hts. rewrite Forall_forall in Hts. unfold malpage_op_process, signal_of in *.
  destruct (decide (s32 pid ∈ task_pid <$> tasks st)) as [Hin|Hin].
  - apply list_elem_of_fmap in Hin as (t & Et & Ht).
    destruct (for_each_process_found (init_task st) _ _ Ht) as (t' & E & Ht' & Hpid).
    rewrite Et, E. pose proof (Hts t' Ht').
    unfold malpage_kill_process, malpage_resume_process, malpage_halt_process.
    rewrite Hpid in *. repeat case_decide; simplify_eq; done.
  - rewrite for_each_process_missing by done.
    unfold malpage_kill_process, malpage_resume_process, malpage_halt_process.
    rewrite Hi. repeat case_decide; simplify_eq; done.
Qed.

(** ** Properties *)

(** [malpage_op_process] with one of KILL, RESUME and HALT sends exactly the
    signal of the operation to the process with that pid and returns 1; it
    changes nothing but the signal log.  When no process has the pid the guard
    for a null [task] does not help, since the task list ends at [init_task]
    (pid 0): no signal is sent, yet the function still answers 1, never -1. *)
Theorem op_process_correct op pid sig st :
  signal_of op = Some sig → task_pid (init_task st) = 0 →
  Forall (λ t, 0 < task_pid t) (tasks st) →
  malpage_op_process op pid st =
    (1, if decide (s32 pid ∈ task_pid <$> tasks st) then log (Signal sig (s32 pid)) st else st).
Proof. apply op_process_run. Qed.

Example toy_state : malpage_state :=
  mk_malpage_state None ∅ false false [] 0 (mk_task_struct 0 None)
    [mk_task_struct 1 None; mk_task_struct 77 None] [].

Lemma op_process_correct_witness :
  malpage_op_process MALPAGE_RING_KILL 77 toy_state = (1, log (Signal 9 77) toy_state) ∧
  malpage_op_process MALPAGE_RING_KILL 78 toy_state = (1, toy_state).
Proof.
  assert (H1 : Forall (λ t, 0 < task_pid t) (tasks toy_state))
    by (repeat constructor; simpl; lia).
  split.
  - apply (op_process_correct MALPAGE_RING_KILL 77 SIGKILL toy_state); done.
  - apply (op_process_correct MALPAGE_RING_KILL 78 SIGKILL toy_state); done.
Defined.
