(* ===== verification/MalHooks.v ===== *)
(** * The hooks the DomU driver puts into its kernel (drivers/xen/malpage/malpage.c)

    The page-fault hook, the page-table-update hook, the hooks that do
    nothing, and the address translations.  The kernel's address-space
    primitives are the methods of the class [AddrSpace]. *)

From S2P Require Import Prelude Protocol PageWalk MalState.

(** ** The kernel's address space *)

Class AddrSpace : Type := {
  (** [*ptep] *)
  read_pte : Z → Z;
  (** [pte_dirty], [pte_mfn] of <asm/pgtable.h> and <xen/page.h> *)
  pte_dirty : Z → bool;
  mfn_of_pte : Z → Z;
  virt_addr_valid : Z → bool;
  (** [virt_to_machine(v).maddr] *)
  virt_to_machine : Z → Z;
  (** [lookup_address(v, &level)], null when there is no entry *)
  lookup_address : Z → Z;
  mfn_to_pfn : Z → Z;
  (** [__va(paddr)] *)
  va_of_phys : Z → Z
}.

(** Page offsets survive translation, as <xen/page.h> documents it: a virtual
    address is translated by page, plus its offset in the page. *)
Class AddrSpaceLaws `{AddrSpace} : Prop := {
  virt_to_machine_offset : ∀ v, is_u64 v → virt_to_machine v mod PAGE_SIZE = v mod PAGE_SIZE
}.

(** ** Operations *)

Section hooks.
  Context `{AS : AddrSpace} `{RM : RingMacros}.

(** [unsigned offset = address & ~PAGE_MASK]; [PAGE_MASK] is [~(PAGE_SIZE-1)]. *)
Definition page_offset (address : Z) : Z := u32 (Z.land address (PAGE_SIZE - 1)).

(** [static xmaddr_t malpage_arb_virt_to_machine(void *vaddr)] *)
Definition malpage_arb_virt_to_machine (vaddr : Z) : outcome Z :=
  let address := vaddr in
  if virt_addr_valid vaddr then Ret (virt_to_machine vaddr)
  else
    let pte := lookup_address address in
    if decide (pte = NULL) then Err BugOn
    else
      let offset := page_offset address in
      Ret (u64 (u64 (Z.shiftl (mfn_of_pte (read_pte pte)) PAGE_SHIFT) + offset)).

(** [static unsigned long* malpage_machine_to_virt(unsigned long maddr)];
    [PFN_DOWN] and [PFN_PHYS] shift by [PAGE_SHIFT]. *)
Definition malpage_machine_to_virt (maddr : Z) : Z :=
  let offset := page_offset maddr in
  va_of_phys (Z.lor (u64 (Z.shiftl (mfn_to_pfn (Z.shiftr maddr PAGE_SHIFT)) PAGE_SHIFT)) offset).

(** [ring_req = RING_GET_REQUEST(fring, req_prod_pvt); ring_req->... = ...;
    req_prod_pvt += 1; RING_PUSH_REQUESTS(fring); notify_remote_via_irq(irq)],
    the body both reporting hooks share.  [fill] is the assignments to the
    slot, which keeps its other fields. *)
Definition push_request (fill : malpage_share_info_t → message → message) (st : malpage_state)
    : outcome malpage_state :=
  i ← share_info st;
  let f := fring i in
  s ← load_page st (front_sring f);
  let idx := ring_slot (req_prod_pvt f) in
  let s1 := set_slot s idx (fill i (slot s idx)) in
  let f1 := mk_as_front_ring (u32 (req_prod_pvt f + 1)) (rsp_cons f) (front_sring f) in
  let st1 := set_page (front_sring f) (RING_PUSH_REQUESTS f1 s1)
               (set_share_info (Some (set_fring f1 i)) st) in
  Ret (log (Notify (si_irq i)) st1).

(** [static int malpage_do_page_fault(task, address, error_code)] *)
Definition malpage_do_page_fault (task : task_struct) (address error_code : Z)
    (st : malpage_state) : outcome (Z * malpage_state) :=
  if decide (Z.land error_code MALPAGE_PF_INSTR ≠ 0 ∧ Z.land error_code MALPAGE_PF_USER ≠ 0 ∧
             Z.land error_code MALPAGE_PF_PROT = 0) then
    st1 ← push_request (λ i m, mk_message MALPAGE_RING_NXVIOLATION (pfn_gref m) (msg_pfn m)
             (u32 (task_pid task)) (si_domid i) (mmu_ptr m) address (mmu_val m)) st;
    Ret (0, st1)
  else Ret (0, st).

(** [static int malpage_multi_mmu_update(pte_t *ptep, pte_t pte)]; [current]
    is the running task. *)
Definition malpage_multi_mmu_update (current : task_struct) (ptep pte : Z)
    (st : malpage_state) : outcome (Z * malpage_state) :=
  if pte_dirty (read_pte ptep) then
    tmp_mptr ← malpage_arb_virt_to_machine ptep;
    let cmd := Z.land tmp_mptr MALPAGE_64_MMUPTR_TYPE_MASK in
    if decide (cmd = MMU_NORMAL_PT_UPDATE ∨ cmd = MMU_PT_UPDATE_PRESERVE_AD) then
      st1 ← spin_lock_mmu st;
      st2 ← push_request (λ i m, mk_message MALPAGE_RING_MMUUPDATE (pfn_gref m) (msg_pfn m)
               (u32 (task_pid current)) (si_domid i) ptep (fault_addr m) pte) st1;
      Ret (0, spin_unlock_mmu st2)
    else Ret (0, st)
  else Ret (0, st).

(** [static int malpage_mmu_update(req, count, success_count, domid)]: the
    body is commented out, both branches return 0. *)
Definition malpage_mmu_update (count : Z) (st : malpage_state) : Z * malpage_state :=
  if decide (count < 1 ∧ malpage_share_info st ≠ None) then (0, st) else (0, st).

(** The hooks that return 0 at once. *)
Definition malpage_mmuext_op (st : malpage_state) : Z * malpage_state := (0, st).
Definition malpage_multi_mmuext_op (st : malpage_state) : Z * malpage_state := (0, st).
Definition malpage_update_descriptor (st : malpage_state) : Z * malpage_state := (0, st).
Definition malpage_multi_update_descriptor (st : malpage_state) : Z * malpage_state := (0, st).

(** [static int malpage_update_va_mapping(va, new_val, flags)] and its [multi]
    twin only print the map count of the page. *)
Definition malpage_update_va_mapping (va : Z) (st : malpage_state) : Z * malpage_state :=
  if virt_addr_valid va then (0, st) else (0, st).
Definition malpage_multi_update_va_mapping (va : Z) (st : malpage_state) : Z * malpage_state :=
  if virt_addr_valid va then (0, st) else (0, st).

(** [static int malpage_flipnx_page(pte_t *ptep, pte_t pte)]: [return 0;//bailout]
    comes before the store of the no-execute flag. *)
Definition malpage_flipnx_page (ptep pte : Z) (st : malpage_state) : Z * malpage_state := (0, st).

(** ** The specification of a report to the monitor *)

(** [msg] is published as the next request: it fills the slot of the producer
    index, the index moves on privately and on the shared page, the other
    slots and indices stay, and the monitor's event channel is notified. *)
Definition reported (i : malpage_share_info_t) (s : sring) (msg : message) (st : malpage_state)
    : malpage_state :=
  let f := fring i in
  let prod := u32 (req_prod_pvt f + 1) in
  log (Notify (si_irq i))
    (set_page (front_sring f)
      (mk_sring prod (req_event s) (rsp_prod s) (rsp_event s)
        (<[ring_slot (req_prod_pvt f) := msg]> (ring s)))
      (set_share_info (Some (set_fring (mk_as_front_ring prod (rsp_cons f) (front_sring f)) i)) st)).

(** The state after [malpage_init]: registered, with a mapped ring page. *)
Definition connected (st : malpage_state) (i : malpage_share_info_t) (s : sring) : Prop :=
  malpage_share_info st = Some i ∧ front_sring (fring i) ≠ NULL ∧
  pages st !! front_sring (fring i) = Some s.

End hooks.

(** ** Lemmas *)

Lemma land_mask_mod a k : 0 ≤ k → Z.land a (2 ^ k - 1) = a mod 2 ^ k.
Proof. intros Hk. rewrite <-Z.land_ones by done. f_equal. rewrite Z.ones_equiv. lia. Qed.

Section hook_lemmas.
  Context `{ASL : AddrSpaceLaws} `{RL : RingLaws}.

Lemma page_offset_mod a : page_offset a = a mod PAGE_SIZE.
Proof.
  unfold page_offset. change (PAGE_SIZE - 1) with (2 ^ 12 - 1).
  rewrite land_mask_mod by lia. change PAGE_SIZE with (2 ^ 12).
  apply u32_small. pose proof (Z.mod_pos_bound a (2 ^ 12)). unfold is_u32. lia.
Qed.

(** Both translations keep the offset in the page. *)
Lemma arb_virt_to_machine_offset v m :
  is_u64 v → malpage_arb_virt_to_machine v = Ret m → m mod PAGE_SIZE = v mod PAGE_SIZE.
Proof.
  intros Hv. unfold malpage_arb_virt_to_machine. destruct (virt_addr_valid v).
  - intros [= <-]. by apply virt_to_machine_offset.
  - case_decide; [done|]. intros [= <-]. rewrite page_offset_mod.
    rewrite Z.shiftl_mul_pow2 by done. unfold u64, PAGE_SHIFT, PAGE_SIZE.
    change (2 ^ 64) with (4096 * 2 ^ 52). change (2 ^ 12) with 4096.
    generalize (mfn_of_pte (read_pte (lookup_address v))) as f. intros f.
    Z.div_mod_to_equations. lia.
Qed.

Lemma push_request_run fill st i s :
  connected st i s →
  push_request fill st =
    Ret (reported i s (fill i (slot s (ring_slot (req_prod_pvt (fring i))))) st).
Proof.
  intros (Hi & Hn & Hs). unfold push_request, share_info, load_page. rewrite Hi. simpl.
  rewrite decide_False by done. rewrite Hs. simpl. by rewrite RING_PUSH_REQUESTS_law.
Qed.

(** ** Properties *)

(** C24: the page-fault hook reports a fault to the monitor exactly when the
    error code has the instruction-fetch and user bits and not the protection
    bit; then it publishes one NXVIOLATION request with the faulting address,
    the domain and the process, and nothing else happens.  In particular a
    violation of the no-execute flag of a present page, for which the processor
    sets the protection bit, is never reported, although the comment says the
    test is for just that. *)
Theorem do_page_fault_correct task address error_code st i s :
  connected st i s →
  let old := slot s (ring_slot (req_prod_pvt (fring i))) in
  let has bit := Z.land error_code bit ≠ 0 in
  (has MALPAGE_PF_INSTR ∧ has MALPAGE_PF_USER ∧ ¬ has MALPAGE_PF_PROT →
   malpage_do_page_fault task address error_code st =
     Ret (0, reported i s (mk_message MALPAGE_RING_NXVIOLATION (pfn_gref old) (msg_pfn old)
       (u32 (task_pid task)) (si_domid i) (mmu_ptr old) address (mmu_val old)) st)) ∧
  (has MALPAGE_PF_PROT ∨ ¬ has MALPAGE_PF_INSTR ∨ ¬ has MALPAGE_PF_USER →
   malpage_do_page_fault task address error_code st = Ret (0, st)).
Proof.
  intros Hc old has. unfold malpage_do_page_fault, has. split.
  - intros (? & ? & ?%dec_stable). rewrite decide_True by done.
    by rewrite (push_request_run _ _ _ _ Hc).
  - intros Hn. rewrite decide_False; [done|]. tauto.
Qed.

(** C26: the page-table hook looks at the old entry: when it is dirty and the
    address of the entry translates, it publishes one MMUUPDATE request with
    the entry's address, its new value, the domain and the current process,
    and gives the lock back; since entries are 8-byte aligned, the two type
    bits it tests are always those of a normal update, so no dirty update is
    filtered out.  A clean entry is ignored. *)
Theorem multi_mmu_update_correct current ptep pte st i s maddr :
  connected st i s → malpage_mmu_info_lock st = false →
  is_u64 ptep → ptep mod 8 = 0 → malpage_arb_virt_to_machine ptep = Ret maddr →
  let old := slot s (ring_slot (req_prod_pvt (fring i))) in
  malpage_multi_mmu_update current ptep pte st =
    Ret (0, if pte_dirty (read_pte ptep)
            then reported i s (mk_message MALPAGE_RING_MMUUPDATE (pfn_gref old) (msg_pfn old)
                   (u32 (task_pid current)) (si_domid i) ptep (fault_addr old) pte) st
            else st).
Proof.
  intros Hc Hl Hp Ha Hm old. unfold malpage_multi_mmu_update.
  destruct (pte_dirty (read_pte ptep)); [|done]. rewrite Hm. simpl.
  assert (Hcmd : Z.land maddr MALPAGE_64_MMUPTR_TYPE_MASK = MMU_NORMAL_PT_UPDATE).
  { unfold MALPAGE_64_MMUPTR_TYPE_MASK. change 7 with (2 ^ 3 - 1). rewrite land_mask_mod by lia.
    pose proof (arb_virt_to_machine_offset _ _ Hp Hm) as Ho. unfold PAGE_SIZE in Ho.
    change (2 ^ 3) with 8. unfold MMU_NORMAL_PT_UPDATE. Z.div_mod_to_equations. lia. }
  rewrite decide_True by auto. unfold spin_lock_mmu. rewrite Hl. simpl.
  rewrite (push_request_run _ (set_mmu_lock true st) i s) by (by destruct Hc as (?&?&?)).
  simpl. do 2 f_equal. by destruct st; simpl in *; subst.
Qed.

End hook_lemmas.

(** A direct map in which machine addresses are virtual ones plus 1 MiB. *)
Definition toy_space : AddrSpace := {|
  read_pte p := 64;
  pte_dirty e := Z.testbit e 6;
  mfn_of_pte e := e / 4096;
  virt_addr_valid v := true;
  virt_to_machine v := v + 1048576;
  lookup_address v := NULL;
  mfn_to_pfn f := f;
  va_of_phys p := p
|}.

#[export] Instance toy_space_laws : @AddrSpaceLaws toy_space.
Proof. split. intros v _. simpl. unfold PAGE_SIZE. by rewrite <-(Z.mod_add v 256 4096) by lia. Qed.

Example toy_info : malpage_share_info_t :=
  mk_share_info 3 8 20 41 0 "uuid" (mk_as_front_ring 31 0 4096).
Example toy_page : sring := mk_sring 31 1 0 1 ∅.
Example toy_connected : malpage_state := set_page 4096 toy_page (set_share_info (Some toy_info) toy_state).

Lemma toy_connected_ok : connected toy_connected toy_info toy_page.
Proof. by vm_compute. Qed.

Lemma do_page_fault_correct_witness :
  @malpage_do_page_fault ring32 (mk_task_struct 77 None) 5000 20 toy_connected =
    Ret (0, @reported ring32 toy_info toy_page (mk_message 8 0 0 77 3 0 5000 0) toy_connected) ∧
  @malpage_do_page_fault ring32 (mk_task_struct 77 None) 5000 21 toy_connected =
    Ret (0, toy_connected).
Proof.
  destruct (@do_page_fault_correct ring32 ring32_laws (mk_task_struct 77 None) 5000 20
    toy_connected toy_info toy_page toy_connected_ok) as [H1 _].
  destruct (@do_page_fault_correct ring32 ring32_laws (mk_task_struct 77 None) 5000 21
    toy_connected toy_info toy_page toy_connected_ok) as [_ H2].
  split.
  - apply H1. split_and!; by vm_compute.
  - apply H2. left. by vm_compute.
Defined.

Lemma multi_mmu_update_correct_witness :
  @malpage_multi_mmu_update toy_space ring32 (mk_task_struct 77 None) 8192 67 toy_connected =
    Ret (0, @reported ring32 toy_info toy_page (mk_message 6 0 0 77 3 8192 0 67) toy_connected).
Proof.
  apply (@multi_mmu_update_correct toy_space toy_space_laws ring32 ring32_laws
    (mk_task_struct 77 None) 8192 67 toy_connected toy_info toy_page (8192 + 1048576)).
  - exact toy_connected_ok.
  - done.
  - vm_compute. split; done.
  - done.
  - done.
Defined.
