(* ===== verification/PageFault.v ===== *)
(** * The page-fault handler of the DomU kernel (arch/x86/mm/fault.c)

    [do_page_fault] of the patched kernel, on a 64-bit build, with the hook the
    driver installs, the checks before it and the ways a fault can end.  The
    state is what the handler holds of [mmap_sem], the driver's state behind
    the hook, and a log of what it does to the task.  Memory management,
    kprobes, kmmio, kmemcheck and the code bytes are the environment. *)

From S2P Require Import Prelude Protocol PageWalk MalState MalHooks.

(** ** Data *)

(** [enum x86_pf_error_code] *)
Definition PF_PROT : Z := Z.shiftl 1 0.
Definition PF_WRITE : Z := Z.shiftl 1 1.
Definition PF_USER : Z := Z.shiftl 1 2.
Definition PF_RSVD : Z := Z.shiftl 1 3.
Definition PF_INSTR : Z := Z.shiftl 1 4.

(** [error_code & mask] as a condition. *)
Definition has (error_code mask : Z) : bool := negb (bool_decide (Z.land error_code mask = 0)).

(** The fields of [struct pt_regs] the handler reads. *)
Record pt_regs : Type := mk_pt_regs { regs_ip : Z; regs_sp : Z; regs_cs : Z; regs_if : bool }.

(** A region, with the flags that are tested. *)
Record fault_vma : Type := mk_fault_vma {
  fv_start : Z; vm_read : bool; vm_write : bool; vm_exec : bool; vm_growsdown : bool
}.

(** What [handle_mm_fault] reports: the tests made on [VM_FAULT_...]. *)
Record vm_fault : Type := mk_vm_fault {
  vf_error : bool;     (** [VM_FAULT_ERROR] *)
  vf_oom : bool;       (** [VM_FAULT_OOM] *)
  vf_sigbus : bool;    (** [VM_FAULT_SIGBUS], [VM_FAULT_HWPOISON], [VM_FAULT_HWPOISON_LARGE] *)
  vf_hwpoison : bool;  (** the last two *)
  vf_major : bool;
  vf_retry : bool
}.

Inductive si_code : Type := SEGV_MAPERR | SEGV_ACCERR | BUS_ADRERR | BUS_MCEERR_AR.

(** What the handler does to the task and the machine. *)
Inductive kevent : Type :=
  | LocalIrqEnable
  | BadPageTable (address : Z) (killed : bool)  (** [pgtable_bad]: [oops_end] with [SIGKILL] exits the task *)
  | Oops (address : Z) (killed : bool)     (** [no_context]: the same *)
  | FixIp (address : Z)                    (** erratum 93: [regs->ip = address] *)
  | ThreadFault (cr2 error_code : Z)       (** [tsk->thread.cr2], [.error_code], [.trap_no = 14] *)
  | ForceSig (code : si_code) (address : Z)
  | OomKiller
  | SetPgd (address entry : Z)             (** [set_pgd(pgd, entry)] for this address *)
  | Accounted (major : bool).

Record kstate : Type := mk_kstate {
  mmap_sem : Z;                            (** how often this thread holds it for reading *)
  driver : malpage_state;
  kevents : list kevent
}.

Definition klog (es : list kevent) (s : kstate) : kstate :=
  mk_kstate (mmap_sem s) (driver s) (kevents s ++ es).
Definition down_read (s : kstate) : kstate := mk_kstate (mmap_sem s + 1) (driver s) (kevents s).
Definition up_read (s : kstate) : outcome kstate :=
  if decide (0 < mmap_sem s) then Ret (mk_kstate (mmap_sem s - 1) (driver s) (kevents s)) else Err BugOn.

(** What memory management answers during one attempt at the fault. *)
Record attempt : Type := mk_attempt {
  at_vma : option fault_vma;               (** [find_vma(mm, address)] *)
  at_expand : bool;                        (** [expand_stack] fails *)
  at_fault : vm_fault;                     (** [handle_mm_fault] *)
  at_fatal : bool                          (** [fatal_signal_pending(current)] *)
}.

(** An entry of the reference page table [init_mm.pgd]. *)
Record ref_entry : Type := mk_ref_entry {
  re_present : bool; re_large : bool; re_write : bool; re_exec : bool
}.

(** The page tables a fault on the kernel's mappings compares, by the accessors
    of <asm/pgtable.h>: [pud_at e a] is [*pud_offset(pgd, a)] where [*pgd] is
    [e], and so on below. *)
Record vm_tables : Type := mk_vm_tables {
  VMALLOC_START : Z;
  VMALLOC_END : Z;
  active_pgd : Z → Z;                      (** [*pgd_offset(current->active_mm, address)] *)
  reference_pgd : Z → Z;                   (** [*pgd_offset_k(address)] *)
  pud_at : Z → Z → Z; pmd_at : Z → Z → Z; pte_at : Z → Z → Z;
  vt_pgd_none : Z → bool; vt_pud_none : Z → bool; vt_pmd_none : Z → bool;
  vt_pgd_page_vaddr : Z → Z; vt_pud_page_vaddr : Z → Z; vt_pmd_page : Z → Z;
  vt_pte_present : Z → bool;
  vt_pte_pfn : Z → Z
}.

(** The rest of the kernel, which is not in the repository. *)
Record environment : Type := mk_environment {
  user_mode : pt_regs → bool;              (** [user_mode], [user_mode_vm] *)
  user_64bit_mode : pt_regs → bool;
  convert_ip_to_linear : pt_regs → Z;
  probe_kernel_address : Z → option Z;     (** a code byte, when it can be read *)
  TASK_SIZE_MAX : Z;
  TASK_SIZE : Z;
  VSYSCALL_START : Z;
  emulate_vsyscall : bool;
  user32_cs : Z;                           (** [__USER32_CS] *)
  kernel_text : Z → bool;                  (** between [_stext] and [_etext], or a module *)
  fixup_exception : bool;
  kmmio_handled : bool;                    (** [is_kmmio_active() && kmmio_handler(...) == 1] *)
  kprobe_handled : bool;                   (** [kprobe_running() && kprobe_fault_handler(regs, 14)] *)
  kmemcheck_handled : bool;                (** [kmemcheck_fault(regs, address, error_code)] *)
  kernel_tables : vm_tables;
  die : bool;                              (** [__die(...)] is not zero *)
  init_pgd : Z → bool;                     (** [pgd_present] of the reference page table *)
  init_pud : Z → ref_entry;
  init_pmd : Z → ref_entry;
  init_pte : Z → ref_entry;
  in_atomic : bool;
  sem_contended : bool;                    (** [!down_read_trylock(&mm->mmap_sem)] *)
  exception_entry : bool;                  (** [search_exception_tables(regs->ip)] *)
  first_try : attempt;
  second_try : attempt
}.

(** ** Operations *)

Section page_fault.
  Context (E : environment).
  (** [int ( *kmalpage_do_page_fault)(tsk, address, error_code)], null until
      the driver is loaded *)
  Context (kmalpage_do_page_fault : option (task_struct → Z → Z → malpage_state → outcome (Z * malpage_state))).

(** [static noinline int vmalloc_fault(unsigned long address)] from the level
    below the top on, and the whole; a warning is only printed. *)
Definition vmalloc_below (pgd pgd_ref address : Z) (s : kstate) : outcome (Z * kstate) :=
  let V := kernel_tables E in
  let pud := pud_at V pgd address in
  let pud_ref := pud_at V pgd_ref address in
  if vt_pud_none V pud_ref then Ret (-1, s)
  else if decide (vt_pud_none V pud = true ∨ vt_pud_page_vaddr V pud ≠ vt_pud_page_vaddr V pud_ref) then Err BugOn
  else
    let pmd := pmd_at V pud address in
    let pmd_ref := pmd_at V pud_ref address in
    if vt_pmd_none V pmd_ref then Ret (-1, s)
    else if decide (vt_pmd_none V pmd = true ∨ vt_pmd_page V pmd ≠ vt_pmd_page V pmd_ref) then Err BugOn
    else
      let pte_ref := pte_at V pmd_ref address in
      if negb (vt_pte_present V pte_ref) then Ret (-1, s)
      else
        let pte := pte_at V pmd address in
        if decide (vt_pte_present V pte = false ∨ vt_pte_pfn V pte ≠ vt_pte_pfn V pte_ref) then Err BugOn
        else Ret (0, s).
Definition vmalloc_fault (address : Z) (s : kstate) : outcome (Z * kstate) :=
  let V := kernel_tables E in
  if negb (bool_decide (VMALLOC_START V ≤ address) && bool_decide (address < VMALLOC_END V)) then Ret (-1, s)
  else
    let pgd := active_pgd V address in
    let pgd_ref := reference_pgd V address in
    if vt_pgd_none V pgd_ref then Ret (-1, s)
    else if vt_pgd_none V pgd then vmalloc_below pgd_ref pgd_ref address (klog [SetPgd address pgd_ref] s)
    else if decide (vt_pgd_page_vaddr V pgd ≠ vt_pgd_page_vaddr V pgd_ref) then Err BugOn
    else vmalloc_below pgd pgd_ref address s.

(** [static inline int kmmio_fault(regs, addr)] *)
Definition kmmio_fault : Z := if kmmio_handled E then -1 else 0.

(** [static inline int notify_page_fault(struct pt_regs *regs)] *)
Definition notify_page_fault (regs : pt_regs) : Z :=
  if negb (user_mode E regs) then if kprobe_handled E then 1 else 0 else 0.

(** [static inline int check_prefetch_opcode(regs, instr, opcode, prefetch)]:
    whether to go on, and [*prefetch]. *)
Definition check_prefetch_opcode (regs : pt_regs) (instr opcode : Z) (prefetch : bool) : bool * bool :=
  let instr_hi := Z.land opcode 0xf0 in
  let instr_lo := Z.land opcode 0x0f in
  if decide (instr_hi = 0x20 ∨ instr_hi = 0x30) then (bool_decide (Z.land instr_lo 7 = 6), prefetch)
  else if decide (instr_hi = 0x40) then (negb (user_mode E regs) || user_64bit_mode E regs, prefetch)
  else if decide (instr_hi = 0x60) then (bool_decide (Z.land instr_lo 0xC = 4), prefetch)
  else if decide (instr_hi = 0xF0) then
    (bool_decide (instr_lo = 0) || bool_decide (Z.shiftr instr_lo 1 = 1), prefetch)
  else if decide (instr_hi = 0) then
    match probe_kernel_address E instr with
    | None => (false, prefetch)
    | Some opcode' => (false, bool_decide (instr_lo = 0xF) &&
                              (bool_decide (opcode' = 0x0D) || bool_decide (opcode' = 0x18)))
    end
  else (false, prefetch).

(** [while (instr < max_instr) { ... }] of [is_prefetch], [n] bytes left. *)
Fixpoint is_prefetch_loop (n : nat) (regs : pt_regs) (instr : Z) (prefetch : bool) : bool :=
  match n with
  | O => prefetch
  | S n' =>
      match probe_kernel_address E instr with
      | None => prefetch
      | Some opcode =>
          let '(go, prefetch') := check_prefetch_opcode regs (instr + 1) opcode prefetch in
          if go then is_prefetch_loop n' regs (instr + 1) prefetch' else prefetch'
      end
  end.

(** [static int is_prefetch(regs, error_code, addr)] *)
Definition is_prefetch (regs : pt_regs) (error_code : Z) : bool :=
  if has error_code PF_INSTR then false
  else
    let instr := convert_ip_to_linear E regs in
    if user_mode E regs && bool_decide (TASK_SIZE E ≤ instr) then false
    else is_prefetch_loop 15 regs instr false.

(** [static int is_errata93(regs, address)], [is_errata100], [is_f00f_bug] of
    a 64-bit build *)
Definition is_errata93 (regs : pt_regs) (address : Z) (s : kstate) : bool * kstate :=
  if decide (address ≠ regs_ip regs) then (false, s)
  else if decide (Z.shiftr address 32 ≠ 0) then (false, s)
  else
    let address := Z.lor address (Z.shiftl 0xffffffff 32) in
    if kernel_text E address then (true, klog [FixIp address] s) else (false, s).
Definition is_errata100 (regs : pt_regs) (address : Z) : bool :=
  (bool_decide (regs_cs regs = user32_cs E) || has (regs_cs regs) (Z.shiftl 1 2)) &&
  negb (bool_decide (Z.shiftr address 32 = 0)).
Definition is_f00f_bug : bool := false.

(** [static noinline void pgtable_bad(regs, error_code, address)] *)
Definition pgtable_bad (error_code address : Z) (s : kstate) : kstate :=
  klog [ThreadFault address error_code; BadPageTable address (negb (die E))] s.

(** [static noinline void no_context(regs, error_code, address)] *)
Definition no_context (regs : pt_regs) (error_code address : Z) (s : kstate) : kstate :=
  if fixup_exception E then s
  else if is_prefetch regs error_code then s
  else
    let '(b, s1) := is_errata93 regs address s in
    if b then s1 else klog [ThreadFault address error_code; Oops address (negb (die E))] s1.

(** [static void __bad_area_nosemaphore(regs, error_code, address, si_code)] *)
Definition __bad_area_nosemaphore (regs : pt_regs) (error_code address : Z) (code : si_code) (s : kstate)
    : kstate :=
  if has error_code PF_USER then
    let s := klog [LocalIrqEnable] s in
    if is_prefetch regs error_code then s
    else if is_errata100 regs address then s
    else if has error_code PF_INSTR && bool_decide (Z.ldiff address 0xfff = VSYSCALL_START E) &&
            emulate_vsyscall E then s
    else klog [ThreadFault address (Z.lor error_code (Z.b2z (bool_decide (TASK_SIZE E ≤ address))));
               ForceSig code address] s
  else if is_f00f_bug then s
  else no_context regs error_code address s.

(** [bad_area_nosemaphore], [__bad_area], [bad_area], [bad_area_access_error] *)
Definition bad_area_nosemaphore (regs : pt_regs) (error_code address : Z) (s : kstate) : kstate :=
  __bad_area_nosemaphore regs error_code address SEGV_MAPERR s.
Definition __bad_area (regs : pt_regs) (error_code address : Z) (code : si_code) (s : kstate)
    : outcome kstate :=
  s1 ← up_read s; Ret (__bad_area_nosemaphore regs error_code address code s1).
Definition bad_area (regs : pt_regs) (error_code address : Z) (s : kstate) : outcome kstate :=
  __bad_area regs error_code address SEGV_MAPERR s.
Definition bad_area_access_error (regs : pt_regs) (error_code address : Z) (s : kstate) : outcome kstate :=
  __bad_area regs error_code address SEGV_ACCERR s.

(** [static void out_of_memory(regs, error_code, address)] *)
Definition out_of_memory (s : kstate) : outcome kstate :=
  s1 ← up_read s; Ret (klog [OomKiller] s1).

(** [static void do_sigbus(regs, error_code, address, fault)] *)
Definition do_sigbus (regs : pt_regs) (error_code address : Z) (fault : vm_fault) (s : kstate)
    : outcome kstate :=
  s1 ← up_read s;
  if negb (has error_code PF_USER) then Ret (no_context regs error_code address s1)
  else if is_prefetch regs error_code then Ret s1
  else Ret (klog [ThreadFault address error_code;
                  ForceSig (if vf_hwpoison fault then BUS_MCEERR_AR else BUS_ADRERR) address] s1).

(** [static noinline int mm_fault_error(regs, error_code, address, fault)] *)
Definition mm_fault_error (fatal : bool) (regs : pt_regs) (error_code address : Z) (fault : vm_fault)
    (s : kstate) : outcome (Z * kstate) :=
  if fatal then
    s1 ← (if negb (vf_retry fault) then up_read s else Ret s);
    Ret (1, if negb (has error_code PF_USER) then no_context regs error_code address s1 else s1)
  else if negb (vf_error fault) then Ret (0, s)
  else if vf_oom fault then
    if negb (has error_code PF_USER) then
      s1 ← up_read s; Ret (1, no_context regs error_code address s1)
    else s1 ← out_of_memory s; Ret (1, s1)
  else if vf_sigbus fault then s1 ← do_sigbus regs error_code address fault s; Ret (1, s1)
  else Err BugOn.

(** [static int spurious_fault_check(error_code, pte)] *)
Definition spurious_fault_check (error_code : Z) (e : ref_entry) : bool :=
  if has error_code PF_WRITE && negb (re_write e) then false
  else if has error_code PF_INSTR && negb (re_exec e) then false
  else true.

(** [static noinline int spurious_fault(error_code, address)] *)
Definition spurious_fault (error_code address : Z) : bool :=
  if has error_code (Z.lor PF_USER PF_RSVD) then false
  else if negb (init_pgd E address) then false
  else if negb (re_present (init_pud E address)) then false
  else if re_large (init_pud E address) then spurious_fault_check error_code (init_pud E address)
  else if negb (re_present (init_pmd E address)) then false
  else if re_large (init_pmd E address) then spurious_fault_check error_code (init_pmd E address)
  else if negb (re_present (init_pte E address)) then false
  else if spurious_fault_check error_code (init_pte E address)
       then spurious_fault_check error_code (init_pmd E address) else false.

(** [static inline int access_error(error_code, vma)] *)
Definition access_error (error_code : Z) (vma : fault_vma) : bool :=
  if has error_code PF_WRITE then negb (vm_write vma)
  else if has error_code PF_PROT then true
  else negb (vm_read vma || vm_exec vma || vm_write vma).

(** [static int fault_in_kernel_space(address)] *)
Definition fault_in_kernel_space (address : Z) : bool := bool_decide (TASK_SIZE_MAX E ≤ address).

(** [handle_mm_fault(mm, vma, address, flags)] drops [mmap_sem] when it asks
    for a retry. *)
Definition handle_mm_fault (fault : vm_fault) (s : kstate) : outcome kstate :=
  if vf_retry fault then up_read s else Ret s.

(** The label [good_area] up to the retry: [inl] to go back to [retry]. *)
Definition good_area (a : attempt) (allow_retry : bool) (tsk : task_struct) (regs : pt_regs)
    (error_code address : Z) (vma : fault_vma) (s : kstate) : outcome (kstate + kstate) :=
  if access_error error_code vma then inr <$> bad_area_access_error regs error_code address s
  else
    s1 ← match kmalpage_do_page_fault with
         | Some hook => r ← hook tsk address error_code (driver s);
                        Ret (mk_kstate (mmap_sem s) r.2 (kevents s))
         | None => Ret s
         end;
    let fault := at_fault a in
    s2 ← handle_mm_fault fault s1;
    '(done_, s3) ← (if vf_retry fault || vf_error fault
                    then mm_fault_error (at_fatal a) regs error_code address fault s2 else Ret (0, s2));
    if decide (done_ ≠ 0) then Ret (inr s3)
    else if allow_retry then
      let s4 := klog [Accounted (vf_major fault)] s3 in
      if vf_retry fault then Ret (inl s4) else inr <$> up_read s4
    else inr <$> up_read s3.

(** From [vma = find_vma(mm, address)] on. *)
Definition try_fault (a : attempt) (allow_retry : bool) (tsk : task_struct) (regs : pt_regs)
    (error_code address : Z) (s : kstate) : outcome (kstate + kstate) :=
  match at_vma a with
  | None => inr <$> bad_area regs error_code address s
  | Some vma =>
      if decide (fv_start vma ≤ address) then good_area a allow_retry tsk regs error_code address vma s
      else if negb (vm_growsdown vma) then inr <$> bad_area regs error_code address s
      else if has error_code PF_USER && bool_decide (u64 (address + 65536 + 32 * 8) < regs_sp regs) then
        inr <$> bad_area regs error_code address s
      else if at_expand a then inr <$> bad_area regs error_code address s
      else good_area a allow_retry tsk regs error_code address vma s
  end.

(** [retry:], with [FAULT_FLAG_ALLOW_RETRY] set the first time only. *)
Definition fault_loop (tsk : task_struct) (regs : pt_regs) (error_code address : Z) (s : kstate)
    : outcome kstate :=
  r ← try_fault (first_try E) true tsk regs error_code address s;
  match r with
  | inr s1 => Ret s1
  | inl s1 =>
      r2 ← try_fault (second_try E) false tsk regs error_code address (down_read s1);
      match r2 with inr s2 => Ret s2 | inl _ => Err BugOn end
  end.

(** [dotraplinkage void do_page_fault(struct pt_regs *regs, unsigned long
    error_code)]: [tsk] is [current], [address] the content of [cr2].
    A killed task does not return from [pgtable_bad]. *)
Definition do_page_fault (tsk : task_struct) (address : Z) (regs : pt_regs) (error_code : Z) (s : kstate)
    : outcome kstate :=
  if decide (kmmio_fault ≠ 0) then Ret s
  else if fault_in_kernel_space address then
    let no_table := negb (has error_code (Z.lor PF_RSVD (Z.lor PF_USER PF_PROT))) in
    '(synced, s) ← (if no_table then vmalloc_fault address s else Ret (-1, s));
    if decide (0 ≤ synced) then Ret s
    else if no_table && kmemcheck_handled E then Ret s
    else if spurious_fault error_code address then Ret s
    else if decide (notify_page_fault regs ≠ 0) then Ret s
    else Ret (bad_area_nosemaphore regs error_code address s)
  else if decide (notify_page_fault regs ≠ 0) then Ret s
  else
    let '(error_code, s) :=
      if user_mode E regs then (Z.lor error_code PF_USER, klog [LocalIrqEnable] s)
      else if regs_if regs then (error_code, klog [LocalIrqEnable] s) else (error_code, s) in
    let s := if has error_code PF_RSVD then pgtable_bad error_code address s else s in
    if has error_code PF_RSVD && negb (die E) then Ret s
    else if in_atomic E || negb (bool_decide (is_Some (mm tsk)))
    then Ret (bad_area_nosemaphore regs error_code address s)
    else if sem_contended E && negb (has error_code PF_USER) && negb (exception_entry E)
    then Ret (bad_area_nosemaphore regs error_code address s)
    else fault_loop tsk regs error_code address (down_read s).

End page_fault.

(** ** Specification *)

(** What memory management documents: an error is one of the known ones, a
    retry is asked for without an error. *)
Definition fault_sane (f : vm_fault) : Prop :=
  (vf_error f = true → vf_oom f = true ∨ vf_sigbus f = true) ∧ (vf_retry f = true → vf_error f = false).

(** Nothing outside memory management interferes with the fault of a user
    access. *)
Record undisturbed (E : environment) (regs : pt_regs) (tsk : task_struct) (address : Z) : Prop :=
  mk_undisturbed {
    un_user : user_mode E regs = true;
    un_kmmio : kmmio_handled E = false;
    un_range : address < TASK_SIZE_MAX E;
    un_task : address < TASK_SIZE E;
    un_atomic : in_atomic E = false;
    un_mm : is_Some (mm tsk);
    un_errata : is_errata100 E regs address = false;
    un_vsyscall : Z.ldiff address 0xfff ≠ VSYSCALL_START E
  }.

(** The kernel's part of every process's table comes from the reference: where
    the top levels have an entry, they have the same; and what an accessor reads
    depends on the table an entry leads to. *)
Record tables_shared (V : vm_tables) : Prop := mk_tables_shared {
  ts_top : ∀ a, vt_pgd_none V (active_pgd V a) = false → vt_pgd_none V (reference_pgd V a) = false →
    vt_pgd_page_vaddr V (active_pgd V a) = vt_pgd_page_vaddr V (reference_pgd V a);
  ts_pud : ∀ e e' a, vt_pgd_page_vaddr V e = vt_pgd_page_vaddr V e' → pud_at V e a = pud_at V e' a
}.

(** The reference table maps the address. *)
Definition reference_maps (V : vm_tables) (a : Z) : bool :=
  let pud := pud_at V (reference_pgd V a) a in
  let pmd := pmd_at V pud a in
  negb (vt_pgd_none V (reference_pgd V a)) && negb (vt_pud_none V pud) && negb (vt_pmd_none V pmd) &&
  vt_pte_present V (pte_at V pmd a).

(** The attempt finds a region that holds the address. *)
Definition in_region (a : attempt) (address : Z) (vma : fault_vma) : Prop :=
  at_vma a = Some vma ∧ fv_start vma ≤ address.

(** ** Lemmas *)

Lemma has_bit c k : 0 ≤ k → has c (Z.shiftl 1 k) = Z.testbit c k.
Proof.
  intros Hk. unfold has. pose proof (land_bit_0 c k Hk) as Hb.
  case_bool_decide as H0; destruct (Z.testbit c k); naive_solver.
Qed.

(** Setting another bit does not change a test. *)
Lemma has_lor c k n : 0 ≤ k → 0 ≤ n → n ≠ k →
  has (Z.lor c (Z.shiftl 1 n)) (Z.shiftl 1 k) = has c (Z.shiftl 1 k).
Proof.
  intros Hk Hn Hne. rewrite !has_bit by done. rewrite Z.lor_spec, Z.shiftl_1_l.
  by rewrite Z.pow2_bits_false, orb_false_r.
Qed.

Lemma has_lor_same c k : 0 ≤ k → has (Z.lor c (Z.shiftl 1 k)) (Z.shiftl 1 k) = true.
Proof.
  intros Hk. rewrite has_bit by done. by rewrite Z.lor_spec, Z.shiftl_1_l, Z.pow2_bits_true, orb_true_r.
Qed.

Section page_fault_lemmas.
  Context (E : environment).
  Context (hook : option (task_struct → Z → Z → malpage_state → outcome (Z * malpage_state))).
  Implicit Types s : kstate.

(** Only the log differs. *)
Definition logged (s s' : kstate) : Prop := mmap_sem s' = mmap_sem s ∧ driver s' = driver s.

Lemma klog_logged es s : logged s (klog es s).
Proof. done. Qed.

Lemma logged_trans s1 s2 s3 : logged s1 s2 → logged s2 s3 → logged s1 s3.
Proof. intros [??] [??]. split; congruence. Qed.

Lemma no_context_logged regs c a s : logged s (no_context E regs c a s).
Proof.
  unfold no_context, is_errata93. repeat case_match; simplify_eq; repeat case_decide; simplify_eq; done.
Qed.

Lemma bad_area_nosemaphore_logged regs c a code s : logged s (__bad_area_nosemaphore E regs c a code s).
Proof.
  unfold __bad_area_nosemaphore. cbn [is_f00f_bug]. repeat case_match; try done. apply no_context_logged.
Qed.

(** Between tables that are the same no check fails. *)
Lemma vmalloc_below_run g k a s :
  pud_at (kernel_tables E) g a = pud_at (kernel_tables E) k a → vt_pgd_none (kernel_tables E) k = false →
  reference_pgd (kernel_tables E) a = k →
  vmalloc_below E g k a s = Ret (if reference_maps (kernel_tables E) a then 0 else -1, s).
Proof.
  intros Hp Hk <-. unfold vmalloc_below, reference_maps. rewrite Hp, Hk. cbn [negb andb].
  destruct (vt_pud_none _ _) eqn:E1; [done|]. rewrite decide_False by naive_solver.
  destruct (vt_pmd_none _ _) eqn:E2; [done|]. rewrite decide_False by naive_solver.
  destruct (vt_pte_present _ _) eqn:E3; [|done]. by rewrite decide_False by naive_solver.
Qed.

(** With shared tables the kernel's part of a table is completed on demand. *)
Lemma vmalloc_fault_run a s : tables_shared (kernel_tables E) →
  let V := kernel_tables E in
  vmalloc_fault E a s =
    if decide (VMALLOC_START V ≤ a < VMALLOC_END V ∧ vt_pgd_none V (reference_pgd V a) = false) then
      Ret (if reference_maps V a then 0 else -1,
           if vt_pgd_none V (active_pgd V a) then klog [SetPgd a (reference_pgd V a)] s else s)
    else Ret (-1, s).
Proof.
  intros [Htop Hpud]. cbv zeta. unfold vmalloc_fault.
  destruct (bool_decide_reflect (VMALLOC_START (kernel_tables E) ≤ a)); [|cbn [andb negb]; by rewrite decide_False by tauto].
  destruct (bool_decide_reflect (a < VMALLOC_END (kernel_tables E))); [|cbn [andb negb]; by rewrite decide_False by tauto]. cbn [andb negb].
  destruct (vt_pgd_none _ (reference_pgd _ a)) eqn:Ek; [by rewrite decide_False by naive_solver|].
  rewrite (decide_True (P := _ ∧ _)) by done.
  destruct (vt_pgd_none _ (active_pgd _ a)) eqn:Eg; [by apply vmalloc_below_run|].
  rewrite decide_False by (intros Hn; by apply Hn, Htop). apply vmalloc_below_run; [|done|done]. by apply Hpud, Htop.
Qed.

Lemma kernel_prologue (b : bool) a s : tables_shared (kernel_tables E) →
  ∃ r s', (if b then vmalloc_fault E a s else Ret (-1, s)) = Ret (r, s') ∧ logged s s'.
Proof.
  intros Hv. destruct b; [|by exists (-1), s]. rewrite vmalloc_fault_run by done.
  case_decide; [|by exists (-1), s]. eexists _, _. split; [reflexivity|]. by case_match.
Qed.

Lemma vmalloc_fault_logged a s r s' : vmalloc_fault E a s = Ret (r, s') → logged s s'.
Proof.
  unfold vmalloc_fault, vmalloc_below. intros Hr. repeat case_match; simplify_eq; done.
Qed.

Lemma up_read_run s :
  0 < mmap_sem s → up_read s = Ret (mk_kstate (mmap_sem s - 1) (driver s) (kevents s)).
Proof. intros Hs. unfold up_read. by rewrite decide_True. Qed.

(** The semaphore is given back once, and the driver does not notice. *)
Definition released (s s' : kstate) : Prop := mmap_sem s' = mmap_sem s - 1 ∧ driver s' = driver s.

Lemma released_logged s s1 s2 : released s s1 → logged s1 s2 → released s s2.
Proof. intros [??] [??]. split; congruence. Qed.

Lemma bad_area_run regs c a code s :
  0 < mmap_sem s → ∃ s', __bad_area E regs c a code s = Ret s' ∧ released s s'.
Proof.
  intros Hs. unfold __bad_area. rewrite up_read_run by done. eexists. split; [reflexivity|].
  eapply released_logged; [|apply bad_area_nosemaphore_logged]. done.
Qed.

Lemma do_sigbus_run regs c a f s :
  0 < mmap_sem s → ∃ s', do_sigbus E regs c a f s = Ret s' ∧ released s s'.
Proof.
  intros Hs. unfold do_sigbus. rewrite up_read_run by done. cbn [mbind outcome_bind].
  repeat case_match; eexists; (split; [reflexivity|]); try done.
  eapply released_logged; [|apply no_context_logged]. done.
Qed.

(** A fault that ends the attempt has given the semaphore back. *)
Lemma mm_fault_error_run fatal regs c a f s :
  fault_sane f → (vf_retry f = false → 0 < mmap_sem s) →
  ∃ d s', mm_fault_error E fatal regs c a f s = Ret (d, s') ∧ driver s' = driver s ∧
    (d ≠ 0 → mmap_sem s' = if vf_retry f then mmap_sem s else mmap_sem s - 1) ∧
    (d = 0 → s' = s ∧ fatal = false ∧ vf_error f = false).
Proof.
  intros [Hse Hsr] Hs. unfold mm_fault_error. destruct fatal.
  - destruct (vf_retry f).
    + cbn [negb mbind outcome_bind]. destruct (no_context_logged regs c a s).
      eexists _, _. split; [reflexivity|]. by destruct (negb _).
    + rewrite up_read_run by auto. cbn [negb mbind outcome_bind].
      destruct (no_context_logged regs c a (mk_kstate (mmap_sem s - 1) (driver s) (kevents s))).
      eexists _, _. split; [reflexivity|]. by destruct (negb _).
  - destruct (vf_error f) eqn:Ee; cbn [negb]; [|eexists _, _; split; [reflexivity|]; by auto].
    assert (Hr : vf_retry f = false) by (destruct (vf_retry f); [by specialize (Hsr eq_refl)|done]).
    rewrite Hr in *. specialize (Hs eq_refl).
    destruct (vf_oom f) eqn:Eo.
    + unfold out_of_memory. rewrite up_read_run by done. cbn [mbind outcome_bind].
      destruct (no_context_logged regs c a (mk_kstate (mmap_sem s - 1) (driver s) (kevents s))).
      destruct (negb _); eexists _, _; (split; [reflexivity|]); done.
    + destruct (Hse eq_refl) as [|Hb]; [done|]. rewrite Hb.
      destruct (do_sigbus_run regs c a f s Hs) as (s' & Es & ? & ?). rewrite Es. cbn [mbind outcome_bind].
      eexists _, _; split; [reflexivity|]. done.
Qed.

(** Where an attempt may leave the handler: at [retry] without the semaphore,
    or at the end. *)
Definition attempted (s : kstate) (allow : bool) (r : kstate + kstate) : Prop :=
  match r with
  | inl s' => mmap_sem s' = mmap_sem s - 1 ∧ allow = true
  | inr s' => mmap_sem s' = mmap_sem s - 1
  end.

Lemma bad_area_attempted regs c a code allow s :
  0 < mmap_sem s → ∃ r, inr <$> __bad_area E regs c a code s = Ret r ∧ attempted s allow r.
Proof.
  intros Hs. destruct (bad_area_run regs c a code s Hs) as (s' & Eq & Hr & _).
  rewrite Eq. cbn. by eexists.
Qed.

Lemma good_area_run at_ allow tsk regs c a vma s :
  0 < mmap_sem s → fault_sane (at_fault at_) →
  (∀ h st, hook = Some h → ∃ r, h tsk a c st = Ret r) →
  (allow = false → vf_retry (at_fault at_) = false) →
  ∃ r, good_area E hook at_ allow tsk regs c a vma s = Ret r ∧ attempted s allow r.
Proof.
  intros Hs Hf Hh Ha. unfold good_area. destruct (access_error c vma); [by apply bad_area_attempted|].
  set (s1 := match hook with Some _ => _ | None => _ end).
  assert (Hs1 : ∃ s', s1 = Ret s' ∧ mmap_sem s' = mmap_sem s).
  { unfold s1. destruct hook as [h|]; [|by exists s].
    destruct (Hh h (driver s) eq_refl) as [r Er]. rewrite Er. by eexists. }
  destruct Hs1 as (s1' & -> & Hm). cbn [mbind outcome_bind]. unfold handle_mm_fault.
  destruct (vf_retry (at_fault at_)) eqn:Er.
  - rewrite up_read_run by lia. cbn [mbind outcome_bind orb].
    destruct (mm_fault_error_run (at_fatal at_) regs c a (at_fault at_)
      (mk_kstate (mmap_sem s1' - 1) (driver s1') (kevents s1'))) as (d & s3 & Em & _ & Hd1 & Hd2);
      [done|by rewrite Er|].
    rewrite Em. cbn [mbind outcome_bind]. rewrite Er in Hd1.
    destruct (decide (d ≠ 0)) as [Hd|Hd].
    + eexists. split; [reflexivity|]. simpl. rewrite Hd1 by done. simpl. lia.
    + destruct allow; [|by specialize (Ha eq_refl)]. apply dec_stable, Hd2 in Hd as [-> _].
      eexists. split; [reflexivity|]. simpl. split; [lia|done].
  - cbn [mbind outcome_bind orb].
    assert (Hm2 : ∃ d s3,
      (if vf_error (at_fault at_) then mm_fault_error E (at_fatal at_) regs c a (at_fault at_) s1'
       else Ret (0, s1')) = Ret (d, s3) ∧
      (d ≠ 0 → mmap_sem s3 = mmap_sem s - 1) ∧ (d = 0 → mmap_sem s3 = mmap_sem s)).
    { destruct (vf_error (at_fault at_)); [|exists 0, s1'; done].
      destruct (mm_fault_error_run (at_fatal at_) regs c a (at_fault at_) s1' Hf) as (d & s3 & Em & _ & H1 & H2);
        [intros; lia|]. rewrite Em, Er in *. eexists _, _. split; [reflexivity|]. split.
      - intros Hd. rewrite H1 by done. lia.
      - intros Hd. by apply H2 in Hd as [-> _]. }
    destruct Hm2 as (d & s3 & -> & H1 & H2). cbn [mbind outcome_bind].
    destruct (decide (d ≠ 0)) as [Hd|Hd]; [eexists; split; [reflexivity|]; by apply H1|].
    apply dec_stable in Hd. specialize (H2 Hd).
    destruct allow; rewrite up_read_run by (simpl; lia); cbn; (eexists; split; [reflexivity|]); simpl; lia.
Qed.

Lemma try_fault_run at_ allow tsk regs c a s :
  0 < mmap_sem s → fault_sane (at_fault at_) →
  (∀ h st, hook = Some h → ∃ r, h tsk a c st = Ret r) →
  (allow = false → vf_retry (at_fault at_) = false) →
  ∃ r, try_fault E hook at_ allow tsk regs c a s = Ret r ∧ attempted s allow r.
Proof.
  intros Hs Hf Hh Ha. unfold try_fault, bad_area. destruct (at_vma at_) as [vma|].
  - case_decide; [by apply good_area_run|].
    repeat (case_match; [by apply bad_area_attempted|]). by apply good_area_run.
  - by apply bad_area_attempted.
Qed.

Lemma fault_loop_run tsk regs c a s :
  0 < mmap_sem s → fault_sane (at_fault (first_try E)) → fault_sane (at_fault (second_try E)) →
  vf_retry (at_fault (second_try E)) = false →
  (∀ h st, hook = Some h → ∃ r, h tsk a c st = Ret r) →
  ∃ s', fault_loop E hook tsk regs c a s = Ret s' ∧ mmap_sem s' = mmap_sem s - 1.
Proof.
  intros Hs H1 H2 Hr Hh. unfold fault_loop.
  destruct (try_fault_run (first_try E) true tsk regs c a s) as (r & Er & Hat); try done.
  rewrite Er. cbn [mbind outcome_bind]. destruct r as [s1|s1]; [|by exists s1].
  destruct Hat as [Hm _].
  destruct (try_fault_run (second_try E) false tsk regs c a (down_read s1)) as (r2 & Er2 & Hat2); try done.
  { simpl. lia. }
  rewrite Er2. cbn [mbind outcome_bind]. destruct r2 as [s2|s2]; [by destruct Hat2|].
  exists s2. split; [done|]. simpl in Hat2. lia.
Qed.

(** Of the parts of an attempt only the hook touches the driver. *)
Lemma good_area_refused at_ allow tsk regs c a vma s r :
  access_error c vma = true → good_area E hook at_ allow tsk regs c a vma s = Ret r →
  ∃ s', r = inr s' ∧ driver s' = driver s.
Proof.
  intros Ha. unfold good_area, bad_area_access_error, __bad_area, up_read. rewrite Ha. case_decide; [|done].
  intros [= <-]. eexists. split; [done|].
  by destruct (bad_area_nosemaphore_logged regs c a SEGV_ACCERR
    (mk_kstate (mmap_sem s - 1) (driver s) (kevents s))).
Qed.

Lemma try_fault_refused at_ allow tsk regs c a s r :
  (∀ vma, access_error c vma = true) → try_fault E hook at_ allow tsk regs c a s = Ret r →
  ∃ s', r = inr s' ∧ driver s' = driver s.
Proof.
  intros Ha. assert (Hbad : ∀ code, (inr <$> __bad_area E regs c a code s : outcome (kstate + kstate)) = Ret r →
    ∃ s', r = inr s' ∧ driver s' = driver s).
  { intros code. unfold __bad_area, up_read. case_decide; [|done]. intros [= <-]. eexists. split; [done|].
    by destruct (bad_area_nosemaphore_logged regs c a code
      (mk_kstate (mmap_sem s - 1) (driver s) (kevents s))). }
  unfold try_fault, bad_area. destruct (at_vma at_) as [vma|]; [|apply Hbad].
  case_decide; [by apply good_area_refused|].
  repeat (case_match; [apply Hbad|]). by apply good_area_refused.
Qed.

End page_fault_lemmas.

(** ** The prefetch check *)

(** The bytes [check_prefetch_opcode] skips: segment overrides, operand and
    address size, lock and repeat, and REX where it is a prefix. *)
Definition is_prefix (long : bool) (b : Z) : bool :=
  bool_decide (b ∈ [0x26; 0x2E; 0x36; 0x3E; 0x64; 0x65; 0x66; 0x67; 0xF0; 0xF2; 0xF3]) ||
  (long && bool_decide (0x40 ≤ b ≤ 0x4F)).

(** The code at [ip]: fewer than fifteen prefixes, then [0F 0D] or [0F 18]. *)
Definition prefetch_at (long : bool) (code : Z → option Z) (n : nat) (ip : Z) : Prop :=
  ∃ k : nat, (k < n)%nat ∧
    (∀ j, (j < k)%nat → ∃ b, code (ip + Z.of_nat j) = Some b ∧ is_prefix long b = true) ∧
    code (ip + Z.of_nat k) = Some 0x0F ∧
    (code (ip + Z.of_nat k + 1) = Some 0x0D ∨ code (ip + Z.of_nat k + 1) = Some 0x18).

Section prefetch_lemmas.
  Context (E : environment) (regs : pt_regs).
  Context (Hbytes : ∀ a b, probe_kernel_address E a = Some b → 0 ≤ b < 256).
Let long := negb (user_mode E regs) || user_64bit_mode E regs.

(** One byte of the check, for every byte there is. *)
Definition opcode_class (long_ : bool) (opcode : Z) : bool :=
  let hi := Z.land opcode 0xf0 in
  let lo := Z.land opcode 0x0f in
  if decide (hi = 0x20 ∨ hi = 0x30) then bool_decide (Z.land lo 7 = 6)
  else if decide (hi = 0x40) then long_
  else if decide (hi = 0x60) then bool_decide (Z.land lo 0xC = 4)
  else if decide (hi = 0xF0) then bool_decide (lo = 0) || bool_decide (Z.shiftr lo 1 = 1)
  else false.

Lemma opcode_class_prefix long_ b : 0 ≤ b < 256 → opcode_class long_ b = is_prefix long_ b.
Proof using Type.
  intros Hb.
  assert (Hall : ∀ l, forallb (λ n, Bool.eqb (opcode_class l (Z.of_nat n)) (is_prefix l (Z.of_nat n)))
    (seq 0 256) = true) by (intros []; by vm_compute).
  specialize (Hall long_). rewrite forallb_forall in Hall. specialize (Hall (Z.to_nat b)).
  rewrite Z2Nat.id in Hall by lia. apply Bool.eqb_prop, Hall, in_seq. lia.
Qed.

Lemma escape_byte b : 0 ≤ b < 256 → Z.land b 0xf0 = 0 → Z.land b 0x0f = 0xF → b = 0x0F.
Proof using Type.
  intros Hb H1 H2. rewrite <-(Z.mod_small b 256) by lia. change 256 with (2 ^ 8).
  rewrite <-Z.land_ones by lia. change (Z.ones 8) with (Z.lor 0xf0 0x0f).
  by rewrite Z.land_lor_distr_r, H1, H2.
Qed.

Lemma check_prefetch_opcode_run instr b prefetch :
  0 ≤ b < 256 →
  check_prefetch_opcode E regs instr b prefetch =
    (is_prefix long b,
     if decide (Z.land b 0xf0 = 0) then
       match probe_kernel_address E instr with
       | Some c => bool_decide (b = 0x0F) && (bool_decide (c = 0x0D) || bool_decide (c = 0x18))
       | None => prefetch
       end
     else prefetch).
Proof using Type.
  intros Hb. rewrite <-opcode_class_prefix by done. unfold check_prefetch_opcode, opcode_class, long.
  destruct (decide (Z.land b 0xf0 = 0)) as [H0|H0].
  - rewrite H0. repeat (destruct (decide _); [lia|]). destruct (decide (0 = 0)); [|done].
    destruct (probe_kernel_address E instr) as [c|]; [|done]. do 2 f_equal.
    apply bool_decide_ext. split; [by apply escape_byte|by intros ->].
  - repeat (destruct (decide _); [done|]). done.
Qed.

Lemma is_prefix_high long_ b : 0 ≤ b < 256 → is_prefix long_ b = true → Z.land b 0xf0 ≠ 0.
Proof using Type.
  intros Hb. rewrite <-opcode_class_prefix by done. unfold opcode_class. intros H H0. rewrite H0 in H. done.
Qed.

Lemma is_prefetch_loop_run n instr :
  is_prefetch_loop E n regs instr false = true ↔ prefetch_at long (probe_kernel_address E) n instr.
Proof.
  revert instr. induction n as [|n IH]; intros instr; simpl.
  { split; [done|]. intros (k & ? & _). lia. }
  destruct (probe_kernel_address E instr) as [b|] eqn:Eb.
  2:{ split; [done|]. intros (k & _ & Hpre & Hk & _). destruct k as [|k].
      - rewrite Z.add_0_r in Hk. congruence.
      - destruct (Hpre 0%nat) as (b & Hb & _); [lia|]. rewrite Z.add_0_r in Hb. congruence. }
  pose proof (Hbytes _ _ Eb) as Hb. rewrite check_prefetch_opcode_run by done.
  destruct (is_prefix long b) eqn:Ep.
  - rewrite decide_False by (by eapply is_prefix_high). rewrite IH. split.
    + intros (k & Hk & Hpre & H1 & H2). exists (S k). rewrite Nat2Z.inj_succ.
      replace (instr + Z.succ (Z.of_nat k)) with (instr + 1 + Z.of_nat k) by lia. split_and!; try done; [lia|].
      intros [|j] Hj; [rewrite Z.add_0_r; eauto|]. destruct (Hpre j) as (b' & Hb' & ?); [lia|].
      exists b'. split; [|done]. rewrite <-Hb'. f_equal. lia.
    + intros (k & Hk & Hpre & H1 & H2). destruct k as [|k].
      { rewrite Z.add_0_r in H1. assert (b = 0x0F) as -> by congruence.
        by apply is_prefix_high in Ep. }
      exists k. rewrite Nat2Z.inj_succ in H1, H2.
      replace (instr + Z.succ (Z.of_nat k)) with (instr + 1 + Z.of_nat k) in H1, H2 by lia.
      split_and!; try done; [lia|]. intros j Hj. destruct (Hpre (S j)) as (b' & Hb' & ?); [lia|].
      exists b'. split; [|done]. rewrite <-Hb'. f_equal. lia.
  - split.
    + case_decide; [|done]. destruct (probe_kernel_address E (instr + 1)) as [c|] eqn:Ec; [|done].
      intros H0. apply andb_true_iff in H0 as [H1 H2]. apply orb_true_iff in H2.
      rewrite !bool_decide_eq_true in H2. apply bool_decide_eq_true in H1 as ->.
      exists 0%nat. rewrite Z.add_0_r, Ec. split_and!; [lia|intros; lia|done|]. destruct H2; subst; auto.
    + intros (k & Hk & Hpre & H1 & H2). destruct k as [|k].
      * rewrite Z.add_0_r in H1, H2. assert (b = 0x0F) as -> by congruence.
        rewrite decide_True by done. by destruct H2 as [-> | ->].
      * destruct (Hpre 0%nat) as (b' & Hb' & ?); [lia|]. rewrite Z.add_0_r in Hb'. congruence.
Qed.

End prefetch_lemmas.

Section page_fault_props.
  Context (E : environment) `{RL : RingLaws}.

(** What the hook publishes for a fault, and ring and info afterwards. *)
Definition nx_request (i : malpage_share_info_t) (ring_ : sring) (tsk : task_struct) (address : Z) : message :=
  let old := slot ring_ (ring_slot (req_prod_pvt (fring i))) in
  mk_message MALPAGE_RING_NXVIOLATION (pfn_gref old) (msg_pfn old) (u32 (task_pid tsk)) (si_domid i)
    (mmu_ptr old) address (mmu_val old).
Definition info_reported (i : malpage_share_info_t) : malpage_share_info_t :=
  set_fring (mk_as_front_ring (u32 (req_prod_pvt (fring i) + 1)) (rsp_cons (fring i))
    (front_sring (fring i))) i.
Definition ring_reported (i : malpage_share_info_t) (ring_ : sring) (m : message) : sring :=
  mk_sring (u32 (req_prod_pvt (fring i) + 1)) (req_event ring_) (rsp_prod ring_) (rsp_event ring_)
    (<[ring_slot (req_prod_pvt (fring i)) := m]> (ring ring_)).

Lemma connected_reported st i ring_ m :
  connected st i ring_ → connected (reported i ring_ m st) (info_reported i) (ring_reported i ring_ m).
Proof.
  intros (Hi & Hn & Hp). split_and!; [done|done|]. unfold reported. simpl. apply lookup_insert_eq.
Qed.

(** The driver's hook on an instruction fetch of an absent page. *)
Lemma fetch_hook_run tsk address c st i ring_ :
  connected st i ring_ → has c PF_INSTR = true → has c PF_USER = true → has c PF_PROT = false →
  malpage_do_page_fault tsk address c st = Ret (0, reported i ring_ (nx_request i ring_ tsk address) st).
Proof.
  intros Hc Hi Hu Hp. unfold malpage_do_page_fault. rewrite decide_True.
  - by rewrite (push_request_run _ _ _ _ Hc).
  - unfold has in *. to_prop. done.
Qed.

(** A user fault that nothing disturbs reaches the regions of the task. *)
Lemma undisturbed_run hook tsk address regs c s :
  undisturbed E regs tsk address → has c PF_RSVD = false →
  do_page_fault E hook tsk address regs c s =
    fault_loop E hook tsk regs (Z.lor c PF_USER) address (down_read (klog [LocalIrqEnable] s)).
Proof.
  intros [Hu Hk Hr Ht Ha Hm He Hv] Hrsvd. unfold do_page_fault, kmmio_fault, fault_in_kernel_space, notify_page_fault.
  rewrite Hk, Hu, Ha. rewrite decide_False by auto. rewrite bool_decide_false by lia.
  cbn [negb]. rewrite decide_False by auto. unfold PF_USER. unfold PF_RSVD in *. rewrite has_lor, Hrsvd by lia. cbn [andb].
  rewrite bool_decide_true by done. rewrite has_lor_same by lia. by rewrite andb_false_r.
Qed.

(** An attempt that reaches the hook and is served. *)
Lemma served_attempt a allow tsk regs c address vma s i ring_ :
  connected (driver s) i ring_ → in_region a address vma →
  vm_read vma || vm_exec vma || vm_write vma = true →
  has c PF_INSTR = true → has c PF_USER = true → has c PF_PROT = false → has c PF_WRITE = false →
  vf_error (at_fault a) = false → 0 < mmap_sem s →
  (vf_retry (at_fault a) = true → allow = true ∧ at_fatal a = false) →
  try_fault E (Some malpage_do_page_fault) a allow tsk regs c address s =
    Ret ((if vf_retry (at_fault a) then inl else inr)
      (klog (if allow then [Accounted (vf_major (at_fault a))] else [])
        (mk_kstate (mmap_sem s - 1) (reported i ring_ (nx_request i ring_ tsk address) (driver s)) (kevents s)))).
Proof.
  intros Hc [Hv Ha] Hperm Hi Hu Hp Hw He Hs Hr. unfold try_fault. rewrite Hv, decide_True by done.
  unfold good_area, access_error. rewrite Hw, Hp, Hperm. cbn [negb].
  rewrite (fetch_hook_run _ _ _ _ _ _ Hc Hi Hu Hp). cbn [mbind outcome_bind snd].
  unfold handle_mm_fault. rewrite He, orb_false_r. destruct (vf_retry (at_fault a)).
  - destruct Hr as [-> Hf]; [done|]. unfold up_read. simpl mmap_sem. rewrite decide_True by done.
    cbn [mbind outcome_bind]. unfold mm_fault_error. rewrite Hf, He. cbn [negb mbind outcome_bind].
    by rewrite decide_False by auto.
  - cbn [mbind outcome_bind]. rewrite decide_False by auto. unfold up_read.
    destruct allow; simpl mmap_sem; rewrite decide_True by done; cbn; unfold klog; simpl; by rewrite ?app_nil_r.
Qed.

(** ** Properties *)

(** C38: whatever the environment does, the handler terminates without a
    [BUG], at most at its second attempt, and holds [mmap_sem] afterwards
    exactly as often as before, provided that memory management answers as
    documented, the hook returns, and processes share the kernel's tables. *)
Theorem do_page_fault_balanced hook tsk address regs c s :
  0 ≤ mmap_sem s → fault_sane (at_fault (first_try E)) → fault_sane (at_fault (second_try E)) →
  vf_retry (at_fault (second_try E)) = false →
  (∀ h c' st, hook = Some h → ∃ r, h tsk address c' st = Ret r) → tables_shared (kernel_tables E) →
  ∃ s', do_page_fault E hook tsk address regs c s = Ret s' ∧ mmap_sem s' = mmap_sem s.
Proof.
  intros Hs H1 H2 Hr Hh Hv. unfold do_page_fault.
  assert (Hq : ∀ c' code s', mmap_sem s' = mmap_sem s → ∃ s'',
    Ret (__bad_area_nosemaphore E regs c' address code s') = Ret s'' ∧ mmap_sem s'' = mmap_sem s).
  { intros c' code s' Hm. eexists. split; [reflexivity|].
    destruct (bad_area_nosemaphore_logged E regs c' address code s'). congruence. }
  destruct (decide _); [by exists s|]. destruct (fault_in_kernel_space E address).
  { cbv zeta. destruct (kernel_prologue E (negb (has c (Z.lor PF_RSVD (Z.lor PF_USER PF_PROT)))) address s Hv)
      as (r & s0 & -> & Hm0 & _). cbn [mbind outcome_bind]. repeat (case_match; [by exists s0|]). by apply Hq. }
  destruct (decide _); [by exists s|].
  destruct (if user_mode E regs then _ else _) as [c1 s1] eqn:E1.
  assert (Hs1 : mmap_sem s1 = mmap_sem s) by (repeat case_match; simplify_eq; done).
  set (s2 := if has c1 PF_RSVD then _ else _).
  assert (Hs2 : mmap_sem s2 = mmap_sem s) by (unfold s2; destruct (has c1 PF_RSVD); exact Hs1).
  destruct (has c1 PF_RSVD && _); [by exists s2|].
  destruct (in_atomic E || _); [by apply Hq|]. destruct (sem_contended E && _ && _); [by apply Hq|].
  destruct (fault_loop_run E hook tsk regs c1 address (down_read s2)) as (s' & Ef & Hm); try done.
  { simpl. lia. }
  { intros h st. apply Hh. }
  exists s'. split; [done|]. simpl in Hm. lia.
Qed.

(** A fault on a kernel mapping that the process's table does not have yet, and
    the reference table has, is resolved by copying the entry of the top level;
    the process then reads the entry of the reference, and nothing else happens. *)
Theorem kernel_fault_resolved hook tsk address regs c s :
  let V := kernel_tables E in
  let pgd := if vt_pgd_none V (active_pgd V address) then reference_pgd V address else active_pgd V address in
  tables_shared V → kmmio_handled E = false → TASK_SIZE_MAX E ≤ address →
  has c (Z.lor PF_RSVD (Z.lor PF_USER PF_PROT)) = false → VMALLOC_START V ≤ address < VMALLOC_END V →
  reference_maps V address = true →
  do_page_fault E hook tsk address regs c s =
    Ret (if vt_pgd_none V (active_pgd V address) then klog [SetPgd address (reference_pgd V address)] s else s) ∧
  pud_at V pgd address = pud_at V (reference_pgd V address) address.
Proof.
  intros V pgd Hv Hk Ha Hc Hr Hm. assert (vt_pgd_none V (reference_pgd V address) = false) as Hn.
  { unfold reference_maps in Hm. by destruct (vt_pgd_none V (reference_pgd V address)). }
  split.
  - unfold do_page_fault, kmmio_fault, fault_in_kernel_space. rewrite Hk, bool_decide_true by done.
    rewrite decide_False by auto. rewrite Hc. cbn [negb]. rewrite vmalloc_fault_run by done. fold V.
    rewrite decide_True, Hm by done. cbn [mbind outcome_bind]. by rewrite decide_True.
  - subst pgd. destruct (vt_pgd_none V (active_pgd V address)) eqn:Eg; [done|]. by apply (ts_pud V Hv), (ts_top V Hv).
Qed.

(** [is_prefetch] recognises exactly the prefetch instructions: fewer than
    fifteen prefix bytes followed by [0F 0D] or [0F 18], in readable code below
    the user limit.  An instruction fetch is never excused as one. *)
Theorem is_prefetch_correct regs c :
  (∀ a b, probe_kernel_address E a = Some b → 0 ≤ b < 256) →
  is_prefetch E regs c = true ↔
    has c PF_INSTR = false ∧ (user_mode E regs = true → convert_ip_to_linear E regs < TASK_SIZE E) ∧
    prefetch_at (negb (user_mode E regs) || user_64bit_mode E regs) (probe_kernel_address E) 15
      (convert_ip_to_linear E regs).
Proof.
  intros Hb. unfold is_prefetch. destruct (has c PF_INSTR); [naive_solver|].
  rewrite <-is_prefetch_loop_run by done. destruct (user_mode E regs) eqn:Eu; cbn [andb].
  - destruct (bool_decide_reflect (TASK_SIZE E ≤ convert_ip_to_linear E regs)).
    + split; [done|]. intros (_ & Hlt & _). specialize (Hlt eq_refl). lia.
    + split; [intros ?; split_and!; [done|intros; lia|done]|tauto].
  - split; [intros ?; by split_and!|tauto].
Qed.

(** C8: a fault with the protection bit that is no write -- a fetch from a
    present page marked no-execute, the violation the driver is after -- never
    reaches the hook: in every environment the driver is left as it was.  A user
    process is sent SIGSEGV with the code of an access error instead. *)
Theorem nx_violation_unseen hook tsk address regs c s :
  has c PF_PROT = true → has c PF_WRITE = false →
  (∀ s', do_page_fault E hook tsk address regs c s = Ret s' → driver s' = driver s) ∧
  (∀ vma, undisturbed E regs tsk address → in_region (first_try E) address vma →
    has c PF_INSTR = true → has c PF_RSVD = false → 0 ≤ mmap_sem s →
    do_page_fault E hook tsk address regs c s =
      Ret (klog [LocalIrqEnable; LocalIrqEnable; ThreadFault address (Z.lor c PF_USER);
                 ForceSig SEGV_ACCERR address] s)).
Proof.
  intros Hp Hw. assert (Hacc : ∀ n vma, n ≠ 1 → 0 ≤ n → access_error (Z.lor c (Z.shiftl 1 n)) vma = true).
  { intros n vma H1 Hn. unfold access_error, PF_WRITE, PF_PROT in *. rewrite has_lor, Hw by lia.
    destruct (decide (n = 0)) as [->|]; [by rewrite has_lor_same|]. by rewrite has_lor, Hp. }
  assert (Hacc' : ∀ vma, access_error c vma = true) by (intros; unfold access_error; by rewrite Hw, Hp).
  split.
  - intros s'. unfold do_page_fault.
    destruct (decide _); [by intros [= ->]|]. destruct (fault_in_kernel_space E address).
    { intros Hrun. cbv zeta in Hrun. bind_inv Hrun. match goal with x : _ * kstate |- _ => destruct x as [r s0] end.
      assert (driver s0 = driver s) as Hd.
      { destruct (negb _); [by apply vmalloc_fault_logged in E0 as [_ ?]|by injection E0 as <- <-]. }
      rewrite <-Hd. repeat (case_match; [by injection Hrun as <-|]). injection Hrun as <-. apply bad_area_nosemaphore_logged. }
    destruct (decide _); [by intros [= ->]|].
    destruct (if user_mode E regs then _ else _) as [c1 s1] eqn:E1.
    assert (Hs1 : driver s1 = driver s ∧ ∀ vma, access_error c1 vma = true).
    { repeat case_match; simplify_eq; split; try done. intros vma. by apply Hacc. }
    destruct Hs1 as [Hs1 Hc1]. set (s2 := if has c1 PF_RSVD then _ else _).
    assert (Hs2 : driver s2 = driver s) by (unfold s2; destruct (has c1 PF_RSVD); exact Hs1).
    destruct (has c1 PF_RSVD && _); [by intros [= <-]|].
    destruct (in_atomic E || _); [intros [= <-]; etrans; [apply bad_area_nosemaphore_logged|done]|].
    destruct (sem_contended E && _ && _);
      [intros [= <-]; etrans; [apply bad_area_nosemaphore_logged|done]|].
    unfold fault_loop. intros Hrun. bind_inv Hrun.
    destruct (try_fault_refused _ _ _ _ _ _ _ _ _ _ Hc1 E0) as (s3 & -> & Hd).
    injection Hrun as <-. by rewrite Hd.
  - intros vma Hun [Hv Ha] Hi Hr Hs. rewrite undisturbed_run by done. unfold fault_loop, try_fault.
    rewrite Hv, decide_True by done. unfold good_area. unfold PF_USER; rewrite Hacc by lia.
    unfold bad_area_access_error, __bad_area, up_read. rewrite decide_True by (simpl; lia).
    cbn [mbind outcome_bind fmap outcome_fmap]. unfold __bad_area_nosemaphore, is_prefetch, PF_USER, PF_INSTR in *.
    rewrite has_lor_same, has_lor, Hi by lia. rewrite (un_errata _ _ _ _ Hun).
    rewrite bool_decide_false by apply (un_vsyscall _ _ _ _ Hun). cbn [andb].
    pose proof (un_task _ _ _ _ Hun). rewrite bool_decide_false by lia. rewrite Z.lor_0_r.
    unfold klog, down_read. simpl. rewrite Z.add_simpl_r, <-!app_assoc. done.
Qed.

(** C25: what the driver does learn of is a user instruction fetch from a page
    that is not there yet, in any region that permits reading, writing or
    executing -- the region need not be executable: the hook publishes one
    NXVIOLATION request before the page is made present.  When memory
    management asks for a retry, the same fault is reported a second time. *)
Theorem fetch_reported tsk address regs c s vma i ring_ :
  connected (driver s) i ring_ → undisturbed E regs tsk address → 0 ≤ mmap_sem s →
  in_region (first_try E) address vma → vm_read vma || vm_exec vma || vm_write vma = true →
  has c PF_INSTR = true → has c PF_PROT = false → has c PF_WRITE = false → has c PF_RSVD = false →
  vf_error (at_fault (first_try E)) = false →
  let st1 := reported i ring_ (nx_request i ring_ tsk address) (driver s) in
  let major := vf_major (at_fault (first_try E)) in
  (vf_retry (at_fault (first_try E)) = false →
   do_page_fault E (Some malpage_do_page_fault) tsk address regs c s =
     Ret (mk_kstate (mmap_sem s) st1 (kevents s ++ [LocalIrqEnable; Accounted major]))) ∧
  (vf_retry (at_fault (first_try E)) = true → at_fatal (first_try E) = false →
   in_region (second_try E) address vma → vf_error (at_fault (second_try E)) = false →
   vf_retry (at_fault (second_try E)) = false →
   let i1 := info_reported i in
   let ring1 := ring_reported i ring_ (nx_request i ring_ tsk address) in
   do_page_fault E (Some malpage_do_page_fault) tsk address regs c s =
     Ret (mk_kstate (mmap_sem s) (reported i1 ring1 (nx_request i1 ring1 tsk address) st1)
            (kevents s ++ [LocalIrqEnable; Accounted major]))).
Proof.
  intros Hc Hun Hs Hreg Hperm Hi Hp Hw Hr He st1 major. rewrite undisturbed_run by done. unfold fault_loop.
  assert (Hbits : has (Z.lor c PF_USER) PF_INSTR = true ∧ has (Z.lor c PF_USER) PF_USER = true ∧
    has (Z.lor c PF_USER) PF_PROT = false ∧ has (Z.lor c PF_USER) PF_WRITE = false).
  { unfold PF_USER, PF_INSTR, PF_PROT, PF_WRITE in *. split_and!; first [rewrite has_lor by lia | rewrite has_lor_same by lia]; done. }
  destruct Hbits as (Hi' & Hu' & Hp' & Hw').
  split.
  - intros Hretry. rewrite (served_attempt _ _ _ _ _ _ vma _ i ring_) by (done || (simpl; lia) || by rewrite Hretry).
    rewrite Hretry. cbn [mbind outcome_bind]. unfold klog, down_read. simpl. rewrite Z.add_simpl_r, <-!app_assoc. done.
  - intros Hretry Hf Hreg2 He2 Hr2. set (i1 := info_reported i). set (ring1 := ring_reported i ring_ _).
    rewrite (served_attempt _ _ _ _ _ _ vma _ i ring_) by (done || (simpl; lia)).
    rewrite Hretry. cbn [mbind outcome_bind].
    rewrite (served_attempt _ _ _ _ _ _ vma _ i1 ring1);
      [|by apply connected_reported|done..|simpl; lia|by rewrite Hr2].
    rewrite Hr2. cbn [mbind outcome_bind]. unfold klog, down_read. simpl.
    rewrite app_nil_r, <-!app_assoc. do 2 f_equal. lia.
Qed.

End page_fault_props.

(** ** Witnesses *)

Example toy_vma : fault_vma := mk_fault_vma 4096 true true false false.
Example toy_fault_served (retry : bool) : attempt :=
  mk_attempt (Some toy_vma) false (mk_vm_fault false false false false true retry) false.
Example toy_regs : pt_regs := mk_pt_regs 5000 99000 51 true.
Example toy_code (a : Z) : option Z :=
  if decide (a = 5000) then Some 0x2E else if decide (a = 5001) then Some 0x0F
  else if decide (a = 5002) then Some 0x18 else None.
Example toy_tables : vm_tables := {|
  VMALLOC_START := 2 ^ 62; VMALLOC_END := 2 ^ 62 + 2 ^ 40;
  active_pgd a := 0; reference_pgd a := 0x5001;
  pud_at e a := e / 4096 * 4096 + 0x1001; pmd_at e a := e + 0x1000; pte_at e a := if decide (a / 4096 mod 2 = 0) then e else 0;
  vt_pgd_none v := v =? 0; vt_pud_none v := v =? 0; vt_pmd_none v := v =? 0;
  vt_pgd_page_vaddr v := v / 4096 * 4096; vt_pud_page_vaddr v := v / 4096 * 4096; vt_pmd_page v := v / 4096;
  vt_pte_present v := Z.testbit v 0; vt_pte_pfn v := v / 4096
|}.
Example toy_environment (retry : bool) : environment := {|
  user_mode r := Z.testbit (regs_cs r) 1;
  user_64bit_mode r := bool_decide (regs_cs r = 51);
  convert_ip_to_linear := regs_ip;
  probe_kernel_address := toy_code;
  TASK_SIZE_MAX := 2 ^ 47 - 4096;
  TASK_SIZE := 2 ^ 47 - 4096;
  VSYSCALL_START := 2 ^ 64 - 10 * 2 ^ 20;
  emulate_vsyscall := false;
  user32_cs := 35;
  kernel_text _ := false;
  fixup_exception := false;
  kmmio_handled := false;
  kprobe_handled := false;
  kmemcheck_handled := false;
  kernel_tables := toy_tables;
  die := false;
  init_pgd _ := false;
  init_pud _ := mk_ref_entry false false false false;
  init_pmd _ := mk_ref_entry false false false false;
  init_pte _ := mk_ref_entry false false false false;
  in_atomic := false;
  sem_contended := false;
  exception_entry := false;
  first_try := toy_fault_served retry;
  second_try := toy_fault_served false
|}.
Example toy_task : task_struct := mk_task_struct 77 (Some (mk_mm_struct 1 [] 4096)).
Example toy_kstate : kstate := mk_kstate 0 toy_connected [].

Lemma toy_shared : tables_shared toy_tables.
Proof. split; [done|]. intros e e' a. simpl. by intros ->. Qed.

Lemma toy_undisturbed retry : undisturbed (toy_environment retry) toy_regs toy_task 5000.
Proof. split; done. Qed.

Lemma do_page_fault_balanced_witness :
  ∃ s', do_page_fault (toy_environment true) None toy_task 5000 toy_regs 20 toy_kstate = Ret s' ∧
    mmap_sem s' = 0.
Proof.
  apply (do_page_fault_balanced (toy_environment true) None toy_task 5000 toy_regs 20 toy_kstate).
  - simpl. lia.
  - split; done.
  - split; done.
  - done.
  - done.
  - apply toy_shared.
Defined.

Lemma kernel_fault_resolved_witness :
  do_page_fault (toy_environment false) None toy_task (2 ^ 62) toy_regs 0 toy_kstate =
    Ret (klog [SetPgd (2 ^ 62) 0x5001] toy_kstate).
Proof. by apply (kernel_fault_resolved (toy_environment false) None toy_task (2 ^ 62) toy_regs 0 toy_kstate toy_shared). Defined.

Lemma is_prefetch_correct_witness :
  is_prefetch (toy_environment false) toy_regs 4 = true ∧ is_prefetch (toy_environment false) toy_regs 20 = false.
Proof.
  assert (Hb : ∀ a b, probe_kernel_address (toy_environment false) a = Some b → 0 ≤ b < 256).
  { intros a b. simpl. unfold toy_code. repeat case_decide; intros [= <-]; lia. }
  split.
  - apply (is_prefetch_correct (toy_environment false) toy_regs 4 Hb). split_and!; [done|done|].
    exists 1%nat. split_and!; [lia| |done|by right].
    intros j Hj. assert (j = 0%nat) as -> by lia. by exists 0x2E.
  - apply Bool.not_true_iff_false. rewrite (is_prefetch_correct (toy_environment false) toy_regs 20 Hb).
    intros [H _]. done.
Defined.

Lemma nx_violation_unseen_witness :
  do_page_fault (toy_environment false) (Some (@malpage_do_page_fault ring32)) toy_task 5000 toy_regs 21
    toy_kstate =
  Ret (klog [LocalIrqEnable; LocalIrqEnable; ThreadFault 5000 21; ForceSig SEGV_ACCERR 5000] toy_kstate).
Proof.
  apply (nx_violation_unseen (toy_environment false) (Some (@malpage_do_page_fault ring32)) toy_task 5000
    toy_regs 21 toy_kstate) with (vma := toy_vma); try done.
Defined.

Lemma fetch_reported_witness :
  do_page_fault (toy_environment false) (Some (@malpage_do_page_fault ring32)) toy_task 5000 toy_regs 20
    toy_kstate =
  Ret (mk_kstate 0 (@reported ring32 toy_info toy_page (mk_message 8 0 0 77 3 0 5000 0) toy_connected)
         [LocalIrqEnable; Accounted true]).
Proof.
  apply (@fetch_reported (toy_environment false) ring32 ring32_laws toy_task 5000 toy_regs 20 toy_kstate
    toy_vma toy_info toy_page); try done.
Defined.
