(* ===== verification/XenMmu.v ===== *)
(** * Page-table entries and updates of the DomU kernel (arch/x86/xen/mmu.c)

    The conversion of entries between the kernel's frame numbers and the
    machine's, and the operations that write entries, two of which run the
    driver's hook first.  The p2m table, the multicall queue and the address
    translations are not in the repository and are classes. *)

From S2P Require Import Prelude Protocol PageWalk MalState MalHooks.

(** ** The surroundings *)

(** Entries and frame numbers of <asm/pgtable.h> and <xen/page.h>: the flags of
    the processor have the bits the architecture gives them, the others are
    the kernel's. *)
Definition _PAGE_PRESENT : Z := Z.shiftl 1 0.
Definition _PAGE_PWT : Z := Z.shiftl 1 3.
Definition _PAGE_PCD : Z := Z.shiftl 1 4.
Definition _PAGE_PAT : Z := Z.shiftl 1 7.

Class P2M : Type := {
  phys_bits : Z;                     (** [PTE_PFN_MASK] selects the bits from 12 up to here *)
  iomap_bit : Z;                     (** [_PAGE_IOMAP] is this bit *)
  get_phys_to_machine : Z → Z;
  m2p : Z → Z;                       (** [mfn_to_pfn] *)
  INVALID_P2M_ENTRY : Z;
  FOREIGN_FRAME_BIT : Z;
  IDENTITY_FRAME_BIT : Z;
  auto_translated : bool;            (** [xen_feature(XENFEAT_auto_translated_physmap)] *)
  xen_initial_domain : bool;
  pat_enabled : bool;
  ISA_END_ADDRESS : Z
}.

Class P2MLaws `{P2M} : Prop := {
  phys_bits_range : 12 < phys_bits ≤ 52;
  iomap_bit_range : 8 ≤ iomap_bit < 12
}.

(** The queue of hypercalls of multicalls.h: [sent] are the updates handed over
    so far, as address, value and domain, issued or not. *)
Class Multicalls : Type := {
  queue : Type;
  sent : queue → list (Z * Z * Z);
  mc_entry : queue → Z * Z * Z → queue;         (** a new entry with one update *)
  mc_extend : queue → Z * Z → option queue;     (** one more update in the last entry *)
  xen_mc_batch : queue → queue;
  xen_mc_issue : queue → queue
}.

Class MulticallsLaws `{Multicalls} : Prop := {
  sent_entry : ∀ q u, sent (mc_entry q u) = sent q ++ [u];
  sent_extend : ∀ q u q', mc_extend q u = Some q' → ∃ d, sent q' = sent q ++ [(u.1, u.2, d)];
  sent_batch : ∀ q, sent (xen_mc_batch q) = sent q;
  sent_issue : ∀ q, sent (xen_mc_issue q) = sent q
}.

Definition DOMID_SELF : Z := 0x7FF0.

(** ** Conversions *)

Section conversions.
  Context `{PM : P2M}.

Definition PTE_PFN_MASK : Z := Z.ldiff (Z.ones phys_bits) (Z.ones 12).
Definition PTE_FLAGS_MASK : Z := Z.lxor (Z.ones 64) PTE_PFN_MASK.
Definition _PAGE_IOMAP : Z := Z.shiftl 1 iomap_bit.
Definition clear (v mask : Z) : Z := Z.ldiff v mask.

(** [(pteval_t)frame << PAGE_SHIFT | flags] *)
Definition make_entry (frame flags : Z) : Z := Z.lor (u64 (Z.shiftl frame PAGE_SHIFT)) flags.

(** [static pteval_t pte_mfn_to_pfn(pteval_t val)] *)
Definition pte_mfn_to_pfn (val : Z) : Z :=
  if decide (Z.land val _PAGE_PRESENT ≠ 0) then
    let mfn := Z.shiftr (Z.land val PTE_PFN_MASK) PAGE_SHIFT in
    let flags := Z.land val PTE_FLAGS_MASK in
    make_entry (m2p mfn) flags
  else val.

(** [static pteval_t pte_pfn_to_mfn(pteval_t val)] *)
Definition pte_pfn_to_mfn (val : Z) : Z :=
  if decide (Z.land val _PAGE_PRESENT ≠ 0) then
    let pfn := Z.shiftr (Z.land val PTE_PFN_MASK) PAGE_SHIFT in
    let flags := Z.land val PTE_FLAGS_MASK in
    let mfn := if negb auto_translated then get_phys_to_machine pfn else pfn in
    if decide (mfn = INVALID_P2M_ENTRY) then make_entry 0 0
    else
      let mfn := clear mfn FOREIGN_FRAME_BIT in
      if decide (Z.land mfn IDENTITY_FRAME_BIT ≠ 0) then
        make_entry (clear mfn IDENTITY_FRAME_BIT) (Z.lor flags _PAGE_IOMAP)
      else make_entry mfn flags
  else val.

(** [static pteval_t iomap_pte(pteval_t val)] *)
Definition iomap_pte (val : Z) : Z :=
  if decide (Z.land val _PAGE_PRESENT ≠ 0) then
    let pfn := Z.shiftr (Z.land val PTE_PFN_MASK) PAGE_SHIFT in
    let flags := Z.land val PTE_FLAGS_MASK in
    make_entry pfn flags
  else val.

(** [static pteval_t xen_pte_val(pte_t pte)]: the warning is only printed. *)
Definition xen_pte_val (pte : Z) : Z :=
  let pteval :=
    if decide (Z.land pte (Z.lor _PAGE_PAT (Z.lor _PAGE_PCD _PAGE_PWT)) = _PAGE_PAT)
    then Z.lor (clear pte _PAGE_PAT) _PAGE_PWT else pte in
  if xen_initial_domain && negb (bool_decide (Z.land pteval _PAGE_IOMAP = 0)) then pteval
  else pte_mfn_to_pfn pteval.

(** [xen_pgd_val], [xen_pmd_val], [xen_pud_val] *)
Definition xen_pgd_val (pgd : Z) : Z := pte_mfn_to_pfn pgd.
Definition xen_pmd_val (pmd : Z) : Z := pte_mfn_to_pfn pmd.
Definition xen_pud_val (pud : Z) : Z := pte_mfn_to_pfn pud.

(** [static pte_t xen_make_pte(pteval_t pte)] *)
Definition xen_make_pte (pte : Z) : Z :=
  let addr := Z.land pte PTE_PFN_MASK in
  let pte :=
    if pat_enabled && bool_decide (Z.land pte _PAGE_PAT = 0) then
      if decide (Z.land pte (Z.lor _PAGE_PCD _PAGE_PWT) = _PAGE_PWT)
      then Z.lor (clear pte (Z.lor _PAGE_PCD _PAGE_PWT)) _PAGE_PAT else pte
    else pte in
  if negb (bool_decide (Z.land pte _PAGE_IOMAP = 0)) && (xen_initial_domain || bool_decide (ISA_END_ADDRESS ≤ addr))
  then iomap_pte pte
  else pte_pfn_to_mfn (clear pte _PAGE_IOMAP).

(** [xen_make_pgd], [xen_make_pmd], [xen_make_pud] *)
Definition xen_make_pgd (pgd : Z) : Z := pte_pfn_to_mfn pgd.
Definition xen_make_pmd (pmd : Z) : Z := pte_pfn_to_mfn pmd.
Definition xen_make_pud (pud : Z) : Z := pte_pfn_to_mfn pud.

End conversions.

(** ** Updates *)

Section updates.
  Context `{MC : Multicalls} `{AS : AddrSpace}.
  (** [int ( *kmalpage_multi_mmu_update)(pte_t *ptep, pte_t pte)], null until the driver is loaded *)
  Context (kmalpage_multi_mmu_update : option (Z → Z → malpage_state → outcome (Z * malpage_state))).
  (** [PagePinned(virt_to_page(ptr))], the user page table of a kernel one, and
      [paravirt_get_lazy_mode() == PARAVIRT_LAZY_MMU] *)
  Context (page_pinned : Z → bool) (user_pgd_page : Z → Z) (user_limit_index : Z) (lazy_mmu : bool).

(** The page-table memory the kernel writes itself, the queue, the driver. *)
Record mmu_state : Type := mk_mmu_state {
  tables : gmap Z Z;
  mcs : queue;
  mmu_driver : malpage_state
}.

Definition native_set (ptr val : Z) (s : mmu_state) : mmu_state :=
  mk_mmu_state (<[ptr := val]> (tables s)) (mcs s) (mmu_driver s).
Definition on_queue (f : queue → queue) (s : mmu_state) : mmu_state :=
  mk_mmu_state (tables s) (f (mcs s)) (mmu_driver s).

(** [if(kmalpage_multi_mmu_update!=NULL) kmalpage_multi_mmu_update(ptep,pteval);] *)
Definition run_hook (ptep pteval : Z) (s : mmu_state) : outcome mmu_state :=
  match kmalpage_multi_mmu_update with
  | Some hook => r ← hook ptep pteval (mmu_driver s); Ret (mk_mmu_state (tables s) (mcs s) r.2)
  | None => Ret s
  end.

(** [void xen_set_domain_pte(pte_t *ptep, pte_t pteval, unsigned domid)];
    [pte_val_ma] is the entry as it is. *)
Definition xen_set_domain_pte (ptep pteval domid : Z) (s : mmu_state) : outcome mmu_state :=
  s1 ← run_hook ptep pteval s;
  Ret (on_queue xen_mc_issue (on_queue (λ q, mc_entry q (virt_to_machine ptep, pteval, u16 domid)) s1)).

(** [static void xen_extend_mmu_update(const struct mmu_update *update)] *)
Definition xen_extend_mmu_update (ptr val : Z) (s : mmu_state) : mmu_state :=
  match mc_extend (mcs s) (ptr, val) with
  | Some q => on_queue (λ _, q) s
  | None => on_queue (λ q, mc_entry q (ptr, val, DOMID_SELF)) s
  end.

(** [xen_mc_batch(); ...; xen_extend_mmu_update(&u); xen_mc_issue(...);] *)
Definition batched (ptr val : Z) (s : mmu_state) : mmu_state :=
  on_queue xen_mc_issue (xen_extend_mmu_update ptr val (on_queue xen_mc_batch s)).

(** [xmaddr_t arbitrary_virt_to_machine(void *vaddr)] and
    [unsigned long arbitrary_virt_to_mfn(void *vaddr)] *)
Definition arbitrary_virt_to_machine (vaddr : Z) : outcome Z :=
  if virt_addr_valid vaddr then Ret (virt_to_machine vaddr)
  else
    let pte := lookup_address vaddr in
    if decide (pte = NULL) then Err BugOn
    else Ret (u64 (u64 (Z.shiftl (mfn_of_pte (read_pte pte)) PAGE_SHIFT) + page_offset vaddr)).
Definition arbitrary_virt_to_mfn (vaddr : Z) : outcome Z :=
  maddr ← arbitrary_virt_to_machine vaddr; Ret (Z.shiftr maddr PAGE_SHIFT).

(** [static void xen_set_pmd_hyper(pmd_t *ptr, pmd_t val)] and its [pud] twin *)
Definition xen_set_pmd_hyper (ptr val : Z) (s : mmu_state) : outcome mmu_state :=
  maddr ← arbitrary_virt_to_machine ptr; Ret (batched maddr val s).
Definition xen_set_pud_hyper (ptr val : Z) (s : mmu_state) : outcome mmu_state :=
  maddr ← arbitrary_virt_to_machine ptr; Ret (batched maddr val s).

(** [static void xen_set_pmd(pmd_t *ptr, pmd_t val)], [xen_set_pud] *)
Definition xen_set_pmd (ptr val : Z) (s : mmu_state) : outcome mmu_state :=
  if negb (page_pinned ptr) then Ret (native_set ptr val s) else xen_set_pmd_hyper ptr val s.
Definition xen_set_pud (ptr val : Z) (s : mmu_state) : outcome mmu_state :=
  if negb (page_pinned ptr) then Ret (native_set ptr val s) else xen_set_pud_hyper ptr val s.

(** [static bool xen_batched_set_pte(pte_t *ptep, pte_t pteval)] *)
Definition xen_batched_set_pte (ptep pteval : Z) (s : mmu_state) : bool * mmu_state :=
  if negb lazy_mmu then (false, s)
  else (true, batched (Z.lor (virt_to_machine ptep) MMU_NORMAL_PT_UPDATE) pteval s).

(** [__xen_set_pte], [xen_set_pte], [xen_set_pte_at] *)
Definition __xen_set_pte (ptep pteval : Z) (s : mmu_state) : mmu_state :=
  let '(done_, s1) := xen_batched_set_pte ptep pteval s in
  if negb done_ then native_set ptep pteval s1 else s1.
Definition xen_set_pte (ptep pteval : Z) (s : mmu_state) : mmu_state := __xen_set_pte ptep pteval s.
Definition xen_set_pte_at (ptep pteval : Z) (s : mmu_state) : mmu_state := __xen_set_pte ptep pteval s.

(** [pte_t xen_ptep_modify_prot_start(mm, addr, ptep)] *)
Definition xen_ptep_modify_prot_start (ptep : Z) : Z := read_pte ptep.

(** [void xen_ptep_modify_prot_commit(mm, addr, ptep, pte)] *)
Definition xen_ptep_modify_prot_commit (ptep pte : Z) (s : mmu_state) : outcome mmu_state :=
  s1 ← run_hook ptep pte (on_queue xen_mc_batch s);
  Ret (on_queue xen_mc_issue
        (xen_extend_mmu_update (Z.lor (virt_to_machine ptep) MMU_PT_UPDATE_PRESERVE_AD) pte s1)).

(** [static pgd_t *xen_get_user_pgd(pgd_t *pgd)]: entries are eight bytes;
    [user_pgd_page] is [virt_to_page(pgd_page)->private]. *)
Definition xen_get_user_pgd (pgd : Z) : Z :=
  let pgd_page := Z.land pgd (Z.lxor (Z.ones 64) (PAGE_SIZE - 1)) in
  let offset := u32 ((pgd - pgd_page) / 8) in
  if decide (offset < user_limit_index) then
    let user_ptr := user_pgd_page pgd_page in
    if decide (user_ptr ≠ NULL) then user_ptr + 8 * offset else NULL
  else NULL.

(** [static void __xen_set_pgd_hyper(pgd_t *ptr, pgd_t val)], [xen_set_pgd_hyper] *)
Definition __xen_set_pgd_hyper (ptr val : Z) (s : mmu_state) : mmu_state :=
  xen_extend_mmu_update (virt_to_machine ptr) val s.
Definition xen_set_pgd_hyper (ptr val : Z) (s : mmu_state) : mmu_state :=
  on_queue xen_mc_issue (__xen_set_pgd_hyper ptr val (on_queue xen_mc_batch s)).

(** [static void xen_set_pgd(pgd_t *ptr, pgd_t val)] *)
Definition xen_set_pgd (ptr val : Z) (s : mmu_state) : mmu_state :=
  let user_ptr := xen_get_user_pgd ptr in
  if negb (page_pinned ptr) then
    let s1 := native_set ptr val s in
    if decide (user_ptr ≠ NULL) then native_set user_ptr val s1 else s1
  else
    let s1 := __xen_set_pgd_hyper ptr val (on_queue xen_mc_batch s) in
    let s2 := if decide (user_ptr ≠ NULL) then __xen_set_pgd_hyper user_ptr val s1 else s1 in
    on_queue xen_mc_issue s2.

(** [void make_lowmem_page_readonly(void *vaddr)] and [make_lowmem_page_readwrite]:
    the hypercall they make, with bit 1 of the entry, [_PAGE_RW], cleared or set. *)
Definition make_lowmem_page_readonly (update_va_mapping : Z → Z → Z) (address : Z) : outcome unit :=
  let pte := lookup_address address in
  if decide (pte = NULL) then Ret tt
  else if decide (update_va_mapping address (Z.ldiff (read_pte pte) (Z.shiftl 1 1)) ≠ 0) then Err BugOn
  else Ret tt.
Definition make_lowmem_page_readwrite (update_va_mapping : Z → Z → Z) (address : Z) : outcome unit :=
  let pte := lookup_address address in
  if decide (pte = NULL) then Ret tt
  else if decide (update_va_mapping address (Z.lor (read_pte pte) (Z.shiftl 1 1)) ≠ 0) then Err BugOn
  else Ret tt.

End updates.

(** ** The specification *)

(** The entry Linux reads back: the page attribute bit alone means
    write-combining to Xen, which Linux spells [PWT]. *)
Definition pat_to_linux (v : Z) : Z :=
  if decide (Z.testbit v 7 = true ∧ Z.testbit v 4 = false ∧ Z.testbit v 3 = false)
  then Z.lor (Z.ldiff v (Z.shiftl 1 7)) (Z.shiftl 1 3) else v.

(** The frame of an entry. *)
Definition frame_of `{P2M} (v : Z) : Z := Z.shiftr (Z.land v PTE_PFN_MASK) PAGE_SHIFT.

(** An ordinary page of the domain: the table knows its machine frame, and the
    machine's table leads back. *)
Definition translated `{P2M} (pfn mfn : Z) : Prop :=
  (if auto_translated then mfn = pfn else get_phys_to_machine pfn = mfn) ∧ m2p mfn = pfn ∧
  mfn ≠ INVALID_P2M_ENTRY ∧ 0 ≤ mfn < 2 ^ (phys_bits - 12) ∧
  Z.land mfn FOREIGN_FRAME_BIT = 0 ∧ Z.land mfn IDENTITY_FRAME_BIT = 0.

(** ** Lemmas on entries *)

Section entry_lemmas.
  Context `{PL : P2MLaws}.

(** The conversion of [xen_make_pte]. *)
Definition pat_to_xen (v : Z) : Z :=
  if pat_enabled && bool_decide (Z.land v _PAGE_PAT = 0) then
    if decide (Z.land v (Z.lor _PAGE_PCD _PAGE_PWT) = _PAGE_PWT)
    then Z.lor (clear v (Z.lor _PAGE_PCD _PAGE_PWT)) _PAGE_PAT else v
  else v.

Lemma mask_bit n : 0 ≤ n → Z.testbit PTE_PFN_MASK n = (12 <=? n) && (n <? phys_bits).
Proof.
  intros Hn. pose proof phys_bits_range. unfold PTE_PFN_MASK.
  rewrite Z.ldiff_spec, !ones_bit by lia. destruct (Z.ltb_spec n 12), (Z.leb_spec 12 n); try lia;
    by rewrite ?andb_true_r, ?andb_false_r.
Qed.

Lemma flags_mask_bit n : 0 ≤ n < 64 → Z.testbit PTE_FLAGS_MASK n = negb ((12 <=? n) && (n <? phys_bits)).
Proof.
  intros Hn. unfold PTE_FLAGS_MASK. rewrite Z.lxor_spec, mask_bit, ones_bit by lia.
  destruct (Z.ltb_spec n 64); [|lia]. by rewrite xorb_true_l.
Qed.

Lemma frame_bit v n : 0 ≤ n → Z.testbit (frame_of v) n = Z.testbit v (n + 12) && (n + 12 <? phys_bits).
Proof.
  intros Hn. unfold frame_of, PAGE_SHIFT. rewrite Z.shiftr_spec, Z.land_spec, mask_bit by lia.
  destruct (Z.leb_spec 12 (n + 12)); [done|lia].
Qed.

Lemma frame_range v : 0 ≤ v → 0 ≤ frame_of v < 2 ^ (phys_bits - 12).
Proof.
  intros Hv. pose proof phys_bits_range.
  assert (Hpos : 0 ≤ frame_of v).
  { unfold frame_of. apply Z.shiftr_nonneg, Z.land_nonneg. by left. }
  split; [done|]. apply bits_bound; [lia|done|]. intros n Hn. rewrite frame_bit by lia.
  destruct (Z.ltb_spec (n + 12) phys_bits); [lia|]. by rewrite andb_false_r.
Qed.

(** Shifting a frame into place loses nothing. *)
Lemma frame_shift f : 0 ≤ f < 2 ^ (phys_bits - 12) → u64 (Z.shiftl f PAGE_SHIFT) = Z.shiftl f 12.
Proof.
  intros Hf. pose proof phys_bits_range. unfold PAGE_SHIFT. apply u64_small. unfold is_u64.
  rewrite Z.shiftl_mul_pow2 by lia. split; [lia|].
  assert (2 ^ 64 = 2 ^ 52 * 2 ^ 12) as -> by (by rewrite <-Z.pow_add_r).
  apply Z.mul_lt_mono_pos_r; [lia|]. eapply Z.lt_le_trans; [apply Hf|]. apply Z.pow_le_mono_r; lia.
Qed.

Lemma entry_bit f fl n :
  0 ≤ f < 2 ^ (phys_bits - 12) → 0 ≤ n →
  Z.testbit (make_entry f fl) n = ((12 <=? n) && Z.testbit f (n - 12)) || Z.testbit fl n.
Proof.
  intros Hf Hn. unfold make_entry. rewrite frame_shift by done. rewrite Z.lor_spec, Z.shiftl_spec by done.
  destruct (Z.leb_spec 12 n); [done|]. by rewrite Z.testbit_neg_r by lia.
Qed.

(** Frame and flags make up the entry. *)
Lemma make_frame_flags v : is_u64 v → make_entry (frame_of v) (Z.land v PTE_FLAGS_MASK) = v.
Proof.
  intros Hv. unfold is_u64 in Hv. pose proof (frame_range v (proj1 Hv)). apply Z.bits_inj'. intros n Hn.
  rewrite entry_bit, Z.land_spec by done. pose proof phys_bits_range.
  destruct (Z.ltb_spec n 64).
  - rewrite flags_mask_bit by lia. destruct (Z.leb_spec 12 n); simpl; [|by rewrite andb_true_r].
    rewrite frame_bit, Z.sub_add by lia. destruct (n <? phys_bits), (Z.testbit v n); done.
  - rewrite (high_bit v 64 n), orb_false_r by done. destruct (Z.leb_spec 12 n); [|done].
    rewrite frame_bit, Z.sub_add, (high_bit v 64 n) by (done || lia). done.
Qed.

(** Flags alone lie outside the frame. *)
Definition flags_only (fl : Z) : Prop :=
  is_u64 fl ∧ ∀ n, 12 ≤ n < phys_bits → Z.testbit fl n = false.

Lemma land_flags_only v : is_u64 v → flags_only (Z.land v PTE_FLAGS_MASK).
Proof.
  intros Hv. unfold is_u64 in *. pose proof phys_bits_range. split.
  - split; [apply Z.land_nonneg; left; lia|].
    apply bits_bound; [lia|apply Z.land_nonneg; left; lia|].
    intros n Hn. by rewrite Z.land_spec, (high_bit v 64 n).
  - intros n Hn. rewrite Z.land_spec, flags_mask_bit by lia.
    destruct (Z.leb_spec 12 n), (Z.ltb_spec n phys_bits); try lia; by rewrite andb_false_r.
Qed.

Lemma frame_make f fl : 0 ≤ f < 2 ^ (phys_bits - 12) → flags_only fl → frame_of (make_entry f fl) = f.
Proof.
  intros Hf [_ Hfl]. pose proof phys_bits_range. apply Z.bits_inj'. intros n Hn.
  rewrite frame_bit, entry_bit by lia. destruct (Z.leb_spec 12 (n + 12)); [|lia].
  rewrite Z.add_simpl_r. destruct (Z.ltb_spec (n + 12) phys_bits).
  - rewrite Hfl by lia. by rewrite orb_false_r, andb_true_r.
  - rewrite andb_false_r. symmetry. apply high_bit with (phys_bits - 12); [done|lia].
Qed.

Lemma flags_make f fl :
  0 ≤ f < 2 ^ (phys_bits - 12) → flags_only fl → Z.land (make_entry f fl) PTE_FLAGS_MASK = fl.
Proof.
  intros Hf [Hr Hfl]. unfold is_u64 in Hr. pose proof phys_bits_range. apply Z.bits_inj'. intros n Hn.
  rewrite Z.land_spec, entry_bit by lia. destruct (Z.ltb_spec n 64).
  - rewrite flags_mask_bit by lia. destruct (Z.leb_spec 12 n); simpl; [|by rewrite andb_true_r].
    destruct (Z.ltb_spec n phys_bits); simpl; [by rewrite andb_false_r, Hfl by lia|].
    rewrite (high_bit f (phys_bits - 12) (n - 12)) by (done || lia). by rewrite andb_true_r.
  - destruct (Z.leb_spec 12 n); [|lia]. rewrite (high_bit f (phys_bits - 12) (n - 12)) by (done || lia).
    by rewrite (high_bit fl 64 n), andb_false_l by (done || lia).
Qed.

(** Below bit 12 an entry is its flags. *)
Lemma make_low f fl n : 0 ≤ f < 2 ^ (phys_bits - 12) → 0 ≤ n < 12 →
  Z.testbit (make_entry f fl) n = Z.testbit fl n.
Proof. intros Hf Hn. rewrite entry_bit by lia. by destruct (Z.leb_spec 12 n); [lia|]. Qed.

(** Changing bits below 12 changes the flags. *)
Definition low (c : Z) : Prop := ∀ n, 12 ≤ n → Z.testbit c n = false.
Definition patch (c s v : Z) : Z := Z.lor (Z.ldiff v c) s.

Lemma patch_entry c s f fl : 0 ≤ f < 2 ^ (phys_bits - 12) → low c → low s →
  patch c s (make_entry f fl) = make_entry f (patch c s fl).
Proof.
  intros Hf Hc Hs. apply Z.bits_inj'. intros n Hn. unfold patch.
  rewrite Z.lor_spec, Z.ldiff_spec, !entry_bit, Z.lor_spec, Z.ldiff_spec by done.
  destruct (Z.leb_spec 12 n); [|done]. rewrite Hc, Hs by done. by rewrite !andb_true_r, !orb_false_r.
Qed.

Lemma patch_flags_only c s fl : low c → low s → 0 ≤ s → flags_only fl → flags_only (patch c s fl).
Proof.
  intros Hc Hs Hs0 [Hr Hfl]. pose proof phys_bits_range. unfold is_u64 in *. unfold patch.
  assert (Hpos : 0 ≤ Z.lor (Z.ldiff fl c) s).
  { apply Z.lor_nonneg. split; [|done]. apply Z.ldiff_nonneg. left. lia. }
  split; [split; [done|]|].
  - apply bits_bound; [lia|done|]. intros n Hn. rewrite Z.lor_spec, Z.ldiff_spec.
    by rewrite (high_bit fl 64 n), Hs by (done || lia).
  - intros n Hn. rewrite Z.lor_spec, Z.ldiff_spec. by rewrite Hfl, Hs by lia.
Qed.

Lemma low_bit k : 0 ≤ k < 12 → low (Z.shiftl 1 k).
Proof. intros Hk n Hn. rewrite shiftl_1_bit by lia. apply Z.eqb_neq. lia. Qed.

Lemma low_lor a b : low a → low b → low (Z.lor a b).
Proof. intros Ha Hb n Hn. by rewrite Z.lor_spec, Ha, Hb. Qed.

(** The two conversions in terms of bits. *)
Lemma pat_test v :
  Z.land v (Z.lor _PAGE_PAT (Z.lor _PAGE_PCD _PAGE_PWT)) = _PAGE_PAT ↔
  Z.testbit v 7 = true ∧ Z.testbit v 4 = false ∧ Z.testbit v 3 = false.
Proof.
  unfold _PAGE_PAT, _PAGE_PCD, _PAGE_PWT. split.
  - intros Hx. split_and!.
    + apply (f_equal (λ z, Z.testbit z 7)) in Hx. by rewrite Z.land_spec, andb_true_r in Hx.
    + apply (f_equal (λ z, Z.testbit z 4)) in Hx. by rewrite Z.land_spec, andb_true_r in Hx.
    + apply (f_equal (λ z, Z.testbit z 3)) in Hx. by rewrite Z.land_spec, andb_true_r in Hx.
  - intros (H7 & H4 & H3). apply Z.bits_inj'. intros n Hn.
    rewrite Z.land_spec, !Z.lor_spec, !shiftl_1_bit by lia.
    destruct (Z.eqb_spec 7 n) as [<-|]; [by rewrite H7|].
    destruct (Z.eqb_spec 4 n) as [<-|]; [by rewrite H4|].
    destruct (Z.eqb_spec 3 n) as [<-|]; [by rewrite H3|]. by rewrite andb_false_r.
Qed.

Lemma pwt_test v :
  Z.land v (Z.lor _PAGE_PCD _PAGE_PWT) = _PAGE_PWT ↔ Z.testbit v 4 = false ∧ Z.testbit v 3 = true.
Proof.
  unfold _PAGE_PCD, _PAGE_PWT. split.
  - intros Hx. split.
    + apply (f_equal (λ z, Z.testbit z 4)) in Hx. by rewrite Z.land_spec, andb_true_r in Hx.
    + apply (f_equal (λ z, Z.testbit z 3)) in Hx. by rewrite Z.land_spec, andb_true_r in Hx.
  - intros (H4 & H3). apply Z.bits_inj'. intros n Hn.
    rewrite Z.land_spec, !Z.lor_spec, !shiftl_1_bit by lia.
    destruct (Z.eqb_spec 4 n) as [<-|]; [by rewrite H4|].
    destruct (Z.eqb_spec 3 n) as [<-|]; [by rewrite H3|]. by rewrite andb_false_r.
Qed.

Lemma pat_to_linux_run v :
  (if decide (Z.land v (Z.lor _PAGE_PAT (Z.lor _PAGE_PCD _PAGE_PWT)) = _PAGE_PAT)
   then Z.lor (clear v _PAGE_PAT) _PAGE_PWT else v) = pat_to_linux v.
Proof.
  unfold pat_to_linux. pose proof (pat_test v) as Ht.
  destruct (decide (Z.land _ _ = _)), (decide (_ ∧ _)); tauto.
Qed.

Definition write_combining (v : Z) : bool :=
  pat_enabled && negb (Z.testbit v 7) && negb (Z.testbit v 4) && Z.testbit v 3.

Lemma pat_to_xen_run v :
  pat_to_xen v = if write_combining v then patch (Z.lor _PAGE_PCD _PAGE_PWT) _PAGE_PAT v else v.
Proof.
  unfold pat_to_xen, write_combining. destruct pat_enabled; [|done]. cbn [andb].
  unfold _PAGE_PAT at 1. pose proof (land_bit_0 v 7) as H7.
  case_bool_decide as Hc; destruct (Z.testbit v 7) eqn:E7; cbn [negb andb]; try (exfalso; naive_solver lia); [|done].
  pose proof (pwt_test v) as Ht. destruct (decide _) as [Hd|Hd].
  - apply Ht in Hd as [-> ->]. done.
  - destruct (Z.testbit v 4), (Z.testbit v 3); try done. exfalso. tauto.
Qed.

(** The bits the tests look at survive when flags and frame are put together. *)
Lemma pat_linux_entry f fl : 0 ≤ f < 2 ^ (phys_bits - 12) →
  pat_to_linux (make_entry f fl) = make_entry f (pat_to_linux fl).
Proof.
  intros Hf. unfold pat_to_linux. rewrite !make_low by lia. case_decide; [|done].
  apply (patch_entry (Z.shiftl 1 7) (Z.shiftl 1 3)); [done|apply low_bit; lia..].
Qed.

Lemma pat_xen_entry f fl : 0 ≤ f < 2 ^ (phys_bits - 12) →
  pat_to_xen (make_entry f fl) = make_entry f (pat_to_xen fl).
Proof.
  intros Hf. rewrite !pat_to_xen_run. unfold write_combining. rewrite !make_low by lia. case_match; [|done].
  apply patch_entry; [done|apply low_lor; apply low_bit; lia|apply low_bit; lia].
Qed.

(** Xen's spelling is read back as Linux's. *)
Lemma pat_inverse v : pat_to_linux (pat_to_xen v) = pat_to_linux v.
Proof.
  rewrite pat_to_xen_run. destruct (write_combining v) eqn:E; [|done].
  assert (Hv : Z.testbit v 7 = false ∧ Z.testbit v 4 = false ∧ Z.testbit v 3 = true).
  { unfold write_combining in E. destruct (Z.testbit v 7), (Z.testbit v 4), (Z.testbit v 3), pat_enabled; done. }
  destruct Hv as (E7 & E4 & E3).
  assert (Hbit : ∀ n, 0 ≤ n → Z.testbit (patch (Z.lor _PAGE_PCD _PAGE_PWT) _PAGE_PAT v) n =
    Z.testbit v n && negb ((4 =? n) || (3 =? n)) || (7 =? n)).
  { intros n Hn. unfold patch, _PAGE_PCD, _PAGE_PWT, _PAGE_PAT.
    by rewrite Z.lor_spec, Z.ldiff_spec, Z.lor_spec, !shiftl_1_bit by lia. }
  unfold pat_to_linux. rewrite decide_True by (rewrite !Hbit, E7, E4, E3 by lia; done).
  rewrite decide_False by (intros [Hb _]; congruence).
  apply Z.bits_inj'. intros n Hn.
  rewrite Z.lor_spec, Z.ldiff_spec, Hbit, !shiftl_1_bit by lia.
  destruct (Z.eqb_spec 7 n) as [<-|]; [by rewrite E7|].
  destruct (Z.eqb_spec 4 n) as [<-|]; [by rewrite E4|].
  destruct (Z.eqb_spec 3 n) as [<-|]; [by rewrite E3|].
  by destruct (Z.testbit v n).
Qed.

Lemma pat_xen_flags fl : flags_only fl → flags_only (pat_to_xen fl).
Proof.
  intros Hx. rewrite pat_to_xen_run. case_match; [|done].
  apply patch_flags_only; [apply low_lor; apply low_bit; lia|apply low_bit; lia|done|done].
Qed.

Lemma pat_linux_flags fl : flags_only fl → flags_only (pat_to_linux fl).
Proof.
  intros Hx. unfold pat_to_linux. case_decide; [|done].
  apply (patch_flags_only (Z.shiftl 1 7) (Z.shiftl 1 3)); [apply low_bit; lia..|done|done].
Qed.

Lemma not_pat n : n ∉ [3; 4; 7] → (4 =? n) = false ∧ (3 =? n) = false ∧ (7 =? n) = false.
Proof. rewrite !elem_of_cons, elem_of_nil, !Z.eqb_neq. lia. Qed.

(** Neither conversion touches the present or the I/O bit. *)
Lemma pat_xen_bit v n : 0 ≤ n → n ∉ [3; 4; 7] → Z.testbit (pat_to_xen v) n = Z.testbit v n.
Proof.
  intros Hn Hne. rewrite pat_to_xen_run. case_match; [|done]. unfold patch, _PAGE_PCD, _PAGE_PWT, _PAGE_PAT.
  rewrite Z.lor_spec, Z.ldiff_spec, Z.lor_spec, !shiftl_1_bit by lia.
  destruct (not_pat n Hne) as (-> & -> & ->). by destruct (Z.testbit v n).
Qed.

Lemma pat_linux_bit v n : 0 ≤ n → n ∉ [3; 4; 7] → Z.testbit (pat_to_linux v) n = Z.testbit v n.
Proof.
  intros Hn Hne. unfold pat_to_linux. case_decide; [|done].
  rewrite Z.lor_spec, Z.ldiff_spec, !shiftl_1_bit by lia.
  destruct (not_pat n Hne) as (_ & -> & ->). by destruct (Z.testbit v n).
Qed.

End entry_lemmas.

Section entry_props.
  Context `{PL : P2MLaws}.

Lemma present_test v : Z.land v _PAGE_PRESENT ≠ 0 ↔ Z.testbit v 0 = true.
Proof.
  unfold _PAGE_PRESENT. rewrite land_bit_0 by done. by destruct (Z.testbit v 0).
Qed.

Lemma iomap_test v : bool_decide (Z.land v _PAGE_IOMAP = 0) = negb (Z.testbit v iomap_bit).
Proof.
  pose proof iomap_bit_range. unfold _PAGE_IOMAP. pose proof (land_bit_0 v iomap_bit) as Ht.
  case_bool_decide; destruct (Z.testbit v iomap_bit); try done; exfalso; naive_solver lia.
Qed.

Lemma iomap_not_pat : iomap_bit ∉ [3; 4; 7].
Proof. pose proof iomap_bit_range. rewrite !elem_of_cons, elem_of_nil. lia. Qed.

Lemma clear_nothing v : Z.testbit v iomap_bit = false → clear v _PAGE_IOMAP = v.
Proof.
  pose proof iomap_bit_range. intros Hv. apply Z.bits_inj'. intros n Hn. unfold clear, _PAGE_IOMAP.
  rewrite Z.ldiff_spec, shiftl_1_bit by lia. destruct (Z.eqb_spec iomap_bit n) as [<-|]; [by rewrite Hv|].
  by rewrite andb_true_r.
Qed.

(** Both directions replace the frame and keep the flags. *)
Lemma mfn_to_pfn_entry f fl : 0 ≤ f < 2 ^ (phys_bits - 12) → flags_only fl →
  pte_mfn_to_pfn (make_entry f fl) = if Z.testbit fl 0 then make_entry (m2p f) fl else make_entry f fl.
Proof.
  intros Hf Hfl. unfold pte_mfn_to_pfn. pose proof (present_test (make_entry f fl)) as Hp.
  rewrite make_low in Hp by lia. destruct (Z.testbit fl 0).
  - rewrite decide_True by tauto. fold (frame_of (make_entry f fl)).
    by rewrite frame_make, flags_make.
  - rewrite decide_False by (intros Ht; apply Hp in Ht; done). done.
Qed.

Lemma pfn_to_mfn_entry f g fl : 0 ≤ f < 2 ^ (phys_bits - 12) → flags_only fl → translated f g →
  pte_pfn_to_mfn (make_entry f fl) = if Z.testbit fl 0 then make_entry g fl else make_entry f fl.
Proof.
  intros Hf Hfl (Hp2m & Hm2p & Hinv & Hg & Hfor & Hid). unfold pte_pfn_to_mfn.
  pose proof (present_test (make_entry f fl)) as Hp. rewrite make_low in Hp by lia.
  destruct (Z.testbit fl 0).
  - rewrite decide_True by tauto. fold (frame_of (make_entry f fl)). rewrite frame_make, flags_make by done.
    assert (Hmfn : (if negb auto_translated then get_phys_to_machine f else f) = g) by (by destruct auto_translated).
    rewrite Hmfn. rewrite decide_False by done.
    assert (Hclear : clear g FOREIGN_FRAME_BIT = g).
    { unfold clear. pose proof (Z.lor_ldiff_and g FOREIGN_FRAME_BIT) as Hs.
      by rewrite Hfor, Z.lor_0_r in Hs. }
    rewrite Hclear. by rewrite decide_False by auto.
  - rewrite decide_False by (intros Ht; apply Hp in Ht; done). done.
Qed.

(** ** Properties *)

(** C15: an entry of an ordinary page survives the way to the machine's frame
    numbers and back; so does an entry that is not present, and in the initial
    domain an I/O mapping.  The one exception is the page attribute bit alone,
    which is read back as write-through, whoever set it.  A page without a
    machine frame becomes the empty entry. *)
Theorem pte_roundtrip v mfn :
  is_u64 v →
  (Z.testbit v iomap_bit = false → (Z.testbit v 0 = true → translated (frame_of v) mfn) →
   xen_pte_val (xen_make_pte v) = pat_to_linux v) ∧
  (Z.testbit v iomap_bit = true → xen_initial_domain = true →
   xen_pte_val (xen_make_pte v) = pat_to_linux v) ∧
  (Z.testbit v iomap_bit = false → Z.testbit v 0 = true → auto_translated = false →
   get_phys_to_machine (frame_of v) = INVALID_P2M_ENTRY → xen_make_pte v = 0) ∧
  (¬ (Z.testbit v 7 = true ∧ Z.testbit v 4 = false ∧ Z.testbit v 3 = false) → pat_to_linux v = v).
Proof.
  intros Hv. pose proof iomap_bit_range. pose proof iomap_not_pat as Hio.
  pose proof (frame_range v (proj1 Hv)) as Hf. pose proof (land_flags_only v Hv) as Hfl.
  pose proof (make_frame_flags v Hv) as Hsplit.
  set (f := frame_of v) in *. set (fl := Z.land v PTE_FLAGS_MASK) in *.
  assert (Hpat : pat_to_xen v = make_entry f (pat_to_xen fl)) by (by rewrite <-Hsplit, pat_xen_entry).
  assert (Hback : pat_to_linux v = make_entry f (pat_to_linux fl)) by (by rewrite <-Hsplit, pat_linux_entry).
  assert (Hiob : Z.testbit (pat_to_xen v) iomap_bit = Z.testbit v iomap_bit) by (by apply pat_xen_bit; [lia|]).
  assert (Hflio : Z.testbit (pat_to_xen fl) iomap_bit = Z.testbit v iomap_bit).
  { rewrite <-Hiob, Hpat, make_low by (done || lia). done. }
  assert (Hpres : Z.testbit (pat_to_xen fl) 0 = Z.testbit v 0).
  { rewrite pat_xen_bit by (done || set_solver). rewrite <-Hsplit, make_low by (done || lia). done. }
  assert (Hmake : Z.testbit v iomap_bit = false → xen_make_pte v = pte_pfn_to_mfn (make_entry f (pat_to_xen fl))).
  { intros Hn. unfold xen_make_pte. fold (pat_to_xen v). rewrite iomap_test, Hiob, Hn. cbn [negb andb].
    by rewrite clear_nothing, Hpat by congruence. }
  assert (Hval : ∀ g, 0 ≤ g < 2 ^ (phys_bits - 12) → Z.testbit v iomap_bit = false →
    xen_pte_val (make_entry g (pat_to_xen fl)) = pte_mfn_to_pfn (make_entry g (pat_to_linux fl))).
  { intros g Hg Hn. unfold xen_pte_val. rewrite pat_to_linux_run, pat_linux_entry, pat_inverse by done.
    rewrite iomap_test, make_low by (done || lia). rewrite pat_linux_bit by (done || lia).
    assert (Hf0 : Z.testbit fl iomap_bit = false).
    { rewrite <-Hn. rewrite <-Hsplit, make_low by (done || lia). done. }
    rewrite Hf0. cbn [negb]. by rewrite andb_false_r. }
  split_and!.
  - intros Hn Htr. rewrite Hmake by done. rewrite Hback. destruct (Z.testbit v 0) eqn:E0.
    + specialize (Htr eq_refl). assert (Hg : 0 ≤ mfn < 2 ^ (phys_bits - 12)) by apply Htr.
      rewrite (pfn_to_mfn_entry f mfn) by (done || by apply pat_xen_flags). rewrite Hpres.
      rewrite Hval by done. rewrite mfn_to_pfn_entry by (done || by apply pat_linux_flags).
      rewrite pat_linux_bit by (done || set_solver). rewrite <-(pat_xen_bit fl 0), Hpres by (done || set_solver).
      by destruct Htr as (_ & -> & _).
    + unfold pte_pfn_to_mfn. rewrite decide_False.
      2:{ rewrite present_test, make_low, Hpres by (done || lia). done. }
      rewrite Hval by done. rewrite mfn_to_pfn_entry by (done || by apply pat_linux_flags).
      rewrite pat_linux_bit by (done || set_solver). by rewrite <-(pat_xen_bit fl 0), Hpres by (done || set_solver).
  - intros Hn Hd. unfold xen_make_pte. fold (pat_to_xen v). rewrite iomap_test, Hiob, Hn, Hd. cbn [negb andb orb].
    assert (Hid : iomap_pte (pat_to_xen v) = pat_to_xen v).
    { unfold iomap_pte. case_decide; [|done]. fold (frame_of (pat_to_xen v)).
      rewrite Hpat, frame_make, flags_make by (done || by apply pat_xen_flags). done. }
    rewrite Hid. unfold xen_pte_val. rewrite pat_to_linux_run, pat_inverse, Hd, iomap_test. cbn [andb].
    rewrite pat_linux_bit by (done || lia). by rewrite Hn.
  - intros Hn Hpr Ha Hp. rewrite Hmake by done. unfold pte_pfn_to_mfn. rewrite decide_True.
    2:{ by rewrite present_test, make_low, Hpres by (done || lia). }
    fold (frame_of (make_entry f (pat_to_xen fl))). rewrite frame_make by (done || by apply pat_xen_flags).
    rewrite Ha, Hp. cbn [negb]. by rewrite decide_True.
  - intros Hp. unfold pat_to_linux. by rewrite decide_False.
Qed.

End entry_props.

(** ** Updates and the hook *)

Section update_props.
  Context `{ML : MulticallsLaws} `{AS : AddrSpace}.
  Context (page_pinned : Z → bool) (user_pgd_page : Z → Z) (user_limit_index : Z) (lazy_mmu : bool).

(** One update is added to what is handed to the hypervisor, nothing else changes. *)
Definition sends (s s' : mmu_state) (ptr val : Z) : Prop :=
  tables s' = tables s ∧ mmu_driver s' = mmu_driver s ∧
  ∃ d, sent (mcs s') = sent (mcs s) ++ [(ptr, val, d)].

Lemma extend_sends ptr val s : sends s (xen_extend_mmu_update ptr val s) ptr val.
Proof.
  unfold xen_extend_mmu_update. destruct (mc_extend (mcs s) (ptr, val)) as [q|] eqn:E.
  - split_and!; [done..|]. by apply sent_extend in E.
  - split_and!; [done..|]. simpl. exists DOMID_SELF. apply sent_entry.
Qed.

Lemma sends_issue s s' ptr val : sends s s' ptr val → sends s (on_queue xen_mc_issue s') ptr val.
Proof. intros (Ht & Hd & d & Hs). split_and!; [done..|]. exists d. simpl. by rewrite sent_issue. Qed.

Lemma sends_batch s s' ptr val : sends (on_queue xen_mc_batch s) s' ptr val → sends s s' ptr val.
Proof. intros (Ht & Hd & d & Hs). split_and!; [done..|]. exists d. rewrite Hs. simpl. by rewrite sent_batch. Qed.

Lemma batched_sends ptr val s : sends s (batched ptr val s) ptr val.
Proof. apply sends_batch, sends_issue, extend_sends. Qed.

Lemma set_pgd_driver ptr val s :
  mmu_driver (xen_set_pgd page_pinned user_pgd_page user_limit_index ptr val s) = mmu_driver s.
Proof.
  unfold xen_set_pgd, __xen_set_pgd_hyper. set (p := xen_get_user_pgd _ _ _).
  destruct (negb _); [by case_decide|]. simpl.
  pose proof (extend_sends (virt_to_machine ptr) val (on_queue xen_mc_batch s)) as (_ & H1 & _).
  pose proof (extend_sends (virt_to_machine p) val
    (xen_extend_mmu_update (virt_to_machine ptr) val (on_queue xen_mc_batch s))) as (_ & H2 & _).
  case_decide; [etrans; [exact H2|]|]; exact H1.
Qed.

(** Of the operations that write page-table entries, only the commit of a
    protection change and the mapping of a foreign page run the driver's hook;
    they run it once, with the new entry, before the update is handed to the
    hypervisor, and hand over exactly this update whatever the hook answers.
    When the hook fails, so does the operation.  Setting a pte, pmd, pud or pgd
    leaves the driver in ignorance. *)
Theorem hook_sees_commits hook ptep pte domid s :
  (∀ r st1, hook ptep pte (mmu_driver s) = Ret (r, st1) →
   (∃ s', xen_ptep_modify_prot_commit (Some hook) ptep pte s = Ret s' ∧
      sends (mk_mmu_state (tables s) (mcs s) st1) s' (Z.lor (virt_to_machine ptep) MMU_PT_UPDATE_PRESERVE_AD) pte) ∧
   (∃ s', xen_set_domain_pte (Some hook) ptep pte domid s = Ret s' ∧ tables s' = tables s ∧
      mmu_driver s' = st1 ∧ sent (mcs s') = sent (mcs s) ++ [(virt_to_machine ptep, pte, u16 domid)])) ∧
  (∀ f, hook ptep pte (mmu_driver s) = Err f →
   xen_ptep_modify_prot_commit (Some hook) ptep pte s = Err f ∧
   xen_set_domain_pte (Some hook) ptep pte domid s = Err f) ∧
  (if lazy_mmu then sends s (xen_set_pte lazy_mmu ptep pte s) (Z.lor (virt_to_machine ptep) MMU_NORMAL_PT_UPDATE) pte
   else xen_set_pte lazy_mmu ptep pte s = native_set ptep pte s) ∧
  (∀ s', xen_set_pmd page_pinned ptep pte s = Ret s' ∨ xen_set_pud page_pinned ptep pte s = Ret s' →
   mmu_driver s' = mmu_driver s) ∧
  mmu_driver (xen_set_pgd page_pinned user_pgd_page user_limit_index ptep pte s) = mmu_driver s.
Proof.
  split_and!.
  - intros r st1 Hh. unfold xen_ptep_modify_prot_commit, xen_set_domain_pte, run_hook. simpl. rewrite Hh. simpl. split.
    + eexists. split; [done|]. apply sends_issue.
      apply (sends_batch (mk_mmu_state (tables s) (mcs s) st1)), extend_sends.
    + eexists. split; [done|]. simpl. split_and!; [done..|]. by rewrite sent_issue, sent_entry.
  - intros f Hh. unfold xen_ptep_modify_prot_commit, xen_set_domain_pte, run_hook. simpl. by rewrite Hh.
  - unfold xen_set_pte, __xen_set_pte, xen_batched_set_pte. destruct lazy_mmu; [apply batched_sends|done].
  - intros s'. unfold xen_set_pmd, xen_set_pud, xen_set_pmd_hyper, xen_set_pud_hyper.
    destruct (negb _); [intros [[= <-]|[= <-]]; done|].
    destruct (arbitrary_virt_to_machine ptep) as [maddr|]; simpl; [|by intros [|]].
    intros [[= <-]|[= <-]]; apply batched_sends.
  - apply set_pgd_driver.
Qed.

End update_props.

(** ** Witnesses *)

(** Machine frames are 16 further on; frame 9 has none. *)
Definition toy_p2m : P2M := {|
  phys_bits := 46;
  iomap_bit := 10;
  get_phys_to_machine f := if decide (f = 9) then 2 ^ 64 - 1 else f + 16;
  m2p f := f - 16;
  INVALID_P2M_ENTRY := 2 ^ 64 - 1;
  FOREIGN_FRAME_BIT := 2 ^ 63;
  IDENTITY_FRAME_BIT := 2 ^ 62;
  auto_translated := false;
  xen_initial_domain := false;
  pat_enabled := true;
  ISA_END_ADDRESS := 1048576
|}.

#[export] Instance toy_p2m_laws : @P2MLaws toy_p2m.
Proof. split; simpl; lia. Qed.

(** A queue that extends its last entry while there is one. *)
Definition toy_multicalls : Multicalls := {|
  queue := list (Z * Z * Z);
  sent q := q;
  mc_entry q u := q ++ [u];
  mc_extend q u := match last q with Some (_, _, d) => Some (q ++ [(u.1, u.2, d)]) | None => None end;
  xen_mc_batch q := q;
  xen_mc_issue q := q
|}.

#[export] Instance toy_multicalls_laws : @MulticallsLaws toy_multicalls.
Proof.
  split; try done. intros q u q'. simpl. destruct (last q) as [[[??] d]|]; [|done]. intros [= <-]. by exists d.
Qed.

Lemma pte_roundtrip_witness :
  @xen_pte_val toy_p2m (@xen_make_pte toy_p2m (7 * 4096 + 0x2B)) = 7 * 4096 + 0x2B ∧
  @xen_make_pte toy_p2m (9 * 4096 + 1) = 0.
Proof.
  split.
  - destruct (@pte_roundtrip toy_p2m toy_p2m_laws (7 * 4096 + 0x2B) 23) as (Hrt & _ & _ & Hpat).
    { unfold is_u64. lia. }
    rewrite Hrt; [apply Hpat|done|]; [intros [? _]; done|].
    intros _. change (frame_of (7 * 4096 + 0x2B)) with 7. split_and!; try done; simpl; lia.
  - destruct (@pte_roundtrip toy_p2m toy_p2m_laws (9 * 4096 + 1) 0) as (_ & _ & Hinv & _).
    { unfold is_u64. lia. }
    apply Hinv; done.
Defined.

Lemma hook_sees_commits_witness :
  ∃ s', @xen_ptep_modify_prot_commit toy_multicalls toy_space
      (Some (@malpage_multi_mmu_update toy_space ring32 (mk_task_struct 77 None))) 8192 67
      (@mk_mmu_state toy_multicalls ∅ [] toy_connected) = Ret s' ∧
    @mmu_driver toy_multicalls s' =
      @reported ring32 toy_info toy_page (mk_message 6 0 0 77 3 8192 0 67) toy_connected.
Proof.
  destruct (@hook_sees_commits toy_multicalls toy_multicalls_laws toy_space (λ _, true) (λ _, NULL) 256 true
    (@malpage_multi_mmu_update toy_space ring32 (mk_task_struct 77 None)) 8192 67 0
    (@mk_mmu_state toy_multicalls ∅ [] toy_connected)) as [Hrun _].
  destruct (Hrun 0 (@reported ring32 toy_info toy_page (mk_message 6 0 0 77 3 8192 0 67) toy_connected))
    as [(s' & E & Hs) _].
  - reflexivity.
  - exists s'. split; [exact E|]. by destruct Hs as (_ & -> & _).
Defined.
