(* ===== verification/Hypercall.v ===== *)
(** * Batched hypercalls (asm/xen/hypercall.h, xen/interface/xen.h)

    The entries of a multicall as the MULTI_ functions fill them, what the
    hypervisor reads in an entry, and the buffer of multicalls.h, which is not
    in the repository, as a class with its laws. *)

From S2P Require Import Prelude Protocol.

(** ** Data *)

Definition __HYPERVISOR_mmu_update : Z := 1.
Definition __HYPERVISOR_stack_switch : Z := 3.
Definition __HYPERVISOR_set_gdt : Z := 2.
Definition __HYPERVISOR_fpu_taskswitch : Z := 5.
Definition __HYPERVISOR_update_descriptor : Z := 10.
Definition __HYPERVISOR_memory_op : Z := 12.
Definition __HYPERVISOR_update_va_mapping : Z := 14.
Definition __HYPERVISOR_grant_table_op : Z := 20.
Definition __HYPERVISOR_update_va_mapping_otherdomain : Z := 22.
Definition __HYPERVISOR_mmuext_op : Z := 26.

Definition MMUEXT_PIN_L1_TABLE : Z := 0.
Definition MMUEXT_PIN_L2_TABLE : Z := 1.
Definition MMUEXT_PIN_L3_TABLE : Z := 2.
Definition MMUEXT_PIN_L4_TABLE : Z := 3.
Definition MMUEXT_UNPIN_TABLE : Z := 4.
Definition MMUEXT_NEW_BASEPTR : Z := 5.
Definition MMUEXT_TLB_FLUSH_LOCAL : Z := 6.
Definition MMUEXT_INVLPG_LOCAL : Z := 7.
Definition MMUEXT_TLB_FLUSH_MULTI : Z := 8.
Definition MMUEXT_INVLPG_MULTI : Z := 9.
Definition MMUEXT_NEW_USER_BASEPTR : Z := 15.

Definition UVMF_NONE : Z := Z.shiftl 0 0.
Definition UVMF_TLB_FLUSH : Z := Z.shiftl 1 0.
Definition UVMF_INVLPG : Z := Z.shiftl 2 0.
Definition UVMF_ALL : Z := Z.shiftl 1 2.

(** [struct multicall_entry]; [args] has six elements, [result] is written by
    the hypervisor only. *)
Record multicall_entry : Type := mk_multicall_entry { mc_op : Z; mc_args : list Z }.

(** [struct mmuext_op]: a field the code does not assign is [None]. *)
Record mmuext_op : Type := mk_mmuext_op { ext_cmd : Z; ext_arg1 : option Z; ext_arg2 : option Z }.

#[export] Instance mmuext_op_eq_dec : EqDecision mmuext_op.
Proof. solve_decision. Defined.

(** ** The entries *)

(** [mcl->op = op; mcl->args[0] = ...; mcl->args[1] = ...;] *)
Definition fill_entry (op : Z) (vs : list Z) (mcl : multicall_entry) : multicall_entry :=
  mk_multicall_entry op (list_inserts 0 vs (mc_args mcl)).

(** [MULTI_fpu_taskswitch(mcl, set)] *)
Definition MULTI_fpu_taskswitch (set : Z) : multicall_entry → multicall_entry :=
  fill_entry __HYPERVISOR_fpu_taskswitch [u64 set].

(** [MULTI_update_va_mapping(mcl, va, new_val, flags)], entries being as long as
    a long: [MULTI_UVMFLAGS_INDEX] is 2.  The hook in it is commented out. *)
Definition MULTI_UVMFLAGS_INDEX : nat := 2.
Definition MULTI_update_va_mapping (va new_val flags : Z) (mcl : multicall_entry) : multicall_entry :=
  let mcl1 := fill_entry __HYPERVISOR_update_va_mapping [va; new_val] mcl in
  mk_multicall_entry (mc_op mcl1) (<[MULTI_UVMFLAGS_INDEX := flags]> (mc_args mcl1)).

(** [MULTI_grant_table_op(mcl, cmd, uop, count)] *)
Definition MULTI_grant_table_op (cmd uop count : Z) : multicall_entry → multicall_entry :=
  fill_entry __HYPERVISOR_grant_table_op [cmd; uop; count].

(** [MULTI_update_va_mapping_otherdomain(mcl, va, new_val, flags, domid)] *)
Definition MULTI_update_va_mapping_otherdomain (va new_val flags domid : Z)
    : multicall_entry → multicall_entry :=
  fill_entry __HYPERVISOR_update_va_mapping_otherdomain [va; new_val; flags; domid].

(** [MULTI_update_descriptor(mcl, maddr, desc)]; [desc] is eight bytes. *)
Definition MULTI_update_descriptor (maddr desc : Z) : multicall_entry → multicall_entry :=
  fill_entry __HYPERVISOR_update_descriptor [maddr; desc].

(** [MULTI_memory_op(mcl, cmd, arg)] *)
Definition MULTI_memory_op (cmd arg : Z) : multicall_entry → multicall_entry :=
  fill_entry __HYPERVISOR_memory_op [cmd; arg].

(** [MULTI_mmu_update(mcl, req, count, success_count, domid)], its hook is
    commented out too. *)
Definition MULTI_mmu_update (req count success_count domid : Z) : multicall_entry → multicall_entry :=
  fill_entry __HYPERVISOR_mmu_update [req; u64 count; success_count; domid].

(** [MULTI_mmuext_op(mcl, op, count, success_count, domid)] *)
Definition MULTI_mmuext_op (op count success_count domid : Z) : multicall_entry → multicall_entry :=
  fill_entry __HYPERVISOR_mmuext_op [op; u64 count; success_count; domid].

(** [MULTI_set_gdt(mcl, frames, entries)] and [MULTI_stack_switch(mcl, ss, esp)] *)
Definition MULTI_set_gdt (frames entries : Z) : multicall_entry → multicall_entry :=
  fill_entry __HYPERVISOR_set_gdt [frames; u64 entries].
Definition MULTI_stack_switch (ss esp : Z) : multicall_entry → multicall_entry :=
  fill_entry __HYPERVISOR_stack_switch [ss; esp].

(** ** What the hypervisor reads *)

(** The operations on mappings and page tables; [Other] are the remaining ones. *)
Inductive xen_op : Type :=
  | UpdateVa (va val flags : Z)
  | Mmuext (op : mmuext_op)
  | Other (e : multicall_entry).

(** An entry, [ops] being the operations its first argument points to. *)
Definition read_entry (e : multicall_entry) (ops : list mmuext_op) : list xen_op :=
  if decide (mc_op e = __HYPERVISOR_update_va_mapping) then
    match mc_args e with va :: val :: flags :: _ => [UpdateVa va val flags] | _ => [Other e] end
  else if decide (mc_op e = __HYPERVISOR_mmuext_op) then
    match mc_args e with _ :: count :: _ => Mmuext <$> take (Z.to_nat count) ops | _ => [Other e] end
  else [Other e].

(** ** The buffer *)

(** What [xen_mc_callback] is called with: the function and its argument. *)
Inductive deferred : Type :=
  | UnlockPte (ptl : Z)
  | SetCurrentCr3 (cr3 : Z).

#[export] Instance deferred_eq_dec : EqDecision deferred.
Proof. solve_decision. Defined.

(** [handed] are the operations given to the buffer so far, issued or not, in
    order; the callbacks of issued batches are [finished], the others
    [waiting].  [mcb_call] is [__xen_mc_entry] with what is written into the
    entry and, for [__HYPERVISOR_mmuext_op], behind it; [mcb_extend] is
    [xen_mc_extend_args(__HYPERVISOR_mmuext_op, ...)], with [args[1]++] and the
    operation written, where there is room. *)
Class McBuffer : Type := {
  mcb : Type;
  handed : mcb → list xen_op;
  finished : mcb → list deferred;
  waiting : mcb → list deferred;
  mcb_call : mcb → (Z → multicall_entry → multicall_entry) → list mmuext_op → mcb;
  mcb_extend : mcb → mmuext_op → option mcb;
  mcb_callback : mcb → deferred → mcb;
  mcb_batch : mcb → mcb;
  mcb_issue : Z → Z → mcb → mcb
}.

Definition registered `{McBuffer} (q : mcb) : list deferred := finished q ++ waiting q.

(** [mcb_issue lazy mode] is [xen_mc_issue(mode)] on a processor whose
    [paravirt_get_lazy_mode()] is [lazy]: it issues the batch unless the two
    have a bit in common. *)
Definition PARAVIRT_LAZY_MMU : Z := 1.
Definition PARAVIRT_LAZY_CPU : Z := 2.

Class McBufferLaws `{McBuffer} : Prop := {
  call_handed : ∀ q fill ops, ∃ args e, length (mc_args e) = 6%nat ∧
    handed (mcb_call q fill ops) = handed q ++ read_entry (fill args e) ops;
  call_registered : ∀ q fill ops, registered (mcb_call q fill ops) = registered q;
  extend_handed : ∀ q op q', mcb_extend q op = Some q' → handed q' = handed q ++ [Mmuext op];
  extend_registered : ∀ q op q', mcb_extend q op = Some q' → registered q' = registered q;
  callback_handed : ∀ q d, handed (mcb_callback q d) = handed q;
  callback_registered : ∀ q d, registered (mcb_callback q d) = registered q ++ [d];
  batch_handed : ∀ q, handed (mcb_batch q) = handed q;
  batch_registered : ∀ q, registered (mcb_batch q) = registered q;
  issue_handed : ∀ lazy mode q, handed (mcb_issue lazy mode q) = handed q;
  issue_registered : ∀ lazy mode q, registered (mcb_issue lazy mode q) = registered q;
  issue_waiting : ∀ lazy mode q, Z.land lazy mode = 0 → waiting (mcb_issue lazy mode q) = []
}.

(** ** Lemmas *)

(** What reaches the hypervisor of the two entries page tables use. *)
Lemma read_update_va va val flags e :
  length (mc_args e) = 6%nat →
  read_entry (MULTI_update_va_mapping va val flags e) [] = [UpdateVa va val flags].
Proof. destruct e as [op args]. simpl. intros. by do 6 (destruct args as [|? args]; [discriminate|]). Qed.

Lemma read_mmuext args op e :
  length (mc_args e) = 6%nat →
  read_entry (MULTI_mmuext_op args 1 NULL 0x7FF0 e) [op] = [Mmuext op].
Proof. destruct e as [o l]. simpl. intros. by do 6 (destruct l as [|? l]; [discriminate|]). Qed.

Section buffer.
  Context `{MB : McBuffer} `{!McBufferLaws}.

Lemma call_update_va q va val flags :
  handed (mcb_call q (λ _, MULTI_update_va_mapping va val flags) []) = handed q ++ [UpdateVa va val flags].
Proof.
  destruct (call_handed q (λ _, MULTI_update_va_mapping va val flags) []) as (? & e & He & ->).
  by rewrite read_update_va.
Qed.

Lemma call_mmuext q op :
  handed (mcb_call q (λ args, MULTI_mmuext_op args 1 NULL 0x7FF0) [op]) = handed q ++ [Mmuext op].
Proof.
  destruct (call_handed q (λ args, MULTI_mmuext_op args 1 NULL 0x7FF0) [op]) as (? & e & He & ->).
  by rewrite read_mmuext.
Qed.

End buffer.

(** ** An instance: a buffer that never fills, issued unless the processor is
    in the lazy mode *)

Record list_buffer : Type := mk_list_buffer {
  lb_handed : list xen_op; lb_finished : list deferred; lb_waiting : list deferred; lb_extensible : bool
}.

Definition list_mcb : McBuffer := {|
  mcb := list_buffer;
  handed := lb_handed; finished := lb_finished; waiting := lb_waiting;
  mcb_call q fill ops :=
    let e := fill 0x1000 (mk_multicall_entry 0 [0; 0; 0; 0; 0; 0]) in
    mk_list_buffer (lb_handed q ++ read_entry e ops) (lb_finished q) (lb_waiting q)
      (bool_decide (mc_op e = __HYPERVISOR_mmuext_op));
  mcb_extend q op :=
    if lb_extensible q
    then Some (mk_list_buffer (lb_handed q ++ [Mmuext op]) (lb_finished q) (lb_waiting q) true) else None;
  mcb_callback q d := mk_list_buffer (lb_handed q) (lb_finished q) (lb_waiting q ++ [d]) (lb_extensible q);
  mcb_batch q := q;
  mcb_issue lazy mode q :=
    if decide (Z.land lazy mode = 0)
    then mk_list_buffer (lb_handed q) (lb_finished q ++ lb_waiting q) [] false else q
|}.

Definition empty_buffer : list_buffer := mk_list_buffer [] [] [] false.

#[export] Instance list_mcb_laws : @McBufferLaws list_mcb.
Proof.
  split; unfold registered; simpl; try done.
  - intros. by exists 0x1000, (mk_multicall_entry 0 [0; 0; 0; 0; 0; 0]).
  - intros. by case_match; simplify_eq.
  - intros. by case_match; simplify_eq.
  - intros. by rewrite app_assoc.
  - intros. by case_decide.
  - intros lazy mode q. case_decide; [|done]. simpl. by rewrite app_nil_r.
  - intros lazy mode q Hl. by rewrite decide_True.
Qed.
