(* ===== verification/XenPin.v ===== *)
(** * Pinning of page tables (arch/x86/xen/mmu.c)

    A page table in use is mapped read-only and pinned by the hypervisor: the
    walk over a process's tables, pinning and unpinning of whole tables, of
    pages attached to and released from a pinned one, around suspension, and
    the switch of every processor away from a table that is torn down.  Page
    structures, the page-table accessors and the buffer of hypercalls are not
    in the repository and are classes; the configuration is x86-64 with SMP. *)

From S2P Require Import Prelude Protocol PageWalk MalHooks XenMmu Hypercall.

(** ** The surroundings *)

(** [enum pt_level] *)
Inductive pt_level : Type := PT_PGD | PT_PUD | PT_PMD | PT_PTE.

#[export] Instance pt_level_eq_dec : EqDecision pt_level.
Proof. solve_decision. Defined.

(** Pages and addresses, of <linux/mm.h> and <asm/pgtable.h>: a page is the
    address of its [struct page]. *)
Class Pages : Type := {
  virt_to_page : Z → Z;
  page_to_pfn : Z → Z;
  pfn_to_page : Z → Z;
  lowmem_page_address : Z → Z;
  PageHighMem : Z → bool;
  pmd_page : Z → Z;                  (** the page of the table an entry leads to *)
  pgd_val : Z → Z;
  pfn_pte : Z → Z → Z;
  PAGE_KERNEL : Z;
  PAGE_KERNEL_RO : Z;
  phys_of_virt : Z → Z;              (** [__pa] *)
  pgd_index : Z → Z;
  pud_index : Z → Z;
  pmd_index : Z → Z;
  FIXADDR_TOP : Z;
  STACK_TOP_MAX : Z;
  PGDIR_SIZE : Z;
  PAGE_OFFSET : Z;
  USE_SPLIT_PTLOCKS : bool;
  pte_lockptr : Z → Z                (** [__pte_lockptr(page)] *)
}.

(** A frame has one page, a page of low memory its own address; entries made with the protection
    [PAGE_KERNEL_RO] are not writable, the others are ([_PAGE_RW] is bit 1);
    the lock of a page is an object. *)
Class PagesLaws `{Pages} `{AddrSpace} : Prop := {
  page_of_frame : ∀ pfn, page_to_pfn (pfn_to_page pfn) = pfn;
  lowmem_address : ∀ page, lowmem_page_address page = va_of_phys (u64 (Z.shiftl (page_to_pfn page) PAGE_SHIFT));
  lowmem_injective : ∀ p q, PageHighMem p = false → PageHighMem q = false →
    lowmem_page_address p = lowmem_page_address q → p = q;
  pte_kernel : ∀ pfn, Z.testbit (pfn_pte pfn PAGE_KERNEL) 1 = true;
  pte_kernel_ro : ∀ pfn, Z.testbit (pfn_pte pfn PAGE_KERNEL_RO) 1 = false;
  lock_not_null : ∀ page, pte_lockptr page ≠ NULL;
  pgd_index_nonneg : ∀ a, 0 ≤ pgd_index a
}.

Section pin.
  Context `{PT : PageTable} `{PG : Pages} `{AS : AddrSpace} `{MB : McBuffer}.
  (** [xen_feature(XENFEAT_auto_translated_physmap)] *)
  Context (auto_translated_physmap : bool).

(** [#define USER_LIMIT] *)
Definition USER_LIMIT : Z :=
  Z.land (u64 (STACK_TOP_MAX + PGDIR_SIZE - 1)) (Z.lxor (Z.ones 64) (PGDIR_SIZE - 1)).

(** The flags [PagePinned] and [PageSavePinned] of pages, [page->private], the
    buffer of hypercalls, the page-table locks taken so far, and how often
    [kmap_flush_unused] ran. *)
Record pin_state : Type := mk_pin_state {
  PagePinned : gset Z;
  PageSavePinned : gset Z;
  page_private : gmap Z Z;
  buffer : mcb;
  locks_taken : list Z;
  kmap_flushes : nat
}.

Definition set_pinned (ps : gset Z) (s : pin_state) : pin_state :=
  mk_pin_state ps (PageSavePinned s) (page_private s) (buffer s) (locks_taken s) (kmap_flushes s).
Definition set_saved (ps : gset Z) (s : pin_state) : pin_state :=
  mk_pin_state (PagePinned s) ps (page_private s) (buffer s) (locks_taken s) (kmap_flushes s).
Definition on_buffer (f : mcb → mcb) (s : pin_state) : pin_state :=
  mk_pin_state (PagePinned s) (PageSavePinned s) (page_private s) (f (buffer s)) (locks_taken s) (kmap_flushes s).
Definition kmap_flush_unused (s : pin_state) : pin_state :=
  mk_pin_state (PagePinned s) (PageSavePinned s) (page_private s) (buffer s) (locks_taken s) (S (kmap_flushes s)).

(** [SetPagePinned], [ClearPagePinned], [TestSetPagePinned] and
    [TestClearPagePinned] *)
Definition SetPagePinned (page : Z) (s : pin_state) : pin_state := set_pinned ({[page]} ∪ PagePinned s) s.
Definition ClearPagePinned (page : Z) (s : pin_state) : pin_state := set_pinned (PagePinned s ∖ {[page]}) s.
Definition TestSetPagePinned (page : Z) (s : pin_state) : bool * pin_state :=
  (bool_decide (page ∈ PagePinned s), SetPagePinned page s).
Definition TestClearPagePinned (page : Z) (s : pin_state) : bool * pin_state :=
  (bool_decide (page ∈ PagePinned s), ClearPagePinned page s).

(** [static bool xen_page_pinned(void *ptr)] *)
Definition xen_page_pinned (ptr : Z) (s : pin_state) : bool := bool_decide (virt_to_page ptr ∈ PagePinned s).

(** ** Operations *)

(** [static void xen_extend_mmuext_op(const struct mmuext_op *op)] *)
Definition extend_mmuext_op (op : mmuext_op) (q : mcb) : mcb :=
  match mcb_extend q op with
  | Some q' => q'
  | None => mcb_call q (λ args, MULTI_mmuext_op args 1 NULL DOMID_SELF) [op]
  end.
Definition xen_extend_mmuext_op (op : mmuext_op) : pin_state → pin_state := on_buffer (extend_mmuext_op op).

(** [mcs = __xen_mc_entry(0); MULTI_update_va_mapping(mcs.mc, va, val, flags);] *)
Definition update_va_mapping (va val flags : Z) : pin_state → pin_state :=
  on_buffer (λ q, mcb_call q (λ _, MULTI_update_va_mapping va val flags) []).

(** *** The walk

    [func] is the callback with [mm] applied; a loop answers whether it left
    with [goto out]. *)

Section walk.
  Context (func : Z → pt_level → pin_state → Z * pin_state).

(** [flush |= ( *func)(mm, page, level)] *)
Definition visit (page : Z) (level : pt_level) (acc : Z * pin_state) : Z * pin_state :=
  let '(flush, s) := acc in
  let '(r, s1) := func page level s in
  (Z.lor flush r, s1).

(** [for (pmdidx = 0; pmdidx < PTRS_PER_PMD; pmdidx++)] on the indices left;
    [last] is [pgdidx == pgdidx_limit && pudidx == pudidx_limit]. *)
Fixpoint walk_pmd (last : bool) (pmdidx_limit : Z) (pmd : Z) (todo : list nat) (acc : Z * pin_state)
    : bool * (Z * pin_state) :=
  match todo with
  | [] => (false, acc)
  | pmdidx :: todo' =>
      if last && bool_decide (pmdidx_limit < Z.of_nat pmdidx) then (true, acc)
      else if pmd_none (entry pmd pmdidx) then walk_pmd last pmdidx_limit pmd todo' acc
      else walk_pmd last pmdidx_limit pmd todo' (visit (pmd_page (entry pmd pmdidx)) PT_PTE acc)
  end.

(** [for (pudidx = 0; pudidx < PTRS_PER_PUD; pudidx++)]; [last] is
    [pgdidx == pgdidx_limit]. *)
Fixpoint walk_pud (last : bool) (pudidx_limit pmdidx_limit : Z) (pud : Z) (todo : list nat)
    (acc : Z * pin_state) : bool * (Z * pin_state) :=
  match todo with
  | [] => (false, acc)
  | pudidx :: todo' =>
      if last && bool_decide (pudidx_limit < Z.of_nat pudidx) then (true, acc)
      else if pud_none (entry pud pudidx) then walk_pud last pudidx_limit pmdidx_limit pud todo' acc
      else
        let pmd := pmd_offset (pud + 8 * Z.of_nat pudidx) 0 in
        let acc1 := if decide (1 < PTRS_PER_PMD)%nat then visit (virt_to_page pmd) PT_PMD acc else acc in
        let '(out, acc2) :=
          walk_pmd (last && bool_decide (Z.of_nat pudidx = pudidx_limit)) pmdidx_limit pmd
            (seq 0 PTRS_PER_PMD) acc1 in
        if out then (true, acc2) else walk_pud last pudidx_limit pmdidx_limit pud todo' acc2
  end.

(** [for (pgdidx = 0; pgdidx <= pgdidx_limit; pgdidx++)] *)
Fixpoint walk_pgd (pgdidx_limit pudidx_limit pmdidx_limit hole_low hole_high : Z) (pgd : Z)
    (todo : list nat) (acc : Z * pin_state) : Z * pin_state :=
  match todo with
  | [] => acc
  | pgdidx :: todo' =>
      let next := walk_pgd pgdidx_limit pudidx_limit pmdidx_limit hole_low hole_high pgd todo' in
      if bool_decide (hole_low ≤ Z.of_nat pgdidx) && bool_decide (Z.of_nat pgdidx < hole_high) then next acc
      else if decide (pgd_val (entry pgd pgdidx) = 0) then next acc
      else
        let pud := pud_offset (pgd + 8 * Z.of_nat pgdidx) 0 in
        let acc1 := if decide (1 < PTRS_PER_PUD)%nat then visit (virt_to_page pud) PT_PUD acc else acc in
        let '(out, acc2) :=
          walk_pud (bool_decide (Z.of_nat pgdidx = pgdidx_limit)) pudidx_limit pmdidx_limit pud
            (seq 0 PTRS_PER_PUD) acc1 in
        if out then acc2 else next acc2
  end.

(** [static int __xen_pgd_walk(mm, pgd, func, limit)] *)
Definition __xen_pgd_walk (pgd limit : Z) (s : pin_state) : outcome (Z * pin_state) :=
  let limit := u64 (limit - 1) in
  if decide (FIXADDR_TOP ≤ limit) then Err BugOn
  else if auto_translated_physmap then Ret (0, s)
  else
    let hole_low := pgd_index USER_LIMIT in
    let hole_high := pgd_index PAGE_OFFSET in
    let pgdidx_limit := pgd_index limit in
    let pudidx_limit := if decide (1 < PTRS_PER_PUD)%nat then pud_index limit else 0 in
    let pmdidx_limit := if decide (1 < PTRS_PER_PMD)%nat then pmd_index limit else 0 in
    let acc := walk_pgd pgdidx_limit pudidx_limit pmdidx_limit hole_low hole_high pgd
                 (seq 0 (S (Z.to_nat pgdidx_limit))) (0, s) in
    Ret (visit (virt_to_page pgd) PT_PGD acc).

End walk.

(** [static int xen_pgd_walk(mm, func, limit)] *)
Definition xen_pgd_walk (m : mm_struct) func (limit : Z) (s : pin_state) : outcome (Z * pin_state) :=
  __xen_pgd_walk func (pgd m) limit s.

(** *** Pages *)

Context (lazy_mode : Z).   (** [paravirt_get_lazy_mode()] *)

Definition xen_mc_batch_ : pin_state → pin_state := on_buffer mcb_batch.
Definition xen_mc_issue_ (mode : Z) : pin_state → pin_state := on_buffer (mcb_issue lazy_mode mode).
Definition xen_mc_callback (d : deferred) : pin_state → pin_state := on_buffer (λ q, mcb_callback q d).

(** [static spinlock_t *xen_pte_lock(page, mm)]: taking the lock is recorded. *)
Definition xen_pte_lock (page : Z) (s : pin_state) : Z * pin_state :=
  if USE_SPLIT_PTLOCKS then
    let ptl := pte_lockptr page in
    (ptl, mk_pin_state (PagePinned s) (PageSavePinned s) (page_private s) (buffer s)
            (locks_taken s ++ [ptl]) (kmap_flushes s))
  else (NULL, s).

(** [static void xen_do_pin(unsigned level, unsigned long pfn)] *)
Definition xen_do_pin (level pfn : Z) : pin_state → pin_state :=
  xen_extend_mmuext_op (mk_mmuext_op level (Some (pfn_to_mfn pfn)) None).

(** [static int xen_pin_page(mm, page, level)] *)
Definition xen_pin_page (page : Z) (level : pt_level) (s : pin_state) : Z * pin_state :=
  let '(pgfl, s1) := TestSetPagePinned page s in
  if (pgfl : bool) then (0, s1)
  else if PageHighMem page then (1, s1)
  else
    let pt := lowmem_page_address page in
    let pfn := page_to_pfn page in
    let '(ptl, s2) := if decide (level = PT_PTE) then xen_pte_lock page s1 else (NULL, s1) in
    let s3 := update_va_mapping pt (pfn_pte pfn PAGE_KERNEL_RO)
                (if decide (level = PT_PGD) then UVMF_TLB_FLUSH else 0) s2 in
    if decide (ptl ≠ NULL) then
      (0, xen_mc_callback (UnlockPte ptl) (xen_do_pin MMUEXT_PIN_L1_TABLE pfn s3))
    else (0, s3).

(** [static int xen_unpin_page(mm, page, level)] *)
Definition xen_unpin_page (page : Z) (level : pt_level) (s : pin_state) : Z * pin_state :=
  let '(pgfl, s1) := TestClearPagePinned page s in
  if (pgfl : bool) && negb (PageHighMem page) then
    let pt := lowmem_page_address page in
    let pfn := page_to_pfn page in
    let '(ptl, s2) :=
      if decide (level = PT_PTE) then
        let '(ptl, s') := xen_pte_lock page s1 in
        (ptl, if decide (ptl ≠ NULL) then xen_do_pin MMUEXT_UNPIN_TABLE pfn s' else s')
      else (NULL, s1) in
    let s3 := update_va_mapping pt (pfn_pte pfn PAGE_KERNEL)
                (if decide (level = PT_PGD) then UVMF_TLB_FLUSH else 0) s2 in
    (0, if decide (ptl ≠ NULL) then xen_mc_callback (UnlockPte ptl) s3 else s3)
  else (0, s1).

(** [static int xen_mark_pinned(mm, page, level)] *)
Definition xen_mark_pinned (page : Z) (level : pt_level) (s : pin_state) : Z * pin_state :=
  (0, SetPagePinned page s).

(** *** Tables *)

(** [PFN_DOWN(__pa(pgd))] and [xen_get_user_pgd(pgd)] *)
Definition pgd_pfn (pgd : Z) : Z := Z.shiftr (phys_of_virt pgd) PAGE_SHIFT.
Definition user_pgd (pgd : Z) (s : pin_state) : Z :=
  xen_get_user_pgd (λ v, default 0 (page_private s !! virt_to_page v)) (pgd_index USER_LIMIT) pgd.

(** [static void __xen_pgd_pin(mm, pgd)] *)
Definition __xen_pgd_pin (pgd : Z) (s : pin_state) : outcome pin_state :=
  r ← __xen_pgd_walk xen_pin_page pgd USER_LIMIT (xen_mc_batch_ s);
  let s1 := if decide (r.1 ≠ 0) then xen_mc_batch_ (kmap_flush_unused (xen_mc_issue_ 0 r.2)) else r.2 in
  let user := user_pgd pgd s1 in
  let s2 := xen_do_pin MMUEXT_PIN_L4_TABLE (pgd_pfn pgd) s1 in
  let s3 :=
    if decide (user ≠ NULL) then
      xen_do_pin MMUEXT_PIN_L4_TABLE (pgd_pfn user) (xen_pin_page (virt_to_page user) PT_PGD s2).2
    else s2 in
  Ret (xen_mc_issue_ 0 s3).

(** [static void __xen_pgd_unpin(mm, pgd)] *)
Definition __xen_pgd_unpin (pgd : Z) (s : pin_state) : outcome pin_state :=
  let s1 := xen_do_pin MMUEXT_UNPIN_TABLE (pgd_pfn pgd) (xen_mc_batch_ s) in
  let user := user_pgd pgd s1 in
  let s2 :=
    if decide (user ≠ NULL) then
      (xen_unpin_page (virt_to_page user) PT_PGD (xen_do_pin MMUEXT_UNPIN_TABLE (pgd_pfn user) s1)).2
    else s1 in
  r ← __xen_pgd_walk xen_unpin_page pgd USER_LIMIT s2;
  Ret (xen_mc_issue_ 0 r.2).

(** [xen_pgd_pin], [xen_pgd_unpin], [xen_activate_mm], [xen_dup_mmap] *)
Definition xen_pgd_pin (m : mm_struct) : pin_state → outcome pin_state := __xen_pgd_pin (pgd m).
Definition xen_pgd_unpin (m : mm_struct) : pin_state → outcome pin_state := __xen_pgd_unpin (pgd m).

(** [spin_lock(&mm->page_table_lock); ...; spin_unlock(&mm->page_table_lock);] *)
Definition xen_activate_mm (prev next : mm_struct) : pin_state → outcome pin_state := xen_pgd_pin next.
Definition xen_dup_mmap (oldmm m : mm_struct) : pin_state → outcome pin_state := xen_pgd_pin m.

(** [void xen_mm_pin_all(void)] on the pages of [pgd_list]; [page_address] is
    that of a page in low memory. *)
Fixpoint xen_mm_pin_all (pgd_list : list Z) (s : pin_state) : outcome pin_state :=
  match pgd_list with
  | [] => Ret s
  | page :: rest =>
      s' ← (if negb (bool_decide (page ∈ PagePinned s)) then
              s1 ← __xen_pgd_pin (lowmem_page_address page) s;
              Ret (set_saved ({[page]} ∪ PageSavePinned s1) s1)
            else Ret s);
      xen_mm_pin_all rest s'
  end.

(** [void xen_mm_unpin_all(void)] *)
Fixpoint xen_mm_unpin_all (pgd_list : list Z) (s : pin_state) : outcome pin_state :=
  match pgd_list with
  | [] => Ret s
  | page :: rest =>
      s' ← (if bool_decide (page ∈ PageSavePinned s) then
              if negb (bool_decide (page ∈ PagePinned s)) then Err BugOn
              else
                s1 ← __xen_pgd_unpin (lowmem_page_address page) s;
                Ret (set_saved (PageSavePinned s1 ∖ {[page]}) s1)
            else Ret s);
      xen_mm_unpin_all rest s'
  end.

(** [static void xen_mark_init_mm_pinned(void)] *)
Definition xen_mark_init_mm_pinned (init_mm : mm_struct) (s : pin_state) : outcome pin_state :=
  r ← xen_pgd_walk init_mm xen_mark_pinned FIXADDR_TOP s; Ret r.2.

(** *** Single pages of a table in use *)

(** [static inline void __pin_pagetable_pfn(unsigned cmd, unsigned long pfn)] *)
Definition __pin_pagetable_pfn (cmd pfn : Z) : pin_state → pin_state :=
  on_buffer (λ q, mcb_call q (λ args, MULTI_mmuext_op args 1 NULL DOMID_SELF)
                    [mk_mmuext_op cmd (Some (pfn_to_mfn pfn)) None]).

(** [static inline void __set_pfn_prot(unsigned long pfn, pgprot_t prot)] *)
Definition __set_pfn_prot (pfn prot : Z) : pin_state → pin_state :=
  let addr := va_of_phys (u64 (Z.shiftl pfn PAGE_SHIFT)) in
  update_va_mapping addr (pfn_pte pfn prot) 0.

(** [static inline void xen_alloc_ptpage(mm, pfn, level)] *)
Definition xen_alloc_ptpage (m : mm_struct) (pfn : Z) (level : pt_level) (s : pin_state) : pin_state :=
  if bool_decide (virt_to_page (pgd m) ∈ PagePinned s) then
    let page := pfn_to_page pfn in
    let s1 := SetPagePinned page s in
    if negb (PageHighMem page) then
      let s2 := __set_pfn_prot pfn PAGE_KERNEL_RO (xen_mc_batch_ s1) in
      let s3 := if decide (level = PT_PTE ∧ USE_SPLIT_PTLOCKS = true)
                then __pin_pagetable_pfn MMUEXT_PIN_L1_TABLE pfn s2 else s2 in
      xen_mc_issue_ PARAVIRT_LAZY_MMU s3
    else kmap_flush_unused s1
  else s.

(** [static inline void xen_release_ptpage(pfn, level)] *)
Definition xen_release_ptpage (pfn : Z) (level : pt_level) (s : pin_state) : pin_state :=
  let page := pfn_to_page pfn in
  if bool_decide (page ∈ PagePinned s) then
    let s1 :=
      if negb (PageHighMem page) then
        let s2 := xen_mc_batch_ s in
        let s3 := if decide (level = PT_PTE ∧ USE_SPLIT_PTLOCKS = true)
                  then __pin_pagetable_pfn MMUEXT_UNPIN_TABLE pfn s2 else s2 in
        xen_mc_issue_ PARAVIRT_LAZY_MMU (__set_pfn_prot pfn PAGE_KERNEL s3)
      else s in
    ClearPagePinned page s1
  else s.

Definition xen_alloc_pte m pfn := xen_alloc_ptpage m pfn PT_PTE.
Definition xen_alloc_pmd m pfn := xen_alloc_ptpage m pfn PT_PMD.
Definition xen_alloc_pud m pfn := xen_alloc_ptpage m pfn PT_PUD.
Definition xen_release_pte pfn := xen_release_ptpage pfn PT_PTE.
Definition xen_release_pmd pfn := xen_release_ptpage pfn PT_PMD.
Definition xen_release_pud pfn := xen_release_ptpage pfn PT_PUD.

End pin.

(** ** A small machine

    Tables of two entries, pages of 4096 bytes, two processes' worth of address
    space below the hole; the table at 0x5000 has one table of either lower
    level and two at the bottom. *)

Definition small_memory : gmap Z Z :=
  {[ 0x5000 := 0x6001; 0x6008 := 0x7001; 0x7000 := 0x8001; 0x7008 := 0x9001 ]}.
Definition small_table (p : Z) : Z := default 0 (small_memory !! p) / 4096 * 4096.

Definition small_page_table : PageTable := {|
  deref p := default 0 (small_memory !! p);
  pgd_offset m a := pgd m + 8 * (a / 2 ^ 15 mod 4);
  pud_offset p a := small_table p + 8 * (a / 2 ^ 14 mod 2);
  pmd_offset p a := small_table p + 8 * (a / 2 ^ 13 mod 2);
  pte_offset_kernel p a := small_table p + 8 * (a / 2 ^ 12 mod 2);
  pgd_none v := v =? 0; pud_none v := v =? 0; pmd_none v := v =? 0; pte_none v := v =? 0;
  pte_present v := Z.testbit v 0;
  pte_mfn v := v / 4096;
  pgd_present v := Z.testbit v 0; pgd_bad v := false;
  pud_present v := Z.testbit v 0; pud_bad v := false;
  pmd_present v := Z.testbit v 0; pmd_bad v := false;
  pte_file v := false;
  pgd_page_vaddr v := v / 4096 * 4096; pud_page_vaddr v := v / 4096 * 4096; pmd_page_vaddr v := v / 4096 * 4096;
  pte_pfn v := v / 4096;
  pfn_to_mfn p := p + 256;
  PTRS_PER_PGD := 4; PTRS_PER_PUD := 2; PTRS_PER_PMD := 2; PTRS_PER_PTE := 2
|}.

Definition small_pages : Pages := {|
  virt_to_page v := v / 4096;
  page_to_pfn p := p;
  pfn_to_page p := p;
  lowmem_page_address p := u64 (Z.shiftl p PAGE_SHIFT);
  PageHighMem p := negb ((0 <=? p) && (p <? 2 ^ 40));
  pmd_page v := v / 4096;
  pgd_val v := v;
  pfn_pte pfn prot := Z.lor (Z.shiftl pfn PAGE_SHIFT) prot;
  PAGE_KERNEL := 3;
  PAGE_KERNEL_RO := 1;
  phys_of_virt v := v;
  pgd_index a := a / 2 ^ 15 mod 4;
  pud_index a := a / 2 ^ 14 mod 2;
  pmd_index a := a / 2 ^ 13 mod 2;
  FIXADDR_TOP := 2 ^ 60;
  STACK_TOP_MAX := 2 ^ 16 - 4096;
  PGDIR_SIZE := 2 ^ 15;
  PAGE_OFFSET := 3 * 2 ^ 15;
  USE_SPLIT_PTLOCKS := true;
  pte_lockptr p := 2 * p + 1
|}.

#[export] Instance small_pages_laws : @PagesLaws small_pages toy_space.
Proof.
  split; simpl.
  - done.
  - done.
  - intros p q Hp Hq. to_prop.
    unfold PAGE_SHIFT. rewrite !Z.shiftl_mul_pow2, !u64_small by (unfold is_u64; lia). lia.
  - intros pfn. change (Z.testbit (Z.lor (Z.shiftl pfn 12) 3) 1 = true).
    by rewrite Z.lor_spec, Z.shiftl_spec_low by done.
  - intros pfn. change (Z.testbit (Z.lor (Z.shiftl pfn 12) 1) 1 = false).
    by rewrite Z.lor_spec, Z.shiftl_spec_low by done.
  - intros p. unfold NULL. lia.
  - intros a. apply Z.mod_pos_bound. lia.
Qed.

(** The same machine before the table is in use: its user half is at 0xA000. *)
Definition small_state : @pin_state list_mcb :=
  @mk_pin_state list_mcb ∅ ∅ {[ 5 := 0xA000 ]} empty_buffer [] 0.
