(* ===== verification/XenPinCorrect.v ===== *)
(** * Which pages are pinned, and when

    The walk visits exactly the tables below its limit, the top level last; in
    every sequence of operations the pages marked as pinned are the ones the
    hypervisor has been told to map read-only; what pinning and unpinning ask of
    the hypervisor is what it accepts, and undoes itself. *)

From S2P Require Import Prelude Protocol PageWalk MalHooks XenMmu Hypercall XenPin.

(** ** The specification *)

(** Where a walk stops and what it leaves out: the indices of the last address,
    and the entries of the top level between the user's and the kernel's. *)
Record walk_limits : Type := mk_walk_limits {
  last_pgd : Z; last_pud : Z; last_pmd : Z; hole_low : Z; hole_high : Z
}.

Section spec.
  Context `{PT : PageTable} `{PG : Pages}.

(** Entry [i] of the top level is walked and leads to [pud]; entry [j] of it
    leads to [pmd]; entry [k] of that to the page [pte].  At the limit an index
    is bounded by that of the last address. *)
Definition has_pud (w : walk_limits) (pgd : Z) (i : nat) (pud : Z) : Prop :=
  Z.of_nat i ≤ last_pgd w ∧ ¬ (hole_low w ≤ Z.of_nat i < hole_high w) ∧
  pgd_val (entry pgd i) ≠ 0 ∧ pud = pud_offset (pgd + 8 * Z.of_nat i) 0.
Definition has_pmd (w : walk_limits) (i : nat) (pud : Z) (j : nat) (pmd : Z) : Prop :=
  (j < PTRS_PER_PUD)%nat ∧ (Z.of_nat i = last_pgd w → Z.of_nat j ≤ last_pud w) ∧
  pud_none (entry pud j) = false ∧ pmd = pmd_offset (pud + 8 * Z.of_nat j) 0.
Definition has_pte (w : walk_limits) (i j : nat) (pmd : Z) (k : nat) (pte : Z) : Prop :=
  (k < PTRS_PER_PMD)%nat ∧ (Z.of_nat i = last_pgd w → Z.of_nat j = last_pud w → Z.of_nat k ≤ last_pmd w) ∧
  pmd_none (entry pmd k) = false ∧ pte = pmd_page (entry pmd k).

Inductive table_of (w : walk_limits) (pgd : Z) : Z → pt_level → Prop :=
  | table_pud i pud :
      has_pud w pgd i pud → (1 < PTRS_PER_PUD)%nat → table_of w pgd (virt_to_page pud) PT_PUD
  | table_pmd i pud j pmd :
      has_pud w pgd i pud → has_pmd w i pud j pmd → (1 < PTRS_PER_PMD)%nat →
      table_of w pgd (virt_to_page pmd) PT_PMD
  | table_pte i pud j pmd k pte :
      has_pud w pgd i pud → has_pmd w i pud j pmd → has_pte w i j pmd k pte →
      table_of w pgd pte PT_PTE.

(** The same as lists, in the order of the walk. *)
Definition in_reach (last : bool) (limit : Z) (i : nat) : bool :=
  negb last || bool_decide (Z.of_nat i ≤ limit).

Definition pte_pages (last : bool) (limit pmd : Z) (todo : list nat) : list (Z * pt_level) :=
  k ← todo;
  if in_reach last limit k && negb (pmd_none (entry pmd k)) then [(pmd_page (entry pmd k), PT_PTE)] else [].

Definition pmd_pages (last : bool) (w : walk_limits) (pud : Z) (todo : list nat) : list (Z * pt_level) :=
  j ← todo;
  if in_reach last (last_pud w) j && negb (pud_none (entry pud j)) then
    let pmd := pmd_offset (pud + 8 * Z.of_nat j) 0 in
    (if decide (1 < PTRS_PER_PMD)%nat then [(virt_to_page pmd, PT_PMD)] else []) ++
    pte_pages (last && bool_decide (Z.of_nat j = last_pud w)) (last_pmd w) pmd (seq 0 PTRS_PER_PMD)
  else [].

Definition pud_pages (w : walk_limits) (pgd : Z) (todo : list nat) : list (Z * pt_level) :=
  i ← todo;
  if negb (bool_decide (hole_low w ≤ Z.of_nat i) && bool_decide (Z.of_nat i < hole_high w)) &&
     bool_decide (pgd_val (entry pgd i) ≠ 0)
  then
    let pud := pud_offset (pgd + 8 * Z.of_nat i) 0 in
    (if decide (1 < PTRS_PER_PUD)%nat then [(virt_to_page pud, PT_PUD)] else []) ++
    pmd_pages (bool_decide (Z.of_nat i = last_pgd w)) w pud (seq 0 PTRS_PER_PUD)
  else [].

(** The limits of a walk up to the address [limit], which is not included. *)
Definition limits_of (limit : Z) : walk_limits :=
  let last := u64 (limit - 1) in
  mk_walk_limits (pgd_index last)
    (if decide (1 < PTRS_PER_PUD)%nat then pud_index last else 0)
    (if decide (1 < PTRS_PER_PMD)%nat then pmd_index last else 0)
    (pgd_index USER_LIMIT) (pgd_index PAGE_OFFSET).

Definition lower_tables (pgd limit : Z) : list (Z * pt_level) :=
  let w := limits_of limit in pud_pages w pgd (seq 0 (S (Z.to_nat (last_pgd w)))).

Definition walked (pgd limit : Z) : list (Z * pt_level) :=
  lower_tables pgd limit ++ [(virt_to_page pgd, PT_PGD)].

End spec.

(** A callback on a list of pages, the answers collected. *)
Definition visit_all `{McBuffer} (func : Z → pt_level → pin_state → Z * pin_state)
    (l : list (Z * pt_level)) (acc : Z * pin_state) : Z * pin_state :=
  foldl (λ a p, visit func p.1 p.2 a) acc l.

(** ** The walk *)

Section walk.
  Context `{PT : PageTable} `{PG : Pages} `{MB : McBuffer}.
  Context (func : Z → pt_level → pin_state → Z * pin_state).

Lemma visit_all_app l1 l2 acc : visit_all func (l1 ++ l2) acc = visit_all func l2 (visit_all func l1 acc).
Proof. apply foldl_app. Qed.

(** Past the limit nothing is in reach. *)
Lemma beyond_reach {A} (limit : Z) (f : nat → bool) (g : nat → list A) n k :
  limit < Z.of_nat k → (i ← seq k n; if in_reach true limit i && f i then g i else []) = [].
Proof.
  revert k. induction n as [|n IH]; intros k Hk; [done|]. simpl.
  unfold in_reach at 1. simpl. rewrite bool_decide_eq_false_2 by lia. simpl. apply IH. lia.
Qed.

Lemma walk_pmd_visits last limit pmd n k acc :
  ∃ out, walk_pmd func last limit pmd (seq k n) acc = (out, visit_all func (pte_pages last limit pmd (seq k n)) acc) ∧
    (out = true → last = true).
Proof.
  revert k acc. induction n as [|n IH]; intros k acc; [by exists false|].
  cbn [seq walk_pmd]. destruct (last && bool_decide (limit < Z.of_nat k)) eqn:Hl.
  - to_prop. subst last. exists true. split; [|done]. f_equal. unfold pte_pages.
    change (k :: seq (S k) n) with (seq k (S n)). by rewrite beyond_reach.
  - assert (Hr : in_reach last limit k = true).
    { unfold in_reach. destruct last; [|done]. simpl in *. to_prop. apply bool_decide_eq_true. lia. }
    unfold pte_pages. rewrite bind_cons. rewrite Hr. destruct (pmd_none (entry pmd k)) eqn:Hn; simpl; apply IH.
Qed.

Lemma walk_pud_visits last w pud n k acc :
  ∃ out, walk_pud func last (last_pud w) (last_pmd w) pud (seq k n) acc =
      (out, visit_all func (pmd_pages last w pud (seq k n)) acc) ∧ (out = true → last = true).
Proof.
  revert k acc. induction n as [|n IH]; intros k acc; [by exists false|].
  cbn [seq walk_pud]. destruct (last && bool_decide (last_pud w < Z.of_nat k)) eqn:Hl.
  - to_prop. subst last. exists true. split; [|done]. f_equal. unfold pmd_pages.
    change (k :: seq (S k) n) with (seq k (S n)). by rewrite beyond_reach.
  - assert (Hr : in_reach last (last_pud w) k = true).
    { unfold in_reach. destruct last; [|done]. simpl in *. to_prop. apply bool_decide_eq_true. lia. }
    unfold pmd_pages. rewrite bind_cons. rewrite Hr. destruct (pud_none (entry pud k)) eqn:Hn; simpl; [apply IH|].
    rewrite visit_all_app, visit_all_app.
    set (acc1 := if decide (1 < PTRS_PER_PMD)%nat then _ else acc).
    assert (visit_all func (if decide (1 < PTRS_PER_PMD)%nat
      then [(virt_to_page (pmd_offset (pud + 8 * Z.of_nat k) 0), PT_PMD)] else []) acc = acc1) as ->
      by (subst acc1; by destruct (decide (1 < PTRS_PER_PMD)%nat)).
    destruct (walk_pmd_visits (last && bool_decide (Z.of_nat k = last_pud w)) (last_pmd w)
      (pmd_offset (pud + 8 * Z.of_nat k) 0) PTRS_PER_PMD 0 acc1) as (out & -> & Hout).
    destruct out; [|apply IH]. exists true. specialize (Hout eq_refl). to_prop. subst last.
    split; [|done]. f_equal. change (seq (S k) n ≫= _) with (pmd_pages true w pud (seq (S k) n)).
    unfold pmd_pages. by rewrite beyond_reach by lia.
Qed.

Lemma walk_pgd_visits w pgd n k acc :
  Z.of_nat (k + n) = last_pgd w + 1 →
  walk_pgd func (last_pgd w) (last_pud w) (last_pmd w) (hole_low w) (hole_high w) pgd (seq k n) acc =
    visit_all func (pud_pages w pgd (seq k n)) acc.
Proof.
  revert k acc. induction n as [|n IH]; intros k acc Hk; [done|].
  cbn [seq walk_pgd]. unfold pud_pages. rewrite bind_cons.
  destruct (bool_decide (hole_low w ≤ Z.of_nat k) && bool_decide (Z.of_nat k < hole_high w)) eqn:Hh; simpl.
  { apply IH. lia. }
  destruct (decide (pgd_val (entry pgd k) = 0)) as [H0|H0].
  { rewrite (bool_decide_eq_false_2 (pgd_val _ ≠ 0)) by (by intros []). apply IH. lia. }
  rewrite (bool_decide_eq_true_2 (pgd_val _ ≠ 0)) by done. rewrite visit_all_app, visit_all_app.
  set (acc1 := if decide (1 < PTRS_PER_PUD)%nat then _ else acc).
  assert (visit_all func (if decide (1 < PTRS_PER_PUD)%nat
    then [(virt_to_page (pud_offset (pgd + 8 * Z.of_nat k) 0), PT_PUD)] else []) acc = acc1) as ->
    by (subst acc1; by destruct (decide (1 < PTRS_PER_PUD)%nat)).
  destruct (walk_pud_visits (bool_decide (Z.of_nat k = last_pgd w)) w
    (pud_offset (pgd + 8 * Z.of_nat k) 0) PTRS_PER_PUD 0 acc1) as (out & -> & Hout).
  destruct out; [|apply IH; lia]. specialize (Hout eq_refl). to_prop.
  destruct n as [|n]; [done|lia].
Qed.

Lemma walk_visits auto_translated_physmap pgd limit s :
  0 ≤ pgd_index (u64 (limit - 1)) → u64 (limit - 1) < FIXADDR_TOP →
  __xen_pgd_walk auto_translated_physmap func pgd limit s =
    Ret (if auto_translated_physmap then (0, s) else visit_all func (walked pgd limit) (0, s)).
Proof.
  intros Hi Hl. unfold __xen_pgd_walk. rewrite decide_False by lia.
  destruct auto_translated_physmap; [done|]. unfold walked. rewrite visit_all_app. do 2 f_equal.
  apply (walk_pgd_visits (limits_of limit)). simpl. lia.
Qed.

End walk.

(** ** What is walked *)

Section walked.
  Context `{PT : PageTable} `{PG : Pages}.

Lemma in_reach_spec last limit i : in_reach last limit i = true ↔ (last = true → Z.of_nat i ≤ limit).
Proof. unfold in_reach. destruct last; simpl; [rewrite bool_decide_eq_true|]; naive_solver. Qed.

(** Elements of a comprehension with one guard. *)
Lemma elem_of_guarded {A} (x : A) (b : nat → bool) (f : nat → list A) l :
  x ∈ (i ← l; if b i then f i else []) ↔ ∃ i, i ∈ l ∧ b i = true ∧ x ∈ f i.
Proof.
  rewrite list_elem_of_bind. split.
  - intros (i & Hx & Hi). exists i. destruct (b i); [done|]. by apply elem_of_nil in Hx.
  - intros (i & Hi & Hb & Hx). exists i. by rewrite Hb.
Qed.

Lemma elem_of_optional {A} (x y : A) (P : Prop) `{Decision P} l :
  x ∈ (if decide P then [y] else []) ++ l ↔ (P ∧ x = y) ∨ x ∈ l.
Proof.
  rewrite elem_of_app. destruct (decide P); [rewrite list_elem_of_singleton|rewrite elem_of_nil]; tauto.
Qed.

Lemma elem_of_pte_pages last limit pmd x :
  x ∈ pte_pages last limit pmd (seq 0 PTRS_PER_PMD) ↔
  ∃ k, (k < PTRS_PER_PMD)%nat ∧ (last = true → Z.of_nat k ≤ limit) ∧ pmd_none (entry pmd k) = false ∧
    x = (pmd_page (entry pmd k), PT_PTE).
Proof.
  unfold pte_pages. rewrite elem_of_guarded. f_equiv; intros k.
  rewrite elem_of_seq, andb_true_iff, in_reach_spec, negb_true_iff, list_elem_of_singleton. intuition lia.
Qed.

Lemma elem_of_pmd_pages last w pud x :
  x ∈ pmd_pages last w pud (seq 0 PTRS_PER_PUD) ↔
  ∃ j, (j < PTRS_PER_PUD)%nat ∧ (last = true → Z.of_nat j ≤ last_pud w) ∧ pud_none (entry pud j) = false ∧
    let pmd := pmd_offset (pud + 8 * Z.of_nat j) 0 in
    ((1 < PTRS_PER_PMD)%nat ∧ x = (virt_to_page pmd, PT_PMD) ∨
     x ∈ pte_pages (last && bool_decide (Z.of_nat j = last_pud w)) (last_pmd w) pmd (seq 0 PTRS_PER_PMD)).
Proof.
  unfold pmd_pages. rewrite elem_of_guarded. f_equiv; intros j. cbv zeta.
  rewrite elem_of_seq, andb_true_iff, in_reach_spec, negb_true_iff, elem_of_optional. intuition lia.
Qed.

Lemma elem_of_lower pgd limit p l :
  0 ≤ pgd_index (u64 (limit - 1)) →
  (p, l) ∈ lower_tables pgd limit ↔ table_of (limits_of limit) pgd p l.
Proof.
  intros Hi. set (w := limits_of limit). assert (0 ≤ last_pgd w) by done.
  unfold lower_tables, pud_pages. rewrite elem_of_guarded.
  setoid_rewrite elem_of_optional. setoid_rewrite elem_of_pmd_pages. cbv zeta.
  setoid_rewrite elem_of_pte_pages. setoid_rewrite elem_of_seq. fold w.
  setoid_rewrite andb_true_iff. setoid_rewrite negb_true_iff. setoid_rewrite andb_false_iff.
  repeat setoid_rewrite bool_decide_eq_true. repeat setoid_rewrite bool_decide_eq_false.
  split.
  - intros (i & Hr & (Hh & Hp) & Hx).
    assert (has_pud w pgd i (pud_offset (pgd + 8 * Z.of_nat i) 0)) as Hpud by (repeat split; [lia|lia|done]).
    destruct Hx as [[? [= -> ->]]|(j & Hj & Hl & Hn & Hx)]; [by eapply table_pud|].
    assert (has_pmd w i (pud_offset (pgd + 8 * Z.of_nat i) 0) j
      (pmd_offset (pud_offset (pgd + 8 * Z.of_nat i) 0 + 8 * Z.of_nat j) 0)) as Hpmd by by repeat split.
    destruct Hx as [[? [= -> ->]]|(k & Hk & Hlk & Hnk & [= -> ->])]; [by eapply table_pmd|].
    eapply table_pte; [done|done|]. repeat split; [lia| |done].
    intros. by apply Hlk.
  - intros [i pud Hpud HP|i pud j pmd Hpud Hpmd HP|i pud j pmd k pte Hpud Hpmd Hpte];
      destruct Hpud as (Hi1 & Hi2 & Hi3 & ->); exists i; (split; [lia|]); (split; [split; [lia|done]|]);
      [by left|right..]; destruct Hpmd as (Hj1 & Hj2 & Hj3 & ->); exists j; (split; [done|]);
      (split; [intros; by apply Hj2|]); (split; [done|]); [by left|right].
    destruct Hpte as (Hk1 & Hk2 & Hk3 & ->). exists k. repeat split; [done| |done].
    intros []. by apply Hk2.
Qed.

End walked.

(** C27: The walk over a process's page tables calls back, in the order of the
    addresses, exactly the tables whose entries are present below the limit and
    outside the hole, each with its level, and the top level last; it collects
    the answers.  For an auto-translated guest it does nothing, and a limit
    beyond the fixed mappings stops the kernel. *)
Theorem pgd_walk_correct `{PT : PageTable} `{PG : Pages} `{AS : AddrSpace} `{MB : McBuffer} `{!PagesLaws}
    (auto_translated_physmap : bool) func pgd limit s :
  __xen_pgd_walk auto_translated_physmap func pgd limit s =
    (if decide (FIXADDR_TOP ≤ u64 (limit - 1)) then Err BugOn
     else Ret (if auto_translated_physmap then (0, s) else visit_all func (walked pgd limit) (0, s))) ∧
  (∃ l, walked pgd limit = l ++ [(virt_to_page pgd, PT_PGD)] ∧
     ∀ p level, (p, level) ∈ l ↔ table_of (limits_of limit) pgd p level).
Proof.
  split.
  - case_decide as Hl; [by unfold __xen_pgd_walk; rewrite decide_True|].
    apply walk_visits; [apply pgd_index_nonneg|lia].
  - exists (lower_tables pgd limit). split; [done|]. intros p level. apply elem_of_lower, pgd_index_nonneg.
Qed.

Create HintDb pin.

(** ** What an operation hands over

    The operations on one page, and its lock. *)

Section effects.
  Context `{PT : PageTable} `{PG : Pages} `{AS : AddrSpace} `{MB : McBuffer}.

Definition own_lock (level : pt_level) : bool := bool_decide (level = PT_PTE) && USE_SPLIT_PTLOCKS.
Definition protect (prot page : Z) (level : pt_level) : xen_op :=
  UpdateVa (lowmem_page_address page) (pfn_pte (page_to_pfn page) prot)
    (if decide (level = PT_PGD) then UVMF_TLB_FLUSH else 0).
Definition pin_op (cmd pfn : Z) : xen_op := Mmuext (mk_mmuext_op cmd (Some (pfn_to_mfn pfn)) None).

Definition pin_ops (p : Z * pt_level) : list xen_op :=
  protect PAGE_KERNEL_RO p.1 p.2 ::
  if own_lock p.2 then [pin_op MMUEXT_PIN_L1_TABLE (page_to_pfn p.1)] else [].
Definition unpin_ops (p : Z * pt_level) : list xen_op :=
  (if own_lock p.2 then [pin_op MMUEXT_UNPIN_TABLE (page_to_pfn p.1)] else []) ++
  [protect PAGE_KERNEL p.1 p.2].
Definition page_lock (p : Z * pt_level) : list Z := if own_lock p.2 then [pte_lockptr p.1] else [].

(** From [s] to [s'] the flags of pages aside: [ops] are handed over, the locks
    [ls] taken and their release registered. *)
Record did (ops : list xen_op) (ls : list Z) (s s' : pin_state) : Prop := mk_did {
  did_handed : handed (buffer s') = handed (buffer s) ++ ops;
  did_registered : registered (buffer s') = registered (buffer s) ++ (UnlockPte <$> ls);
  did_locks : locks_taken s' = locks_taken s ++ ls;
  did_private : page_private s' = page_private s;
  did_saved : PageSavePinned s' = PageSavePinned s
}.

Lemma did_trans o1 l1 o2 l2 s1 s2 s3 : did o1 l1 s1 s2 → did o2 l2 s2 s3 → did (o1 ++ o2) (l1 ++ l2) s1 s3.
Proof. intros [H1 H2 H3 H4 H5] [G1 G2 G3 G4 G5]. split; rewrite ?fmap_app; congruence || by rewrite app_assoc; congruence. Qed.

(** Nothing handed over. *)
Lemma did_nothing s : did [] [] s s.
Proof. split; simpl; by rewrite ?app_nil_r. Qed.

Lemma did_flags ops ls s s' ps : did ops ls s s' → did ops ls s (set_pinned ps s').
Proof. by intros [? ? ? ? ?]. Qed.

Lemma did_unflags ops ls s s' ps : did ops ls (set_pinned ps s) s' → did ops ls s s'.
Proof. by intros [? ? ? ? ?]. Qed.

Section laws.
  Context `{!PagesLaws} `{!McBufferLaws}.

Lemma extend_op_handed op q : handed (extend_mmuext_op op q) = handed q ++ [Mmuext op].
Proof.
  unfold extend_mmuext_op. destruct (mcb_extend q op) as [q'|] eqn:E; [by apply extend_handed|apply call_mmuext].
Qed.

Lemma extend_op_registered op q : registered (extend_mmuext_op op q) = registered q.
Proof.
  unfold extend_mmuext_op. destruct (mcb_extend q op) as [q'|] eqn:E; [by eapply extend_registered|apply call_registered].
Qed.

Lemma did_extend op s : did [Mmuext op] [] s (xen_extend_mmuext_op op s).
Proof. split; simpl; rewrite ?app_nil_r; try done; [apply extend_op_handed|apply extend_op_registered]. Qed.

Lemma did_update va val f s : did [UpdateVa va val f] [] s (update_va_mapping va val f s).
Proof. split; simpl; rewrite ?app_nil_r; try done; [apply call_update_va|apply call_registered]. Qed.

Lemma did_batch s : did [] [] s (xen_mc_batch_ s).
Proof. split; simpl; rewrite ?app_nil_r; try done; [apply batch_handed|apply batch_registered]. Qed.

Lemma did_set_prot pfn prot s :
  did [UpdateVa (lowmem_page_address (pfn_to_page pfn)) (pfn_pte pfn prot) 0] [] s (__set_pfn_prot pfn prot s).
Proof. unfold __set_pfn_prot. rewrite lowmem_address, page_of_frame. apply did_update. Qed.

Lemma did_pin_pfn cmd pfn s : did [pin_op cmd pfn] [] s (__pin_pagetable_pfn cmd pfn s).
Proof. split; simpl; rewrite ?app_nil_r; try done; [apply call_mmuext|apply call_registered]. Qed.

Lemma did_attach pfn (b : bool) s :
  did (UpdateVa (lowmem_page_address (pfn_to_page pfn)) (pfn_pte pfn PAGE_KERNEL_RO) 0 ::
       if b then [pin_op MMUEXT_PIN_L1_TABLE pfn] else []) [] s
    (let s2 := __set_pfn_prot pfn PAGE_KERNEL_RO s in
     if b then __pin_pagetable_pfn MMUEXT_PIN_L1_TABLE pfn s2 else s2).
Proof.
  destruct b; [|apply did_set_prot].
  eapply (did_trans [_] [] [_] []); [apply did_set_prot|apply did_pin_pfn].
Qed.

Lemma did_detach pfn (b : bool) s :
  did ((if b then [pin_op MMUEXT_UNPIN_TABLE pfn] else []) ++
       [UpdateVa (lowmem_page_address (pfn_to_page pfn)) (pfn_pte pfn PAGE_KERNEL) 0]) [] s
    (__set_pfn_prot pfn PAGE_KERNEL (if b then __pin_pagetable_pfn MMUEXT_UNPIN_TABLE pfn s else s)).
Proof.
  destruct b; [|apply did_set_prot].
  eapply (did_trans [_] [] [_] []); [apply did_pin_pfn|apply did_set_prot].
Qed.

Lemma did_issue lazy_mode mode s : did [] [] s (xen_mc_issue_ lazy_mode mode s).
Proof. split; simpl; rewrite ?app_nil_r; try done; [apply issue_handed|apply issue_registered]. Qed.

Lemma did_batched lazy_mode mode ops (f : pin_state → pin_state) s :
  (∀ s, did ops [] s (f s)) → did ops [] s (xen_mc_issue_ lazy_mode mode (f (xen_mc_batch_ s))).
Proof.
  intros Hf. rewrite <-(app_nil_r ops). eapply (did_trans _ [] [] []); [|apply did_issue].
  eapply (did_trans [] [] _ []); [apply did_batch|apply Hf].
Qed.

(** The lock is taken when the page is touched and released by the callback. *)
Lemma did_locked ptl s1 s2 ops :
  did ops [] (mk_pin_state (PagePinned s1) (PageSavePinned s1) (page_private s1) (buffer s1)
                (locks_taken s1 ++ [ptl]) (kmap_flushes s1)) s2 →
  did ops [ptl] s1 (xen_mc_callback (UnlockPte ptl) s2).
Proof.
  intros [H1 H2 H3 H4 H5]. simpl in *. rewrite app_nil_r in H2, H3.
  split; simpl; try done; [by rewrite callback_handed|by rewrite callback_registered, H2].
Qed.

Lemma pinned_extend op s : PagePinned (xen_extend_mmuext_op op s) = PagePinned s.
Proof. done. Qed.

Lemma pin_page_fresh page level s :
  page ∉ PagePinned s → PageHighMem page = false →
  ∃ s', xen_pin_page page level s = (0, s') ∧ PagePinned s' = {[page]} ∪ PagePinned s ∧
    did (pin_ops (page, level)) (page_lock (page, level)) s s'.
Proof.
  intros Hp Hh. unfold xen_pin_page, TestSetPagePinned. rewrite bool_decide_eq_false_2, Hh by done.
  unfold pin_ops, page_lock, own_lock, xen_pte_lock. simpl.
  destruct (decide (level = PT_PTE)) as [->|Hl].
  - rewrite bool_decide_eq_true_2 by done. destruct USE_SPLIT_PTLOCKS; simpl.
    + rewrite decide_True by apply lock_not_null. eexists. split; [done|]. split.
      { done. }
      eapply did_unflags, did_locked, (did_trans [_] [] [_] []); [apply did_update|apply did_extend].
    + eexists. split; [done|]. split; [done|]. eapply did_unflags, did_update.
  - rewrite bool_decide_eq_false_2 by done. simpl. eexists. split; [done|]. split; [done|].
    eapply did_unflags, did_update.
Qed.

Lemma unpin_page_marked page level s :
  page ∈ PagePinned s → PageHighMem page = false →
  ∃ s', xen_unpin_page page level s = (0, s') ∧ PagePinned s' = PagePinned s ∖ {[page]} ∧
    did (unpin_ops (page, level)) (page_lock (page, level)) s s'.
Proof.
  intros Hp Hh. unfold xen_unpin_page, TestClearPagePinned. rewrite bool_decide_eq_true_2, Hh by done.
  unfold unpin_ops, page_lock, own_lock, xen_pte_lock. simpl.
  destruct (decide (level = PT_PTE)) as [->|Hl].
  - rewrite bool_decide_eq_true_2 by done. destruct USE_SPLIT_PTLOCKS; simpl.
    + rewrite !decide_True by apply lock_not_null. eexists. split; [done|]. split.
      { done. }
      eapply did_unflags, did_locked, (did_trans [_] [] [_] []); [apply did_extend|apply did_update].
    + eexists. split; [done|]. split; [done|]. eapply did_unflags, did_update.
  - rewrite bool_decide_eq_false_2 by done. simpl. eexists. split; [done|]. split; [done|].
    eapply did_unflags, did_update.
Qed.

End laws.
End effects.

(** ** Marked and read-only

    What the hypervisor has been told so far makes some addresses read-only. *)

Definition ro_step (ro : gset Z) (o : xen_op) : gset Z :=
  match o with
  | UpdateVa va val _ => if Z.testbit val 1 then ro ∖ {[va]} else {[va]} ∪ ro
  | _ => ro
  end.
Definition ro_after (ro0 : gset Z) (ops : list xen_op) : gset Z := foldl ro_step ro0 ops.

(** In low memory a page is marked as pinned exactly when it is read-only. *)
Definition marks_agree `{Pages} `{McBuffer} (ro0 : gset Z) (s : pin_state) : Prop :=
  ∀ page, PageHighMem page = false →
    page ∈ PagePinned s ↔ lowmem_page_address page ∈ ro_after ro0 (handed (buffer s)).

Section marks.
  Context `{PT : PageTable} `{PG : Pages} `{AS : AddrSpace} `{MB : McBuffer} `{!PagesLaws} `{!McBufferLaws}.
  Context (auto_translated_physmap : bool) (lazy_mode : Z) (ro0 : gset Z).

(** One operation of the driver: what it touches are the tables of [pgd], the
    page of frame [pfn] or the pages of [pgd_list]. *)
Inductive pin_step : pin_state → pin_state → Prop :=
  | step_pin pgd s s' : __xen_pgd_pin auto_translated_physmap lazy_mode pgd s = Ret s' → pin_step s s'
  | step_unpin pgd s s' : __xen_pgd_unpin auto_translated_physmap lazy_mode pgd s = Ret s' → pin_step s s'
  | step_alloc m pfn level s : pin_step s (xen_alloc_ptpage lazy_mode m pfn level s)
  | step_release pfn level s : pin_step s (xen_release_ptpage lazy_mode pfn level s)
  | step_pin_all l s s' : xen_mm_pin_all auto_translated_physmap lazy_mode l s = Ret s' → pin_step s s'
  | step_unpin_all l s s' : xen_mm_unpin_all auto_translated_physmap lazy_mode l s = Ret s' → pin_step s s'.

Abbreviation agree := (marks_agree ro0).
Abbreviation ro s := (ro_after ro0 (handed (buffer s))).

Lemma ro_snoc ops o : ro_after ro0 (ops ++ [o]) = ro_step (ro_after ro0 ops) o.
Proof. unfold ro_after. by rewrite foldl_app. Qed.

(** Only mapping updates and the flags matter. *)
Lemma marks_same s s' :
  PagePinned s' = PagePinned s → ro s' = ro s → agree s → agree s'.
Proof. intros Hp Hr Ha page Hlow. rewrite Hp, Hr. by apply Ha. Qed.

Lemma agree_set page s s' :
  PagePinned s' = {[page]} ∪ PagePinned s →
  (PageHighMem page = false → ro s' = {[lowmem_page_address page]} ∪ ro s) →
  (PageHighMem page = true → ro s' = ro s) → agree s → agree s'.
Proof.
  intros Hp Hr Hh Ha q Hq. rewrite Hp, elem_of_union, elem_of_singleton. specialize (Ha q Hq).
  destruct (PageHighMem page) eqn:E.
  - rewrite Hh by done. rewrite <-Ha. split; [intros [->|]; congruence|tauto].
  - rewrite Hr by done. rewrite elem_of_union, elem_of_singleton, <-Ha. split; intros [H1|H1]; [left; congruence|by right| |by right].
    left. by apply lowmem_injective.
Qed.

Lemma agree_clear page s s' :
  PagePinned s' = PagePinned s ∖ {[page]} →
  (PageHighMem page = false → ro s' = ro s ∖ {[lowmem_page_address page]}) →
  (PageHighMem page = true → ro s' = ro s) → agree s → agree s'.
Proof.
  intros Hp Hr Hh Ha q Hq. rewrite Hp, elem_of_difference, elem_of_singleton. specialize (Ha q Hq).
  destruct (PageHighMem page) eqn:E.
  - rewrite Hh by done. rewrite <-Ha. split; [tauto|]. intros ?. split; [done|]. intros ->. congruence.
  - rewrite Hr by done. rewrite elem_of_difference, elem_of_singleton, <-Ha. split; intros [? H1]; (split; [done|]).
    + intros Heq. by apply H1, lowmem_injective.
    + intros ->. by apply H1.
Qed.

(** What is handed over decides. *)
Lemma did_ro ops ls s s' : did ops ls s s' → ro s' = ro_after (ro s) ops.
Proof. intros Hd. rewrite (did_handed _ _ _ _ Hd). unfold ro_after. apply foldl_app. Qed.

Lemma agree_did ops ls s s' :
  did ops ls s s' → PagePinned s' = PagePinned s → ro_after (ro s) ops = ro s → agree s → agree s'.
Proof. intros Hd Hp Hr. apply marks_same; [done|]. by rewrite (did_ro _ _ _ _ Hd). Qed.

Lemma agree_pin_page page level s : agree s → agree (xen_pin_page page level s).2.
Proof.
  intros Ha. destruct (decide (page ∈ PagePinned s)) as [Hp|Hp].
  { unfold xen_pin_page, TestSetPagePinned. rewrite bool_decide_eq_true_2 by done.
    apply (marks_same s); [simpl; set_solver|done|done]. }
  destruct (PageHighMem page) eqn:Hh.
  { unfold xen_pin_page, TestSetPagePinned. rewrite bool_decide_eq_false_2, Hh by done.
    by apply (agree_set page s); [|congruence| |]. }
  destruct (pin_page_fresh page level s Hp Hh) as (s' & -> & Hp' & Hd).
  apply (agree_set page s); [done| |congruence|done]. intros _. simpl. rewrite (did_ro _ _ _ _ Hd).
  unfold ro_after, pin_ops, protect. destruct own_lock; cbn [foldl ro_step fst snd pin_op]; by rewrite pte_kernel_ro.
Qed.

Lemma agree_unpin_page page level s : agree s → agree (xen_unpin_page page level s).2.
Proof.
  intros Ha. destruct (decide (page ∈ PagePinned s)) as [Hp|Hp].
  2:{ unfold xen_unpin_page, TestClearPagePinned. rewrite bool_decide_eq_false_2 by done.
    apply (marks_same s); [simpl; set_solver|done|done]. }
  destruct (PageHighMem page) eqn:Hh.
  { unfold xen_unpin_page, TestClearPagePinned. rewrite bool_decide_eq_true_2, Hh by done.
    by apply (agree_clear page s); [|congruence| |]. }
  destruct (unpin_page_marked page level s Hp Hh) as (s' & -> & Hp' & Hd).
  apply (agree_clear page s); [done| |congruence|done]. intros _. simpl. rewrite (did_ro _ _ _ _ Hd).
  unfold ro_after, unpin_ops, protect. destruct own_lock; cbn [foldl ro_step app fst snd pin_op]; by rewrite pte_kernel.
Qed.

(** A walk keeps what its callback keeps. *)
Lemma walk_keeps (P : pin_state → Prop) func pgd limit s r :
  (∀ page level s0, P s0 → P (func page level s0).2) →
  __xen_pgd_walk auto_translated_physmap func pgd limit s = Ret r → P s → P r.2.
Proof.
  intros Hf Hw Hs. destruct (decide (FIXADDR_TOP ≤ u64 (limit - 1))).
  { unfold __xen_pgd_walk in Hw. by rewrite decide_True in Hw. }
  rewrite walk_visits in Hw by (apply pgd_index_nonneg || lia). injection Hw as <-.
  destruct auto_translated_physmap; [done|]. unfold visit_all. generalize 0.
  revert s Hs. induction (walked pgd limit) as [|[p l] rest IH]; intros s Hs z; [done|]. simpl.
  specialize (Hf p l s Hs). destruct (func p l s) as [z' s']. by apply IH.
Qed.

Lemma agree_batch s : agree s → agree (xen_mc_batch_ s).
Proof. by apply (agree_did [] []), eq_refl; [apply did_batch|]. Qed.

Lemma agree_issue mode s : agree s → agree (xen_mc_issue_ lazy_mode mode s).
Proof. by apply (agree_did [] []), eq_refl; [apply did_issue|]. Qed.

Lemma agree_do_pin cmd pfn s : agree s → agree (xen_do_pin cmd pfn s).
Proof. eapply agree_did; [apply did_extend|apply pinned_extend|done]. Qed.

Lemma agree_kmap s : agree s → agree (kmap_flush_unused s).
Proof. by apply marks_same. Qed.

Lemma agree_saved ps s : agree s → agree (set_saved ps s).
Proof. by apply marks_same. Qed.

#[local] Hint Resolve agree_batch agree_issue agree_do_pin agree_kmap agree_saved agree_pin_page agree_unpin_page : pin.

Lemma agree_pgd_pin pgd s s' :
  __xen_pgd_pin auto_translated_physmap lazy_mode pgd s = Ret s' → agree s → agree s'.
Proof.
  intros Hr Ha. unfold __xen_pgd_pin in Hr. bind_inv Hr. injection Hr as <-.
  pose proof (walk_keeps agree _ _ _ _ _ agree_pin_page E (agree_batch _ Ha)).
  apply agree_issue. repeat case_decide; auto 12 with pin.
Qed.

Lemma agree_pgd_unpin pgd s s' :
  __xen_pgd_unpin auto_translated_physmap lazy_mode pgd s = Ret s' → agree s → agree s'.
Proof.
  intros Hr Ha. unfold __xen_pgd_unpin in Hr. bind_inv Hr. injection Hr as <-. apply agree_issue.
  apply (walk_keeps agree _ _ _ _ _ agree_unpin_page E). case_decide; auto 12 with pin.
Qed.

Lemma agree_alloc m pfn level s : agree s → agree (xen_alloc_ptpage lazy_mode m pfn level s).
Proof.
  intros Ha. unfold xen_alloc_ptpage. case_bool_decide; [|done].
  destruct (PageHighMem (pfn_to_page pfn)) eqn:Hh; cbn [negb].
  { by apply (agree_set (pfn_to_page pfn) s); [|congruence| |]. }
  pose proof (did_batched lazy_mode PARAVIRT_LAZY_MMU _ _ (SetPagePinned (pfn_to_page pfn) s)
    (did_attach pfn (bool_decide (level = PT_PTE ∧ USE_SPLIT_PTLOCKS = true)))) as Hd.
  rewrite decide_bool_decide. apply (agree_set (pfn_to_page pfn) s); [by destruct (bool_decide _)| |congruence|done]. intros _.
  etrans; [apply (did_ro _ _ _ _ Hd)|]. unfold ro_after.
  case_bool_decide; cbn [foldl ro_step app]; by rewrite pte_kernel_ro.
Qed.

Lemma agree_release pfn level s : agree s → agree (xen_release_ptpage lazy_mode pfn level s).
Proof.
  intros Ha. unfold xen_release_ptpage. case_bool_decide; [|done].
  destruct (PageHighMem (pfn_to_page pfn)) eqn:Hh; cbn [negb].
  { by apply (agree_clear (pfn_to_page pfn) s); [|congruence| |]. }
  pose proof (did_batched lazy_mode PARAVIRT_LAZY_MMU _ _ s
    (did_detach pfn (bool_decide (level = PT_PTE ∧ USE_SPLIT_PTLOCKS = true)))) as Hd.
  rewrite decide_bool_decide. apply (agree_clear (pfn_to_page pfn) s); [by destruct (bool_decide _)| |congruence|done]. intros _.
  etrans; [apply (did_ro _ _ _ _ (did_flags _ _ _ _ _ Hd))|]. unfold ro_after.
  case_bool_decide; cbn [foldl ro_step app]; by rewrite pte_kernel.
Qed.

Lemma agree_pin_all l s s' :
  xen_mm_pin_all auto_translated_physmap lazy_mode l s = Ret s' → agree s → agree s'.
Proof.
  revert s. induction l as [|page l IH]; intros s Hr Ha; simpl in Hr; [by injection Hr as <-|].
  bind_inv Hr. apply (IH r); [done|]. destruct (negb _); [|by injection E as <-].
  bind_inv E. injection E as <-. apply agree_saved. by eapply agree_pgd_pin.
Qed.

Lemma agree_unpin_all l s s' :
  xen_mm_unpin_all auto_translated_physmap lazy_mode l s = Ret s' → agree s → agree s'.
Proof.
  revert s. induction l as [|page l IH]; intros s Hr Ha; simpl in Hr; [by injection Hr as <-|].
  bind_inv Hr. apply (IH r); [done|]. case_bool_decide; [|by injection E as <-].
  destruct (negb _); [done|]. bind_inv E. injection E as <-. apply agree_saved. by eapply agree_pgd_unpin.
Qed.

Lemma agree_step s s' : pin_step s s' → agree s → agree s'.
Proof.
  intros []; eauto using agree_pgd_pin, agree_pgd_unpin, agree_alloc, agree_release, agree_pin_all, agree_unpin_all.
Qed.

End marks.

(** C17: In every sequence of operations on page tables (pinning and unpinning
    whole tables, attaching and releasing single pages, pinning everything for
    a suspension and undoing it) a page of low memory stays marked as pinned
    exactly as long as the hypervisor has been told to keep it read-only. *)
Theorem marked_iff_read_only `{PT : PageTable} `{PG : Pages} `{AS : AddrSpace} `{MB : McBuffer}
    `{!PagesLaws} `{!McBufferLaws} (auto_translated_physmap : bool) (lazy_mode : Z) ro0 s s' :
  rtc (pin_step auto_translated_physmap lazy_mode) s s' → marks_agree ro0 s → marks_agree ro0 s'.
Proof. induction 1; eauto using agree_step. Qed.

(** ** Witnesses *)

Lemma pgd_walk_correct_witness :
  @walked small_page_table small_pages 0x5000 (@USER_LIMIT small_pages) =
    [(6, PT_PUD); (7, PT_PMD); (8, PT_PTE); (9, PT_PTE); (5, PT_PGD)] ∧
  @__xen_pgd_walk small_page_table small_pages list_mcb false (λ p _ s, (p, s)) 0x5000 (@USER_LIMIT small_pages) small_state =
    Ret (15, small_state).
Proof.
  split; [by vm_compute|].
  destruct (@pgd_walk_correct small_page_table small_pages toy_space list_mcb small_pages_laws false
    (λ p _ s, (p, s)) 0x5000 (@USER_LIMIT small_pages) small_state) as [-> _].
  by vm_compute.
Defined.

Lemma marked_iff_read_only_witness :
  ∃ s s', @__xen_pgd_pin small_page_table small_pages list_mcb false 0 0x5000 small_state = Ret s ∧
    s' = @xen_alloc_ptpage small_page_table small_pages toy_space list_mcb 0 (mk_mm_struct 0 [] 0x5000) 0x20 PT_PTE s ∧
    0x20 ∈ PagePinned s' ∧ @marks_agree small_pages list_mcb ∅ s'.
Proof.
  eexists. eexists. split; [by vm_compute|]. split; [done|]. split; [by vm_compute|].
  apply (@marked_iff_read_only small_page_table small_pages toy_space list_mcb small_pages_laws list_mcb_laws
    false 0 ∅ small_state).
  - eapply rtc_l; [|eapply rtc_l; [|apply rtc_refl]].
    + apply (step_pin false 0 0x5000). by vm_compute.
    + by apply step_alloc.
  - intros page _. change (page ∈ (∅ : gset Z) ↔ @lowmem_page_address small_pages page ∈ (∅ : gset Z)).
    by rewrite !elem_of_empty.
Defined.
