(* ===== verification/XenPinAccept.v ===== *)
(** * Pinning, as the hypervisor sees it

    What the hypervisor asks for before it pins a table or makes one writable,
    as a checker of the operations handed to it, and the proof that pinning a
    fresh table and unpinning it again pass the check and leave everything as
    it was. *)

From S2P Require Import Prelude Protocol PageWalk MalHooks XenMmu Hypercall XenPin XenPinCorrect.

(** ** The specification *)

(** The addresses mapped read-only and the machine frames pinned. *)
Record xen_view : Type := mk_xen_view { view_ro : gset Z; view_pins : gset Z }.

Section accept.
  (** The addresses of the tables that make up the table at a machine frame. *)
  Context (covers : Z → gset Z).

(** A table is pinned only when all of it is read-only, unpinned only when it
    was pinned, and no page of a pinned table is made writable. *)
Definition accept (v : xen_view) (o : xen_op) : option xen_view :=
  match o with
  | UpdateVa va val _ =>
      if Z.testbit val 1 then
        if decide (set_Forall (λ m, va ∉ covers m) (view_pins v))
        then Some (mk_xen_view (view_ro v ∖ {[va]}) (view_pins v)) else None
      else Some (mk_xen_view ({[va]} ∪ view_ro v) (view_pins v))
  | Mmuext op =>
      mfn ← ext_arg1 op;
      if decide (ext_cmd op ≤ MMUEXT_PIN_L4_TABLE) then
        if decide (covers mfn ⊆ view_ro v)
        then Some (mk_xen_view (view_ro v) ({[mfn]} ∪ view_pins v)) else None
      else if decide (ext_cmd op = MMUEXT_UNPIN_TABLE) then
        if decide (mfn ∈ view_pins v)
        then Some (mk_xen_view (view_ro v) (view_pins v ∖ {[mfn]})) else None
      else Some v
  | Other _ => Some v
  end.

Fixpoint accept_all (v : xen_view) (ops : list xen_op) : option xen_view :=
  match ops with [] => Some v | o :: ops' => v' ← accept v o; accept_all v' ops' end.

Section tables.
  Context `{PT : PageTable} `{PG : Pages} `{MB : McBuffer}.

Definition page_addresses (l : list (Z * pt_level)) : gset Z := list_to_set ((λ p, lowmem_page_address p.1) <$> l).
Definition page_mfn (p : Z * pt_level) : Z := pfn_to_mfn (page_to_pfn p.1).
Definition table_mfns (l : list (Z * pt_level)) : list Z :=
  page_mfn <$> filter (λ p, own_lock p.2 = true) l.

(** The page of the user's top level, where there is one, and the machine
    frames of both top levels. *)
Definition user_tables (pgd : Z) (s : pin_state) : list (Z * pt_level) :=
  if decide (user_pgd pgd s ≠ NULL) then [(virt_to_page (user_pgd pgd s), PT_PGD)] else [].
Definition user_roots (pgd : Z) (s : pin_state) : list Z :=
  if decide (user_pgd pgd s ≠ NULL) then [pfn_to_mfn (pgd_pfn (user_pgd pgd s))] else [].

(** A table that is not in use: its pages are different pages of low memory,
    neither marked nor read-only, nothing of it is pinned nor part of a pinned
    table, and pinning a top level takes no other pages than those. *)
Record fresh_table (pgd : Z) (s : pin_state) (v : xen_view) : Prop := mk_fresh_table {
  fresh_limit : u64 (USER_LIMIT - 1) < FIXADDR_TOP;
  fresh_pages : NoDup ((walked pgd USER_LIMIT ++ user_tables pgd s).*1);
  fresh_low : ∀ p, p ∈ ((walked pgd USER_LIMIT ++ user_tables pgd s).*1) →
    PageHighMem p = false ∧ (p ∉ PagePinned s) ∧ (lowmem_page_address p ∉ view_ro v);
  fresh_pins : NoDup (table_mfns (walked pgd USER_LIMIT) ++ pfn_to_mfn (pgd_pfn pgd) :: user_roots pgd s);
  fresh_unpinned : ∀ m, m ∈ table_mfns (walked pgd USER_LIMIT) ++ pfn_to_mfn (pgd_pfn pgd) :: user_roots pgd s →
    m ∉ view_pins v;
  fresh_others : ∀ m, m ∈ view_pins v → covers m ## page_addresses (walked pgd USER_LIMIT ++ user_tables pgd s);
  fresh_leaf : ∀ p, (p, PT_PTE) ∈ walked pgd USER_LIMIT →
    covers (page_mfn (p, PT_PTE)) ⊆ {[lowmem_page_address p]};
  fresh_root : covers (pfn_to_mfn (pgd_pfn pgd)) ⊆ page_addresses (walked pgd USER_LIMIT);
  fresh_user : ∀ m, m ∈ user_roots pgd s → covers m ⊆ page_addresses (walked pgd USER_LIMIT ++ user_tables pgd s)
}.

(** ** Lemmas *)

Lemma accept_app v ops1 ops2 : accept_all v (ops1 ++ ops2) = (v' ← accept_all v ops1; accept_all v' ops2).
Proof. revert v. induction ops1 as [|o ops IH]; intros v; [done|]. simpl. destruct (accept v o); [apply IH|done]. Qed.

Lemma table_mfns_app l1 l2 : table_mfns (l1 ++ l2) = table_mfns l1 ++ table_mfns l2.
Proof. unfold table_mfns. by rewrite filter_app, fmap_app. Qed.

Context `{AS : AddrSpace} `{!PagesLaws} `{!McBufferLaws}.

Lemma accept_cons v o ops : accept_all v (o :: ops) = (v' ← accept v o; accept_all v' ops).
Proof. done. Qed.

Lemma accept_ro v p level :
  accept v (protect PAGE_KERNEL_RO p level) =
    Some (mk_xen_view ({[lowmem_page_address p]} ∪ view_ro v) (view_pins v)).
Proof. unfold accept, protect. by rewrite pte_kernel_ro. Qed.

Lemma accept_rw v p level :
  (∀ m, m ∈ view_pins v → lowmem_page_address p ∉ covers m) →
  accept v (protect PAGE_KERNEL p level) =
    Some (mk_xen_view (view_ro v ∖ {[lowmem_page_address p]}) (view_pins v)).
Proof. intros Hv. unfold accept, protect. rewrite pte_kernel. by rewrite decide_True. Qed.

Lemma accept_pin v cmd pfn :
  cmd ≤ MMUEXT_PIN_L4_TABLE → covers (pfn_to_mfn pfn) ⊆ view_ro v →
  accept v (pin_op cmd pfn) = Some (mk_xen_view (view_ro v) ({[pfn_to_mfn pfn]} ∪ view_pins v)).
Proof. intros Hc Hv. unfold accept, pin_op. simpl. by rewrite !decide_True. Qed.

Lemma accept_unpin v pfn :
  pfn_to_mfn pfn ∈ view_pins v →
  accept v (pin_op MMUEXT_UNPIN_TABLE pfn) = Some (mk_xen_view (view_ro v) (view_pins v ∖ {[pfn_to_mfn pfn]})).
Proof. intros Hv. unfold accept, pin_op. simpl. by rewrite decide_True. Qed.

Lemma pins_accepted l v :
  (∀ p, p ∈ l → own_lock p.2 = true → covers (page_mfn p) ⊆ {[lowmem_page_address p.1]}) →
  accept_all v (l ≫= pin_ops) =
    Some (mk_xen_view (page_addresses l ∪ view_ro v) (list_to_set (table_mfns l) ∪ view_pins v)).
Proof.
  revert v. induction l as [|[p level] l IH]; intros v Hl.
  { unfold page_addresses. simpl. destruct v. simpl. do 2 f_equal; set_solver. }
  rewrite bind_cons, accept_app. change (pin_ops (p, level)) with
    (protect PAGE_KERNEL_RO p level :: if own_lock level then [pin_op MMUEXT_PIN_L1_TABLE (page_to_pfn p)] else []).
  rewrite accept_cons, accept_ro. csimpl.
  assert (∀ q, q ∈ l → own_lock q.2 = true → covers (page_mfn q) ⊆ {[lowmem_page_address q.1]}) as Hl'
    by (intros; apply Hl; [by right|done]).
  specialize (Hl (p, level)). unfold table_mfns, page_addresses. rewrite filter_cons. csimpl in *.
  destruct (own_lock level) eqn:Ho.
  - rewrite accept_cons, accept_pin; [|done|].
    2:{ simpl. transitivity ({[lowmem_page_address p]} : gset Z); [|set_solver]. apply Hl; [left|done]. }
    csimpl. rewrite IH by done. do 2 f_equal; set_solver.
  - csimpl. rewrite IH by done. do 2 f_equal; set_solver.
Qed.

Lemma unpins_accepted l v :
  NoDup (table_mfns l) → (∀ m, m ∈ table_mfns l → m ∈ view_pins v) →
  (∀ p m, p ∈ l → m ∈ view_pins v → lowmem_page_address p.1 ∈ covers m → own_lock p.2 = true ∧ m = page_mfn p) →
  accept_all v (l ≫= unpin_ops) =
    Some (mk_xen_view (view_ro v ∖ page_addresses l) (view_pins v ∖ list_to_set (table_mfns l))).
Proof.
  revert v. induction l as [|[p level] l IH]; intros v Hn Hm Hc.
  { unfold page_addresses. simpl. destruct v. simpl. do 2 f_equal; set_solver. }
  rewrite bind_cons, accept_app. change (unpin_ops (p, level)) with
    ((if own_lock level then [pin_op MMUEXT_UNPIN_TABLE (page_to_pfn p)] else []) ++ [protect PAGE_KERNEL p level]).
  unfold table_mfns, page_addresses in *. rewrite filter_cons in *. csimpl in *.
  destruct (own_lock level) eqn:Ho.
  - apply NoDup_cons in Hn as [Hn1 Hn2]. cbn [app]. rewrite accept_cons, accept_unpin by (apply Hm; left).
    cbn [mbind option_bind]. rewrite accept_cons, accept_rw.
    2:{ simpl. intros m [Hm1 Hm2]%elem_of_difference Hpc.
        destruct (Hc (p, level) m) as [_ ->]; [left|done|done|]. by apply Hm2, elem_of_singleton. }
    csimpl. rewrite IH; simpl.
    + do 2 f_equal; set_solver.
    + done.
    + intros m Hml. apply elem_of_difference. split; [apply Hm; by right|]. intros ->%elem_of_singleton. done.
    + intros q m Hq Hmv. apply Hc; [by right|set_solver].
  - cbn [app]. rewrite accept_cons, accept_rw.
    2:{ intros m Hm1 Hpc. destruct (Hc (p, level) m) as [Hf _]; [left|done|done|]. simpl in Hf. congruence. }
    csimpl. rewrite IH; simpl; [do 2 f_equal; set_solver|done|done|].
    intros q m Hq Hmv. apply Hc; [by right|done].
Qed.

(** *** The operations on a list of pages *)

Lemma visit_pins l z s :
  NoDup l.*1 → (∀ p, p ∈ l.*1 → PageHighMem p = false ∧ p ∉ PagePinned s) →
  ∃ s', visit_all xen_pin_page l (z, s) = (z, s') ∧
    PagePinned s' = list_to_set l.*1 ∪ PagePinned s ∧ did (l ≫= pin_ops) (l ≫= page_lock) s s'.
Proof.
  revert s. induction l as [|[p level] l IH]; intros s Hn Hl.
  { exists s. split; [done|]. split; [simpl; set_solver|apply did_nothing]. }
  csimpl in *. apply NoDup_cons in Hn as [Hn1 Hn2].
  destruct (Hl p (list_elem_of_here _ _)) as [Hh Hp].
  destruct (pin_page_fresh p level s Hp Hh) as (s1 & E1 & P1 & D1).
  destruct (IH s1 Hn2) as (s2 & E2 & P2 & D2).
  { intros q Hq. destruct (Hl q); [by right|]. split; [done|]. rewrite P1. set_solver. }
  exists s2. unfold visit_all in *. simpl. rewrite E1, Z.lor_0_r, E2. split; [done|]. split; [|exact (did_trans _ _ _ _ _ _ _ D1 D2)].
  rewrite P2, P1. set_solver.
Qed.

Lemma visit_unpins l z s :
  NoDup l.*1 → (∀ p, p ∈ l.*1 → PageHighMem p = false ∧ p ∈ PagePinned s) →
  ∃ s', visit_all xen_unpin_page l (z, s) = (z, s') ∧
    PagePinned s' = PagePinned s ∖ list_to_set l.*1 ∧ did (l ≫= unpin_ops) (l ≫= page_lock) s s'.
Proof.
  revert s. induction l as [|[p level] l IH]; intros s Hn Hl.
  { exists s. split; [done|]. split; [simpl; set_solver|apply did_nothing]. }
  csimpl in *. apply NoDup_cons in Hn as [Hn1 Hn2].
  destruct (Hl p (list_elem_of_here _ _)) as [Hh Hp].
  destruct (unpin_page_marked p level s Hp Hh) as (s1 & E1 & P1 & D1).
  destruct (IH s1 Hn2) as (s2 & E2 & P2 & D2).
  { intros q Hq. destruct (Hl q); [by right|]. split; [done|]. rewrite P1. set_solver. }
  exists s2. unfold visit_all in *. simpl. rewrite E1, Z.lor_0_r, E2. split; [done|]. split; [|exact (did_trans _ _ _ _ _ _ _ D1 D2)].
  rewrite P2, P1. set_solver.
Qed.

(** *** Whole tables *)

Definition user_frames (pgd : Z) (s : pin_state) : list Z :=
  if decide (user_pgd pgd s ≠ NULL) then [pgd_pfn (user_pgd pgd s)] else [].
Definition pgd_pin_ops (pgd : Z) (s : pin_state) : list xen_op :=
  (walked pgd USER_LIMIT ≫= pin_ops) ++ pin_op MMUEXT_PIN_L4_TABLE (pgd_pfn pgd) ::
  (user_tables pgd s ≫= pin_ops) ++ (pin_op MMUEXT_PIN_L4_TABLE <$> user_frames pgd s).
Definition pgd_unpin_ops (pgd : Z) (s : pin_state) : list xen_op :=
  pin_op MMUEXT_UNPIN_TABLE (pgd_pfn pgd) ::
  (pin_op MMUEXT_UNPIN_TABLE <$> user_frames pgd s) ++ (user_tables pgd s ≫= unpin_ops) ++
  (walked pgd USER_LIMIT ≫= unpin_ops).

Lemma user_pgd_did pgd ops ls s s' : did ops ls s s' → user_pgd pgd s' = user_pgd pgd s.
Proof. intros Hd. unfold user_pgd. by rewrite (did_private _ _ _ _ Hd). Qed.

Lemma did_eq ops ops' ls ls' s s' : did ops ls s s' → ops = ops' → ls = ls' → did ops' ls' s s'.
Proof. by intros ? -> ->. Qed.

Lemma did_do_pin cmd pfn s : did [pin_op cmd pfn] [] s (xen_do_pin cmd pfn s).
Proof. apply did_extend. Qed.

Lemma pinned_do_pin cmd pfn s : PagePinned (xen_do_pin cmd pfn s) = PagePinned s.
Proof. apply pinned_extend. Qed.

Lemma fresh_page pgd s v p :
  fresh_table pgd s v → p ∈ (walked pgd USER_LIMIT).*1 →
  PageHighMem p = false ∧ (p ∉ PagePinned s).
Proof.
  intros Hf Hp. destruct (fresh_low _ _ _ Hf p) as (? & ? & ?); [|done].
  rewrite fmap_app. apply elem_of_app. by left.
Qed.

Lemma fresh_user_page pgd s v :
  fresh_table pgd s v → user_pgd pgd s ≠ NULL →
  let p := virt_to_page (user_pgd pgd s) in
  PageHighMem p = false ∧ (p ∉ PagePinned s) ∧ (p ∉ (walked pgd USER_LIMIT).*1).
Proof.
  intros Hf Hu p. pose proof (fresh_pages _ _ _ Hf) as Hn. pose proof (fresh_low _ _ _ Hf p) as Hl.
  unfold user_tables in *. rewrite decide_True in Hn, Hl by done. rewrite fmap_app in Hn, Hl.
  apply NoDup_app in Hn as (_ & Hn & _). destruct Hl as (? & ? & ?).
  { apply elem_of_app. right. left. }
  split; [done|]. split; [done|]. intros Hw. apply (Hn p Hw). left.
Qed.

Lemma fresh_walked_pages pgd s v : fresh_table pgd s v → NoDup (walked pgd USER_LIMIT).*1.
Proof. intros Hf. pose proof (fresh_pages _ _ _ Hf) as Hn. rewrite fmap_app in Hn. by apply NoDup_app in Hn as []. Qed.

(** The marks while a table is pinned. *)
Definition marks_with (pgd : Z) (s : pin_state) : gset Z :=
  list_to_set ((walked pgd USER_LIMIT ++ user_tables pgd s).*1) ∪ PagePinned s.

Lemma marks_with_eq pgd s :
  marks_with pgd s = list_to_set (user_tables pgd s).*1 ∪ (list_to_set (walked pgd USER_LIMIT).*1 ∪ PagePinned s).
Proof. unfold marks_with. rewrite fmap_app, list_to_set_app_L. apply set_eq. intros p. rewrite !elem_of_union. tauto. Qed.

Lemma pgd_pin_run lazy_mode pgd s v :
  fresh_table pgd s v →
  ∃ s1, __xen_pgd_pin false lazy_mode pgd s = Ret s1 ∧ PagePinned s1 = marks_with pgd s ∧
    did (pgd_pin_ops pgd s) (walked pgd USER_LIMIT ≫= page_lock) s s1 ∧ waiting (buffer s1) = [].
Proof.
  intros Hf. pose proof (fresh_user_page _ _ _ Hf) as Hup. rewrite marks_with_eq.
  destruct (visit_pins (walked pgd USER_LIMIT) 0 (xen_mc_batch_ s)) as (s1 & E1 & P1 & D1);
    [exact (fresh_walked_pages _ _ _ Hf)|exact (λ p, fresh_page _ _ _ p Hf)|].
  unfold __xen_pgd_pin. rewrite walk_visits by (apply pgd_index_nonneg || apply Hf). rewrite E1.
  cbn [mbind outcome_bind fst snd]. rewrite (decide_False (P:=0 ≠ 0)) by lia.
  pose proof (did_trans _ _ _ _ _ _ _ (did_batch s) D1) as D2.
  rewrite (user_pgd_did pgd _ _ _ _ D2).
  pose proof (did_trans _ _ _ _ _ _ _ D2 (did_do_pin MMUEXT_PIN_L4_TABLE (pgd_pfn pgd) s1)) as D3.
  eexists. split; [done|]. simpl. rewrite issue_waiting by (by rewrite Z.land_0_r).
  unfold pgd_pin_ops, user_tables, user_frames in *. simpl in P1.
  destruct (decide (user_pgd pgd s ≠ NULL)) as [Hu|Hu]; csimpl in *.
  - destruct (Hup Hu) as (Hh & Hp & Hw). clear Hup.
    destruct (pin_page_fresh (virt_to_page (user_pgd pgd s)) PT_PGD (xen_do_pin MMUEXT_PIN_L4_TABLE (pgd_pfn pgd) s1))
      as (s2 & -> & P2 & D4); [|done|].
    { rewrite pinned_do_pin, P1, elem_of_union, elem_of_list_to_set. tauto. }
    pose proof (did_trans _ _ _ _ _ _ _ (did_trans _ _ _ _ _ _ _ D3 D4)
      (did_trans _ _ _ _ _ _ _ (did_do_pin MMUEXT_PIN_L4_TABLE (pgd_pfn (user_pgd pgd s)) s2) (did_issue lazy_mode 0 _))) as D5.
    split; [|split; [|done]].
    + etrans; [exact P2|]. rewrite pinned_do_pin, P1. by rewrite union_empty_r_L.
    + eapply did_eq; [exact D5| |]; [by rewrite <-!app_assoc|by rewrite !app_nil_r].
  - pose proof (did_trans _ _ _ _ _ _ _ D3 (did_issue lazy_mode 0 _)) as D4. split; [|split; [|done]].
    + etrans; [exact P1|]. by rewrite union_empty_l_L.
    + eapply did_eq; [exact D4| |]; by rewrite !app_nil_r.
Qed.

Lemma unpin_user pgd s v s1 :
  fresh_table pgd s v → PagePinned s1 = marks_with pgd s →
  ∃ s2, (if decide (user_pgd pgd s ≠ NULL)
      then (xen_unpin_page (virt_to_page (user_pgd pgd s)) PT_PGD
             (xen_do_pin MMUEXT_UNPIN_TABLE (pgd_pfn (user_pgd pgd s)) s1)).2 else s1) = s2 ∧
    PagePinned s2 = list_to_set (walked pgd USER_LIMIT).*1 ∪ PagePinned s ∧
    did ((pin_op MMUEXT_UNPIN_TABLE <$> user_frames pgd s) ++ (user_tables pgd s ≫= unpin_ops)) [] s1 s2.
Proof.
  intros Hf P1. pose proof (fresh_user_page _ _ _ Hf) as Hup. rewrite marks_with_eq in P1.
  unfold user_tables, user_frames in *. destruct (decide (user_pgd pgd s ≠ NULL)) as [Hu|Hu]; csimpl in *.
  - destruct (Hup Hu) as (Hh & Hp & Hw). clear Hup. rewrite union_empty_r_L in P1.
    destruct (unpin_page_marked (virt_to_page (user_pgd pgd s)) PT_PGD
      (xen_do_pin MMUEXT_UNPIN_TABLE (pgd_pfn (user_pgd pgd s)) s1)) as (s2 & E2 & P2 & D2); [|done|].
    { rewrite pinned_do_pin, P1. apply elem_of_union_l, elem_of_singleton. done. }
    exists s2. rewrite E2. split; [done|]. split.
    + rewrite P2, pinned_do_pin, P1. apply set_eq. intros p.
      rewrite elem_of_difference, !elem_of_union, elem_of_singleton, elem_of_list_to_set.
      split; [tauto|]. intros Hin. split; [by right|]. intros ->. by destruct Hin.
    + exact (did_trans _ _ _ _ _ _ _ (did_do_pin _ _ _) D2).
  - exists s1. split; [done|]. split; [by rewrite P1, union_empty_l_L|apply did_nothing].
Qed.

Lemma pgd_unpin_run lazy_mode pgd s v s0 :
  fresh_table pgd s v → user_pgd pgd s0 = user_pgd pgd s → PagePinned s0 = marks_with pgd s →
  ∃ s2, __xen_pgd_unpin false lazy_mode pgd s0 = Ret s2 ∧ PagePinned s2 = PagePinned s ∧
    did (pgd_unpin_ops pgd s) (walked pgd USER_LIMIT ≫= page_lock) s0 s2 ∧ waiting (buffer s2) = [].
Proof.
  intros Hf Hs0 P0.
  pose proof (did_trans _ _ _ _ _ _ _ (did_batch s0) (did_do_pin MMUEXT_UNPIN_TABLE (pgd_pfn pgd) _)) as D1.
  unfold __xen_pgd_unpin. cbv zeta. rewrite (user_pgd_did pgd _ _ _ _ D1), Hs0.
  destruct (unpin_user pgd s v (xen_do_pin MMUEXT_UNPIN_TABLE (pgd_pfn pgd) (xen_mc_batch_ s0)) Hf) as (s2 & -> & P2 & D2).
  { by rewrite pinned_do_pin. }
  rewrite walk_visits by (apply pgd_index_nonneg || apply Hf).
  destruct (visit_unpins (walked pgd USER_LIMIT) 0 s2) as (s3 & E3 & P3 & D3).
  { exact (fresh_walked_pages _ _ _ Hf). }
  { intros p Hp. split; [by apply (fresh_page _ _ _ p Hf)|]. rewrite P2. by apply elem_of_union_l, elem_of_list_to_set. }
  rewrite E3. cbn [mbind outcome_bind fst snd]. eexists. split; [done|]. split; [|split].
  - simpl. rewrite P3, P2. apply set_eq. intros p.
    rewrite elem_of_difference, elem_of_union, elem_of_list_to_set. split; [tauto|].
    intros Hp. split; [by right|]. intros Hw. by apply (fresh_page _ _ _ p Hf) in Hw as [].
  - eapply did_eq; [exact (did_trans _ _ _ _ _ _ _ (did_trans _ _ _ _ _ _ _ D1 D2) (did_trans _ _ _ _ _ _ _ D3 (did_issue lazy_mode 0 _)))| |].
    + unfold pgd_unpin_ops. rewrite app_nil_r. simpl. by rewrite <-!app_assoc.
    + simpl. by rewrite !app_nil_r.
  - simpl. apply issue_waiting. by rewrite Z.land_0_r.
Qed.

Lemma page_addresses_app l1 l2 : page_addresses (l1 ++ l2) = page_addresses l1 ∪ page_addresses l2.
Proof. unfold page_addresses. by rewrite fmap_app, list_to_set_app_L. Qed.

(** The view while a table is pinned. *)
Definition view_with (pgd : Z) (s : pin_state) (v : xen_view) : xen_view :=
  mk_xen_view (page_addresses (walked pgd USER_LIMIT ++ user_tables pgd s) ∪ view_ro v)
    (list_to_set (table_mfns (walked pgd USER_LIMIT) ++ pfn_to_mfn (pgd_pfn pgd) :: user_roots pgd s) ∪ view_pins v).

Lemma accept_pin_user v pgd s :
  (∀ m, m ∈ user_roots pgd s → covers m ⊆ page_addresses (user_tables pgd s) ∪ view_ro v) →
  accept_all v ((user_tables pgd s ≫= pin_ops) ++ (pin_op MMUEXT_PIN_L4_TABLE <$> user_frames pgd s)) =
    Some (mk_xen_view (page_addresses (user_tables pgd s) ∪ view_ro v)
           (list_to_set (user_roots pgd s) ∪ view_pins v)).
Proof.
  unfold user_tables, user_roots, user_frames, page_addresses.
  destruct (decide (user_pgd pgd s ≠ NULL)); intros Hc.
  - rewrite bind_cons. change (pin_ops (virt_to_page (user_pgd pgd s), PT_PGD)) with
      [protect PAGE_KERNEL_RO (virt_to_page (user_pgd pgd s)) PT_PGD].
    cbn [app mbind list_bind fmap list_fmap fst]. rewrite accept_cons, accept_ro.
    cbn [mbind option_bind]. rewrite accept_cons, accept_pin; [|done|].
    2:{ simpl. etrans; [apply Hc; left|]. simpl. set_solver. }
    simpl. do 2 f_equal; set_solver.
  - simpl. destruct v. simpl. do 2 f_equal; set_solver.
Qed.

Lemma pgd_pin_accepted pgd s v :
  fresh_table pgd s v → accept_all v (pgd_pin_ops pgd s) = Some (view_with pgd s v).
Proof.
  intros Hf. unfold pgd_pin_ops. rewrite accept_app, pins_accepted.
  2:{ intros [p level] Hp Ho. apply andb_true_iff in Ho as [Ho _]. to_prop. simpl in Ho. subst level.
      by apply (fresh_leaf _ _ _ Hf). }
  cbn [mbind option_bind]. rewrite accept_cons, accept_pin; [|done|].
  2:{ simpl. etrans; [apply Hf|]. apply union_subseteq_l. }
  cbn [mbind option_bind]. rewrite accept_pin_user.
  2:{ intros m Hm. etrans; [by apply (fresh_user _ _ _ Hf)|]. simpl. rewrite page_addresses_app.
      intros x. rewrite !elem_of_union. tauto. }
  unfold view_with. rewrite page_addresses_app, list_to_set_app_L. simpl.
  do 2 f_equal; apply set_eq; intros x; rewrite !elem_of_union; tauto.
Qed.

Lemma accept_unpin_user v pgd s :
  (∀ m, m ∈ user_roots pgd s → m ∈ view_pins v) →
  (∀ p m, p ∈ user_tables pgd s → m ∈ view_pins v → lowmem_page_address p.1 ∈ covers m → m ∈ user_roots pgd s) →
  accept_all v ((pin_op MMUEXT_UNPIN_TABLE <$> user_frames pgd s) ++ (user_tables pgd s ≫= unpin_ops)) =
    Some (mk_xen_view (view_ro v ∖ page_addresses (user_tables pgd s))
           (view_pins v ∖ list_to_set (user_roots pgd s))).
Proof.
  unfold user_tables, user_roots, user_frames, page_addresses.
  destruct (decide (user_pgd pgd s ≠ NULL)); intros Hm Hc.
  - rewrite bind_cons. change (unpin_ops (virt_to_page (user_pgd pgd s), PT_PGD)) with
      [protect PAGE_KERNEL (virt_to_page (user_pgd pgd s)) PT_PGD].
    cbn [app mbind list_bind fmap list_fmap fst]. rewrite accept_cons, accept_unpin by (apply Hm; left).
    cbn [mbind option_bind]. rewrite accept_cons, accept_rw.
    2:{ simpl. intros m [Hm1 Hm2]%elem_of_difference Hpc. apply Hm2, elem_of_singleton.
        apply (list_elem_of_singleton m), (Hc (virt_to_page (user_pgd pgd s), PT_PGD)); [left|done|done]. }
    simpl. by rewrite !union_empty_r_L.
  - simpl. destruct v. simpl. by rewrite !difference_empty_L.
Qed.

(** Different pages have different addresses. *)
Lemma fresh_injective pgd s v p q :
  fresh_table pgd s v →
  p ∈ walked pgd USER_LIMIT ++ user_tables pgd s → q ∈ walked pgd USER_LIMIT ++ user_tables pgd s →
  lowmem_page_address p.1 = lowmem_page_address q.1 → p = q.
Proof.
  intros Hf Hp Hq Ha. pose proof (fresh_pages _ _ _ Hf) as Hn.
  assert (p.1 = q.1) as Hpq.
  { apply lowmem_injective; [| |done]; apply (fresh_low _ _ _ Hf); by apply list_elem_of_fmap_2. }
  apply list_elem_of_lookup in Hp as [i Hi], Hq as [j Hj].
  assert (i = j) as <-; [|congruence].
  apply (NoDup_lookup _ i j p.1 Hn); rewrite list_lookup_fmap; [by rewrite Hi|rewrite Hj; simpl; by rewrite Hpq].
Qed.

(** The page of a leaf is covered by the pin of that leaf only. *)
Lemma fresh_covers pgd s v p m :
  fresh_table pgd s v → p ∈ walked pgd USER_LIMIT ++ user_tables pgd s →
  m ∈ table_mfns (walked pgd USER_LIMIT) ∨ m ∈ view_pins v → lowmem_page_address p.1 ∈ covers m →
  p ∈ walked pgd USER_LIMIT ∧ own_lock p.2 = true ∧ m = page_mfn p.
Proof.
  intros Hf Hp [Hm|Hm] Hc.
  - unfold table_mfns in Hm. apply list_elem_of_fmap in Hm as ([q level] & -> & Hq).
    apply list_elem_of_filter in Hq as [Ho Hq]. assert (level = PT_PTE) as ->.
    { apply andb_true_iff in Ho as [Ho _]. by apply bool_decide_eq_true in Ho. }
    apply (fresh_leaf _ _ _ Hf) in Hc as Hc'; [|done]. apply elem_of_singleton in Hc'.
    rewrite (fresh_injective _ _ _ p (q, PT_PTE) Hf Hp); [done| |done]. apply elem_of_app. by left.
  - exfalso. apply (fresh_others _ _ _ Hf m Hm _ Hc). apply elem_of_list_to_set, list_elem_of_fmap. by exists p.
Qed.

Lemma fresh_pins_disjoint pgd s v :
  fresh_table pgd s v →
  let root := pfn_to_mfn (pgd_pfn pgd) in
  NoDup (table_mfns (walked pgd USER_LIMIT)) ∧ (root ∉ user_roots pgd s) ∧
  (∀ m, m ∈ table_mfns (walked pgd USER_LIMIT) → m ≠ root ∧ (m ∉ user_roots pgd s) ∧ (m ∉ view_pins v)) ∧
  (∀ m, m ∈ user_roots pgd s → m ∉ view_pins v) ∧ (root ∉ view_pins v).
Proof.
  intros Hf root. pose proof (fresh_pins _ _ _ Hf) as Hn. pose proof (fresh_unpinned _ _ _ Hf) as Hu.
  apply NoDup_app in Hn as (Hn1 & Hn2 & Hn3). apply NoDup_cons in Hn3 as [Hn3 _].
  split; [done|]. split; [done|]. split; [|split].
  - intros m Hm. specialize (Hn2 m Hm). rewrite not_elem_of_cons in Hn2. destruct Hn2. repeat split; [done..|].
    apply Hu, elem_of_app. by left.
  - intros m Hm. apply Hu, elem_of_app. right. by right.
  - apply Hu, elem_of_app. right. left.
Qed.

Lemma pgd_unpin_accepted pgd s v :
  fresh_table pgd s v → accept_all (view_with pgd s v) (pgd_unpin_ops pgd s) = Some v.
Proof.
  intros Hf. pose proof (fresh_pins_disjoint _ _ _ Hf) as (Hn & Hru & Hw & Huv & Hrv).
  unfold pgd_unpin_ops. rewrite accept_cons, accept_unpin.
  2:{ simpl. rewrite list_to_set_app_L. simpl. rewrite !elem_of_union, elem_of_singleton. tauto. }
  cbn [mbind option_bind]. rewrite app_assoc, accept_app. simpl.
  set (tm := table_mfns (walked pgd USER_LIMIT)) in *. set (root := pfn_to_mfn (pgd_pfn pgd)) in *.
  assert (Hpins : ∀ m, m ∈ (list_to_set (tm ++ root :: user_roots pgd s) ∪ view_pins v) ∖ {[root]} ↔
      m ∈ tm ∨ m ∈ user_roots pgd s ∨ m ∈ view_pins v).
  { intros m. rewrite elem_of_difference, elem_of_union, elem_of_list_to_set, elem_of_app, elem_of_cons, elem_of_singleton.
    specialize (Hw m). split; [tauto|]. intros Hm. split; [tauto|]. intros ->. tauto. }
  rewrite accept_unpin_user; simpl.
  2:{ intros m Hm. apply Hpins. tauto. }
  2:{ intros p m Hp Hm Hc. apply Hpins in Hm. destruct (decide (m ∈ user_roots pgd s)); [done|].
      destruct (fresh_covers _ _ _ p m Hf) as (Hpw & _); [apply elem_of_app; by right|tauto|done|].
      exfalso. pose proof (fresh_pages _ _ _ Hf) as Hnd. rewrite fmap_app in Hnd.
      apply NoDup_app in Hnd as (_ & Hnd & _). apply (Hnd p.1); by apply list_elem_of_fmap_2. }
  assert (Hpins2 : ∀ m, m ∈ (list_to_set (tm ++ root :: user_roots pgd s) ∪ view_pins v) ∖ {[root]} ∖
      list_to_set (user_roots pgd s) ↔ m ∈ tm ∨ m ∈ view_pins v).
  { intros m. rewrite elem_of_difference, Hpins, elem_of_list_to_set. specialize (Hw m). specialize (Huv m). tauto. }
  rewrite unpins_accepted; simpl.
  - destruct v as [vr vp]. simpl in *. do 2 f_equal; apply set_eq; intros x.
    + rewrite page_addresses_app, !elem_of_difference, !elem_of_union. split; [tauto|]. intros Hx. repeat split; [by right|..];
        intros Ha; apply elem_of_list_to_set, list_elem_of_fmap in Ha as (p & -> & Hp);
        (destruct (fresh_low _ _ _ Hf p.1) as (_ & _ & Hr); [apply list_elem_of_fmap_2, elem_of_app; tauto|done]).
    + rewrite elem_of_difference, Hpins2, elem_of_list_to_set. specialize (Hw x). tauto.
  - done.
  - intros m Hm. apply Hpins2. by left.
  - intros p m Hp Hm%Hpins2 Hc. apply (fresh_covers _ _ _ p m Hf); [apply elem_of_app; by left|done|done].
Qed.

End tables.
End accept.

(** ** The round trip *)

(** C16: Pinning a page table that is not in use, and unpinning it, hand the
    hypervisor operations it accepts at every step (read-only before pinned,
    unpinned before writable); in between all pages of the table are marked
    and read-only and both top levels are pinned; afterwards the marks and what
    the hypervisor knows are as before.  Every page lock that was taken has its
    release registered, and nothing waits. *)
Theorem pin_unpin `{PT : PageTable} `{PG : Pages} `{AS : AddrSpace} `{MB : McBuffer} `{!PagesLaws} `{!McBufferLaws}
    covers lazy_mode pgd s v :
  fresh_table covers pgd s v →
  ∃ s1 ops1 v1 s2 ops2 locks,
    (__xen_pgd_pin false lazy_mode pgd s = Ret s1 ∧ did ops1 locks s s1 ∧ waiting (buffer s1) = [] ∧
     accept_all covers v ops1 = Some v1 ∧
     (∀ p, p ∈ (walked pgd USER_LIMIT ++ user_tables pgd s).*1 →
        p ∈ PagePinned s1 ∧ lowmem_page_address p ∈ view_ro v1) ∧
     (∀ m, m ∈ pfn_to_mfn (pgd_pfn pgd) :: user_roots pgd s → m ∈ view_pins v1)) ∧
    (__xen_pgd_unpin false lazy_mode pgd s1 = Ret s2 ∧ did ops2 locks s1 s2 ∧ waiting (buffer s2) = [] ∧
     accept_all covers v1 ops2 = Some v ∧ PagePinned s2 = PagePinned s).
Proof.
  intros Hf. destruct (pgd_pin_run covers lazy_mode pgd s v Hf) as (s1 & E1 & P1 & D1 & W1).
  destruct (pgd_unpin_run covers lazy_mode pgd s v s1 Hf) as (s2 & E2 & P2 & D2 & W2);
    [exact (user_pgd_did pgd _ _ _ _ D1)|done|].
  exists s1, (pgd_pin_ops pgd s), (view_with pgd s v), s2, (pgd_unpin_ops pgd s), (walked pgd USER_LIMIT ≫= page_lock).
  split; (split; [done|]; split; [done|]; split; [done|]).
  - split; [exact (pgd_pin_accepted covers pgd s v Hf)|]. split.
    + intros p Hp. split; [rewrite P1; by apply elem_of_union_l, elem_of_list_to_set|].
      apply elem_of_union_l, elem_of_list_to_set. apply list_elem_of_fmap in Hp as (x & -> & Hx).
      apply list_elem_of_fmap. by exists x.
    + intros m Hm. apply elem_of_union_l, elem_of_list_to_set, elem_of_app. by right.
  - split; [exact (pgd_unpin_accepted covers pgd s v Hf)|done].
Qed.

(** What the small machine's tables take. *)
Definition small_covers (mfn : Z) : gset Z :=
  if decide (mfn = 0x105) then {[ 0x5000; 0x6000; 0x7000; 0x8000; 0x9000 ]}
  else if decide (mfn = 0x10A) then {[ 0xA000; 0x6000; 0x7000; 0x8000; 0x9000 ]}
  else if decide (mfn = 0x108) then {[ 0x8000 ]} else if decide (mfn = 0x109) then {[ 0x9000 ]} else ∅.

Lemma small_walked :
  @walked small_page_table small_pages 0x5000 (@USER_LIMIT small_pages) =
    [(6, PT_PUD); (7, PT_PMD); (8, PT_PTE); (9, PT_PTE); (5, PT_PGD)].
Proof. by vm_compute. Qed.

Lemma small_user :
  @user_tables small_pages list_mcb 0x5000 small_state = [(10, PT_PGD)] ∧
  @user_roots small_page_table small_pages list_mcb 0x5000 small_state = [0x10A].
Proof. by vm_compute. Qed.

Lemma small_mfns :
  @table_mfns small_page_table small_pages (@walked small_page_table small_pages 0x5000 (@USER_LIMIT small_pages)) =
    [0x108; 0x109].
Proof. by vm_compute. Qed.

Lemma small_fresh :
  @fresh_table small_covers small_page_table small_pages list_mcb 0x5000 small_state (mk_xen_view ∅ ∅).
Proof.
  destruct small_user as [Hu Hr].
  split; rewrite ?small_mfns, ?small_walked, ?Hu, ?Hr.
  - done.
  - apply (bool_decide_unpack _). by vm_compute.
  - apply Forall_forall. repeat constructor; by vm_compute.
  - apply (bool_decide_unpack _). by vm_compute.
  - apply Forall_forall. repeat constructor; by vm_compute.
  - intros m Hm. by apply elem_of_empty in Hm.
  - intros p Hp. rewrite !elem_of_cons, elem_of_nil in Hp.
    destruct Hp as [?|[?|[[= ->]|[[= ->]|[?|?]]]]]; try done; apply (bool_decide_unpack _); by vm_compute.
  - apply (bool_decide_unpack _). by vm_compute.
  - apply Forall_forall. repeat constructor. apply (bool_decide_unpack _). by vm_compute.
Qed.

Lemma pin_unpin_witness :
  ∃ s1 s2, @__xen_pgd_pin small_page_table small_pages list_mcb false 0 0x5000 small_state = Ret s1 ∧
    @__xen_pgd_unpin small_page_table small_pages list_mcb false 0 0x5000 s1 = Ret s2 ∧
    10 ∈ PagePinned s1 ∧ PagePinned s2 = ∅.
Proof.
  destruct (@pin_unpin small_page_table small_pages toy_space list_mcb small_pages_laws list_mcb_laws
    small_covers 0 0x5000 small_state (mk_xen_view ∅ ∅) small_fresh)
    as (s1 & ops1 & v1 & s2 & ops2 & locks & (E1 & _ & _ & _ & Hp & _) & (E2 & _ & _ & _ & P2)).
  exists s1, s2. split; [exact E1|]. split; [exact E2|]. split; [|exact P2].
  apply (Hp 10). destruct small_user as [-> _]. rewrite small_walked. simpl. repeat constructor.
Defined.
