(* ===== verification/XenCr3.v ===== *)
(** * Page-table bases, flushes and the end of a process (arch/x86/xen/mmu.c)

    Loading the base of a page table, the flushes of the translation buffers,
    the user half of a top level, and what happens when a process's memory is
    torn down: every processor leaves the table, then it is unpinned.  The
    machine keeps the history of operations of all its processors. *)

From S2P Require Import Prelude Protocol PageWalk MalHooks XenMmu Hypercall XenPin XenPinCorrect XenPinAccept.

(** ** Data *)

(** The per-cpu variables: [cpu_tlbstate.active_mm], whether
    [cpu_tlbstate.state] is [TLBSTATE_OK], [xen_cr3], and the buffer of
    hypercalls.  A [mm] is the address of its structure. *)
Record cpu_state `{McBuffer} : Type := mk_cpu_state {
  cpu_active_mm : Z;
  tlbstate_ok : bool;
  xen_cr3 : Z;
  cpu_buffer : mcb
}.

Section cr3.
  Context `{PT : PageTable} `{PG : Pages} `{AS : AddrSpace} `{MB : McBuffer}.

(** [xen_current_cr3], written by [set_current_cr3] when a batch has been
    submitted. *)
Definition set_current_cr3 (current : Z) (d : deferred) : Z :=
  match d with SetCurrentCr3 v => v | UnlockPte _ => current end.
Definition xen_current_cr3 (c : cpu_state) : Z := foldl set_current_cr3 0 (finished (cpu_buffer c)).

Definition on_cpu_buffer (f : mcb → mcb) (c : cpu_state) : cpu_state :=
  mk_cpu_state _ (cpu_active_mm c) (tlbstate_ok c) (xen_cr3 c) (f (cpu_buffer c)).
Definition write_xen_cr3 (cr3 : Z) (c : cpu_state) : cpu_state :=
  mk_cpu_state _ (cpu_active_mm c) (tlbstate_ok c) cr3 (cpu_buffer c).

(** ** Loading a base *)

(** [static unsigned long xen_read_cr3(void)] *)
Definition xen_read_cr3 (c : cpu_state) : Z := xen_cr3 c.

(** [static void __xen_write_cr3(bool kernel, unsigned long cr3)] *)
Definition __xen_write_cr3 (kernel : bool) (cr3 : Z) (c : cpu_state) : cpu_state :=
  let mfn := if decide (cr3 ≠ 0) then pfn_to_mfn (Z.shiftr cr3 PAGE_SHIFT) else 0 in
  let op := mk_mmuext_op (if kernel then MMUEXT_NEW_BASEPTR else MMUEXT_NEW_USER_BASEPTR) (Some mfn) None in
  let c1 := on_cpu_buffer (extend_mmuext_op op) c in
  if kernel then on_cpu_buffer (λ q, mcb_callback q (SetCurrentCr3 cr3)) (write_xen_cr3 cr3 c1) else c1.

(** [static void xen_write_cr3(unsigned long cr3)]; [private] is
    [page->private], [lazy_mode] is [paravirt_get_lazy_mode()]. *)
Definition xen_write_cr3 (private : gmap Z Z) (preemptible : bool) (lazy_mode : Z) (cr3 : Z) (c : cpu_state)
    : outcome cpu_state :=
  if preemptible then Err BugOn
  else
    let c1 := write_xen_cr3 cr3 (on_cpu_buffer mcb_batch c) in
    let c2 := __xen_write_cr3 true cr3 c1 in
    let user := xen_get_user_pgd (λ v, default 0 (private !! virt_to_page v)) (pgd_index USER_LIMIT) (va_of_phys cr3) in
    let c3 := if decide (user ≠ NULL) then __xen_write_cr3 false (phys_of_virt user) c2
              else __xen_write_cr3 false 0 c2 in
    Ret (on_cpu_buffer (mcb_issue lazy_mode PARAVIRT_LAZY_CPU) c3).

(** ** Flushes *)

(** [mcs = xen_mc_entry(sizeof( *op)); op->cmd = ...; MULTI_mmuext_op(...);
    xen_mc_issue(PARAVIRT_LAZY_MMU);], [xen_mc_entry] being [xen_mc_batch] and
    [__xen_mc_entry] *)
Definition issue_mmuext (lazy_mode : Z) (op : mmuext_op) : cpu_state → cpu_state :=
  on_cpu_buffer (λ q, mcb_issue lazy_mode PARAVIRT_LAZY_MMU
    (mcb_call (mcb_batch q) (λ args, MULTI_mmuext_op args 1 NULL DOMID_SELF) [op])).

(** [static void xen_flush_tlb(void)], [xen_flush_tlb_single(addr)] *)
Definition xen_flush_tlb (lazy_mode : Z) : cpu_state → cpu_state :=
  issue_mmuext lazy_mode (mk_mmuext_op MMUEXT_TLB_FLUSH_LOCAL None None).
Definition xen_flush_tlb_single (lazy_mode addr : Z) : cpu_state → cpu_state :=
  issue_mmuext lazy_mode
    (mk_mmuext_op MMUEXT_INVLPG_LOCAL (Some (Z.land addr (Z.lxor (Z.ones 64) (PAGE_SIZE - 1)))) None).

(** [static void xen_flush_tlb_others(cpus, mm, va)]: the mask behind the
    operation is returned beside the state, [None] when nothing is sent. *)
Definition TLB_FLUSH_ALL : Z := Z.ones 64.
Definition xen_flush_tlb_others (lazy_mode : Z) (online : gset Z) (me : Z) (mask_address : Z)
    (cpus : gset Z) (va : Z) (c : cpu_state) : option (gset Z) * cpu_state :=
  if decide (cpus = ∅) then (None, c)
  else
    let mask := (cpus ∩ online) ∖ {[me]} in
    let op := if decide (va = TLB_FLUSH_ALL) then mk_mmuext_op MMUEXT_TLB_FLUSH_MULTI None (Some mask_address)
              else mk_mmuext_op MMUEXT_INVLPG_MULTI (Some va) (Some mask_address) in
    (Some mask, issue_mmuext lazy_mode op c).

(** ** The user half *)

(** [__pgd(__pa(level3_user_vsyscall) | _PAGE_TABLE)] is a parameter, as is
    the page [__get_free_page] returns, null when there is none. *)

(** [static int xen_pgd_alloc(mm)]: the answer, [page->private], and the entry
    written to the new page, with its index. *)
Definition ENOMEM : Z := 12.
Definition xen_pgd_alloc (free_page vsyscall_index vsyscall_entry : Z) (pgd : Z) (s : pin_state)
    : outcome (Z * pin_state * list (Z * Z)) :=
  let page := virt_to_page pgd in
  if decide (page ∈ PagePinned s) then Err BugOn
  else if decide (default 0 (page_private s !! page) ≠ 0) then Err BugOn
  else
    let s1 := mk_pin_state (PagePinned s) (PageSavePinned s) (<[page := free_page]> (page_private s))
                (buffer s) (locks_taken s) (kmap_flushes s) in
    let '(ret, stores) :=
      if decide (free_page ≠ NULL) then (0, [(free_page + 8 * vsyscall_index, vsyscall_entry)])
      else (- ENOMEM, []) in
    if decide (virt_to_page (user_pgd pgd s1) ∈ PagePinned s1) then Err BugOn
    else Ret (ret, s1, stores).

(** [static void xen_pgd_free(mm, pgd)]: the pages freed. *)
Definition xen_pgd_free (pgd : Z) (s : pin_state) : list Z :=
  let user := user_pgd pgd s in
  if decide (user ≠ NULL) then [user] else [].

(** ** The end of a process *)

(** The processors that are online, in order, what they hold, and
    [mm_cpumask(mm)] of the process that ends.  [operations] is history: what
    each processor handed to its buffer, in the order of time over all of them. *)
Record machine : Type := mk_machine {
  online : list Z;
  cpus : gmap Z cpu_state;
  mm_cpumask : gset Z;
  operations : list (Z * xen_op)
}.

Definition on_cpu (cpu : Z) (f : cpu_state → outcome cpu_state) (w : machine) : outcome machine :=
  c ← of_option WildAccess (cpus w !! cpu);
  c' ← f c;
  Ret (mk_machine (online w) (<[cpu := c']> (cpus w)) (mm_cpumask w)
    (operations w ++ ((cpu,.) <$> drop (length (handed (cpu_buffer c))) (handed (cpu_buffer c'))))).

Section teardown.
  (** [page->private]; [__pa(swapper_pg_dir)]; [leave_mm(cpu)] of
      arch/x86/mm/tlb.c *)
  Context (private : gmap Z Z) (swapper : Z) (leave_mm : Z → machine → outcome machine).

(** [load_cr3(swapper_pg_dir)]; an interrupt handler is never lazy. *)
Definition load_swapper (preemptible : bool) (lazy_mode cpu : Z) : machine → outcome machine :=
  on_cpu cpu (xen_write_cr3 private preemptible lazy_mode swapper).

(** [static void drop_other_mm_ref(void *info)] on [cpu], which was interrupted *)
Definition drop_other_mm_ref (mm pgd cpu : Z) (w : machine) : outcome machine :=
  c ← of_option WildAccess (cpus w !! cpu);
  w1 ← (if decide (cpu_active_mm c = mm ∧ tlbstate_ok c = false) then leave_mm cpu w else Ret w);
  c1 ← of_option WildAccess (cpus w1 !! cpu);
  if decide (xen_current_cr3 c1 = phys_of_virt pgd) then load_swapper false 0 cpu w1 else Ret w1.

(** [f] on every processor of the list that is in the mask *)
Fixpoint call_on (mask : Z → machine → bool) (f : Z → machine → outcome machine) (todo : list Z) (w : machine)
    : outcome machine :=
  match todo with
  | [] => Ret w
  | cpu :: todo' => w' ← (if mask cpu w then f cpu w else Ret w); call_on mask f todo' w'
  end.

Definition cr3_is (pgd cpu : Z) (w : machine) : bool :=
  match cpus w !! cpu with Some c => bool_decide (xen_current_cr3 c = phys_of_virt pgd) | None => false end.

(** [static void xen_drop_mm_ref(mm)] on the processor [me] whose lazy mode is
    [lazy_mode]; [cur_active] and [cur_mm] are [current->active_mm] and
    [current->mm], [mask_ok] whether [alloc_cpumask_var] succeeds.
    [smp_call_function_many] leaves out [me]. *)
Definition xen_drop_mm_ref (me lazy_mode cur_active cur_mm : Z) (mask_ok : bool) (mm pgd : Z) (w : machine)
    : outcome machine :=
  w1 ← (if decide (cur_active = mm) then
          if decide (cur_mm = mm) then load_swapper false lazy_mode me w else leave_mm me w
        else Ret w);
  if negb mask_ok then
    call_on (λ cpu w', negb (negb (bool_decide (cpu ∈ mm_cpumask w')) && negb (cr3_is pgd cpu w')))
      (drop_other_mm_ref mm pgd) (online w1) w1
  else
    let mask := mm_cpumask w1 ∪ list_to_set (filter (λ cpu, cr3_is pgd cpu w1 = true) (online w1)) in
    if decide (mask = ∅) then Ret w1
    else call_on (λ cpu _, bool_decide (cpu ∈ mask ∧ cpu ≠ me)) (drop_other_mm_ref mm pgd) (online w1) w1.

(** [static void xen_exit_mmap(mm)]: the buffer of the pinning operations is
    that of the processor it runs on. *)
Definition xen_exit_mmap (auto_translated_physmap : bool) (me lazy_mode cur_active cur_mm : Z) (mask_ok : bool)
    (mm pgd : Z) (w : machine) (s : pin_state) : outcome (machine * pin_state) :=
  w1 ← xen_drop_mm_ref me lazy_mode cur_active cur_mm mask_ok mm pgd w;
  c ← of_option WildAccess (cpus w1 !! me);
  let s1 := on_buffer (λ _, cpu_buffer c) s in
  s2 ← (if xen_page_pinned pgd s1 then __xen_pgd_unpin auto_translated_physmap lazy_mode pgd s1 else Ret s1);
  w2 ← on_cpu me (λ c, Ret (on_cpu_buffer (λ _, buffer s2) c)) w1;
  Ret (w2, s2).

End teardown.
End cr3.

(** ** Lemmas *)

Section cr3_lemmas.
  Context `{PT : PageTable} `{PG : Pages} `{AS : AddrSpace} `{MB : McBuffer} `{!PagesLaws} `{!McBufferLaws}.

(** The two operations a new base takes: the kernel's table and the user's. *)
Definition base_op (cmd cr3 : Z) : xen_op :=
  Mmuext (mk_mmuext_op cmd (Some (if decide (cr3 ≠ 0) then pfn_to_mfn (Z.shiftr cr3 PAGE_SHIFT) else 0)) None).
Definition user_cr3 (private : gmap Z Z) (cr3 : Z) : Z :=
  let user := xen_get_user_pgd (λ v, default 0 (private !! virt_to_page v)) (pgd_index USER_LIMIT) (va_of_phys cr3) in
  if decide (user ≠ NULL) then phys_of_virt user else 0.

Lemma write_cr3_run private lazy_mode cr3 c :
  ∃ c', xen_write_cr3 private false lazy_mode cr3 c = Ret c' ∧
    cpu_active_mm c' = cpu_active_mm c ∧ tlbstate_ok c' = tlbstate_ok c ∧ xen_cr3 c' = cr3 ∧
    handed (cpu_buffer c') = handed (cpu_buffer c) ++
      [base_op MMUEXT_NEW_BASEPTR cr3; base_op MMUEXT_NEW_USER_BASEPTR (user_cr3 private cr3)] ∧
    registered (cpu_buffer c') = registered (cpu_buffer c) ++ [SetCurrentCr3 cr3] ∧
    (Z.land lazy_mode PARAVIRT_LAZY_CPU = 0 → waiting (cpu_buffer c') = [] ∧ xen_current_cr3 c' = cr3).
Proof.
  unfold xen_write_cr3, user_cr3. cbv zeta.
  set (user := xen_get_user_pgd _ _ _). set (u := if decide (user ≠ NULL) then phys_of_virt user else 0).
  set (c1 := write_xen_cr3 cr3 (on_cpu_buffer mcb_batch c)).
  assert ((if decide (user ≠ NULL) then __xen_write_cr3 false (phys_of_virt user) (__xen_write_cr3 true cr3 c1)
    else __xen_write_cr3 false 0 (__xen_write_cr3 true cr3 c1)) = __xen_write_cr3 false u (__xen_write_cr3 true cr3 c1))
    as -> by (subst u; by case_decide).
  eexists. split; [done|]. do 3 (split; [done|]).
  assert (registered (cpu_buffer (on_cpu_buffer (mcb_issue lazy_mode PARAVIRT_LAZY_CPU)
    (__xen_write_cr3 false u (__xen_write_cr3 true cr3 c1)))) = registered (cpu_buffer c) ++ [SetCurrentCr3 cr3]) as Hr.
  { simpl. by rewrite issue_registered, extend_op_registered, callback_registered, extend_op_registered, batch_registered. }
  split; [|split; [exact Hr|]].
  - simpl. rewrite issue_handed, extend_op_handed, callback_handed, extend_op_handed, batch_handed. by rewrite <-app_assoc.
  - intros Hl. pose proof (issue_waiting lazy_mode PARAVIRT_LAZY_CPU
      (cpu_buffer (__xen_write_cr3 false u (__xen_write_cr3 true cr3 c1))) Hl) as Hw.
    split; [exact Hw|]. unfold xen_current_cr3. unfold registered in Hr at 1. simpl in Hr, Hw.
    rewrite Hw, app_nil_r in Hr. simpl. rewrite Hr, foldl_app. done.
Qed.

(** Whether the base register of [cpu] is on the table [pgd] after an operation,
    [r] telling whether it was before *)
Definition base_after (pgd cpu : Z) (r : bool) (e : Z * xen_op) : bool :=
  match e.2 with
  | Mmuext op =>
      if decide (e.1 = cpu ∧ ext_cmd op = MMUEXT_NEW_BASEPTR) then bool_decide (ext_arg1 op = Some (pfn_to_mfn (pgd_pfn pgd))) else r
  | _ => r
  end.
(** ... and after what happened to the machine [w] *)
Definition refers (pgd : Z) (w : machine) (evs : list (Z * xen_op)) (cpu : Z) : bool :=
  foldl (base_after pgd cpu) (cr3_is pgd cpu w) evs.

(** What comes before an element that is not in the first of two lists *)
Lemma app_cons_split {A} (l1 l2 pre post : list A) x :
  l1 ++ l2 = pre ++ x :: post → x ∉ l1 → ∃ pre', pre = l1 ++ pre' ∧ l2 = pre' ++ x :: post.
Proof.
  revert pre. induction l1 as [|y l1 IH]; intros pre E Hx; [by exists pre|].
  apply not_elem_of_cons in Hx as [Hne Hx]. destruct pre as [|z pre]; [by injection E|]. injection E as -> E.
  destruct (IH pre E Hx) as (pre' & -> & ->). by exists pre'.
Qed.

(** The operations of unpinning load no base. *)
Lemma unpin_ops_base pgd s op : op ∈ pgd_unpin_ops pgd s → ∀ m, op = Mmuext m → ext_cmd m = MMUEXT_UNPIN_TABLE.
Proof.
  assert (Hu : ∀ l op, op ∈ l ≫= unpin_ops → ∀ m, op = Mmuext m → ext_cmd m = MMUEXT_UNPIN_TABLE).
  { clear op. intros l op (p & Hp & _)%list_elem_of_bind m ->. unfold unpin_ops in Hp. apply elem_of_app in Hp as [Hp|Hp].
    - destruct (own_lock p.2); [|by apply not_elem_of_nil in Hp]. apply list_elem_of_singleton in Hp. by injection Hp as ->.
    - apply list_elem_of_singleton in Hp. unfold protect in Hp. by repeat case_match. }
  unfold pgd_unpin_ops. intros [->|[(p & -> & _)%list_elem_of_fmap|[Hin|Hin]%elem_of_app]%elem_of_app]%elem_of_cons m E.
  - by injection E as <-.
  - by injection E as <-.
  - by apply (Hu _ _ Hin).
  - by apply (Hu _ _ Hin).
Qed.

Lemma refers_unpinning pgd w evs me pre ops s cpu :
  (me,.) <$> pgd_unpin_ops pgd s = pre ++ ops → refers pgd w (evs ++ pre) cpu = refers pgd w evs cpu.
Proof.
  intros E. unfold refers. rewrite foldl_app. generalize (foldl (base_after pgd cpu) (cr3_is pgd cpu w) evs) as r.
  assert (Hpre : ∀ e, e ∈ pre → ∀ m, e.2 = Mmuext m → ext_cmd m = MMUEXT_UNPIN_TABLE).
  { intros e He m Hm. assert (Hin : e ∈ (me,.) <$> pgd_unpin_ops pgd s) by (rewrite E; apply elem_of_app; by left).
    apply list_elem_of_fmap in Hin as (op & -> & Hop). by eapply unpin_ops_base. }
  clear E. induction pre as [|e pre IH]; intros r; [done|]. cbn [foldl].
  replace (base_after pgd cpu r e) with r; [apply IH; intros e' He'; apply Hpre; by right|].
  unfold base_after. destruct (e.2) as [|m|] eqn:Em; [done| |done]. rewrite decide_False; [done|]. intros [_ Hm].
  assert (He : e ∈ e :: pre) by left. by rewrite (Hpre e He m Em) in Hm.
Qed.

Section teardown_lemmas.
  Context (private : gmap Z Z) (swapper : Z) (leave_mm : Z → machine → outcome machine).

(** The operations of [load_cr3(swapper_pg_dir)] on [cpu] *)
Definition switch_ops (cpu : Z) : list (Z * xen_op) :=
  [(cpu, base_op MMUEXT_NEW_BASEPTR swapper); (cpu, base_op MMUEXT_NEW_USER_BASEPTR (user_cr3 private swapper))].

(** What arch/x86/mm/tlb.c documents of [leave_mm]: on a processor that is lazy
    about its table it clears the processor from the mask and loads the
    kernel's table; nothing is left in the buffer. *)
Definition leaves : Prop := ∀ cpu w c, cpus w !! cpu = Some c → tlbstate_ok c = false →
  ∃ c' mask, leave_mm cpu w = Ret (mk_machine (online w) (<[cpu := c']> (cpus w)) mask (operations w ++ switch_ops cpu)) ∧
    xen_current_cr3 c' = swapper ∧ waiting (cpu_buffer c') = [].

Lemma load_swapper_run lazy_mode cpu w c :
  cpus w !! cpu = Some c → Z.land lazy_mode PARAVIRT_LAZY_CPU = 0 →
  ∃ c', load_swapper private swapper false lazy_mode cpu w = Ret (mk_machine (online w) (<[cpu := c']> (cpus w)) (mm_cpumask w)
      (operations w ++ switch_ops cpu)) ∧
    xen_current_cr3 c' = swapper ∧ waiting (cpu_buffer c') = [].
Proof.
  intros Hc Hl. unfold load_swapper, on_cpu. rewrite Hc. cbn [of_option mbind outcome_bind].
  destruct (write_cr3_run private lazy_mode swapper c) as (c' & -> & _ & _ & _ & Hh & _ & Hw).
  destruct (Hw Hl) as [? ?]. exists c'. cbn [mbind outcome_bind]. by rewrite Hh, drop_app_length.
Qed.

Context (Hleave : leaves) (mm pgd : Z).
Context (Hswapper : pfn_to_mfn (Z.shiftr swapper PAGE_SHIFT) ≠ pfn_to_mfn (pgd_pfn pgd)) (Hnull : swapper ≠ 0).

Lemma swapper_other : swapper ≠ phys_of_virt pgd.
Proof. intros E. apply Hswapper. by rewrite E. Qed.

(** *** History *)

(** [after] is [w] with more history, in which no table is unpinned; a processor
    that has not left [pgd] by that history is still on it. *)
Definition follows (w after : machine) : Prop := ∃ evs, operations after = operations w ++ evs ∧
  (∀ cpu, (cpu, pin_op MMUEXT_UNPIN_TABLE (pgd_pfn pgd)) ∉ evs) ∧
  ∀ cpu, refers pgd w evs cpu = true → cr3_is pgd cpu after = true.

Lemma follows_refl w : follows w w.
Proof. exists []. rewrite app_nil_r. split; [done|]. split; [|done]. intros cpu. apply not_elem_of_nil. Qed.

Lemma switch_refers w evs cpu cpu' :
  refers pgd w (evs ++ switch_ops cpu) cpu' = if decide (cpu = cpu') then false else refers pgd w evs cpu'.
Proof.
  unfold refers. rewrite foldl_app. cbn [switch_ops foldl]. unfold base_after, base_op. cbn [fst snd ext_cmd ext_arg1].
  rewrite (decide_False (P := cpu = cpu' ∧ MMUEXT_NEW_USER_BASEPTR = MMUEXT_NEW_BASEPTR)) by (by intros [_ ?]).
  destruct (decide (cpu = cpu')); [rewrite decide_True by done|rewrite decide_False by tauto; done].
  apply bool_decide_eq_false. rewrite decide_True by done. intros [= E]. by apply Hswapper.
Qed.

(** A processor that loads the kernel's table has left. *)
Lemma follows_switch w after cpu c' mask :
  follows w after → follows w (mk_machine (online after) (<[cpu := c']> (cpus after)) mask (operations after ++ switch_ops cpu)).
Proof.
  intros (evs & Ho & Hn & Hr). exists (evs ++ switch_ops cpu). split; [|split].
  - simpl. by rewrite Ho, app_assoc.
  - intros cpu' [Hin|Hin]%elem_of_app; [by apply (Hn cpu')|]. unfold switch_ops, base_op, pin_op in Hin.
    apply elem_of_cons in Hin as [Hin|Hin]; [by injection Hin|]. apply list_elem_of_singleton in Hin. by injection Hin.
  - intros cpu'. rewrite switch_refers. destruct (decide (cpu = cpu')) as [|Hne]; [done|]. intros Hc. apply Hr in Hc.
    unfold cr3_is in *. simpl. by rewrite lookup_insert_ne.
Qed.

Lemma follows_load w after cpu c :
  cpus after !! cpu = Some c → follows w after → ∀ lazy_mode r, Z.land lazy_mode PARAVIRT_LAZY_CPU = 0 →
  load_swapper private swapper false lazy_mode cpu after = Ret r → follows w r.
Proof.
  intros Hc Hf lazy_mode r Hl E. destruct (load_swapper_run lazy_mode cpu after c Hc Hl) as (c' & E' & _). rewrite E' in E.
  injection E as <-. by apply follows_switch.
Qed.

Lemma follows_drop_other w after cpu r :
  follows w after → drop_other_mm_ref private swapper leave_mm mm pgd cpu after = Ret r → follows w r.
Proof.
  intros Hf E. unfold drop_other_mm_ref in E. destruct (cpus after !! cpu) as [c|] eqn:Hc; [|done]. cbn [of_option mbind outcome_bind] in E.
  assert (H1 : ∃ w1, (if decide (cpu_active_mm c = mm ∧ tlbstate_ok c = false) then leave_mm cpu after else Ret after) = Ret w1 ∧
    follows w w1).
  { case_decide as Ht; [|by exists after]. destruct (Hleave cpu after c Hc (proj2 Ht)) as (c' & mask & E' & _).
    eexists. split; [exact E'|]. by apply follows_switch. }
  destruct H1 as (w1 & E1 & H1). rewrite E1 in E. cbn [mbind outcome_bind] in E.
  destruct (cpus w1 !! cpu) as [c1|] eqn:Hc1; [|done]. cbn [of_option mbind outcome_bind] in E.
  destruct (decide (xen_current_cr3 c1 = phys_of_virt pgd)); [exact (follows_load w w1 cpu c1 Hc1 H1 0 r eq_refl E)|].
  by injection E as <-.
Qed.

Lemma follows_call_on mask w todo after r :
  follows w after → call_on mask (drop_other_mm_ref private swapper leave_mm mm pgd) todo after = Ret r → follows w r.
Proof.
  revert after. induction todo as [|cpu todo IH]; intros after Hf E; cbn [call_on] in E; [by injection E as <-|].
  destruct (mask cpu after).
  - destruct (drop_other_mm_ref _ _ _ _ _ _ _) as [w1|] eqn:E1; [|done]. by eapply IH; [eapply follows_drop_other|].
  - by apply (IH after).
Qed.

Lemma drop_other_run cpu w c :
  cpus w !! cpu = Some c →
  ∃ c' mask ops, drop_other_mm_ref private swapper leave_mm mm pgd cpu w =
      Ret (mk_machine (online w) (<[cpu := c']> (cpus w)) mask ops) ∧ xen_current_cr3 c' ≠ phys_of_virt pgd ∧
    (waiting (cpu_buffer c) = [] → waiting (cpu_buffer c') = []).
Proof.
  pose proof swapper_other as Hother. intros Hc. unfold drop_other_mm_ref. rewrite Hc. cbn [of_option mbind outcome_bind].
  destruct (decide (cpu_active_mm c = mm ∧ tlbstate_ok c = false)) as [[_ Ht]|].
  - destruct (Hleave cpu w c Hc Ht) as (c' & mask & -> & Hs & Hw). cbn [mbind outcome_bind cpus].
    rewrite lookup_insert_eq. cbn [of_option mbind outcome_bind].
    rewrite decide_False by congruence. exists c', mask, (operations w ++ switch_ops cpu). split; [done|]. split; [congruence|done].
  - cbn [mbind outcome_bind]. rewrite Hc. cbn [of_option mbind outcome_bind]. case_decide.
    + destruct (load_swapper_run 0 cpu w c Hc eq_refl) as (c' & -> & Hs & Hw).
      exists c', (mm_cpumask w), (operations w ++ switch_ops cpu). split; [done|]. split; [congruence|done].
    + exists c, (mm_cpumask w), (operations w). rewrite insert_id by done. by destruct w.
Qed.

(** Calling the others: a processor that still refers to the table afterwards
    did before and was not to be called. *)
Lemma call_on_clears mask sel w0 todo w :
  NoDup todo → (∀ cpu, cpu ∈ todo → is_Some (cpus w !! cpu) ∧ cpus w !! cpu = cpus w0 !! cpu) →
  (∀ cpu w', cpu ∈ todo → cpus w' !! cpu = cpus w0 !! cpu → cr3_is pgd cpu w0 = true → sel cpu = true → mask cpu w' = true) →
  ∃ w', call_on mask (drop_other_mm_ref private swapper leave_mm mm pgd) todo w = Ret w' ∧ online w' = online w ∧
    (∀ cpu, cpu ∉ todo → cpus w' !! cpu = cpus w !! cpu) ∧
    (∀ cpu c, cpus w !! cpu = Some c → ∃ c', cpus w' !! cpu = Some c' ∧
       (waiting (cpu_buffer c) = [] → waiting (cpu_buffer c') = [])) ∧
    (∀ cpu, cpu ∈ todo → cr3_is pgd cpu w' = true → cr3_is pgd cpu w0 = true ∧ sel cpu = false).
Proof.
  revert w. induction todo as [|cpu todo IH]; intros w Hn Hc Hm.
  { exists w. split_and!; [done..|eauto|]. intros ? Hcpu. by apply elem_of_nil in Hcpu. }
  apply NoDup_cons in Hn as [Hni Hn]. destruct (Hc cpu) as [[c Hcpu] Hc0]; [left|]. simpl.
  assert (∃ c' m o, (if mask cpu w then drop_other_mm_ref private swapper leave_mm mm pgd cpu w else Ret w) =
      Ret (mk_machine (online w) (<[cpu := c']> (cpus w)) m o) ∧
      (waiting (cpu_buffer c) = [] → waiting (cpu_buffer c') = []) ∧
      (xen_current_cr3 c' = phys_of_virt pgd → cr3_is pgd cpu w0 = true ∧ sel cpu = false)) as (c' & m & o & -> & Hw & Hx).
  { destruct (mask cpu w) eqn:Hmask.
    - destruct (drop_other_run cpu w c Hcpu) as (c' & m & o & -> & Hne & Hw). by exists c', m, o.
    - exists c, (mm_cpumask w), (operations w). rewrite insert_id by done. split; [by destruct w|]. split; [done|]. intros Hx.
      assert (cr3_is pgd cpu w0 = true) as Hc3 by (unfold cr3_is; rewrite <-Hc0, Hcpu; by apply bool_decide_eq_true).
      split; [done|]. destruct (sel cpu) eqn:Hsel; [|done]. rewrite Hm in Hmask; [done|left|done|done|done]. }
  cbn [mbind outcome_bind].
  destruct (IH (mk_machine (online w) (<[cpu := c']> (cpus w)) m o) Hn) as (w' & -> & Ho & Hout & Hin & Hcl).
  { intros cpu' Hcpu'. simpl. rewrite lookup_insert_ne by (intros ->; done). apply Hc. by right. }
  { intros cpu' w1 Hcpu'. apply Hm. by right. }
  simpl in *. exists w'. split; [done|]. split; [done|]. split; [|split].
  - intros cpu' [Hne Hni']%not_elem_of_cons. rewrite Hout by done. by rewrite lookup_insert_ne by done.
  - intros cpu' c0 Hc'. destruct (decide (cpu' = cpu)) as [->|Hne].
    + exists c'. rewrite Hout, lookup_insert_eq by done. split; [done|]. by simplify_eq.
    + apply Hin. by rewrite lookup_insert_ne by done.
  - intros cpu' [->|Hcpu']%elem_of_cons Hx'; [|by apply Hcl]. apply Hx.
    unfold cr3_is in Hx'. rewrite Hout, lookup_insert_eq in Hx' by done. by apply bool_decide_eq_true in Hx'.
Qed.

(** The processors of the machine are known, and outside lazy modes nothing of
    the running one waits; when it does not run on the table, it has left it. *)
Record machine_ok (me lazy_mode cur_active cur_mm : Z) (w : machine) : Prop := mk_machine_ok {
  ok_online : NoDup (online w) ∧ me ∈ online w;
  ok_known : ∀ cpu, cpu ∈ online w → is_Some (cpus w !! cpu);
  ok_lazy : Z.land lazy_mode PARAVIRT_LAZY_CPU = 0;
  ok_waiting : ∀ c, cpus w !! me = Some c → waiting (cpu_buffer c) = [];
  ok_left : cur_active ≠ mm → cr3_is pgd me w = false;
  ok_borrowed : cur_active = mm → cur_mm ≠ mm → ∀ c, cpus w !! me = Some c → tlbstate_ok c = false
}.

Lemma leave_first me lazy_mode cur_active cur_mm w :
  machine_ok me lazy_mode cur_active cur_mm w →
  ∃ c' m o, (if decide (cur_active = mm) then
             if decide (cur_mm = mm) then load_swapper private swapper false lazy_mode me w else leave_mm me w
           else Ret w) = Ret (mk_machine (online w) (<[me := c']> (cpus w)) m o) ∧
    follows w (mk_machine (online w) (<[me := c']> (cpus w)) m o) ∧
    waiting (cpu_buffer c') = [] ∧ xen_current_cr3 c' ≠ phys_of_virt pgd.
Proof.
  pose proof swapper_other as Hother. intros [[_ Hme] Hk Hl Hw Hleft Hb]. destruct (Hk me Hme) as [c Hc].
  case_decide as Hact; [case_decide as Hmm|].
  - destruct (load_swapper_run lazy_mode me w c Hc Hl) as (c' & -> & Hs & Hw'). eexists c', _, _.
    split; [done|]. split; [apply follows_switch, follows_refl|]. split; [done|congruence].
  - destruct (Hleave me w c Hc (Hb Hact Hmm c Hc)) as (c' & m & -> & Hs & Hw'). eexists c', m, _.
    split; [done|]. split; [apply follows_switch, follows_refl|]. split; [done|congruence].
  - exists c, (mm_cpumask w), (operations w). rewrite insert_id by done.
    replace (mk_machine (online w) (cpus w) (mm_cpumask w) (operations w)) with w by (by destruct w).
    split; [done|]. split; [apply follows_refl|]. split; [by apply Hw|].
    specialize (Hleft Hact). unfold cr3_is in Hleft. rewrite Hc in Hleft. by apply bool_decide_eq_false in Hleft.
Qed.

Lemma drop_mm_ref_run me lazy_mode cur_active cur_mm mask_ok w :
  machine_ok me lazy_mode cur_active cur_mm w →
  ∃ w', xen_drop_mm_ref private swapper leave_mm me lazy_mode cur_active cur_mm mask_ok mm pgd w = Ret w' ∧
    online w' = online w ∧ (∀ cpu, cpu ∈ online w → cr3_is pgd cpu w' = false) ∧ follows w w' ∧
    ∃ c, cpus w' !! me = Some c ∧ waiting (cpu_buffer c) = [].
Proof.
  intros Hok. destruct (leave_first me lazy_mode cur_active cur_mm w Hok) as (c1 & m & o & E1 & Hf1 & Hw1 & Hne).
  destruct Hok as [[Hn Hme] Hk _ _ _ _].
  set (w1 := mk_machine (online w) (<[me := c1]> (cpus w)) m o) in *.
  assert (Hk1 : ∀ cpu, cpu ∈ online w → is_Some (cpus w1 !! cpu) ∧ cpus w1 !! cpu = cpus w1 !! cpu).
  { intros cpu Hcpu. split; [|done]. simpl. rewrite lookup_insert_is_Some. destruct (decide (me = cpu)); auto. }
  assert (Hme1 : cr3_is pgd me w1 = false).
  { unfold cr3_is. simpl. rewrite lookup_insert_eq. by apply bool_decide_eq_false. }
  unfold xen_drop_mm_ref. rewrite E1. cbn [mbind outcome_bind]. change (online w1) with (online w).
  destruct mask_ok; cbn [negb].
  - set (mask := mm_cpumask w1 ∪ _). destruct (decide (mask = ∅)) as [Hempty|Hempty].
    + exists w1. split; [done|]. split; [done|]. split; [|split; [done|exists c1; split; [apply lookup_insert_eq|done]]].
      intros cpu Hcpu. destruct (cr3_is pgd cpu w1) eqn:Hcr; [|done]. exfalso.
      assert (cpu ∈ mask) as Hin; [|by rewrite Hempty in Hin; apply elem_of_empty in Hin].
      apply elem_of_union_r, elem_of_list_to_set, list_elem_of_filter. done.
    + destruct (call_on_clears (λ cpu _, bool_decide (cpu ∈ mask ∧ cpu ≠ me)) (λ cpu, bool_decide (cpu ≠ me)) w1
        (online w) w1 Hn Hk1) as (w' & E2 & Ho & _ & Hin & Hcl).
      { intros cpu w2 Hcpu _ Hcr Hsel%bool_decide_eq_true. apply bool_decide_eq_true. split; [|done].
        apply elem_of_union_r, elem_of_list_to_set, list_elem_of_filter. done. }
      exists w'. split; [exact E2|]. split; [done|]. split; [|split; [by eapply follows_call_on|]].
      * intros cpu Hcpu. destruct (cr3_is pgd cpu w') eqn:Hcr; [|done].
        destruct (Hcl cpu Hcpu Hcr) as [Hc Hsel%bool_decide_eq_false]. apply dec_stable in Hsel. congruence.
      * destruct (Hin me c1) as (c' & Hc' & Hw'); [apply lookup_insert_eq|]. exists c'. auto.
  - destruct (call_on_clears (λ cpu w', negb (negb (bool_decide (cpu ∈ mm_cpumask w')) && negb (cr3_is pgd cpu w')))
      (λ _, true) w1 (online w) w1 Hn Hk1) as (w' & E2 & Ho & _ & Hin & Hcl).
    { intros cpu w2 Hcpu Heq Hcr _. assert (cr3_is pgd cpu w2 = true) as -> by (unfold cr3_is in *; by rewrite Heq).
      by rewrite andb_false_r. }
    exists w'. split; [exact E2|]. split; [done|]. split; [|split; [by eapply follows_call_on|]].
    + intros cpu Hcpu. destruct (cr3_is pgd cpu w') eqn:Hcr; [|done]. by destruct (Hcl cpu Hcpu Hcr).
    + destruct (Hin me c1) as (c' & Hc' & Hw'); [apply lookup_insert_eq|]. exists c'. auto.
Qed.

End teardown_lemmas.

(** Releasing page locks does not change the base. *)
Lemma current_after_unlocks ls init : foldl set_current_cr3 init (UnlockPte <$> ls) = init.
Proof. induction ls as [|l ls IH]; [done|apply IH]. Qed.

End cr3_lemmas.

(** ** What the teardown guarantees *)

(** C22: When a process's memory is torn down, the table is unpinned only after
    every processor has left it.  The teardown returns, whether or not a mask of
    processors could be allocated; among the operations that are handed over
    meanwhile, in the order of time, is the one that unpins the table, and when
    it is handed over no processor that is online has the table in its base
    register, as the bases loaded up to then tell; none has it at the end; and
    the marks are those from before the table was pinned. *)
Theorem exit_mmap_unreferenced `{PT : PageTable} `{PG : Pages} `{AS : AddrSpace} `{MB : McBuffer}
    `{!PagesLaws} `{!McBufferLaws} private swapper leave_mm covers
    me lazy_mode cur_active cur_mm mask_ok mm pgd w s s0 v :
  leaves private swapper leave_mm → swapper ≠ 0 → pfn_to_mfn (Z.shiftr swapper PAGE_SHIFT) ≠ pfn_to_mfn (pgd_pfn pgd) →
  machine_ok mm pgd me lazy_mode cur_active cur_mm w →
  fresh_table covers pgd s0 v → page_private s = page_private s0 → PagePinned s = marks_with pgd s0 →
  ∃ w' s' evs, let unpin := pin_op MMUEXT_UNPIN_TABLE (pgd_pfn pgd) in
    xen_exit_mmap private swapper leave_mm false me lazy_mode cur_active cur_mm mask_ok mm pgd w s = Ret (w', s') ∧
    operations w' = operations w ++ evs ∧ (me, unpin) ∈ evs ∧
    (∀ before cpu' after, evs = before ++ (cpu', unpin) :: after →
     ∀ cpu, cpu ∈ online w → refers pgd w before cpu = false) ∧
    (∀ cpu, cpu ∈ online w → cr3_is pgd cpu w' = false) ∧ PagePinned s' = PagePinned s0.
Proof.
  intros Hleave Hnull Hsw Hok Hf Hpriv Hp.
  destruct (drop_mm_ref_run private swapper leave_mm Hleave mm pgd Hsw Hnull me lazy_mode cur_active cur_mm mask_ok w Hok)
    as (w1 & E1 & Ho & Hcr & (evs & Hev & Hnone & Hrefers) & c & Hc & Hw).
  unfold xen_exit_mmap. rewrite E1. cbn [mbind outcome_bind]. rewrite Hc. cbn [mbind outcome_bind of_option].
  set (s1 := on_buffer (λ _, cpu_buffer c) s).
  assert (xen_page_pinned pgd s1 = true) as ->.
  { apply bool_decide_eq_true. change (virt_to_page pgd ∈ PagePinned s). rewrite Hp. apply elem_of_union_l, elem_of_list_to_set.
    rewrite fmap_app. apply elem_of_app. left. unfold walked. rewrite fmap_app. apply elem_of_app. right. left. }
  destruct (pgd_unpin_run covers lazy_mode pgd s0 v s1 Hf) as (s2 & -> & P2 & D2 & W2).
  { unfold user_pgd. simpl. by rewrite Hpriv. }
  { done. }
  cbn [mbind outcome_bind]. unfold on_cpu. rewrite Hc. cbn [mbind outcome_bind of_option].
  pose proof (did_handed _ _ _ _ D2) as Hh. cbn [on_buffer buffer s1] in Hh.
  eexists _, s2, (evs ++ ((me,.) <$> pgd_unpin_ops pgd s0)). split; [done|]. split_and!.
  - cbn [operations on_cpu_buffer cpu_buffer]. rewrite Hev, Hh, drop_app_length. by rewrite <-app_assoc.
  - apply elem_of_app. right. apply list_elem_of_fmap. eexists. split; [done|]. left.
  - intros before cpu' after E cpu Hcpu. destruct (app_cons_split _ _ _ _ _ E (Hnone cpu')) as (pre & -> & Epre).
    rewrite (refers_unpinning pgd w evs me pre _ s0 cpu Epre). specialize (Hcr cpu Hcpu).
    destruct (refers pgd w evs cpu) eqn:Er; [|done]. apply Hrefers in Er. congruence.
  - intros cpu Hcpu. specialize (Hcr cpu Hcpu).
    unfold cr3_is in *. simpl. destruct (decide (me = cpu)) as [<-|Hne]; [|by rewrite lookup_insert_ne by done].
    rewrite lookup_insert_eq. rewrite Hc in Hcr. apply bool_decide_eq_false in Hcr. apply bool_decide_eq_false.
    pose proof (did_registered _ _ _ _ D2) as Hr. unfold registered in Hr. simpl in Hr.
    rewrite Hw, W2, !app_nil_r in Hr. unfold xen_current_cr3 in *. simpl. by rewrite Hr, foldl_app, current_after_unlocks.
  - exact P2.
Qed.

(** ** Witness: three processors, one lazy about the table, one that has not
    noticed the switch away from it *)

#[local] Existing Instances list_mcb small_page_table small_pages toy_space.

Definition small_leave (cpu : Z) (w : @machine list_mcb) : outcome (@machine list_mcb) :=
  c ← of_option WildAccess (cpus w !! cpu);
  if tlbstate_ok c then Err BugOn
  else
    let w1 := mk_machine (online w) (cpus w) (mm_cpumask w ∖ {[cpu]}) (operations w) in
    on_cpu cpu (xen_write_cr3 ∅ false 0 0xF000) w1.

Lemma small_leaves : leaves ∅ 0xF000 small_leave.
Proof.
  intros cpu w c Hc Ht. unfold small_leave. rewrite Hc. cbn [of_option mbind outcome_bind]. rewrite Ht.
  unfold on_cpu. cbn [cpus]. rewrite Hc. cbn [of_option mbind outcome_bind].
  destruct (@write_cr3_run small_page_table small_pages toy_space list_mcb list_mcb_laws ∅ 0 0xF000 c)
    as (c' & -> & _ & _ & _ & Hh & _ & Hw).
  destruct (Hw eq_refl) as [? ?]. exists c', (mm_cpumask w ∖ {[cpu]}). cbn [mbind outcome_bind]. by rewrite Hh, drop_app_length.
Qed.

Definition small_cpu (active : Z) (ok : bool) (cr3 : Z) : @cpu_state list_mcb :=
  @mk_cpu_state list_mcb active ok cr3 (mk_list_buffer [] [SetCurrentCr3 0x5000] [] false).
Definition small_machine : @machine list_mcb :=
  @mk_machine list_mcb [0; 1; 2]
    {[ 0 := small_cpu 77 true 0x5000; 1 := small_cpu 77 false 0x5000; 2 := small_cpu 88 true 0xC000 ]} {[ 0; 1 ]} [].
Definition small_pinned : @pin_state list_mcb :=
  @mk_pin_state list_mcb (@marks_with small_page_table small_pages list_mcb 0x5000 small_state) ∅ {[ 5 := 0xA000 ]}
    empty_buffer [] 0.

Lemma exit_mmap_unreferenced_witness :
  ∃ w' s' evs, @xen_exit_mmap small_page_table small_pages toy_space list_mcb ∅ 0xF000 small_leave false
      0 0 77 77 true 77 0x5000 small_machine small_pinned = Ret (w', s') ∧
    operations w' = evs ∧ (0, pin_op MMUEXT_UNPIN_TABLE 5) ∈ evs ∧
    @cr3_is small_pages list_mcb 0x5000 2 small_machine = true ∧
    @cr3_is small_pages list_mcb 0x5000 2 w' = false ∧ PagePinned s' = ∅.
Proof.
  destruct (@exit_mmap_unreferenced small_page_table small_pages toy_space list_mcb small_pages_laws list_mcb_laws
    ∅ 0xF000 small_leave small_covers 0 0 77 77 true 77 0x5000 small_machine small_pinned small_state (mk_xen_view ∅ ∅))
    as (w' & s' & evs & E & Ho & Hin & _ & Hc & Hp).
  - exact small_leaves.
  - done.
  - done.
  - split; try done.
    + split; [apply (bool_decide_unpack _); by vm_compute|left].
    + apply Forall_forall. repeat constructor; by eexists.
    + intros c Hc. vm_compute in Hc. by injection Hc as <-.
  - exact small_fresh.
  - done.
  - done.
  - exists w', s', evs. split; [exact E|]. split; [exact Ho|]. split; [exact Hin|]. split; [by vm_compute|]. split; [|exact Hp].
    apply Hc. right. right. left.
Defined.
