(* ===== verification/XenRegion.v ===== *)
(** * Contiguous regions of machine memory (arch/x86/xen/mmu.c)

    A range of pages gives its machine frames to the hypervisor and gets one
    contiguous extent for them, and back.  The table from frames to machine
    frames, the buffer of hypercalls and the hypervisor's exchange are
    parameters. *)

From S2P Require Import Prelude Protocol Hypercall XenPin XenPinCorrect XenCr3.

(** ** Data *)

(** The table of <xen/page.h>: [p2m_frame t pfn] is [pfn_to_mfn(pfn)],
    [p2m_set] is [set_phys_to_machine] and [__set_phys_to_machine], which the
    code calls for their effect only. *)
Class P2MTable : Type := {
  p2m : Type;
  p2m_frame : p2m → Z → Z;
  p2m_set : Z → Z → p2m → p2m;
  p2m_flags : Z;                     (** the bits that mark foreign and identity frames *)
  INVALID_P2M : Z;
  virt_to_pfn : Z → Z;
  mfn_pte : Z → Z → Z
}.

(** Entries are read back as written, unless they carry flags; pages follow
    each other in frames as in addresses. *)
Class P2MTableLaws `{P2MTable} : Prop := {
  p2m_frame_set : ∀ t pfn mfn pfn', Z.land mfn p2m_flags = 0 ∨ mfn = INVALID_P2M →
    p2m_frame (p2m_set pfn mfn t) pfn' = if decide (pfn' = pfn) then mfn else p2m_frame t pfn';
  virt_to_pfn_next : ∀ v k, virt_to_pfn (v + PAGE_SIZE * k) = virt_to_pfn v + k
}.

Section region.
  Context `{PG : Pages} `{MB : McBuffer} `{PM : P2MTable}.
  (** [HYPERVISOR_memory_op(XENMEM_exchange, &exchange)]: from the extents
      given, their order, the number and order of those wanted and the bits of
      an address, the result, [nr_exchanged] and the extents received. *)
  Context (memory_exchange : list Z → Z → Z → Z → Z → Z * Z * list Z).
  Context (auto_translated_physmap : bool).

(** The table, the buffer, [discontig_frames], and the ranges zeroed. *)
Record region_state : Type := mk_region_state {
  r_p2m : p2m;
  r_buffer : mcb;
  discontig_frames : list Z;
  zeroed : list (Z * Z)
}.

Definition MAX_CONTIG_ORDER : Z := 9.
Definition VOID_PTE : Z := mfn_pte 0 0.

Definition set_p2m (pfn mfn : Z) (s : region_state) : region_state :=
  mk_region_state (p2m_set pfn mfn (r_p2m s)) (r_buffer s) (discontig_frames s) (zeroed s).
Definition on_r_buffer (f : mcb → mcb) (s : region_state) : region_state :=
  mk_region_state (r_p2m s) (f (r_buffer s)) (discontig_frames s) (zeroed s).
Definition set_frames (fs : list Z) (s : region_state) : region_state :=
  mk_region_state (r_p2m s) (r_buffer s) fs (zeroed s).
Definition virt_to_mfn (v : Z) (s : region_state) : Z := p2m_frame (r_p2m s) (virt_to_pfn v).

(** [if (frames) frames[i] = v;], the array being [discontig_frames] *)
Definition store_frame (frames : bool) (i v : Z) (s : region_state) : outcome region_state :=
  if frames then
    if decide (0 ≤ i < Z.of_nat (length (discontig_frames s)))
    then Ret (set_frames (<[Z.to_nat i := v]> (discontig_frames s)) s) else Err OutOfBounds
  else Ret s.

(** ** Operations *)

(** [static void xen_zap_pfn_range(vaddr, order, in_frames, out_frames)]:
    [n] turns of the loop are left; both arrays are [discontig_frames] or null. *)
Fixpoint zap_loop (n : nat) (i vaddr : Z) (in_frames out_frames : bool) (s : region_state) : outcome region_state :=
  match n with
  | O => Ret s
  | S n' =>
      s1 ← store_frame in_frames i (virt_to_mfn vaddr s) s;
      let s2 := on_r_buffer (λ q, mcb_call q (λ _, MULTI_update_va_mapping vaddr VOID_PTE 0) []) s1 in
      let s3 := set_p2m (virt_to_pfn vaddr) INVALID_P2M s2 in
      s4 ← store_frame out_frames i (virt_to_pfn vaddr) s3;
      zap_loop n' (i + 1) (u64 (vaddr + PAGE_SIZE)) in_frames out_frames s4
  end.
Definition xen_zap_pfn_range (vaddr order : Z) (in_frames out_frames : bool) (s : region_state)
    : outcome region_state :=
  s1 ← zap_loop (Z.to_nat (Z.shiftl 1 order)) 0 vaddr in_frames out_frames (on_r_buffer mcb_batch s);
  Ret (on_r_buffer (mcb_issue 0 0) s1).

(** [static void xen_remap_exchanged_ptes(vaddr, order, mfns, first_mfn)]; the
    array is read where [mfns] is not null. *)
Definition remap_flags (i limit order : Z) : Z :=
  if decide (i < limit - 1) then 0
  else if decide (order = 0) then Z.lor UVMF_INVLPG UVMF_ALL else Z.lor UVMF_TLB_FLUSH UVMF_ALL.
Fixpoint remap_loop (n : nat) (i limit vaddr order : Z) (mfns : option (list Z)) (first_mfn : Z) (s : region_state)
    : outcome region_state :=
  match n with
  | O => Ret s
  | S n' =>
      mfn ← (match mfns with
             | Some l => of_option OutOfBounds (l !! Z.to_nat i)
             | None => Ret (u64 (first_mfn + i))
             end);
      let s1 := on_r_buffer (λ q, mcb_call q (λ _, MULTI_update_va_mapping vaddr (mfn_pte mfn PAGE_KERNEL)
                  (remap_flags i limit order)) []) s in
      let s2 := set_p2m (virt_to_pfn vaddr) mfn s1 in
      remap_loop n' (i + 1) limit (u64 (vaddr + PAGE_SIZE)) order mfns first_mfn s2
  end.
Definition xen_remap_exchanged_ptes (vaddr order : Z) (mfns : option (list Z)) (first_mfn : Z) (s : region_state)
    : outcome region_state :=
  let limit := u32 (Z.shiftl 1 order) in
  s1 ← remap_loop (Z.to_nat limit) 0 limit vaddr order mfns first_mfn (on_r_buffer mcb_batch s);
  Ret (on_r_buffer (mcb_issue 0 0) s1).

(** [static int xen_exchange_memory(...)]: whether it succeeded, and the array
    [mfns_out] after it. *)
Definition xen_exchange_memory (extents_in order_in : Z) (pfns_in : list Z) (extents_out order_out : Z)
    (mfns_out : list Z) (address_bits : Z) : outcome (bool * list Z) :=
  if decide (u64 (Z.shiftl extents_in order_in) ≠ u64 (Z.shiftl extents_out order_out)) then Err BugOn
  else
    let '(rc, nr_exchanged, received) :=
      memory_exchange (take (Z.to_nat extents_in) pfns_in) order_in extents_out order_out address_bits in
    let success := bool_decide (nr_exchanged = extents_in) in
    if negb success && (bool_decide (nr_exchanged ≠ 0) || bool_decide (rc = 0)) then Err BugOn
    else if success && bool_decide (rc ≠ 0) then Err BugOn
    else Ret (success, list_inserts 0 received mfns_out).

(** [memset((void * ) vstart, 0, PAGE_SIZE << order)] *)
Definition zero_range (vstart order : Z) (s : region_state) : region_state :=
  mk_region_state (r_p2m s) (r_buffer s) (discontig_frames s)
    (zeroed s ++ [(vstart, u64 (Z.shiftl PAGE_SIZE order))]).

(** [int xen_create_contiguous_region(vstart, order, address_bits)] *)
Definition xen_create_contiguous_region (vstart order address_bits : Z) (s : region_state)
    : outcome (Z * region_state) :=
  if auto_translated_physmap then Ret (0, s)
  else if decide (MAX_CONTIG_ORDER < order) then Ret (- ENOMEM, s)
  else
    s1 ← xen_zap_pfn_range vstart order true false (zero_range vstart order s);
    let out_frame := virt_to_pfn vstart in
    r ← xen_exchange_memory (Z.shiftl 1 order) 0 (discontig_frames s1) 1 order [out_frame] address_bits;
    let '(success, mfns_out) := (r : bool * list Z) in
    s2 ← (if success then
            out_frame ← of_option OutOfBounds (mfns_out !! 0%nat);
            xen_remap_exchanged_ptes vstart order None out_frame s1
          else xen_remap_exchanged_ptes vstart order (Some (discontig_frames s1)) 0 s1);
    Ret ((if success then 0 else - ENOMEM), s2).

(** [void xen_destroy_contiguous_region(vstart, order)] *)
Definition xen_destroy_contiguous_region (vstart order : Z) (s : region_state) : outcome region_state :=
  if auto_translated_physmap then Ret s
  else if decide (MAX_CONTIG_ORDER < order) then Ret s
  else
    let s0 := zero_range vstart order s in
    let in_frame := virt_to_mfn vstart s0 in
    s1 ← xen_zap_pfn_range vstart order false true s0;
    r ← xen_exchange_memory 1 order [in_frame] (Z.shiftl 1 order) 0 (discontig_frames s1) 0;
    let '(success, mfns_out) := (r : bool * list Z) in
    let s2 := set_frames mfns_out s1 in
    if success then xen_remap_exchanged_ptes vstart order (Some (discontig_frames s2)) 0 s2
    else xen_remap_exchanged_ptes vstart order None in_frame s2.

End region.

(** ** Lemmas *)

Section region_lemmas.
  Context `{PG : Pages} `{MB : McBuffer} `{PM : P2MTable} `{!McBufferLaws} `{!P2MTableLaws}.

Abbreviation frame s p := (p2m_frame (r_p2m s) p) (only parsing).

(** The operations of the two loops on [n] pages from [vaddr]. *)
Definition zap_ops (n : nat) (vaddr : Z) : list xen_op :=
  (λ j, UpdateVa (vaddr + PAGE_SIZE * Z.of_nat j) VOID_PTE 0) <$> seq 0 n.
Definition remap_ops (n : nat) (i limit vaddr order : Z) (f : nat → Z) : list xen_op :=
  (λ j, UpdateVa (vaddr + PAGE_SIZE * Z.of_nat j) (mfn_pte (f j) PAGE_KERNEL)
          (remap_flags (i + Z.of_nat j) limit order)) <$> seq 0 n.

(** A function on the first [n] frames from [pfn], the others as before. *)
Definition frames_are (pfn : Z) (n : nat) (f : nat → Z) (s s' : region_state) : Prop :=
  ∀ p, frame s' p = if decide (pfn ≤ p < pfn + Z.of_nat n) then f (Z.to_nat (p - pfn)) else frame s p.

Lemma range_step vaddr n : 0 ≤ vaddr → vaddr + PAGE_SIZE * Z.of_nat (S n) < 2 ^ 64 →
  u64 (vaddr + PAGE_SIZE) = vaddr + PAGE_SIZE ∧ 0 ≤ vaddr + PAGE_SIZE ∧
  vaddr + PAGE_SIZE + PAGE_SIZE * Z.of_nat n < 2 ^ 64.
Proof. unfold PAGE_SIZE. intros. rewrite u64_small by (unfold is_u64; lia). lia. Qed.

Lemma next_pfn vaddr : virt_to_pfn (vaddr + PAGE_SIZE) = virt_to_pfn vaddr + 1.
Proof. replace (vaddr + PAGE_SIZE) with (vaddr + PAGE_SIZE * 1) by lia. apply virt_to_pfn_next. Qed.

(** One page after another. *)
Lemma frames_are_step pfn n f s s1 s2 :
  (∀ p, frame s1 p = if decide (p = pfn) then f 0%nat else frame s p) →
  frames_are (pfn + 1) n (λ j, f (S j)) s1 s2 → frames_are pfn (S n) f s s2.
Proof.
  intros H1 H2 p. rewrite (H2 p), H1. destruct (decide (p = pfn)) as [->|Hp].
  - rewrite decide_False, decide_True by lia. by rewrite Z.sub_diag.
  - repeat case_decide; try lia. f_equal. lia.
Qed.

Lemma seq_shift_ops {A} (g : nat → A) n : g <$> seq 0 (S n) = g 0%nat :: ((λ j, g (S j)) <$> seq 0 n).
Proof. cbn [seq fmap list_fmap]. f_equal. by rewrite <-fmap_S_seq, <-list_fmap_compose. Qed.

(** What a slot of the array gets: the frame, or the page's own number. *)
Definition zap_value (ins : bool) (s : region_state) (pfn : Z) (j : nat) : Z :=
  if ins then frame s (pfn + Z.of_nat j) else pfn + Z.of_nat j.

Lemma zap_loop_run ins n i vaddr s :
  0 ≤ vaddr → vaddr + PAGE_SIZE * Z.of_nat n < 2 ^ 64 → (i + n ≤ length (discontig_frames s))%nat →
  ∃ s', zap_loop n (Z.of_nat i) vaddr ins (negb ins) s = Ret s' ∧
    handed (r_buffer s') = handed (r_buffer s) ++ zap_ops n vaddr ∧
    discontig_frames s' = take i (discontig_frames s) ++ (zap_value ins s (virt_to_pfn vaddr) <$> seq 0 n) ++
      drop (i + n) (discontig_frames s) ∧
    zeroed s' = zeroed s ∧ frames_are (virt_to_pfn vaddr) n (λ _, INVALID_P2M) s s'.
Proof.
  revert i vaddr s. induction n as [|n IH]; intros i vaddr s Hv Hr Hl.
  { exists s. split; [done|]. split; [by rewrite app_nil_r|]. split; [|split; [done|]].
    - by rewrite Nat.add_0_r, app_nil_l, take_drop.
    - intros p. by rewrite decide_False by lia. }
  destruct (range_step vaddr n Hv Hr) as (Hu & Hv' & Hr').
  set (x := zap_value ins s (virt_to_pfn vaddr) 0).
  set (s1 := set_frames (<[i := x]> (discontig_frames s)) (set_p2m (virt_to_pfn vaddr) INVALID_P2M
    (on_r_buffer (λ q, mcb_call q (λ _, MULTI_update_va_mapping vaddr VOID_PTE 0) []) s))).
  assert (Estep : zap_loop (S n) (Z.of_nat i) vaddr ins (negb ins) s =
    zap_loop n (Z.of_nat (S i)) (vaddr + PAGE_SIZE) ins (negb ins) s1).
  { cbn [zap_loop]. unfold store_frame. destruct ins; cbn [negb].
    - rewrite decide_True by lia. cbn [mbind outcome_bind]. rewrite Hu, Nat2Z.id. replace (Z.of_nat i + 1) with (Z.of_nat (S i)) by lia.
      subst s1 x. unfold zap_value, virt_to_mfn. by rewrite Z.add_0_r.
    - cbn [mbind outcome_bind]. simpl. rewrite decide_True by (simpl; lia). cbn [mbind outcome_bind]. rewrite Hu, Nat2Z.id.
      replace (Z.of_nat i + 1) with (Z.of_nat (S i)) by lia. subst s1 x. unfold zap_value. by rewrite Z.add_0_r. }
  destruct (IH (S i) (vaddr + PAGE_SIZE) s1 Hv' Hr') as (s' & E & Hh & Hf & Hz & Hp).
  { simpl. rewrite length_insert. lia. }
  assert (H1 : ∀ p, frame s1 p = if decide (p = virt_to_pfn vaddr) then INVALID_P2M else frame s p).
  { intros p. simpl. apply p2m_frame_set. by right. }
  exists s'. rewrite Estep. split; [done|]. split; [|split; [|split; [done|]]].
  - rewrite Hh. simpl. rewrite call_update_va, <-app_assoc. unfold zap_ops. rewrite seq_shift_ops. simpl.
    do 2 f_equal; [f_equal; lia|]. apply list_fmap_ext. intros ? j _. f_equal. lia.
  - rewrite Hf, seq_shift_ops. simpl. fold x.
    rewrite drop_insert_lt by lia. rewrite Nat.add_succ_r.
    assert (take (S i) (<[i:=x]> (discontig_frames s)) = take i (discontig_frames s) ++ [x]) as ->.
    { rewrite (take_S_r _ _ x) by (apply list_lookup_insert_eq; lia). by rewrite take_insert_ge by lia. }
    rewrite <-app_assoc. do 3 f_equal. apply list_fmap_ext. intros ? j _.
    unfold zap_value. rewrite next_pfn. destruct ins; [|lia]. rewrite H1, decide_False by lia. f_equal. lia.
  - apply (frames_are_step _ _ _ _ s1); [done|]. by rewrite <-next_pfn.
Qed.

Lemma remap_loop_run n i limit vaddr order mfns first f s :
  0 ≤ vaddr → vaddr + PAGE_SIZE * Z.of_nat n < 2 ^ 64 →
  (∀ j, (j < n)%nat → match mfns with
                      | Some l => l !! (i + j)%nat = Some (f j)
                      | None => u64 (first + Z.of_nat (i + j)) = f j
                      end) →
  (∀ j, (j < n)%nat → Z.land (f j) p2m_flags = 0 ∨ f j = INVALID_P2M) →
  ∃ s', remap_loop n (Z.of_nat i) limit vaddr order mfns first s = Ret s' ∧
    handed (r_buffer s') = handed (r_buffer s) ++ remap_ops n (Z.of_nat i) limit vaddr order f ∧
    discontig_frames s' = discontig_frames s ∧ zeroed s' = zeroed s ∧ frames_are (virt_to_pfn vaddr) n f s s'.
Proof.
  revert i vaddr s f. induction n as [|n IH]; intros i vaddr s f Hv Hr Hf Hplain.
  { exists s. split; [done|]. split; [by rewrite app_nil_r|]. split; [done|]. split; [done|].
    intros p. by rewrite decide_False by lia. }
  destruct (range_step vaddr n Hv Hr) as (Hu & Hv' & Hr').
  set (s1 := set_p2m (virt_to_pfn vaddr) (f 0%nat)
    (on_r_buffer (λ q, mcb_call q (λ _, MULTI_update_va_mapping vaddr (mfn_pte (f 0%nat) PAGE_KERNEL)
      (remap_flags (Z.of_nat i) limit order)) []) s)).
  assert (Estep : remap_loop (S n) (Z.of_nat i) limit vaddr order mfns first s =
    remap_loop n (Z.of_nat (S i)) limit (vaddr + PAGE_SIZE) order mfns first s1).
  { cbn [remap_loop]. specialize (Hf 0%nat ltac:(lia)). rewrite Nat.add_0_r in Hf. rewrite Nat2Z.id.
    replace (Z.of_nat i + 1) with (Z.of_nat (S i)) by lia. rewrite Hu. destruct mfns; rewrite Hf; done. }
  destruct (IH (S i) (vaddr + PAGE_SIZE) s1 (λ j, f (S j)) Hv' Hr') as (s' & E & Hh & Hd & Hz & Hp).
  { intros j Hj. specialize (Hf (S j) ltac:(lia)). by rewrite <-Nat.add_succ_comm in Hf. }
  { intros j Hj. apply Hplain. lia. }
  assert (H1 : ∀ p, frame s1 p = if decide (p = virt_to_pfn vaddr) then f 0%nat else frame s p).
  { intros p. simpl. apply p2m_frame_set, Hplain. lia. }
  exists s'. rewrite Estep. split; [done|]. split; [|split; [done|split; [done|]]].
  - rewrite Hh. simpl. rewrite call_update_va, <-app_assoc. unfold remap_ops. rewrite seq_shift_ops. simpl.
    do 2 f_equal; [f_equal; (lia || (f_equal; lia))|]. apply list_fmap_ext. intros ? j _. f_equal; [lia|]. f_equal. lia.
  - apply (frames_are_step _ _ _ _ s1); [done|]. by rewrite <-next_pfn.
Qed.

(** The number of pages of a region. *)
Definition region_pages (order : Z) : nat := Z.to_nat (2 ^ order).

Lemma region_pages_eq order : 0 ≤ order ≤ 9 →
  Z.shiftl 1 order = Z.of_nat (region_pages order) ∧ u32 (Z.shiftl 1 order) = Z.of_nat (region_pages order) ∧
  (1 ≤ region_pages order ≤ 512)%nat.
Proof.
  intros Ho. unfold region_pages. rewrite Z.shiftl_1_l.
  assert (1 ≤ 2 ^ order ≤ 512).
  { split; [apply (Z.pow_le_mono_r 2 0); lia|]. change 512 with (2 ^ 9). apply Z.pow_le_mono_r; lia. }
  rewrite u32_small by (unfold is_u32; lia). lia.
Qed.

(** A range of at most 512 pages that does not wrap, and the array. *)
Record range_ok (vstart order : Z) (s : region_state) : Prop := mk_range_ok {
  range_order : 0 ≤ order ≤ 9;
  range_start : 0 ≤ vstart;
  range_end : vstart + PAGE_SIZE * Z.of_nat (region_pages order) < 2 ^ 64;
  range_array : length (discontig_frames s) = 512%nat
}.

Lemma zap_range_run ins vstart order s :
  range_ok vstart order s →
  ∃ s', xen_zap_pfn_range vstart order ins (negb ins) s = Ret s' ∧
    handed (r_buffer s') = handed (r_buffer s) ++ zap_ops (region_pages order) vstart ∧
    take (region_pages order) (discontig_frames s') = zap_value ins s (virt_to_pfn vstart) <$> seq 0 (region_pages order) ∧
    length (discontig_frames s') = 512%nat ∧
    frames_are (virt_to_pfn vstart) (region_pages order) (λ _, INVALID_P2M) s s'.
Proof.
  intros [Ho Hv Hr Hl]. destruct (region_pages_eq order Ho) as (E1 & _ & Hn).
  unfold xen_zap_pfn_range. rewrite E1, Nat2Z.id.
  destruct (zap_loop_run ins (region_pages order) 0 vstart (on_r_buffer mcb_batch s) Hv Hr) as (s' & E & Hh & Hf & Hz & Hp).
  { simpl. lia. }
  change (Z.of_nat 0) with 0 in E. rewrite E. cbn [mbind outcome_bind]. eexists. split; [done|]. simpl in *.
  split; [by rewrite issue_handed, Hh, batch_handed|]. rewrite Hf. split; [|split].
  - rewrite take_app_length'; [done|]. by rewrite length_fmap, length_seq.
  - rewrite length_app, length_fmap, length_seq, length_drop. lia.
  - exact Hp.
Qed.

Lemma remap_range_run vstart order mfns first f s :
  range_ok vstart order s →
  (∀ j, (j < region_pages order)%nat →
     match mfns with Some l => l !! j = Some (f j) | None => u64 (first + Z.of_nat j) = f j end) →
  (∀ j, (j < region_pages order)%nat → Z.land (f j) p2m_flags = 0 ∨ f j = INVALID_P2M) →
  ∃ s', xen_remap_exchanged_ptes vstart order mfns first s = Ret s' ∧
    handed (r_buffer s') = handed (r_buffer s) ++
      remap_ops (region_pages order) 0 (Z.of_nat (region_pages order)) vstart order f ∧
    waiting (r_buffer s') = [] ∧ frames_are (virt_to_pfn vstart) (region_pages order) f s s' ∧
    discontig_frames s' = discontig_frames s.
Proof.
  intros [Ho Hv Hr Hl] Hf Hplain. destruct (region_pages_eq order Ho) as (_ & E1 & Hn).
  unfold xen_remap_exchanged_ptes. rewrite E1, Nat2Z.id.
  destruct (remap_loop_run (region_pages order) 0 (Z.of_nat (region_pages order)) vstart order mfns first f
    (on_r_buffer mcb_batch s) Hv Hr Hf Hplain) as (s' & E & Hh & Hd & Hz & Hp).
  change (Z.of_nat 0) with 0 in E, Hh. rewrite E. cbn [mbind outcome_bind]. eexists. split; [done|]. simpl in *.
  split; [by rewrite issue_handed, Hh, batch_handed|]. split; [by apply issue_waiting|]. split; [exact Hp|exact Hd].
Qed.

(** Two functions in turn: the second one stays. *)
Lemma frames_are_trans pfn n f g s s1 s2 : frames_are pfn n f s s1 → frames_are pfn n g s1 s2 → frames_are pfn n g s s2.
Proof. intros H1 H2 p. rewrite (H2 p). case_decide; [done|]. rewrite (H1 p). by rewrite decide_False. Qed.

(** The frames of a region, and frames without flags. *)
Definition region_frames (s : region_state) (vstart order : Z) : list Z :=
  zap_value true s (virt_to_pfn vstart) <$> seq 0 (region_pages order).
Definition plain (l : list Z) : Prop := Forall (λ m, Z.land m p2m_flags = 0) l.

Lemma exchange_run memory_exchange ein oin ins eout oout outs bits rc nr received :
  u64 (Z.shiftl ein oin) = u64 (Z.shiftl eout oout) → ein ≠ 0 →
  memory_exchange (take (Z.to_nat ein) ins) oin eout oout bits = (rc, nr, received) →
  (nr = ein ∧ rc = 0) ∨ (nr = 0 ∧ rc ≠ 0) →
  xen_exchange_memory memory_exchange ein oin ins eout oout outs bits =
    Ret (bool_decide (nr = ein), list_inserts 0 received outs).
Proof.
  intros Hu He Hx Hnr. unfold xen_exchange_memory. rewrite decide_False by (intros Hn; by apply Hn). rewrite Hx.
  destruct Hnr as [[-> ->]|[-> Hrc]].
  - by rewrite bool_decide_eq_true_2 by done.
  - rewrite (bool_decide_eq_false_2 (0 = ein)) by done. rewrite (bool_decide_eq_false_2 (0 ≠ 0)) by lia.
    by rewrite (bool_decide_eq_false_2 (rc = 0)) by done.
Qed.

Lemma plain_lookup l j m : plain l → l !! j = Some m → Z.land m p2m_flags = 0 ∨ m = INVALID_P2M.
Proof. intros Hp Hm. left. by eapply Forall_lookup_1 in Hp. Qed.

Lemma frames_lookup s vstart order j : (j < region_pages order)%nat →
  region_frames s vstart order !! j = Some (frame s (virt_to_pfn vstart + Z.of_nat j)).
Proof. intros Hj. unfold region_frames. by rewrite list_lookup_fmap, lookup_seq_lt by done. Qed.

Context (memory_exchange : list Z → Z → Z → Z → Z → Z * Z * list Z) (vstart order bits : Z).
Abbreviation n := (region_pages order) (only parsing).

Lemma create_region_run s rc nr received :
  range_ok vstart order s → plain (region_frames s vstart order) →
  memory_exchange (region_frames s vstart order) 0 1 order bits = (rc, nr, received) →
  (nr = Z.of_nat n ∧ rc = 0 ∧ ∃ m, received = [m] ∧ 0 ≤ m ∧ m + Z.of_nat n < 2 ^ 64 ∧
     plain ((λ j, m + Z.of_nat j) <$> seq 0 n)) ∨ (nr = 0 ∧ rc ≠ 0) →
  ∃ s' f, xen_create_contiguous_region memory_exchange false vstart order bits s =
      Ret (if decide (rc = 0) then 0 else - ENOMEM, s') ∧
    handed (r_buffer s') = handed (r_buffer s) ++ zap_ops n vstart ++ remap_ops n 0 (Z.of_nat n) vstart order f ∧
    waiting (r_buffer s') = [] ∧ length (discontig_frames s') = 512%nat ∧ frames_are (virt_to_pfn vstart) n f s s' ∧
    ∀ j, (j < n)%nat → f j = if decide (rc = 0) then default 0 (received !! 0%nat) + Z.of_nat j
                             else frame s (virt_to_pfn vstart + Z.of_nat j).
Proof.
  intros Hok Hplain Hx Hnr. pose proof Hok as [Ho Hv Hr Hl]. destruct (region_pages_eq order Ho) as (E1 & _ & Hn).
  unfold xen_create_contiguous_region. rewrite decide_False by (unfold MAX_CONTIG_ORDER; lia).
  destruct (zap_range_run true vstart order (zero_range vstart order s)) as (s1 & E & Hh & Hf & Hlen & Hp); [by split|].
  cbn [negb] in E. rewrite E. cbn [mbind outcome_bind].
  assert (Hok1 : range_ok vstart order s1) by by split.
  rewrite (exchange_run memory_exchange _ _ _ _ _ _ _ rc nr received).
  2:{ rewrite E1. by rewrite Z.shiftl_0_r. }
  2:{ rewrite E1. lia. }
  2:{ rewrite E1, Nat2Z.id, Hf. exact Hx. }
  2:{ rewrite E1. naive_solver. }
  cbn [mbind outcome_bind]. rewrite E1. destruct Hnr as [(-> & -> & m & -> & Hm1 & Hm2 & Hm3)|[-> Hrc]].
  - rewrite bool_decide_eq_true_2, decide_True by done. simpl.
    destruct (remap_range_run vstart order None m (λ j, m + Z.of_nat j) s1 Hok1) as (s2 & -> & Hh2 & Hw & Hp2 & Hd2).
    { intros j Hj. apply u64_small. unfold is_u64. lia. }
    { intros j Hj. eapply plain_lookup; [exact Hm3|]. by rewrite list_lookup_fmap, lookup_seq_lt. }
    eexists s2, _. split; [done|]. split; [by rewrite Hh2, Hh, <-app_assoc|]. split; [done|]. split; [by rewrite Hd2|].
    split; [by eapply frames_are_trans|]. done.
  - rewrite bool_decide_eq_false_2 by lia. rewrite decide_False by done.
    destruct (remap_range_run vstart order (Some (discontig_frames s1)) 0
      (λ j, frame s (virt_to_pfn vstart + Z.of_nat j)) s1 Hok1) as (s2 & E2 & Hh2 & Hw & Hp2 & Hd2).
    { intros j Hj. rewrite <-(lookup_take_lt _ n) by done. rewrite Hf. by apply (frames_lookup s). }
    { intros j Hj. eapply plain_lookup; [exact Hplain|]. by apply frames_lookup. }
    rewrite E2. cbn [mbind outcome_bind]. eexists s2, _. split; [done|]. split; [by rewrite Hh2, Hh, <-app_assoc|]. split; [done|]. split; [by rewrite Hd2|].
    split; [by eapply frames_are_trans|]. intros j _. by rewrite decide_False.
Qed.

Lemma destroy_run s rc nr received m :
  range_ok vstart order s → frame s (virt_to_pfn vstart) = m →
  memory_exchange [m] order (Z.of_nat n) 0 0 = (rc, nr, received) →
  (nr = 1 ∧ rc = 0 ∧ length received = n ∧ plain received) ∨
  (nr = 0 ∧ rc ≠ 0 ∧ 0 ≤ m ∧ m + Z.of_nat n < 2 ^ 64 ∧ plain ((λ j, m + Z.of_nat j) <$> seq 0 n)) →
  ∃ s' f, xen_destroy_contiguous_region memory_exchange false vstart order s = Ret s' ∧
    handed (r_buffer s') = handed (r_buffer s) ++ zap_ops n vstart ++ remap_ops n 0 (Z.of_nat n) vstart order f ∧
    waiting (r_buffer s') = [] ∧ frames_are (virt_to_pfn vstart) n f s s' ∧
    ∀ j, (j < n)%nat → f j = if decide (rc = 0) then default 0 (received !! j) else m + Z.of_nat j.
Proof.
  intros Hok Hm Hx Hnr. pose proof Hok as [Ho Hv Hr Hl]. destruct (region_pages_eq order Ho) as (E1 & _ & Hn).
  unfold xen_destroy_contiguous_region. rewrite decide_False by (unfold MAX_CONTIG_ORDER; lia).
  destruct (zap_range_run false vstart order (zero_range vstart order s)) as (s1 & E & Hh & Hf & Hlen & Hp); [by split|].
  cbn [negb] in E. cbv zeta. rewrite E. cbn [mbind outcome_bind].
  assert (virt_to_mfn vstart (zero_range vstart order s) = m) as -> by done.
  rewrite (exchange_run memory_exchange _ _ _ _ _ _ _ rc nr received).
  2:{ rewrite E1. by rewrite <-E1, Z.shiftl_0_r. }
  2:{ done. }
  2:{ rewrite E1. exact Hx. }
  2:{ naive_solver. }
  cbn [mbind outcome_bind].
  assert (Hok1 : range_ok vstart order (set_frames (list_inserts 0 received (discontig_frames s1)) s1)).
  { split; [done..|]. simpl. by rewrite length_inserts. }
  destruct Hnr as [(-> & -> & Hlr & Hpl)|(-> & Hrc & Hm1 & Hm2 & Hm3)].
  - rewrite (bool_decide_eq_true_2 (1 = 1)) by done.
    destruct (remap_range_run vstart order (Some (list_inserts 0 received (discontig_frames s1))) 0
      (λ j, default 0 (received !! j)) _ Hok1) as (s2 & E2 & Hh2 & Hw & Hp2 & Hd2).
    { intros j Hj. rewrite list_lookup_inserts by lia. rewrite Nat.sub_0_r.
      destruct (lookup_lt_is_Some_2 received j) as [x ->]; [lia|done]. }
    { intros j Hj. destruct (lookup_lt_is_Some_2 received j) as [x Hx']; [lia|]. eapply plain_lookup; [exact Hpl|]. by rewrite Hx'. }
    exists s2, (λ j, default 0 (received !! j)). split; [exact E2|]. split; [by rewrite Hh2; simpl; rewrite Hh, <-app_assoc|].
    split; [done|]. split; [by eapply frames_are_trans|]. done.
  - rewrite (bool_decide_eq_false_2 (0 = 1)) by done.
    destruct (remap_range_run vstart order None m (λ j, m + Z.of_nat j) _ Hok1) as (s2 & E2 & Hh2 & Hw & Hp2 & Hd2).
    { intros j Hj. apply u64_small. unfold is_u64. lia. }
    { intros j Hj. eapply plain_lookup; [exact Hm3|]. by rewrite list_lookup_fmap, lookup_seq_lt. }
    exists s2, (λ j, m + Z.of_nat j). split; [exact E2|]. split; [by rewrite Hh2; simpl; rewrite Hh, <-app_assoc|].
    split; [done|]. split; [by eapply frames_are_trans|]. intros j _. by rewrite decide_False.
Qed.

End region_lemmas.

(** ** Correctness *)

(** C28: Making a region of up to 512 pages contiguous gives the hypervisor
    exactly the machine frames of its pages; when it answers with an extent at
    [m], page [k] of the region is the frame [m + k], and when it refuses, every
    page has its frame back and the call fails with ENOMEM; no other page of
    the table changes, the entries are first void, then the new ones, the last
    of them flushing, and nothing waits.  Undoing it gives back that extent,
    and leaves the pages with the frames received for it, or contiguous. *)
Theorem contiguous_region_correct `{PG : Pages} `{MB : McBuffer} `{PM : P2MTable} `{!McBufferLaws} `{!P2MTableLaws}
    memory_exchange vstart order bits s rc nr received :
  let n := region_pages order in let pfn := virt_to_pfn vstart in
  range_ok vstart order s → plain (region_frames s vstart order) →
  memory_exchange (region_frames s vstart order) 0 1 order bits = (rc, nr, received) →
  (nr = Z.of_nat n ∧ rc = 0 ∧ ∃ m, received = [m] ∧ 0 ≤ m ∧ m + Z.of_nat n < 2 ^ 64 ∧
     plain ((λ j, m + Z.of_nat j) <$> seq 0 n)) ∨ (nr = 0 ∧ rc ≠ 0) →
  ∃ s' f, xen_create_contiguous_region memory_exchange false vstart order bits s =
      Ret (if decide (rc = 0) then 0 else - ENOMEM, s') ∧
    handed (r_buffer s') = handed (r_buffer s) ++ zap_ops n vstart ++ remap_ops n 0 (Z.of_nat n) vstart order f ∧
    waiting (r_buffer s') = [] ∧ frames_are pfn n f s s' ∧
    (rc ≠ 0 → ∀ p, p2m_frame (r_p2m s') p = p2m_frame (r_p2m s) p) ∧
    (rc = 0 → ∃ m, received = [m] ∧ (∀ j, (j < n)%nat → f j = m + Z.of_nat j) ∧
       ∀ rc2 nr2 received2, memory_exchange [m] order (Z.of_nat n) 0 0 = (rc2, nr2, received2) →
         (nr2 = 1 ∧ rc2 = 0 ∧ length received2 = n ∧ plain received2) ∨ (nr2 = 0 ∧ rc2 ≠ 0) →
         ∃ s2 f2, xen_destroy_contiguous_region memory_exchange false vstart order s' = Ret s2 ∧
           frames_are pfn n f2 s' s2 ∧
           ∀ j, (j < n)%nat → f2 j = if decide (rc2 = 0) then default 0 (received2 !! j) else m + Z.of_nat j).
Proof.
  cbv zeta. intros Hok Hplain Hx Hnr.
  destruct (create_region_run memory_exchange vstart order bits s rc nr received Hok Hplain Hx Hnr)
    as (s' & f & E & Hh & Hw & Hlen & Hp & Hf).
  exists s', f. split; [exact E|]. split; [exact Hh|]. split; [exact Hw|]. split; [exact Hp|]. split.
  - intros Hrc p. rewrite (Hp p). destruct (decide (virt_to_pfn vstart ≤ p < virt_to_pfn vstart + Z.of_nat (region_pages order))); [|done].
    rewrite Hf by lia. rewrite decide_False by done. f_equal. lia.
  - intros Hrc. destruct Hnr as [(_ & _ & m & -> & Hm1 & Hm2 & Hm3)|[_ ?]]; [|done].
    exists m. split; [done|]. split; [intros j Hj; rewrite (Hf j Hj); by rewrite decide_True|].
    intros rc2 nr2 received2 Hx2 Hnr2.
    destruct (destroy_run memory_exchange vstart order s' rc2 nr2 received2 m) as (s2 & f2 & E2 & _ & _ & Hp2 & Hf2).
    + by destruct Hok.
    + pose proof (region_pages_eq order (range_order _ _ _ Hok)) as (_ & _ & Hn1).
      rewrite (Hp (virt_to_pfn vstart)), decide_True by lia. rewrite Z.sub_diag, Hf by (simpl; lia).
      rewrite decide_True by done. simpl. lia.
    + done.
    + destruct Hnr2 as [?|[? ?]]; [by left|right]. done.
    + exists s2, f2. done.
Qed.

(** ** Witness: two pages, which get the extent at 0x1000, and other frames
    when they give it back *)

Definition toy_p2m_table : P2MTable := {|
  p2m := Z → Z;
  p2m_frame t pfn := t pfn;
  p2m_set pfn mfn t := λ p, if decide (p = pfn) then mfn else t p;
  p2m_flags := Z.shiftl 3 62;
  INVALID_P2M := 2 ^ 64 - 1;
  virt_to_pfn v := v / PAGE_SIZE;
  mfn_pte mfn prot := Z.lor (Z.shiftl mfn PAGE_SHIFT) prot
|}.

#[export] Instance toy_p2m_table_laws : @P2MTableLaws toy_p2m_table.
Proof.
  split; simpl; [done|]. intros v k. rewrite Z.mul_comm. apply Z.div_add. by unfold PAGE_SIZE.
Qed.

Definition toy_exchange (ins : list Z) (order_in extents_out order_out bits : Z) : Z * Z * list Z :=
  if decide (order_in = 0) then (0, Z.of_nat (length ins), [0x1000]) else (0, 1, [0x77; 0x55]).

Definition toy_region : @region_state list_mcb toy_p2m_table :=
  @mk_region_state list_mcb toy_p2m_table (λ p, p + 0x200) empty_buffer (replicate 512 0) [].

#[local] Ltac compute_range := first [by vm_compute | vm_compute; lia | vm_compute; intuition discriminate].

Lemma contiguous_region_correct_witness :
  ∃ s', @xen_create_contiguous_region small_pages list_mcb toy_p2m_table toy_exchange false 0x4000 1 32 toy_region =
      Ret (0, s') ∧
    @p2m_frame toy_p2m_table (@r_p2m list_mcb toy_p2m_table s') 5 = 0x1001 ∧
    @p2m_frame toy_p2m_table (@r_p2m list_mcb toy_p2m_table s') 6 = 0x206 ∧
    ∃ s2, @xen_destroy_contiguous_region small_pages list_mcb toy_p2m_table toy_exchange false 0x4000 1 s' = Ret s2 ∧
      @p2m_frame toy_p2m_table (@r_p2m list_mcb toy_p2m_table s2) 5 = 0x55.
Proof.
  destruct (@contiguous_region_correct small_pages list_mcb toy_p2m_table list_mcb_laws toy_p2m_table_laws
    toy_exchange 0x4000 1 32 toy_region 0 2 [0x1000]) as (s' & f & E & _ & _ & Hp & _ & Hd).
  - split; [lia|lia|by vm_compute|by vm_compute].
  - by repeat constructor.
  - by vm_compute.
  - left. split; [done|]. split; [done|]. exists 0x1000. split; [done|]. split; [lia|]. split; [by vm_compute|].
    by repeat constructor.
  - exists s'. split; [exact E|]. destruct (Hd eq_refl) as (m & [= <-] & Hf & Hd2).
    split; [rewrite (Hp 5); by rewrite decide_True, Hf by compute_range|].
    split; [rewrite (Hp 6); by rewrite decide_False by compute_range|].
    destruct (Hd2 0 1 [0x77; 0x55]) as (s2 & f2 & E2 & Hp2 & Hf2); [done|left; split_and!; [done..|by repeat constructor]|].
    exists s2. split; [exact E2|]. rewrite (Hp2 5). by rewrite decide_True, Hf2 by compute_range.
Defined.
