(* ===== verification/XenRemap.v ===== *)
(** * Mapping frames of another domain (arch/x86/xen/mmu.c)

    [xen_remap_domain_mfn_range] maps machine frames of another domain into a
    region of a process, sixteen entries at a time.  The walk over the page
    tables, [apply_to_page_range], and the hypervisor are parameters. *)

From S2P Require Import Prelude Protocol PageWalk MalHooks XenMmu XenPin XenRegion.

(** ** Data *)

Definition REMAP_BATCH_SIZE : Z := 16.
Definition EFAULT : Z := 14.

(** [struct mmu_update]: [ptr] and [val]. *)
Abbreviation mmu_update := (Z * Z)%type.

(** [struct remap_data], its pointer as an index into the array. *)
Record remap_data : Type := mk_remap_data { rmd_mfn : Z; rmd_prot : Z; rmd_update : Z }.

(** The local array, the updates the hypervisor took, with their domain, and
    how often [flush_tlb_all] ran. *)
Record remap_state : Type := mk_remap_state {
  updates_buf : list mmu_update;
  taken : list (list mmu_update * Z);
  tlb_flushes : nat
}.

Section remap.
  Context `{PG : Pages} `{AS : AddrSpace} `{PM : P2M}.
  (** [pte_mkspecial]; the ptes [apply_to_page_range(mm, addr, size, fn, data)]
      calls [fn] on, in order, and its result when [fn] returns 0; the result
      of [HYPERVISOR_mmu_update] given what was taken before *)
  Context (pte_mkspecial : Z → Z) (apply_to_page_range : Z → Z → list Z * Z)
    (mmu_update_answer : list (list mmu_update * Z) → list mmu_update → Z).

(** ** Operations *)

(** [static int remap_area_mfn_pte_fn(ptep, token, addr, data)] *)
Definition remap_area_mfn_pte_fn (ptep : Z) (rmd : remap_data) (s : remap_state) : outcome (remap_data * remap_state) :=
  let pte := pte_mkspecial (pfn_pte (rmd_mfn rmd) (rmd_prot rmd)) in
  let i := rmd_update rmd in
  if decide (0 ≤ i < Z.of_nat (length (updates_buf s))) then
    Ret (mk_remap_data (u64 (rmd_mfn rmd + 1)) (rmd_prot rmd) (i + 1),
         mk_remap_state (<[Z.to_nat i := (virt_to_machine ptep, pte)]> (updates_buf s)) (taken s) (tlb_flushes s))
  else Err OutOfBounds.

Fixpoint apply_fn (ptes : list Z) (rmd : remap_data) (s : remap_state) : outcome (remap_data * remap_state) :=
  match ptes with
  | [] => Ret (rmd, s)
  | ptep :: ptes' => '(rmd', s') ← remap_area_mfn_pte_fn ptep rmd s; apply_fn ptes' rmd' s'
  end.

(** [while (nr) { ... }] and the label [out]; [err] is what is returned. *)
Definition flush_tlb_all (s : remap_state) : remap_state :=
  mk_remap_state (updates_buf s) (taken s) (S (tlb_flushes s)).
Definition take_batch (batch domid : Z) (s : remap_state) : remap_state :=
  mk_remap_state (updates_buf s) (taken s ++ [(take (Z.to_nat batch) (updates_buf s), domid)]) (tlb_flushes s).
Fixpoint remap_loop_ (fuel : nat) (addr nr domid : Z) (rmd : remap_data) (s : remap_state) : outcome (Z * remap_state) :=
  if decide (nr = 0) then Ret (0, s)
  else match fuel with
  | O => Err OutOfFuel
  | S fuel' =>
      let batch := Z.min REMAP_BATCH_SIZE nr in
      let range := u64 (Z.shiftl (u64 batch) PAGE_SHIFT) in
      let '(ptes, err) := apply_to_page_range addr range in
      '(rmd1, s1) ← apply_fn ptes (mk_remap_data (rmd_mfn rmd) (rmd_prot rmd) 0) s;
      if decide (err ≠ 0) then Ret (err, s1)
      else if decide (mmu_update_answer (taken s1) (take (Z.to_nat batch) (updates_buf s1)) < 0) then Ret (- EFAULT, s1)
      else remap_loop_ fuel' (u64 (addr + range)) (nr - batch) domid rmd1 (take_batch batch domid s1)
  end.

(** [int xen_remap_domain_mfn_range(vma, addr, mfn, nr, prot, domid)];
    [vm_flags_ok] is the test of [BUG_ON], [garbage] what the array holds. *)
Definition xen_remap_domain_mfn_range (vm_flags_ok : bool) (garbage : list mmu_update) (addr mfn nr prot domid : Z)
    (s : list (list mmu_update * Z) * nat) : outcome (Z * remap_state) :=
  let prot := Z.lor prot _PAGE_IOMAP in
  if negb vm_flags_ok then Err BugOn
  else
    '(err, s1) ← remap_loop_ (Z.to_nat nr) addr nr domid (mk_remap_data mfn prot 0) (mk_remap_state garbage s.1 s.2);
    Ret (err, flush_tlb_all s1).

(** ** Specification *)

(** The update for the page [i] of the range. *)
Context (pte_of : Z → Z).
Definition remap_update (addr mfn prot : Z) (i : nat) : mmu_update :=
  (virt_to_machine (pte_of (addr + PAGE_SIZE * Z.of_nat i)),
   pte_mkspecial (pfn_pte (mfn + Z.of_nat i) (Z.lor prot _PAGE_IOMAP))).

(** [apply_to_page_range] as it is documented: the entries of the pages in
    order, all of them unless it fails. *)
Definition walks_range : Prop := ∀ addr n, ∃ k, 
  (apply_to_page_range addr (PAGE_SIZE * Z.of_nat n)).1 = (λ i, pte_of (addr + PAGE_SIZE * Z.of_nat i)) <$> seq 0 k ∧
  (k ≤ n)%nat ∧ ((apply_to_page_range addr (PAGE_SIZE * Z.of_nat n)).2 = 0 → k = n).

(** ** Lemmas *)

(** The updates for consecutive frames. *)
Fixpoint updates_for (mfn prot : Z) (ptes : list Z) : list mmu_update :=
  match ptes with
  | [] => []
  | p :: ptes' => (virt_to_machine p, pte_mkspecial (pfn_pte mfn prot)) :: updates_for (mfn + 1) prot ptes'
  end.

Lemma length_updates_for mfn prot ptes : length (updates_for mfn prot ptes) = length ptes.
Proof using Type. revert mfn. induction ptes as [|p ptes IH]; intros mfn; [done|]. simpl. by rewrite IH. Qed.

Lemma updates_for_range addr mfn prot d n :
  updates_for (mfn + Z.of_nat d) (Z.lor prot _PAGE_IOMAP) ((λ i, pte_of (addr + PAGE_SIZE * Z.of_nat (d + i))) <$> seq 0 n) =
    remap_update addr mfn prot <$> seq d n.
Proof using Type.
  revert d. induction n as [|n IH]; intros d; [done|]. cbn [seq fmap list_fmap updates_for]. f_equal.
  - unfold remap_update. by rewrite Nat.add_0_r.
  - rewrite <-IH, <-fmap_S_seq, <-list_fmap_compose. replace (mfn + Z.of_nat d + 1) with (mfn + Z.of_nat (S d)) by lia.
    f_equal. apply list_fmap_ext. intros i x _. simpl. do 3 f_equal. lia.
Qed.

Lemma apply_fn_run prot ptes : ∀ pre post mfn tk fl, (length ptes ≤ length post)%nat →
  0 ≤ mfn → mfn + Z.of_nat (length ptes) < 2 ^ 64 →
  apply_fn ptes (mk_remap_data mfn prot (Z.of_nat (length pre))) (mk_remap_state (pre ++ post) tk fl) =
    Ret (mk_remap_data (mfn + Z.of_nat (length ptes)) prot (Z.of_nat (length pre + length ptes)),
         mk_remap_state (pre ++ updates_for mfn prot ptes ++ drop (length ptes) post) tk fl).
Proof using Type.
  induction ptes as [|p ptes IH]; intros pre post mfn tk fl Hlen H0 Hw; simpl in *.
  - by rewrite Z.add_0_r, Nat.add_0_r.
  - destruct post as [|x post]; [simpl in Hlen; lia|]. simpl in Hlen. unfold remap_area_mfn_pte_fn. cbn [rmd_update rmd_mfn rmd_prot updates_buf].
    rewrite decide_True by (rewrite length_app; simpl; lia). cbn [mbind outcome_bind taken tlb_flushes].
    rewrite u64_small by (unfold is_u64; lia). rewrite Nat2Z.id.
    rewrite <-(Nat.add_0_r (length pre)) at 2. rewrite insert_app_r. cbn [insert list_insert].
    pose (u := (virt_to_machine p, pte_mkspecial (pfn_pte mfn prot)) : mmu_update). fold u.
    replace (Z.of_nat (length pre) + 1) with (Z.of_nat (length (pre ++ [u]))) by (rewrite length_app; simpl; lia).
    specialize (IH (pre ++ [u]) post (mfn + 1) tk fl). rewrite <-!app_assoc in IH. cbn [app] in IH. rewrite IH by lia.
    rewrite length_app. cbn [length drop]. replace (mfn + 1 + Z.of_nat (length ptes)) with (mfn + Z.of_nat (S (length ptes))) by lia.
    by replace (length pre + 1 + length ptes)%nat with (length pre + S (length ptes))%nat by lia.
Qed.

(** What the loop has handed over when it ends with [err], from page [d] on. *)
Record remapped (addr mfn prot domid : Z) (d n : nat) (err : Z) (s s' : remap_state) (bs : list (list mmu_update)) : Prop := mk_remapped {
  rm_taken : taken s' = taken s ++ ((λ b, (b, domid)) <$> bs);
  rm_flushes : tlb_flushes s' = tlb_flushes s;
  rm_updates : concat bs = remap_update addr mfn prot <$> seq d (length (concat bs));
  rm_sizes : ∀ b, b ∈ bs → (0 < length b ≤ 16)%nat;
  rm_total : (length (concat bs) ≤ n)%nat;
  rm_done : err = 0 ↔ length (concat bs) = n
}.

Lemma remapped_nothing addr mfn prot domid d n err s s' :
  taken s' = taken s → tlb_flushes s' = tlb_flushes s → (err = 0 ↔ n = 0%nat) →
  remapped addr mfn prot domid d n err s s' [].
Proof using Type.
  intros Ht Hf Hn. split; simpl; [by rewrite app_nil_r|done|done|intros b Hb; by apply elem_of_nil in Hb|lia|].
  rewrite Hn. split; congruence.
Qed.

Lemma remapped_batch addr mfn prot domid d n m err s s1 s' bs :
  remapped addr mfn prot domid (d + m) n err s1 s' bs → (0 < m ≤ 16)%nat →
  taken s1 = taken s ++ [(remap_update addr mfn prot <$> seq d m, domid)] → tlb_flushes s1 = tlb_flushes s →
  remapped addr mfn prot domid d (m + n) err s s' ((remap_update addr mfn prot <$> seq d m) :: bs).
Proof using Type.
  intros [R1 R2 R3 R4 R5 R6] Hm Ht Hf. split; simpl.
  - by rewrite R1, Ht, <-app_assoc.
  - by rewrite R2.
  - rewrite length_app, length_fmap, length_seq, seq_app, fmap_app. f_equal. exact R3.
  - intros b Hb. apply elem_of_cons in Hb as [->|Hb]; [|by apply R4]. by rewrite length_fmap, length_seq.
  - rewrite length_app, length_fmap, length_seq. lia.
  - rewrite R6, length_app, length_fmap, length_seq. lia.
Qed.

(** One batch: the array holds the updates of the pages walked. *)
Lemma remap_batch_run addr mfn prot d m s : walks_range → length (updates_buf s) = 16%nat → (m ≤ 16)%nat → 0 ≤ mfn →
  mfn + Z.of_nat (d + m) < 2 ^ 64 →
  let r := apply_to_page_range (addr + PAGE_SIZE * Z.of_nat d) (PAGE_SIZE * Z.of_nat m) in
  ∃ k j s1, apply_fn r.1 (mk_remap_data (mfn + Z.of_nat d) (Z.lor prot _PAGE_IOMAP) 0) s =
      Ret (mk_remap_data (mfn + Z.of_nat (d + k)) (Z.lor prot _PAGE_IOMAP) j, s1) ∧
    taken s1 = taken s ∧ tlb_flushes s1 = tlb_flushes s ∧ length (updates_buf s1) = 16%nat ∧
    (r.2 = 0 → k = m ∧ take m (updates_buf s1) = remap_update addr mfn prot <$> seq d m).
Proof using Type.
  intros Hwalk Hbuf Hm H0 Hw r. destruct (Hwalk (addr + PAGE_SIZE * Z.of_nat d) m) as (k & Hptes & Hk & Hdone). fold r in Hptes, Hdone.
  destruct s as [buf tk fl]. simpl in Hbuf.
  assert (r.1 = (λ i, pte_of (addr + PAGE_SIZE * Z.of_nat (d + i))) <$> seq 0 k) as Hr.
  { rewrite Hptes. apply list_fmap_ext. intros i x _. f_equal. unfold PAGE_SIZE. lia. }
  assert (length r.1 = k) as Hlen by (by rewrite Hr, length_fmap, length_seq).
  exists k, (Z.of_nat k). eexists. split.
  - pose proof (apply_fn_run (Z.lor prot _PAGE_IOMAP) r.1 [] buf (mfn + Z.of_nat d) tk fl) as E. cbn [app length] in E. change (Z.of_nat 0) with 0 in E.
    rewrite Hlen in E. rewrite E by lia. by replace (mfn + Z.of_nat d + Z.of_nat k) with (mfn + Z.of_nat (d + k)) by lia.
  - cbn [taken tlb_flushes updates_buf]. do 2 (split; [done|]). rewrite Hr, updates_for_range.
    rewrite length_app, length_fmap, length_seq, length_drop. split; [lia|]. intros He. rewrite (Hdone He) in *.
    split; [done|]. apply take_app_length'. by rewrite length_fmap, length_seq.
Qed.

Lemma remap_batches_run addr mfn prot domid : walks_range → 0 ≤ addr → 0 ≤ mfn →
  ∀ fuel d n i s, (n ≤ fuel)%nat → length (updates_buf s) = 16%nat →
  addr + PAGE_SIZE * Z.of_nat (d + n) < 2 ^ 64 → mfn + Z.of_nat (d + n) < 2 ^ 64 →
  ∃ err s' bs, remap_loop_ fuel (addr + PAGE_SIZE * Z.of_nat d) (Z.of_nat n) domid
      (mk_remap_data (mfn + Z.of_nat d) (Z.lor prot _PAGE_IOMAP) i) s = Ret (err, s') ∧
    remapped addr mfn prot domid d n err s s' bs.
Proof using Type.
  intros Hwalk Ha Hm. induction fuel as [|fuel IH]; intros d n i s Hn Hbuf Haw Hmw.
  - assert (n = 0%nat) as -> by lia. exists 0, s, []. split; [done|]. by apply remapped_nothing.
  - destruct (decide (n = 0%nat)) as [->|Hn0]; [exists 0, s, []; split; [done|]; by apply remapped_nothing|].
    cbn [remap_loop_]. rewrite decide_False by lia. cbv zeta.
    assert (∃ m, Z.min REMAP_BATCH_SIZE (Z.of_nat n) = Z.of_nat m ∧ (0 < m ≤ 16)%nat ∧ (m ≤ n)%nat) as (m & -> & Hm16 & Hmn)
      by (exists (Nat.min 16 n); unfold REMAP_BATCH_SIZE; lia).
    assert (u64 (Z.shiftl (u64 (Z.of_nat m)) PAGE_SHIFT) = PAGE_SIZE * Z.of_nat m) as ->.
    { unfold PAGE_SHIFT, PAGE_SIZE. rewrite (u64_small (Z.of_nat m)) by (unfold is_u64; lia). rewrite Z.shiftl_mul_pow2 by lia.
      rewrite u64_small by (unfold is_u64; lia). lia. }
    destruct (remap_batch_run addr mfn prot d m s Hwalk Hbuf) as (k & j & s1 & E & Ht & Hf & Hl & Hk); [lia..|].
    rewrite (surjective_pairing (apply_to_page_range _ _)). cbn [rmd_mfn rmd_prot]. rewrite E. cbn [mbind outcome_bind].
    destruct (decide _) as [He|He].
    { exists (apply_to_page_range (addr + PAGE_SIZE * Z.of_nat d) (PAGE_SIZE * Z.of_nat m)).2, s1, [].
      split; [done|]. apply remapped_nothing; [done|done|]. split; [done|lia]. }
    apply dec_stable in He. destruct (Hk He) as [-> Hupd]. rewrite Nat2Z.id, Hupd.
    destruct (decide _) as [Hr|Hr].
    { exists (- EFAULT), s1, []. split; [done|]. apply remapped_nothing; [done|done|]. unfold EFAULT. lia. }
    assert (PAGE_SIZE * Z.of_nat d + PAGE_SIZE * Z.of_nat m = PAGE_SIZE * Z.of_nat (d + m)) as Hp by (unfold PAGE_SIZE; lia).
    rewrite u64_small by (unfold is_u64, PAGE_SIZE in *; lia).
    rewrite <-Z.add_assoc, Hp. replace (Z.of_nat n - Z.of_nat m) with (Z.of_nat (n - m)) by lia.
    destruct (IH (d + m)%nat (n - m)%nat j (take_batch (Z.of_nat m) domid s1)) as (err & s' & bs & -> & Hrm); [lia|done|..].
    { by replace (d + m + (n - m))%nat with (d + n)%nat by lia. }
    { by replace (d + m + (n - m))%nat with (d + n)%nat by lia. }
    exists err, s', ((remap_update addr mfn prot <$> seq d m) :: bs). split; [done|].
    replace n with (m + (n - m))%nat at 1 by lia. eapply remapped_batch; [exact Hrm|lia| |done].
    simpl. by rewrite Nat2Z.id, Hupd, Ht.
Qed.

(** ** Correctness *)

(** C39: Mapping [nr] frames of another domain terminates; the hypervisor is
    given, for that domain and in batches of at most sixteen, the entries of
    consecutive pages with consecutive frames, marked special and as I/O
    mappings; the result is 0 exactly if all of them were taken, else what was
    taken stays and is a beginning of the range; and the translation buffers are
    flushed once, whatever happened. *)
Theorem remap_domain_mfn_range_correct garbage addr mfn nr prot domid tk fl :
  walks_range → length garbage = 16%nat → 0 ≤ nr → 0 ≤ addr → addr + PAGE_SIZE * nr < 2 ^ 64 →
  0 ≤ mfn → mfn + nr < 2 ^ 64 →
  ∃ err s' bs, xen_remap_domain_mfn_range true garbage addr mfn nr prot domid (tk, fl) = Ret (err, s') ∧
    tlb_flushes s' = S fl ∧ taken s' = tk ++ ((λ b, (b, domid)) <$> bs) ∧
    concat bs = remap_update addr mfn prot <$> seq 0 (length (concat bs)) ∧
    (∀ b, b ∈ bs → (0 < length b ≤ 16)%nat) ∧ Z.of_nat (length (concat bs)) ≤ nr ∧
    (err = 0 ↔ Z.of_nat (length (concat bs)) = nr).
Proof using Type.
  intros Hwalk Hg Hnr Ha Haw Hm Hmw. unfold xen_remap_domain_mfn_range. cbn [negb].
  destruct (remap_batches_run addr mfn prot domid Hwalk Ha Hm (Z.to_nat nr) 0 (Z.to_nat nr) 0 (mk_remap_state garbage tk fl))
    as (err & s' & bs & E & [R1 R2 R3 R4 R5 R6]); [lia|done|rewrite Nat.add_0_l, Z2Nat.id; lia..|].
  rewrite Z.mul_0_r, !Z.add_0_r, Z2Nat.id in E by lia. cbn [fst snd]. rewrite E. cbn [mbind outcome_bind].
  exists err, (flush_tlb_all s'), bs. split; [done|]. split; [simpl; by rewrite R2|]. do 3 (split; [done|]).
  split; [lia|]. rewrite R6. lia.
Qed.

End remap.

(** ** Witness *)

(** The page tables of the range are complete; the hypervisor takes two batches
    and no more. *)
Definition plain_range (addr size : Z) : list Z * Z :=
  ((λ i, 0x8000 + 8 * ((addr + PAGE_SIZE * Z.of_nat i) / PAGE_SIZE)) <$> seq 0 (Z.to_nat (size / PAGE_SIZE)), 0).
Definition two_batches (l : list (list mmu_update * Z)) (b : list mmu_update) : Z :=
  if decide (2 ≤ length l)%nat then -1 else 0.

Lemma plain_walks : walks_range plain_range (λ a, 0x8000 + 8 * (a / PAGE_SIZE)).
Proof.
  intros addr n. exists n. unfold plain_range. cbn [fst snd].
  rewrite Z.mul_comm, Z.div_mul, Nat2Z.id by (unfold PAGE_SIZE; lia). done.
Qed.

Lemma remap_domain_mfn_range_correct_witness :
  ∃ err s' bs, @xen_remap_domain_mfn_range small_pages toy_space toy_p2m (λ v, Z.lor v 512) plain_range two_batches
      true (replicate 16 (0, 0)) 0x10000 500 40 3 7 ([], 0%nat) = Ret (err, s') ∧
    taken s' = ((λ b, (b, 7)) <$> bs) ∧ length (concat bs) = 32%nat ∧ err = - EFAULT.
Proof.
  destruct (@remap_domain_mfn_range_correct small_pages toy_space toy_p2m (λ v, Z.lor v 512) plain_range two_batches
    (λ a, 0x8000 + 8 * (a / PAGE_SIZE)) (replicate 16 (0, 0)) 0x10000 500 40 3 7 [] 0%nat plain_walks)
    as (err & s' & bs & E & _ & Ht & Hc & _ & _ & Hd); try (unfold PAGE_SIZE; lia); [done|].
  exists err, s', bs. split; [exact E|]. split; [exact Ht|].
  vm_compute in E. injection E as <- <-.
  vm_compute in Ht. destruct bs as [|b1 [|b2 [|b3 bs]]]; try discriminate Ht.
  injection Ht as <- <-. split; [vm_compute; reflexivity|reflexivity].
Defined.
