(* ===== verification/XenBoot.v ===== *)
(** * The page table of the booting kernel (arch/x86/xen/mmu.c)

    The kernel grafts the table it was started on into its own: the entries of
    its preconstructed tables are converted to machine frames, the mapping of
    the kernel is copied, the lowest memory is mapped one to one, every table
    is made read-only, and the processor is switched over.  The memory of the
    tables is explicit; the configuration is x86-64. *)

From S2P Require Import Prelude Protocol PageWalk MalHooks XenMmu Hypercall XenPin XenPinCorrect XenCr3.

(** ** Data *)

(** [_PAGE_TABLE]: present, writable, user, accessed, dirty, and the same
    without user; and [LEVEL1_IDENT_ENTRIES]. *)
Definition _PAGE_TABLE : Z := 0x67.
Definition _KERNPG_TABLE : Z := 0x63.
Definition LEVEL1_IDENT_ENTRIES `{PageTable} : Z := Z.of_nat PTRS_PER_PTE * 4.

(** The tables the linker and the hypervisor place: those of head_64.S and
    mmu.c by name, the first free address of [extend_brk], the members of
    [xen_start_info]. *)
Record boot_layout : Type := mk_boot_layout {
  START_KERNEL_map : Z;              (** [__START_KERNEL_map] *)
  init_level4_pgt : Z;
  level3_ident_pgt : Z;
  level3_kernel_pgt : Z;
  level3_user_vsyscall : Z;
  level2_ident_pgt : Z;
  level2_kernel_pgt : Z;
  level2_fixmap_pgt : Z;
  brk_page : Z;
  PAGE_KERNEL_EXEC : Z;
  mfn_list : Z;
  pt_base : Z;
  nr_pt_frames : Z
}.

(** The tables, by the address of their first entry; the hypercalls made
    directly; the processor with its buffer; [max_pfn_mapped]; the physical
    ranges reserved. *)
Record boot_state `{McBuffer} : Type := mk_boot_state {
  bt_tables : gmap Z (list Z);
  bt_calls : list xen_op;
  bt_cpu : cpu_state;
  max_pfn_mapped : Z;
  reserved : list (Z * Z)
}.

Section boot.
  Context `{PT : PageTable} `{PG : Pages} `{PM : P2M} `{MB : McBuffer}.
  Context (L : boot_layout).
  (** the result of a hypercall, given the earlier ones *)
  Context (answer : list xen_op → xen_op → Z).

Definition set_tables (ts : gmap Z (list Z)) (s : boot_state) : boot_state :=
  mk_boot_state _ ts (bt_calls s) (bt_cpu s) (max_pfn_mapped s) (reserved s).
Definition set_cpu (c : cpu_state) (s : boot_state) : boot_state :=
  mk_boot_state _ (bt_tables s) (bt_calls s) c (max_pfn_mapped s) (reserved s).
Definition set_max_pfn_mapped (n : Z) (s : boot_state) : boot_state :=
  mk_boot_state _ (bt_tables s) (bt_calls s) (bt_cpu s) n (reserved s).

(** [t[i]] and [t[i] = v] *)
Definition table (t : Z) (s : boot_state) : outcome (list Z) := of_option WildAccess (bt_tables s !! t).
Definition load (t : Z) (i : nat) (s : boot_state) : outcome Z :=
  l ← table t s; of_option OutOfBounds (l !! i).
Definition store (t : Z) (i : nat) (v : Z) (s : boot_state) : outcome boot_state :=
  l ← table t s;
  if decide (i < length l)%nat then Ret (set_tables (<[t := <[i := v]> l]> (bt_tables s)) s) else Err OutOfBounds.

(** [if (HYPERVISOR_...(...)) BUG();] *)
Definition direct_call (op : xen_op) (s : boot_state) : outcome boot_state :=
  if decide (answer (bt_calls s) op ≠ 0) then Err BugOn
  else Ret (mk_boot_state _ (bt_tables s) (bt_calls s ++ [op]) (bt_cpu s) (max_pfn_mapped s) (reserved s)).

(** ** Addresses *)

(** [static void *__ka(phys_addr_t paddr)], [m2p(maddr)], [m2v(maddr)] *)
Definition __ka (paddr : Z) : Z := u64 (paddr + START_KERNEL_map L).
Definition m2p_ (maddr : Z) : Z :=
  u64 (Z.shiftl (m2p (Z.shiftr (Z.land maddr PTE_PFN_MASK) PAGE_SHIFT)) PAGE_SHIFT).
Definition m2v (maddr : Z) : Z := __ka (m2p_ maddr).

(** ** Operations *)

(** [static void set_page_prot(void *addr, pgprot_t prot)] *)
Definition set_page_prot (addr prot : Z) : boot_state → outcome boot_state :=
  let pfn := Z.shiftr (phys_of_virt addr) PAGE_SHIFT in
  direct_call (UpdateVa addr (pfn_pte pfn prot) 0).

(** [static void pin_pagetable_pfn(unsigned cmd, unsigned long pfn)] *)
Definition pin_pagetable_pfn (cmd pfn : Z) : boot_state → outcome boot_state :=
  direct_call (Mmuext (mk_mmuext_op cmd (Some (pfn_to_mfn pfn)) None)).

(** [for (pteidx = 0; pteidx < PTRS_PER_PTE; pteidx++, pfn++)] on the indices
    left, with [pfn] *)
Fixpoint map_ptes (todo : list nat) (pte_page pfn : Z) (s : boot_state) : outcome (Z * boot_state) :=
  match todo with
  | [] => Ret (pfn, s)
  | pteidx :: todo' =>
      e ← load pte_page pteidx s;
      s1 ← (if negb (pte_none e) then Ret s
            else store pte_page pteidx (pfn_pte pfn (PAGE_KERNEL_EXEC L)) s);
      map_ptes todo' pte_page (u64 (pfn + 1)) s1
  end.

(** [for (pmdidx = 0; pmdidx < PTRS_PER_PMD && pfn < max_pfn; pmdidx++)] on the
    indices left, with [pfn] and [ident_pte] *)
Fixpoint map_pmds (level1_ident_pgt max_pfn pmd : Z) (todo : list nat) (pfn ident_pte : Z) (s : boot_state)
    : outcome (Z * boot_state) :=
  match todo with
  | [] => Ret (ident_pte, s)
  | pmdidx :: todo' =>
      if decide (max_pfn ≤ pfn) then Ret (ident_pte, s)
      else
        e ← load pmd pmdidx s;
        if pmd_present e then
          '(pfn', s2) ← map_ptes (seq 0 PTRS_PER_PTE) (m2v e) pfn s;
          map_pmds level1_ident_pgt max_pfn pmd todo' pfn' ident_pte s2
        else if decide (ident_pte = LEVEL1_IDENT_ENTRIES) then Ret (ident_pte, s)
        else
          let pte_page := level1_ident_pgt + 8 * ident_pte in
          let ident_pte' := u32 (ident_pte + Z.of_nat PTRS_PER_PTE) in
          s1 ← store pmd pmdidx (xen_make_pmd (Z.lor (phys_of_virt pte_page) _PAGE_TABLE)) s;
          '(pfn', s2) ← map_ptes (seq 0 PTRS_PER_PTE) pte_page pfn s1;
          map_pmds level1_ident_pgt max_pfn pmd todo' pfn' ident_pte' s2
  end.

(** [for (pteidx = 0; pteidx < ident_pte; pteidx += PTRS_PER_PTE)], [k] pages
    done and [n] left *)
Fixpoint protect_ident (level1_ident_pgt : Z) (n : nat) (k : Z) (s : boot_state) : outcome boot_state :=
  match n with
  | O => Ret s
  | S n' =>
      s1 ← set_page_prot (level1_ident_pgt + 8 * (k * Z.of_nat PTRS_PER_PTE)) PAGE_KERNEL_RO s;
      protect_ident level1_ident_pgt n' (k + 1) s1
  end.

(** [extend_brk(sizeof(pte_t) * LEVEL1_IDENT_ENTRIES, PAGE_SIZE)] is the next
    free area of the kernel's brk, cleared; it is used page by page. *)
Definition extend_brk (s : boot_state) : Z * boot_state :=
  (brk_page L,
   set_tables (foldr (λ k, <[brk_page L + PAGE_SIZE * Z.of_nat k := replicate PTRS_PER_PTE 0]>)
                 (bt_tables s) (seq 0 4)) s).

(** [static void xen_map_identity_early(pmd_t *pmd, unsigned long max_pfn)] *)
Definition xen_map_identity_early (pmd max_pfn : Z) (s : boot_state) : outcome boot_state :=
  let '(level1_ident_pgt, s0) := extend_brk s in
  '(ident_pte, s1) ← map_pmds level1_ident_pgt max_pfn pmd (seq 0 PTRS_PER_PMD) 0 0 s0;
  s2 ← protect_ident level1_ident_pgt (Z.to_nat (ident_pte / Z.of_nat PTRS_PER_PTE)) 0 s1;
  set_page_prot pmd PAGE_KERNEL_RO s2.

(** [static void convert_pfn_mfn(void *v)] on the indices left *)
Fixpoint convert_entries (todo : list nat) (v : Z) (s : boot_state) : outcome boot_state :=
  match todo with
  | [] => Ret s
  | i :: todo' =>
      e ← load v i s;
      s1 ← store v i (xen_make_pte e) s;
      convert_entries todo' v s1
  end.
Definition convert_pfn_mfn (v : Z) : boot_state → outcome boot_state := convert_entries (seq 0 PTRS_PER_PTE) v.

(** [memcpy(dst, src, sizeof(pmd_t) * PTRS_PER_PMD)] of two tables *)
Definition copy_pmds (dst src : Z) (s : boot_state) : outcome boot_state :=
  from ← table src s; to ← table dst s;
  if decide (PTRS_PER_PMD ≤ length from ∧ PTRS_PER_PMD ≤ length to)%nat
  then Ret (set_tables (<[dst := take PTRS_PER_PMD from ++ drop PTRS_PER_PMD to]> (bt_tables s)) s)
  else Err OutOfBounds.

(** [l3 = m2v(pgd[pgd_index(a)].pgd); l2 = m2v(l3[pud_index(a)].pud);] *)
Definition pmd_table (pgd a : Z) (s : boot_state) : outcome Z :=
  e4 ← load pgd (Z.to_nat (pgd_index a)) s;
  e3 ← load (m2v e4) (Z.to_nat (pud_index a)) s;
  Ret (m2v e3).

(** [pgd_t *xen_setup_kernel_pagetable(pgd_t *pgd, unsigned long max_pfn)];
    [pmd_size] is [PMD_SIZE], [lazy_mode] as for [xen_mc_issue]. *)
Definition PMD_SIZE : Z := 2 ^ 21.
Definition xen_setup_kernel_pagetable (lazy_mode pgd max_pfn : Z) (s : boot_state) : outcome (Z * boot_state) :=
  let s := set_max_pfn_mapped (Z.shiftr (phys_of_virt (mfn_list L)) PAGE_SHIFT) s in
  s ← store (init_level4_pgt L) 0 (xen_make_pgd 0) s;
  s ← convert_pfn_mfn (init_level4_pgt L) s;
  s ← convert_pfn_mfn (level3_ident_pgt L) s;
  s ← convert_pfn_mfn (level3_kernel_pgt L) s;
  l2 ← pmd_table pgd (START_KERNEL_map L) s;
  s ← copy_pmds (level2_ident_pgt L) l2 s;
  s ← copy_pmds (level2_kernel_pgt L) l2 s;
  l2 ← pmd_table pgd (u64 (START_KERNEL_map L + PMD_SIZE)) s;
  s ← copy_pmds (level2_fixmap_pgt L) l2 s;
  s ← xen_map_identity_early (level2_ident_pgt L) max_pfn s;
  s ← set_page_prot (init_level4_pgt L) PAGE_KERNEL_RO s;
  s ← set_page_prot (level3_ident_pgt L) PAGE_KERNEL_RO s;
  s ← set_page_prot (level3_kernel_pgt L) PAGE_KERNEL_RO s;
  s ← set_page_prot (level3_user_vsyscall L) PAGE_KERNEL_RO s;
  s ← set_page_prot (level2_kernel_pgt L) PAGE_KERNEL_RO s;
  s ← set_page_prot (level2_fixmap_pgt L) PAGE_KERNEL_RO s;
  s ← pin_pagetable_pfn MMUEXT_PIN_L4_TABLE (Z.shiftr (phys_of_virt (init_level4_pgt L)) PAGE_SHIFT) s;
  s ← pin_pagetable_pfn MMUEXT_UNPIN_TABLE (Z.shiftr (phys_of_virt pgd) PAGE_SHIFT) s;
  let pgd := init_level4_pgt L in
  let c := on_cpu_buffer (mcb_issue lazy_mode PARAVIRT_LAZY_CPU)
             (__xen_write_cr3 true (phys_of_virt pgd) (on_cpu_buffer mcb_batch (bt_cpu s))) in
  let s := mk_boot_state _ (bt_tables s) (bt_calls s) c (max_pfn_mapped s)
             (reserved s ++ [(phys_of_virt (pt_base L), phys_of_virt (u64 (pt_base L + nr_pt_frames L * PAGE_SIZE)))]) in
  Ret (pgd, s).

End boot.
