(* ===== verification/XenBootCorrect.v ===== *)
(** * The booting kernel's page table is right (arch/x86/xen/mmu.c)

    The specification of [xen_setup_kernel_pagetable]: what the new table
    translates, by a walk through its four levels, and what the hypervisor
    wants done first; the runs of its loops; and a machine that boots. *)

From S2P Require Import Prelude Protocol PageWalk MalHooks XenMmu Hypercall XenPin XenPinCorrect XenCr3 XenBoot.

(** ** Specification *)

Section boot_spec.
  Context `{PT : PageTable} `{PG : Pages} `{PM : P2M} `{MB : McBuffer}.
  Context (L : boot_layout).

(** The architecture: tables of 512 entries, nine bits of the address for each
    level; an entry is present by bit 0 and none when it is zero; [__pte] is
    [xen_make_pte], and [PAGE_KERNEL_RO] is not writable. *)
Record x64 : Prop := mk_x64 {
  x64_ptes : PTRS_PER_PTE = 512%nat;
  x64_pmds : PTRS_PER_PMD = 512%nat;
  x64_pgd_index : ∀ a, pgd_index a = a / 2 ^ 39 mod 512;
  x64_pud_index : ∀ a, pud_index a = a / 2 ^ 30 mod 512;
  x64_pmd_index : ∀ a, pmd_index a = a / 2 ^ 21 mod 512;
  x64_present : ∀ v, pmd_present v = Z.testbit v 0;
  x64_none : ∀ v, pte_none v = bool_decide (v = 0);
  x64_pte : ∀ pfn prot, pfn_pte pfn prot = xen_make_pte (make_entry pfn prot);
  x64_ro : Z.testbit PAGE_KERNEL_RO 1 = false
}.

(** The entry for an address in the table at [l4]. *)
Definition entry_at (t : Z) (i : nat) (s : boot_state) : option Z := l ← bt_tables s !! t; l !! i.
Definition link (t i : Z) (s : boot_state) : option Z :=
  e ← entry_at t (Z.to_nat i) s; if Z.testbit e 0 then Some (m2v L e) else None.
Definition translate (l4 va : Z) (s : boot_state) : option Z :=
  l3 ← link l4 (pgd_index va) s;
  l2 ← link l3 (pud_index va) s;
  l1 ← link l2 (pmd_index va) s;
  entry_at l1 (Z.to_nat (va / PAGE_SIZE mod 512)) s.

(** The entry maps the page. *)
Definition maps (pfn e : Z) : Prop := Z.testbit e 0 = true ∧ translated pfn (frame_of e).

(** How many entries of a table of the second level get a page below [left]
    pages, and how many of [free] fresh tables that takes. *)
Fixpoint grafted (l : list Z) (free : nat) (left : Z) : nat * nat :=
  match l with
  | [] => (0, 0)%nat
  | e :: l' =>
      if decide (left ≤ 0) then (0, 0)%nat
      else if pmd_present e then
        let '(n, u) := grafted l' free (left - 512) in (S n, u)
      else match free with
           | O => (0, 0)%nat
           | S free' => let '(n, u) := grafted l' free' (left - 512) in (S n, S u)
           end
  end.

(** A page of the kernel, at its address in the kernel's mapping. *)
Definition kernel_page (t : Z) : Prop :=
  let pfn := Z.shiftr (phys_of_virt t) PAGE_SHIFT in
  phys_of_virt t = Z.shiftl pfn PAGE_SHIFT ∧ 0 ≤ pfn < 2 ^ (phys_bits - 12) ∧ __ka L (phys_of_virt t) = t ∧
  ∃ mfn, translated pfn mfn.

(** Protections of ordinary pages. *)
Definition plain_prot (fl : Z) : Prop :=
  flags_only fl ∧ Z.testbit fl 0 = true ∧ Z.testbit fl 3 = false ∧ Z.testbit fl iomap_bit = false.

(** The operation that makes a table read-only, and those on the new table. *)
Definition ro_op (t : Z) : xen_op := UpdateVa t (pfn_pte (Z.shiftr (phys_of_virt t) PAGE_SHIFT) PAGE_KERNEL_RO) 0.
Definition table_op (cmd t : Z) : xen_op :=
  Mmuext (mk_mmuext_op cmd (Some (pfn_to_mfn (Z.shiftr (phys_of_virt t) PAGE_SHIFT))) None).

Definition ident_page (k : nat) : Z := brk_page L + PAGE_SIZE * Z.of_nat k.
Definition pte_pages (l : list Z) : list Z := m2v L <$> filter (λ e, pmd_present e = true) l.

End boot_spec.

(** ** Lemmas *)

Section boot_lemmas.
  Context `{PT : PageTable} `{PG : Pages} `{PL : P2MLaws} `{MB : McBuffer}.
  Context (L : boot_layout) (answer : list xen_op → xen_op → Z).
  Context (X : x64) (Hprot : plain_prot (PAGE_KERNEL_EXEC L)).
  Implicit Types s : boot_state.

(** *** Entries *)

Lemma make_plain pfn mfn fl : 0 ≤ pfn < 2 ^ (phys_bits - 12) → plain_prot fl → translated pfn mfn →
  xen_make_pte (make_entry pfn fl) = make_entry mfn fl.
Proof.
  intros Hf (Hfl & H0 & H3 & Hio) Ht. pose proof iomap_bit_range.
  assert (pat_to_xen (make_entry pfn fl) = make_entry pfn fl) as Hpat.
  { unfold pat_to_xen. destruct (_ && _); [|done]. rewrite decide_False; [done|].
    intros Heq. apply (f_equal (λ v, Z.testbit v 3)) in Heq. rewrite Z.land_spec, make_low, H3 in Heq by (done || lia).
    done. }
  unfold xen_make_pte. fold (pat_to_xen (make_entry pfn fl)). rewrite Hpat, iomap_test, make_low, Hio by (done || lia).
  cbn [negb andb]. rewrite clear_nothing by (rewrite make_low; done || lia).
  rewrite (pfn_to_mfn_entry _ mfn), H0 by done. done.
Qed.

(** Conversion does not make an entry writable. *)
Lemma make_entry_rw f fl : Z.testbit (make_entry f fl) 1 = Z.testbit fl 1.
Proof.
  unfold make_entry, u64, PAGE_SHIFT. rewrite Z.lor_spec, Z.mod_pow2_bits_low, Z.shiftl_spec by lia.
  by rewrite Z.testbit_neg_r by lia.
Qed.

Lemma flags_rw v : Z.testbit (Z.land v PTE_FLAGS_MASK) 1 = Z.testbit v 1.
Proof. rewrite Z.land_spec, flags_mask_bit by lia. simpl. by rewrite andb_true_r. Qed.

Lemma iomap_rw v : Z.testbit (clear v _PAGE_IOMAP) 1 = Z.testbit v 1 ∧ Z.testbit (Z.lor v _PAGE_IOMAP) 1 = Z.testbit v 1.
Proof.
  pose proof iomap_bit_range. unfold clear, _PAGE_IOMAP. rewrite Z.ldiff_spec, Z.lor_spec, shiftl_1_bit by lia.
  destruct (Z.eqb_spec iomap_bit 1); [lia|]. by rewrite andb_true_r, orb_false_r.
Qed.

Lemma make_pte_read_only v : Z.testbit v 1 = false → Z.testbit (xen_make_pte v) 1 = false.
Proof.
  intros Hv. unfold xen_make_pte. fold (pat_to_xen v).
  assert (Z.testbit (pat_to_xen v) 1 = false) as Hp by (rewrite pat_xen_bit; [done|lia|set_solver]).
  destruct (_ && _).
  - unfold iomap_pte. case_decide; [|done]. by rewrite make_entry_rw, flags_rw.
  - unfold pte_pfn_to_mfn. case_decide; [|by rewrite (proj1 (iomap_rw _))].
    repeat case_decide; rewrite make_entry_rw; [done|..]; rewrite ?(proj2 (iomap_rw _)), flags_rw; by rewrite (proj1 (iomap_rw _)).
Qed.

Lemma translated_range pfn mfn : translated pfn mfn → 0 ≤ mfn < 2 ^ (phys_bits - 12).
Proof. intros Ht. apply Ht. Qed.

Lemma make_maps pfn mfn fl : plain_prot fl → translated pfn mfn → maps pfn (make_entry mfn fl).
Proof.
  intros (Hfl & H0 & _) Ht. pose proof (translated_range _ _ Ht). split; [by rewrite make_low|].
  by rewrite frame_make.
Qed.

(** An entry that leads to a page of the kernel is followed to it. *)
Lemma m2v_link t mfn fl : kernel_page L t → plain_prot fl → translated (Z.shiftr (phys_of_virt t) PAGE_SHIFT) mfn →
  m2v L (make_entry mfn fl) = t.
Proof.
  intros (Hp & Hr & Hka & _) (Hfl & _) Ht. pose proof (translated_range _ _ Ht).
  unfold m2v, m2p_. fold (frame_of (make_entry mfn fl)). rewrite frame_make by done.
  destruct Ht as (_ & -> & _). rewrite frame_shift by done. unfold PAGE_SHIFT in *. by rewrite <-Hp.
Qed.

Lemma plain_low fl : fl ∈ [_PAGE_TABLE; _KERNPG_TABLE] → plain_prot fl.
Proof.
  pose proof iomap_bit_range. pose proof phys_bits_range. intros Hin.
  assert (0 ≤ fl < 2 ^ 7) as Hb by (rewrite !elem_of_cons, elem_of_nil in Hin; unfold _PAGE_TABLE, _KERNPG_TABLE in *; lia).
  assert (∀ n, 7 ≤ n → Z.testbit fl n = false) as Hh by (intros; by apply high_bit with 7).
  split; [split; [unfold is_u64; lia|intros; apply Hh; lia]|]. rewrite (Hh iomap_bit) by lia.
  by rewrite !elem_of_cons, elem_of_nil in Hin; destruct Hin as [->|[->|[]]].
Qed.

Lemma lor_entry t fl : kernel_page L t →
  Z.lor (phys_of_virt t) fl = make_entry (Z.shiftr (phys_of_virt t) PAGE_SHIFT) fl.
Proof. intros (Hp & Hr & _). unfold make_entry. rewrite frame_shift by done. unfold PAGE_SHIFT in *. by rewrite <-Hp. Qed.

(** The links of both constructors. *)
Lemma pte_link t fl : fl ∈ [_PAGE_TABLE; _KERNPG_TABLE] → kernel_page L t → let e := xen_make_pte (Z.lor (phys_of_virt t) fl) in
  Z.testbit e 0 = true ∧ m2v L e = t.
Proof.
  intros Hfl Hk. pose proof Hk as (Hp & Hr & Hka & mfn & Ht). cbv zeta. pose proof (plain_low fl Hfl) as Hpl.
  rewrite lor_entry, (make_plain _ mfn) by done. split; [by eapply make_maps|]. by apply m2v_link.
Qed.

Lemma pmd_link t : kernel_page L t → let e := xen_make_pmd (Z.lor (phys_of_virt t) _PAGE_TABLE) in
  Z.testbit e 0 = true ∧ m2v L e = t.
Proof.
  intros Hk. pose proof Hk as (Hp & Hr & Hka & mfn & Ht). cbv zeta.
  assert (plain_prot _PAGE_TABLE) as Hpl by (apply plain_low; rewrite !elem_of_cons; auto).
  unfold xen_make_pmd. rewrite lor_entry, (pfn_to_mfn_entry _ mfn) by (done || apply Hpl).
  replace (Z.testbit _PAGE_TABLE 0) with true by done. split; [by eapply make_maps|]. by apply m2v_link.
Qed.

(** *** A table of the lowest level *)

Fixpoint fill (pfn : Z) (l : list Z) : list Z :=
  match l with
  | [] => []
  | e :: l' => (if pte_none e then pfn_pte pfn (PAGE_KERNEL_EXEC L) else e) :: fill (pfn + 1) l'
  end.

Lemma length_fill pfn l : length (fill pfn l) = length l.
Proof. revert pfn. induction l as [|e l IH]; intros pfn; [done|]. simpl. by rewrite IH. Qed.

Lemma fill_entry_lookup l : ∀ pfn j, fill pfn l !! j =
  (λ e, if pte_none e then pfn_pte (pfn + Z.of_nat j) (PAGE_KERNEL_EXEC L) else e) <$> l !! j.
Proof.
  induction l as [|e l IH]; intros pfn j; [done|]. destruct j as [|j]; simpl; [by rewrite Z.add_0_r|].
  rewrite IH. by replace (pfn + 1 + Z.of_nat j) with (pfn + Z.of_nat (S j)) by lia.
Qed.

Lemma set_tables_same s : set_tables (bt_tables s) s = s.
Proof. by destruct s. Qed.

Lemma load_run t l i e s : bt_tables s !! t = Some l → l !! i = Some e → load t i s = Ret e.
Proof. intros Ht Hi. unfold load, table. rewrite Ht. cbn. by rewrite Hi. Qed.

Lemma store_run t dn e l v s : bt_tables s !! t = Some (dn ++ e :: l) →
  store t (length dn) v s = Ret (set_tables (<[t := dn ++ v :: l]> (bt_tables s)) s).
Proof.
  intros Ht. unfold store, table. rewrite Ht. cbn [of_option mbind outcome_bind].
  rewrite decide_True by (rewrite length_app; simpl; lia).
  rewrite <-(Nat.add_0_r (length dn)) at 1. by rewrite insert_app_r.
Qed.

Lemma map_ptes_run t rest : ∀ dn pfn s,
  bt_tables s !! t = Some (dn ++ rest) → 0 ≤ pfn → pfn + Z.of_nat (length rest) < 2 ^ 64 →
  map_ptes L (seq (length dn) (length rest)) t pfn s =
    Ret (pfn + Z.of_nat (length rest), set_tables (<[t := dn ++ fill pfn rest]> (bt_tables s)) s).
Proof.
  induction rest as [|e rest IH]; intros dn pfn s Ht H0 Hw.
  - simpl. rewrite insert_id, set_tables_same, Z.add_0_r by done. done.
  - cbn [length seq map_ptes fill]. cbn [length] in Hw.
    rewrite (load_run _ _ _ e _ Ht) by (by apply list_lookup_middle). cbn [mbind outcome_bind].
    set (v := if pte_none e then pfn_pte pfn (PAGE_KERNEL_EXEC L) else e).
    set (s1 := set_tables (<[t := dn ++ v :: rest]> (bt_tables s)) s).
    assert ((if negb (pte_none e) then Ret s else store t (length dn) (pfn_pte pfn (PAGE_KERNEL_EXEC L)) s) = Ret s1) as ->.
    { subst s1 v. destruct (pte_none e); cbn [negb]; [by apply (store_run _ _ e)|]. by rewrite insert_id, set_tables_same. }
    cbn [mbind outcome_bind]. rewrite u64_small by (unfold is_u64; lia).
    replace (S (length dn)) with (length (dn ++ [v])) by (rewrite length_app; simpl; lia).
    rewrite IH; [|subst s1; simpl; rewrite lookup_insert_eq; by rewrite <-app_assoc|lia|lia].
    subst s1. cbn [bt_tables set_tables]. rewrite insert_insert_eq, <-app_assoc. cbn [app].
    f_equal. f_equal. lia.
Qed.

(** *** The table of the second level *)

(** The pages from [base] on below [max_pfn] are mapped by this table; what an
    old table already maps is right. *)
Definition mapped (max_pfn base : Z) (page : list Z) : Prop :=
  length page = 512%nat ∧ ∀ j x, page !! j = Some x → base + Z.of_nat j < max_pfn → maps (base + Z.of_nat j) x.
Definition sound (max_pfn base : Z) (page : list Z) : Prop :=
  length page = 512%nat ∧
  ∀ j x, page !! j = Some x → x ≠ 0 → base + Z.of_nat j < max_pfn → maps (base + Z.of_nat j) x.
Definition sound_tables (max_pfn base : Z) (l : list Z) (ts : gmap Z (list Z)) : Prop :=
  ∀ i e, l !! i = Some e → pmd_present e = true →
    ∃ page, ts !! m2v L e = Some page ∧ sound max_pfn (base + 512 * Z.of_nat i) page.
Definition keeps (page page' : list Z) : Prop := ∀ j x, page !! j = Some x → x ≠ 0 → page' !! j = Some x.
Definition fresh (k : nat) : list Z := ident_page L <$> seq k (4 - k).

Context (max_pfn : Z) (Hmax : max_pfn ≤ 2 ^ (phys_bits - 12)).
Context (Hram : ∀ p, 0 ≤ p < max_pfn → ∃ mfn, translated p mfn).

Lemma fill_mapped base page : 0 ≤ base → sound max_pfn base page → mapped max_pfn base (fill base page).
Proof.
  intros Hb [Hl Hs]. split; [by rewrite length_fill|]. intros j x Hj Hlt. rewrite fill_entry_lookup in Hj.
  destruct (page !! j) as [e|] eqn:E; [|done]. simpl in Hj. rewrite (x64_none X) in Hj.
  case_bool_decide; simplify_eq; [|by apply Hs].
  rewrite (x64_pte X). destruct (Hram (base + Z.of_nat j)) as [mfn Ht]; [lia|].
  rewrite (make_plain _ mfn) by (done || lia). by apply make_maps.
Qed.

Lemma fill_keeps base page : keeps page (fill base page).
Proof.
  intros j x Hj Hx. rewrite fill_entry_lookup, Hj. simpl. rewrite (x64_none X). by rewrite bool_decide_false.
Qed.

Lemma sound_empty base : sound max_pfn base (replicate 512 0).
Proof. split; [done|]. intros j x Hj Hx. apply lookup_replicate in Hj. by destruct Hj as [-> _]. Qed.

(** The page the entry behind [dn] begins with. *)
Definition base_of (dn : list Z) : Z := 512 * Z.of_nat (length dn).

(** What the loop has done: the entries [rest] behind [dn] have become [l']. *)
Record graft_post (pmd : Z) (dn rest : list Z) (k n : nat) (ts ts' : gmap Z (list Z)) (l' : list Z) : Prop := mk_post {
  gp_pmd : ts' !! pmd = Some (dn ++ l');
  gp_length : length l' = length rest;
  gp_old : ∀ i e, rest !! i = Some e → pmd_present e = true → l' !! i = Some e;
  gp_mapped : ∀ i, (i < n)%nat → ∃ e page, l' !! i = Some e ∧ Z.testbit e 0 = true ∧
    ts' !! m2v L e = Some page ∧ mapped max_pfn (512 * Z.of_nat (length dn + i)) page;
  gp_other : ∀ t, t ≠ pmd → t ∉ pte_pages L rest → t ∉ fresh k → ts' !! t = ts !! t;
  gp_keeps : ∀ t page, t ≠ pmd → t ∉ fresh k → ts !! t = Some page → ∃ page', ts' !! t = Some page' ∧ keeps page page'
}.

Lemma pte_pages_cons x l :
  pte_pages L (x :: l) = if pmd_present x then m2v L x :: pte_pages L l else pte_pages L l.
Proof.
  unfold pte_pages. rewrite filter_cons. destruct (pmd_present x) eqn:E; [by rewrite decide_True|by rewrite decide_False].
Qed.

(** One entry: [e] stands where [x] stood, and leads to the table [page]. *)
Lemma graft_cons pmd dn x e rest k k' n ts ts1 ts' l' page :
  graft_post pmd (dn ++ [e]) rest k' n ts1 ts' l' →
  (pmd_present x = true → e = x ∧ k' = k ∧ ∃ old, ts !! m2v L e = Some old ∧ keeps old page) →
  (pmd_present x = false → k' = S k ∧ m2v L e ∈ fresh k) → (k' ≤ 4)%nat →
  Z.testbit e 0 = true → ts1 !! m2v L e = Some page → mapped max_pfn (512 * Z.of_nat (length dn)) page →
  (∀ t, t ≠ pmd → t ≠ m2v L e → ts1 !! t = ts !! t) →
  m2v L e ≠ pmd → m2v L e ∉ pte_pages L rest → m2v L e ∉ fresh k' →
  graft_post pmd dn (x :: rest) k (S n) ts ts' (e :: l').
Proof.
  intros [P1 P2 P3 P4 P5 P6] Hx1 Hx2 Hk4 He Hpage Hm Hts1 Hne Hnr Hnf.
  assert (∀ t, t ∉ fresh k → t ∉ fresh k') as Hsub.
  { intros t Ht Hin. apply Ht. unfold fresh in *. apply list_elem_of_fmap in Hin as (c & -> & Hc).
    apply list_elem_of_fmap_2. apply elem_of_seq in Hc. apply elem_of_seq.
    destruct (pmd_present x); [destruct Hx1 as (_ & -> & _)|destruct Hx2 as [-> _]]; try done; lia. }
  assert (∀ t, t ∉ pte_pages L (x :: rest) → t ∉ pte_pages L rest) as Hsub2.
  { intros t Ht Hin. apply Ht. rewrite pte_pages_cons. by case_match; [right|]. }
  split.
  - by rewrite P1, <-app_assoc.
  - simpl. by rewrite P2.
  - intros [|i] y Hy Hp; simpl in Hy; simplify_eq/=; [|by apply P3]. f_equal. by apply Hx1.
  - intros [|i] Hi.
    + exists e, page. do 2 (split; [done|]). rewrite P5, Nat.add_0_r by done. done.
    + destruct (P4 i) as (e' & pg & ? & ? & ? & Hpg); [lia|]. exists e', pg. do 3 (split; [done|]).
      rewrite length_app in Hpg. simpl in Hpg. replace (length dn + S i)%nat with (length dn + 1 + i)%nat by lia. done.
  - intros t Ht1 Ht2 Ht3. assert (t ≠ m2v L e) as Hte.
    { intros ->. destruct (pmd_present x) eqn:Ep.
      - destruct Hx1 as [-> _]; [done|]. apply Ht2. rewrite pte_pages_cons, Ep. by left.
      - by apply Ht3, Hx2. }
    rewrite P5 by auto. by apply Hts1.
  - intros t pg Ht1 Ht2 Hpg. destruct (decide (t = m2v L e)) as [->|Hte].
    + rewrite P5 by done. exists page. split; [done|]. destruct (pmd_present x) eqn:Ep.
      * destruct Hx1 as (_ & _ & old & Ho & Hk); [done|]. rewrite Ho in Hpg. by injection Hpg as ->.
      * destruct Hx2 as [_ Hin]; done.
    + apply P6; [done|by auto|]. by rewrite Hts1.
Qed.

Lemma sound_tables_cons base x l ts :
  sound_tables max_pfn base (x :: l) ts →
  (pmd_present x = true → ∃ page, ts !! m2v L x = Some page ∧ sound max_pfn base page) ∧
  sound_tables max_pfn (base + 512) l ts.
Proof.
  intros Hs. split.
  - intros Hp. destruct (Hs 0%nat x eq_refl Hp) as (page & ? & Hpg). exists page. by rewrite Z.add_0_r in Hpg.
  - intros i e Hi Hp. destruct (Hs (S i) e Hi Hp) as (page & ? & Hpg). exists page. split; [done|].
    by replace (base + 512 + 512 * Z.of_nat i) with (base + 512 * Z.of_nat (S i)) by lia.
Qed.

Lemma sound_tables_same base l ts ts1 :
  (∀ t, t ∈ pte_pages L l → ts1 !! t = ts !! t) → sound_tables max_pfn base l ts → sound_tables max_pfn base l ts1.
Proof.
  intros Ht Hs i e Hi Hp. destruct (Hs i e Hi Hp) as (page & Hpg & ?). exists page. rewrite Ht; [done|].
  unfold pte_pages. apply list_elem_of_fmap_2, list_elem_of_filter. split; [done|]. by eapply list_elem_of_lookup_2.
Qed.

Lemma fresh_S k : (k < 4)%nat → fresh k = ident_page L k :: fresh (S k).
Proof. intros Hk. unfold fresh. replace (4 - k)%nat with (S (4 - S k)) by lia. done. Qed.

Lemma fresh_0 c : (c < 4)%nat → ident_page L c ∈ fresh 0.
Proof. intros Hc. apply list_elem_of_fmap_2, elem_of_seq. lia. Qed.

(** The tables after one entry: the page filled, and the entry where it is new. *)
Lemma next_tables pmd p v w (ts : gmap Z (list Z)) :
  p ≠ pmd →
  (<[p := v]> (<[pmd := w]> ts)) !! pmd = Some w ∧ (<[p := v]> (<[pmd := w]> ts)) !! p = Some v ∧
  ∀ t, t ≠ pmd → t ≠ p → (<[p := v]> (<[pmd := w]> ts)) !! t = ts !! t.
Proof.
  intros Hp. rewrite lookup_insert_ne, !lookup_insert_eq by done. do 2 (split; [done|]).
  intros t H1 H2. by rewrite !lookup_insert_ne by done.
Qed.

(** The state before the loop, at the entries [rest]; and its run from there. *)
Record graft_pre (pmd : Z) (rest dn : list Z) (k : nat) (s : boot_state) : Prop := mk_pre {
  pre_pmd : bt_tables s !! pmd = Some (dn ++ rest);
  pre_length : (length dn + length rest ≤ 512)%nat;
  pre_k : (k ≤ 4)%nat;
  pre_distinct : NoDup (pmd :: pte_pages L rest ++ fresh k);
  pre_free : ∀ c, (k ≤ c < 4)%nat →
    bt_tables s !! ident_page L c = Some (replicate 512 0) ∧ kernel_page L (ident_page L c);
  pre_sound : sound_tables max_pfn (base_of dn) rest (bt_tables s)
}.
Definition graft_runs (pmd : Z) (rest dn : list Z) (k : nat) (s : boot_state) : Prop :=
  let g := grafted rest (4 - k) (max_pfn - base_of dn) in
  (g.2 ≤ 4 - k)%nat ∧
  ∃ l' ts', map_pmds L (brk_page L) max_pfn pmd (seq (length dn) (length rest)) (base_of dn)
      (512 * Z.of_nat k) s = Ret (512 * Z.of_nat (k + g.2), set_tables ts' s) ∧
    graft_post pmd dn rest k g.1 (bt_tables s) ts' l'.

Lemma base_of_app dn y : base_of (dn ++ [y]) = base_of dn + 512.
Proof. unfold base_of. rewrite length_app. simpl. lia. Qed.

Lemma length_next (dn : list Z) y : S (length dn) = length (dn ++ [y]).
Proof. rewrite length_app. simpl. lia. Qed.

(** The loop stops. *)
Lemma graft_stop pmd dn rest k s : bt_tables s !! pmd = Some (dn ++ rest) →
  ∃ l' ts', Ret (A := Z * boot_state) (512 * Z.of_nat k, s) = Ret (512 * Z.of_nat (k + 0), set_tables ts' s) ∧
    graft_post pmd dn rest k 0 (bt_tables s) ts' l'.
Proof.
  intros Hpmd. exists rest, (bt_tables s). rewrite set_tables_same, Nat.add_0_r. split; [done|].
  split; [done|done|by intros|intros; lia|done|]. intros t page _ _ Ht. exists page. split; [done|by intros ?].
Qed.

(** An entry that leads to a table already. *)
Lemma graft_present pmd x rest dn k s :
  (∀ dn k s, graft_pre pmd rest dn k s → graft_runs pmd rest dn k s) →
  pmd_present x = true → base_of dn < max_pfn →
  graft_pre pmd (x :: rest) dn k s → graft_runs pmd (x :: rest) dn k s.
Proof.
  intros IH Ep Hlt [Hpmd Hlen Hk Hnd Hfree Hs]. unfold graft_runs. cbv zeta. cbn [grafted length seq map_pmds].
  cbn [length] in Hlen. rewrite decide_False, decide_False by lia.
  rewrite (load_run _ _ _ x _ Hpmd) by (by apply list_lookup_middle). cbn [mbind outcome_bind]. rewrite !Ep. rewrite (x64_ptes X).
  apply sound_tables_cons in Hs as [Hx Hs]. assert (0 ≤ base_of dn ≤ 2 ^ 18) as Hr by (unfold base_of; lia).
  replace (max_pfn - base_of dn - 512) with (max_pfn - base_of (dn ++ [x])) by (rewrite base_of_app; lia).
  destruct (Hx Ep) as (page & Hpage & Hsp). rewrite pte_pages_cons, Ep in Hnd.
  cbn [app] in Hnd. apply NoDup_cons in Hnd as [Hn1 Hnd]. apply NoDup_cons in Hnd as [Hn2 Hnd].
  assert (m2v L x ≠ pmd) as Hne by (intros Heq; apply Hn1; rewrite Heq; by left).
  destruct (next_tables pmd (m2v L x) (fill (base_of dn) page) (dn ++ x :: rest) (bt_tables s) Hne) as (T1 & T2 & T3).
  rewrite (insert_id _ _ _ Hpmd) in T1, T2, T3.
  pose proof (map_ptes_run (m2v L x) page [] (base_of dn) s Hpage) as Em. cbn [app length] in Em.
  rewrite (proj1 Hsp) in Em. rewrite Em by lia. cbn [mbind outcome_bind]. clear Em.
  set (ts1 := <[m2v L x := _]> (bt_tables s)) in *. rewrite (length_next dn x).
  replace (base_of dn + Z.of_nat 512) with (base_of (dn ++ [x])) by (rewrite base_of_app; lia).
  destruct (IH (dn ++ [x]) k (set_tables ts1 s)) as [Hu (l' & ts' & E & Hpost)]; [split; try done|].
  - cbn [bt_tables set_tables]. by rewrite <-app_assoc.
  - rewrite length_app. simpl. lia.
  - apply NoDup_cons. split; [|done]. intros Hin. apply Hn1. by right.
  - intros c Hc. destruct (Hfree c Hc) as [Hf1 Hf2]. split; [|done]. cbn [bt_tables set_tables].
    assert (ident_page L c ∈ fresh k) as Hin by (apply list_elem_of_fmap_2, elem_of_seq; lia).
    rewrite T3; [done|..]; intros Heq; rewrite Heq in Hin.
  + apply Hn1. right. apply elem_of_app. by right.
  + apply Hn2. apply elem_of_app. by right.
  - rewrite base_of_app. apply sound_tables_same with (bt_tables s); [|done].
    intros t Ht. apply T3; intros ->; [apply Hn1; right|apply Hn2]; apply elem_of_app; by left.
  - destruct (grafted rest (4 - k) (max_pfn - base_of (dn ++ [x]))) as [n u]. cbn [fst snd] in *.
    split; [done|]. exists (x :: l'), ts'. split; [exact E|].
    apply (graft_cons pmd dn x x rest k k n (bt_tables s) ts1 ts' l' (fill (base_of dn) page)); try done.
  + intros _. do 2 (split; [done|]). exists page. split; [done|]. apply fill_keeps.
  + by rewrite Ep.
  + by rewrite <-(x64_present X).
  + apply fill_mapped; [lia|done].
  + intros Hin. apply Hn2, elem_of_app. by left.
  + intros Hin. apply Hn2, elem_of_app. by right.
Qed.

(** An entry that gets a fresh table. *)
Lemma graft_fresh pmd x rest dn k s :
  (∀ dn k s, graft_pre pmd rest dn k s → graft_runs pmd rest dn k s) →
  pmd_present x = false → base_of dn < max_pfn →
  graft_pre pmd (x :: rest) dn k s → graft_runs pmd (x :: rest) dn k s.
Proof.
  intros IH Ep Hlt [Hpmd Hlen Hk Hnd Hfree Hs]. unfold graft_runs. cbv zeta. cbn [grafted length seq map_pmds].
  cbn [length] in Hlen. rewrite decide_False, decide_False by lia.
  rewrite (load_run _ _ _ x _ Hpmd) by (by apply list_lookup_middle). cbn [mbind outcome_bind]. rewrite !Ep.
  unfold LEVEL1_IDENT_ENTRIES. rewrite (x64_ptes X).
  apply sound_tables_cons in Hs as [_ Hs]. assert (0 ≤ base_of dn ≤ 2 ^ 18) as Hr by (unfold base_of; lia).
  replace (max_pfn - base_of dn - 512) with (max_pfn - base_of (dn ++ [x])) by (rewrite base_of_app; lia).
  destruct (4 - k)%nat as [|free] eqn:Ek.
  { replace k with 4%nat by lia. rewrite decide_True by done.
    split; [simpl; lia|]. by apply (graft_stop pmd dn (x :: rest) 4). }
  rewrite decide_False by lia. rewrite u32_small by (unfold is_u32; lia).
  rewrite (fresh_S k) in Hnd by lia. rewrite pte_pages_cons, Ep in Hnd.
  set (p := brk_page L + 8 * (512 * Z.of_nat k)). assert (p = ident_page L k) as Hp by (subst p; unfold ident_page, PAGE_SIZE; lia).
  rewrite Hp. clear p Hp.
  destruct (Hfree k) as [Hzero Hkp]; [lia|]. destruct (pmd_link (ident_page L k) Hkp) as [He0 He]. cbv zeta in He0, He.
  set (e := xen_make_pmd _) in *.
  rewrite (store_run _ _ x _ e _ Hpmd). cbn [mbind outcome_bind].
  assert ((ident_page L k ∉ pte_pages L rest) ∧ (ident_page L k ∉ fresh (S k)) ∧ ident_page L k ≠ pmd ∧
    NoDup (pmd :: pte_pages L rest ++ fresh (S k))) as (Hn1 & Hn2 & Hne & Hnd').
  { apply NoDup_cons in Hnd as [Hna Hnd]. pose proof Hnd as Hnd0. rewrite <-Permutation_middle in Hnd0.
    apply NoDup_cons in Hnd0 as [Hnb Hnd0]. rewrite elem_of_app in Hnb. rewrite elem_of_app, elem_of_cons in Hna.
    split_and!; [by auto|by auto|intros Heq; apply Hna; by auto|]. apply NoDup_cons. split; [|done].
    rewrite elem_of_app. tauto. }
  destruct (next_tables pmd (ident_page L k) (fill (base_of dn) (replicate 512 0)) (dn ++ e :: rest) (bt_tables s) Hne)
    as (T1 & T2 & T3).
  set (s1 := set_tables (<[pmd := _]> (bt_tables s)) s).
  pose proof (map_ptes_run (ident_page L k) (replicate 512 0) [] (base_of dn) s1) as Em.
  cbn [app length] in Em. rewrite length_replicate in Em. rewrite Em; [|subst s1; simpl; by rewrite lookup_insert_ne|lia|lia].
  cbn [mbind outcome_bind]. clear Em. subst s1. cbn [bt_tables set_tables].
  set (ts1 := <[ident_page L k := _]> (<[pmd := _]> (bt_tables s))) in *. rewrite (length_next dn e).
  replace (base_of dn + Z.of_nat 512) with (base_of (dn ++ [e])) by (rewrite base_of_app; lia).
  replace (512 * Z.of_nat k + Z.of_nat 512) with (512 * Z.of_nat (S k)) by lia.
  destruct (IH (dn ++ [e]) (S k) (set_tables ts1 s)) as [Hu (l' & ts' & E & Hpost)]; [split; try done|].
  - cbn [bt_tables set_tables]. by rewrite <-app_assoc.
  - rewrite length_app. simpl. lia.
  - lia.
  - intros c Hc. destruct (Hfree c) as [Hf1 Hf2]; [lia|]. split; [|done]. cbn [bt_tables set_tables].
    assert (ident_page L c ∈ fresh (S k)) as Hin by (apply list_elem_of_fmap_2, elem_of_seq; lia).
    rewrite T3; [done|..]; intros Heq; rewrite Heq in Hin; [|done].
    apply NoDup_cons in Hnd' as [Hna _]. apply Hna, elem_of_app. by right.
  - rewrite base_of_app. apply sound_tables_same with (bt_tables s); [|done].
    intros t Ht. apply T3; intros ->; [|done]. apply NoDup_cons in Hnd' as [Hna _]. apply Hna, elem_of_app. by left.
  - replace (base_of (dn ++ [x])) with (base_of (dn ++ [e])) by (by rewrite !base_of_app).
    replace (4 - S k)%nat with free in * by lia.
    destruct (grafted rest free (max_pfn - base_of (dn ++ [e]))) as [n u]. cbn [fst snd] in *.
    split; [lia|]. exists (e :: l'), ts'. split; [rewrite <-Nat.add_succ_comm; exact E|].
    apply (graft_cons pmd dn x e rest k (S k) n (bt_tables s) ts1 ts' l' (fill (base_of dn) (replicate 512 0))); try done.
  + by rewrite Ep.
  + intros _. split; [done|]. rewrite He. apply list_elem_of_fmap_2, elem_of_seq. lia.
  + lia.
  + by rewrite He.
  + apply fill_mapped; [lia|apply sound_empty].
  + by rewrite He.
  + by rewrite He.
  + by rewrite He.
  + by rewrite He.
Qed.

Lemma map_pmds_run pmd rest : ∀ dn k s, graft_pre pmd rest dn k s → graft_runs pmd rest dn k s.
Proof.
  induction rest as [|x rest IH]; intros dn k s Hpre.
  - split; [simpl; lia|]. apply graft_stop, Hpre.
  - destruct (decide (max_pfn ≤ base_of dn)) as [Hm|Hm].
    + unfold graft_runs. cbv zeta. cbn [grafted length seq map_pmds]. rewrite decide_True, decide_True by lia.
      split; [simpl; lia|]. apply graft_stop, Hpre.
    + destruct (pmd_present x) eqn:Ep; [apply graft_present|apply graft_fresh]; auto with lia.
Qed.

(** *** Hypercalls *)

Context (Hro : ∀ calls va v, Z.testbit v 1 = false → answer calls (UpdateVa va v 0) = 0).

Definition called (ops : list xen_op) s : boot_state :=
  mk_boot_state _ (bt_tables s) (bt_calls s ++ ops) (bt_cpu s) (max_pfn_mapped s) (reserved s).

Lemma called_called ops1 ops2 s : called ops2 (called ops1 s) = called (ops1 ++ ops2) s.
Proof. unfold called. simpl. by rewrite app_assoc. Qed.

Lemma direct_call_run op s : answer (bt_calls s) op = 0 → direct_call answer op s = Ret (called [op] s).
Proof. intros Ha. unfold direct_call. by rewrite decide_False by auto. Qed.

Lemma set_page_prot_run t s : set_page_prot answer t PAGE_KERNEL_RO s = Ret (called [ro_op t] s).
Proof.
  apply direct_call_run, Hro. rewrite (x64_pte X). apply make_pte_read_only. rewrite make_entry_rw. apply (x64_ro X).
Qed.

Lemma protect_ident_run n : ∀ k s,
  protect_ident answer (brk_page L) n (Z.of_nat k) s = Ret (called (ro_op <$> (ident_page L <$> seq k n)) s).
Proof.
  induction n as [|n IH]; intros k s; simpl.
  - unfold called. rewrite app_nil_r. by destruct s.
  - rewrite (x64_ptes X), set_page_prot_run. cbn [mbind outcome_bind].
    replace (Z.of_nat k + 1) with (Z.of_nat (S k)) by lia. rewrite IH, called_called. unfold ident_page at 3, PAGE_SIZE.
    by replace (brk_page L + 8 * (Z.of_nat k * Z.of_nat 512)) with (brk_page L + 4096 * Z.of_nat k) by lia.
Qed.

(** *** Tables and brk *)

Definition with_brk (ts : gmap Z (list Z)) : gmap Z (list Z) :=
  foldr (λ k, <[ident_page L k := replicate PTRS_PER_PTE 0]>) ts (seq 0 4).

Lemma with_brk_other t ts : t ∉ fresh 0 → with_brk ts !! t = ts !! t.
Proof.
  unfold fresh, with_brk. intros Ht. simpl in *. rewrite !elem_of_cons, elem_of_nil in Ht.
  rewrite !lookup_insert_ne; [done|..]; intros <-; tauto.
Qed.

Lemma with_brk_ident c ts : (c < 4)%nat → with_brk ts !! ident_page L c = Some (replicate 512 0).
Proof.
  intros Hc. unfold with_brk. rewrite (x64_ptes X). simpl.
  assert (∀ a b : nat, a ≠ b → ident_page L a ≠ ident_page L b) as Hne by (unfold ident_page, PAGE_SIZE; intros; lia).
  do 4 (destruct c as [|c]; [repeat (rewrite lookup_insert_ne by (apply Hne; lia)); by rewrite lookup_insert_eq|]). lia.
Qed.

Lemma convert_run v : ∀ rest dn s, bt_tables s !! v = Some (dn ++ rest) →
  convert_entries (seq (length dn) (length rest)) v s =
    Ret (set_tables (<[v := dn ++ (xen_make_pte <$> rest)]> (bt_tables s)) s).
Proof.
  intros rest. induction rest as [|e rest IH]; intros dn s Hv.
  - simpl. by rewrite insert_id, set_tables_same.
  - cbn [length seq convert_entries]. rewrite (load_run _ _ _ e _ Hv) by (by apply list_lookup_middle).
    cbn [mbind outcome_bind]. rewrite (store_run _ _ e rest) by done. cbn [mbind outcome_bind].
    rewrite (length_next dn (xen_make_pte e)), IH by (simpl; rewrite lookup_insert_eq; by rewrite <-app_assoc).
    cbn [bt_tables set_tables]. by rewrite insert_insert_eq, <-app_assoc.
Qed.

Lemma convert_pfn_mfn_run v l s : bt_tables s !! v = Some l → length l = 512%nat →
  convert_pfn_mfn v s = Ret (set_tables (<[v := xen_make_pte <$> l]> (bt_tables s)) s).
Proof.
  intros Hv Hl. unfold convert_pfn_mfn. rewrite (x64_ptes X). rewrite <-Hl. apply (convert_run v l [] s Hv).
Qed.

Lemma copy_pmds_run dst src from to s :
  bt_tables s !! src = Some from → bt_tables s !! dst = Some to → length from = 512%nat → length to = 512%nat →
  copy_pmds dst src s = Ret (set_tables (<[dst := from]> (bt_tables s)) s).
Proof.
  intros Hs Hd Hf Ht. unfold copy_pmds, table. rewrite Hs, Hd. cbn [of_option mbind outcome_bind].
  rewrite (x64_pmds X), decide_True by lia. rewrite take_ge, drop_ge, app_nil_r by lia. done.
Qed.

(** The whole identity map. *)
Lemma map_identity_run pmd l s :
  bt_tables s !! pmd = Some l → length l = 512%nat → NoDup (pmd :: pte_pages L l ++ fresh 0) →
  (∀ c, (c < 4)%nat → kernel_page L (ident_page L c)) → sound_tables max_pfn 0 l (bt_tables s) →
  let g := grafted l 4 max_pfn in
  ∃ l' ts', xen_map_identity_early L answer pmd max_pfn s =
      Ret (called ((ro_op <$> (ident_page L <$> seq 0 g.2)) ++ [ro_op pmd]) (set_tables ts' s)) ∧
    graft_post pmd [] l 0 g.1 (with_brk (bt_tables s)) ts' l'.
Proof.
  intros Hpmd Hl Hnd Hk Hs. cbv zeta. set (s0 := set_tables (with_brk (bt_tables s)) s).
  assert (∀ t, t ∈ pmd :: pte_pages L l → with_brk (bt_tables s) !! t = bt_tables s !! t) as Hold.
  { intros t Ht. apply with_brk_other. intros Hf. change (pmd :: pte_pages L l ++ fresh 0) with ((pmd :: pte_pages L l) ++ fresh 0) in Hnd.
    apply NoDup_app in Hnd as (_ & Hd & _). by apply (Hd t). }
  destruct (map_pmds_run pmd l [] 0 s0) as [Hu (l' & ts' & E & Hp)].
  { split; try done; try (simpl; lia).
    - cbn [bt_tables s0 set_tables app]. rewrite Hold by left. done.
    - intros c Hc. split; [apply with_brk_ident; lia|apply Hk; lia].
    - apply sound_tables_same with (bt_tables s); [|done]. intros t Ht. apply Hold. by right. }
  unfold xen_map_identity_early. change (extend_brk L s) with (brk_page L, s0). cbv iota.
  change (base_of []) with 0 in *. rewrite Z.sub_0_r in *. change (4 - 0)%nat with 4%nat in *.
  simpl length in E. rewrite Hl in E. rewrite (x64_pmds X). change (512 * Z.of_nat 0) with 0 in E. rewrite E.
  cbn [mbind outcome_bind]. rewrite (x64_ptes X).
  replace (Z.to_nat (512 * Z.of_nat (0 + (grafted l 4 max_pfn).2) / Z.of_nat 512)) with (grafted l 4 max_pfn).2
    by (rewrite Z.mul_comm, Z.div_mul by done; lia).
  rewrite (protect_ident_run _ 0). cbn [mbind outcome_bind]. rewrite set_page_prot_run, called_called.
  exists l', ts'. split; [done|exact Hp].
Qed.

(** *** The whole table *)

(** What head_64.S and the hypervisor leave: the kernel's tables of the two
    upper levels lead to those of the second, for the direct mapping and for
    the kernel's own; the table [pgd] the kernel was started on leads to [l2]
    for the kernel, whose page tables are sound; no two tables are the same. *)
Record boot_ready (pgd x3 x2 : Z) (l2 : list Z) (s : boot_state) : Prop := mk_boot_ready {
  br_tables : ∀ t, t ∈ [init_level4_pgt L; level3_ident_pgt L; level3_kernel_pgt L; level2_ident_pgt L;
    level2_kernel_pgt L; level2_fixmap_pgt L] → ∃ l, bt_tables s !! t = Some l ∧ length l = 512%nat;
  br_distinct : NoDup ([init_level4_pgt L; level3_ident_pgt L; level3_kernel_pgt L; level2_ident_pgt L;
    level2_kernel_pgt L; level2_fixmap_pgt L; pgd; x3; x2] ++ pte_pages L l2 ++ fresh 0);
  br_kernel : ∀ t, t ∈ [level3_ident_pgt L; level3_kernel_pgt L; level2_ident_pgt L; level2_kernel_pgt L] ++ fresh 0 →
    kernel_page L t;
  br_offset : PAGE_OFFSET mod 2 ^ 39 = 0 ∧ pgd_index PAGE_OFFSET ≠ 0;
  br_start : START_KERNEL_map L mod 2 ^ 30 = 0 ∧ 0 ≤ START_KERNEL_map L < 2 ^ 64 ∧ pgd_index (START_KERNEL_map L) ≠ 0;
  br_ident4 : entry_at (init_level4_pgt L) (Z.to_nat (pgd_index PAGE_OFFSET)) s =
    Some (Z.lor (phys_of_virt (level3_ident_pgt L)) _KERNPG_TABLE);
  br_ident3 : entry_at (level3_ident_pgt L) (Z.to_nat (pud_index PAGE_OFFSET)) s =
    Some (Z.lor (phys_of_virt (level2_ident_pgt L)) _KERNPG_TABLE);
  br_kernel4 : entry_at (init_level4_pgt L) (Z.to_nat (pgd_index (START_KERNEL_map L))) s =
    Some (Z.lor (phys_of_virt (level3_kernel_pgt L)) _PAGE_TABLE);
  br_kernel3 : entry_at (level3_kernel_pgt L) (Z.to_nat (pud_index (START_KERNEL_map L))) s =
    Some (Z.lor (phys_of_virt (level2_kernel_pgt L)) _KERNPG_TABLE);
  br_xen4 : link L pgd (pgd_index (START_KERNEL_map L)) s = Some x3;
  br_xen3 : link L x3 (pud_index (START_KERNEL_map L)) s = Some x2;
  br_xen2 : bt_tables s !! x2 = Some l2 ∧ length l2 = 512%nat ∧ sound_tables max_pfn 0 l2 (bt_tables s)
}.

(** An address in the first gigabyte behind [base]. *)
Lemma index_split base i j : base mod 2 ^ 30 = 0 → 0 ≤ i < 512 → 0 ≤ j < 512 →
  let va := base + 2 ^ 21 * i + 4096 * j in
  pgd_index va = pgd_index base ∧ pud_index va = pud_index base ∧ pmd_index va = i ∧ va / PAGE_SIZE mod 512 = j.
Proof.
  intros Hb Hi Hj. cbv zeta. rewrite !(x64_pgd_index X), !(x64_pud_index X), (x64_pmd_index X).
  apply Z.div_exact in Hb; [|done]. set (q := base / 2 ^ 30) in *. rewrite Hb. unfold PAGE_SIZE.
  assert ((2 ^ 30 * q + 2 ^ 21 * i + 4096 * j) / 2 ^ 30 = q) as E30 by (symmetry; apply Z.div_unique with (2 ^ 21 * i + 4096 * j); lia).
  assert ((2 ^ 30 * q + 2 ^ 21 * i + 4096 * j) / 2 ^ 21 = q * 512 + i) as E21 by (symmetry; apply Z.div_unique with (4096 * j); lia).
  assert ((2 ^ 30 * q + 2 ^ 21 * i + 4096 * j) / 4096 = (q * 512 + i) * 512 + j) as E12
    by (symmetry; apply Z.div_unique with 0; lia).
  replace (2 ^ 39) with (2 ^ 30 * 2 ^ 9) by done. rewrite <-!Z.div_div by done. rewrite E30, E21, E12.
  replace (2 ^ 30 * q / 2 ^ 30) with q by (rewrite Z.mul_comm, Z.div_mul; done).
  split_and!; [done|done|rewrite Z.add_comm, Z.mod_add by done; by apply Z.mod_small|].
  rewrite Z.add_comm, Z.mod_add by done. by apply Z.mod_small.
Qed.

Lemma link_run t i l e s : bt_tables s !! t = Some l → l !! Z.to_nat i = Some e → Z.testbit e 0 = true →
  link L t i s = Some (m2v L e).
Proof. intros Ht Hi He. unfold link, entry_at. rewrite Ht. cbn [mbind option_bind]. rewrite Hi. cbn [mbind option_bind]. by rewrite He. Qed.

(** The first half of the function, up to the copies. *)
Definition copied_tables (l4 l3i l3k l2 : list Z) (ts ts1 : gmap Z (list Z)) : Prop :=
  ts1 !! init_level4_pgt L = Some (xen_make_pte <$> <[0%nat := xen_make_pgd 0]> l4) ∧
  ts1 !! level3_ident_pgt L = Some (xen_make_pte <$> l3i) ∧ ts1 !! level3_kernel_pgt L = Some (xen_make_pte <$> l3k) ∧
  ts1 !! level2_ident_pgt L = Some l2 ∧ ts1 !! level2_kernel_pgt L = Some l2 ∧
  ∀ t, t ∉ [init_level4_pgt L; level3_ident_pgt L; level3_kernel_pgt L; level2_ident_pgt L; level2_kernel_pgt L;
    level2_fixmap_pgt L] → ts1 !! t = ts !! t.

Lemma link_load t i t' s : link L t i s = Some t' → ∃ e, load t (Z.to_nat i) s = Ret e ∧ m2v L e = t'.
Proof.
  unfold link, entry_at, load, table. intros Hl. destruct (bt_tables s !! t) as [l|]; [|done]. cbn [mbind option_bind outcome_bind of_option] in *.
  destruct (l !! Z.to_nat i) as [e|]; [|done]. cbn [mbind option_bind] in Hl. exists e. split; [done|].
  by destruct (Z.testbit e 0); simplify_eq.
Qed.

Lemma pmd_table_run pgd x3 x2 a s s1 :
  link L pgd (pgd_index a) s = Some x3 → link L x3 (pud_index a) s = Some x2 →
  bt_tables s1 !! pgd = bt_tables s !! pgd → bt_tables s1 !! x3 = bt_tables s !! x3 →
  pmd_table L pgd a s1 = Ret x2.
Proof.
  intros H4 H3 E4 E3. unfold pmd_table.
  assert (link L pgd (pgd_index a) s1 = Some x3) as H4' by (unfold link, entry_at in *; by rewrite E4).
  assert (link L x3 (pud_index a) s1 = Some x2) as H3' by (unfold link, entry_at in *; by rewrite E3).
  destruct (link_load _ _ _ _ H4') as (e4 & E1 & E2). rewrite E1. cbn [mbind outcome_bind]. rewrite E2.
  destruct (link_load _ _ _ _ H3') as (e3 & E5 & E6). rewrite E5. cbn [mbind outcome_bind]. by rewrite E6.
Qed.

Definition pin_op4 : xen_op := table_op MMUEXT_PIN_L4_TABLE (init_level4_pgt L).
Definition protect_ops (u : nat) : list xen_op :=
  (ro_op <$> (ident_page L <$> seq 0 u)) ++
  (ro_op <$> [level2_ident_pgt L; init_level4_pgt L; level3_ident_pgt L; level3_kernel_pgt L; level3_user_vsyscall L;
              level2_kernel_pgt L; level2_fixmap_pgt L]).

(** The second megabyte pair has the same tables above it. *)
Lemma next_index a : a mod 2 ^ 30 = 0 → 0 ≤ a < 2 ^ 64 →
  pgd_index (u64 (a + PMD_SIZE)) = pgd_index a ∧ pud_index (u64 (a + PMD_SIZE)) = pud_index a.
Proof.
  intros Ha Hr. pose proof (Z.div_mod a (2 ^ 30)) as Hd. rewrite Ha in Hd.
  rewrite u64_small by (unfold is_u64, PMD_SIZE; lia).
  destruct (index_split a 1 0) as (E1 & E2 & _); try done. unfold PMD_SIZE.
  by replace (a + 2 ^ 21 * 1 + 4096 * 0) with (a + 2 ^ 21) in * by lia.
Qed.

(** An entry of the map of tables, by the stores before it. *)
Ltac at_table := cbn [bt_tables set_tables set_max_pfn_mapped];
  repeat first [rewrite lookup_insert_eq | rewrite lookup_insert_ne by done]; done.

(** The run of the function. *)
Lemma setup_run lazy_mode pgd x3 x2 l2 s :
  boot_ready pgd x3 x2 l2 s →
  let g := grafted l2 4 max_pfn in
  (∀ calls, protect_ops g.2 ⊆ calls → answer calls pin_op4 = 0) →
  (∀ calls, pin_op4 ∈ calls → answer calls (table_op MMUEXT_UNPIN_TABLE pgd) = 0) →
  ∃ s' l4 l3i l3k l' ts1, xen_setup_kernel_pagetable L answer lazy_mode pgd max_pfn s = Ret (init_level4_pgt L, s') ∧
    bt_tables s !! init_level4_pgt L = Some l4 ∧ bt_tables s !! level3_ident_pgt L = Some l3i ∧
    bt_tables s !! level3_kernel_pgt L = Some l3k ∧ copied_tables l4 l3i l3k l2 (bt_tables s) ts1 ∧
    graft_post (level2_ident_pgt L) [] l2 0 g.1 (with_brk ts1) (bt_tables s') l' ∧
    bt_calls s' = bt_calls s ++ protect_ops g.2 ++ [pin_op4; table_op MMUEXT_UNPIN_TABLE pgd] ∧
    bt_cpu s' = on_cpu_buffer (mcb_issue lazy_mode PARAVIRT_LAZY_CPU)
      (__xen_write_cr3 true (phys_of_virt (init_level4_pgt L)) (on_cpu_buffer mcb_batch (bt_cpu s))).
Proof.
  intros [Hts Hnd Hk Hoff Hst H1 H2 H3 H4 Hx4 Hx3 (Hx2 & Hl2 & Hs2)] g Hpin Hunpin.
  destruct (Hts (init_level4_pgt L)) as (l4 & T1 & N1); [rewrite !elem_of_cons; tauto|].
  destruct (Hts (level3_ident_pgt L)) as (l3i & T2 & N2); [rewrite !elem_of_cons; tauto|].
  destruct (Hts (level3_kernel_pgt L)) as (l3k & T3 & N3); [rewrite !elem_of_cons; tauto|].
  destruct (Hts (level2_ident_pgt L)) as (l2i & T4 & N4); [rewrite !elem_of_cons; tauto|].
  destruct (Hts (level2_kernel_pgt L)) as (l2k & T5 & N5); [rewrite !elem_of_cons; tauto|].
  destruct (Hts (level2_fixmap_pgt L)) as (l2f & T6 & N6); [rewrite !elem_of_cons; tauto|]. clear Hts.
  pose proof Hnd as Hnd0. cbn [app] in Hnd0. rewrite !NoDup_cons, !not_elem_of_cons in Hnd0.
  unfold xen_setup_kernel_pagetable. set (s0 := set_max_pfn_mapped _ s).
  destruct l4 as [|x4 l4]; [done|]. rewrite (store_run (init_level4_pgt L) [] x4 l4) by done. cbn [mbind outcome_bind].
  rewrite (convert_pfn_mfn_run _ (xen_make_pgd 0 :: l4)); [|cbn; by rewrite lookup_insert_eq|done].
  cbn [mbind outcome_bind].
  destruct_and! Hnd0.
  rewrite (convert_pfn_mfn_run _ l3i) by at_table. cbn [mbind outcome_bind].
  rewrite (convert_pfn_mfn_run _ l3k) by at_table. cbn [mbind outcome_bind].
  rewrite (pmd_table_run _ _ _ _ _ _ Hx4 Hx3) by at_table. cbn [mbind outcome_bind].
  rewrite (copy_pmds_run _ _ l2 l2i) by at_table. cbn [mbind outcome_bind].
  rewrite (copy_pmds_run _ _ l2 l2k) by at_table. cbn [mbind outcome_bind].
  destruct (next_index _ (proj1 Hst) (proj1 (proj2 Hst))) as [I4 I3].
  rewrite <-I4 in Hx4. rewrite <-I3 in Hx3.
  rewrite (pmd_table_run _ _ _ _ _ _ Hx4 Hx3) by at_table. cbn [mbind outcome_bind].
  rewrite (copy_pmds_run _ _ l2 l2f) by at_table. cbn [mbind outcome_bind].
  set (s1 := set_tables (<[level2_fixmap_pgt L := l2]> _) _).
  assert (copied_tables (x4 :: l4) l3i l3k l2 (bt_tables s) (bt_tables s1)) as Hc.
  { split_and!; try (subst s1; at_table). intros t Ht. rewrite !not_elem_of_cons in Ht. destruct_and! Ht. subst s1. at_table. }
  destruct (map_identity_run (level2_ident_pgt L) l2 s1) as (l' & ts' & E & Hp).
  - apply Hc.
  - done.
  - by apply NoDup_cons.
  - intros c Hc4. apply Hk, elem_of_app. right. by apply fresh_0.
  - apply sound_tables_same with (bt_tables s); [|done]. intros t Ht. apply Hc.
    assert (∀ a, a ∉ pte_pages L l2 ++ fresh 0 → t ≠ a) as Hne by (intros a Ha ->; apply Ha, elem_of_app; by left).
    rewrite !not_elem_of_cons. split_and!; try (by apply Hne). apply not_elem_of_nil.
  - fold g in E, Hp. rewrite E. cbn [mbind outcome_bind].
    repeat (rewrite set_page_prot_run; cbn [mbind outcome_bind]; rewrite called_called).
    unfold pin_pagetable_pfn. fold (table_op MMUEXT_PIN_L4_TABLE (init_level4_pgt L)) (table_op MMUEXT_UNPIN_TABLE pgd).
    fold pin_op4.
    match goal with |- context [called ?o _] => assert (o = protect_ops g.2) as -> by (unfold protect_ops; by rewrite <-!app_assoc) end.
    rewrite direct_call_run by (apply Hpin; intros o Ho; apply elem_of_app; by right). cbn [mbind outcome_bind]. rewrite called_called.
    rewrite direct_call_run by (apply Hunpin, elem_of_app; right; apply elem_of_app; right; by left). cbn [mbind outcome_bind]. rewrite called_called.
    eexists _, _, _, _, l', (bt_tables s1). split; [reflexivity|]. do 5 (split; [done|]).
    split; [cbn; by rewrite <-app_assoc|done].
Qed.

(** *** What the new table translates *)

(** A converted link of the kernel's tables is followed as it was meant. *)
Lemma converted_link t t' fl i l s :
  fl ∈ [_PAGE_TABLE; _KERNPG_TABLE] → l !! Z.to_nat i = Some (Z.lor (phys_of_virt t') fl) → kernel_page L t' →
  bt_tables s !! t = Some (xen_make_pte <$> l) → link L t i s = Some t'.
Proof.
  intros Hfl He Hk Ht. destruct (pte_link t' fl Hfl Hk) as [H0 Hm]. cbv zeta in H0, Hm.
  rewrite <-Hm. eapply link_run; [exact Ht| |done]. by rewrite list_lookup_fmap, He.
Qed.

Lemma entry_lookup t i l s e : bt_tables s !! t = Some l → entry_at t i s = Some e → l !! i = Some e.
Proof. intros Ht He. unfold entry_at in He. by rewrite Ht in He. Qed.

Lemma zapped_lookup a (l : list Z) e : pgd_index a ≠ 0 → l !! Z.to_nat (pgd_index a) = Some e →
  (<[0%nat := xen_make_pgd 0]> l) !! Z.to_nat (pgd_index a) = Some e.
Proof.
  intros Ha He. rewrite list_lookup_insert_ne; [done|]. rewrite (x64_pgd_index X) in *.
  pose proof (Z.mod_pos_bound (a / 2 ^ 39) 512). lia.
Qed.

(** Which tables the identity map leaves as they were. *)
Lemma untouched pgd x3 x2 l2 s n ts ts' l' t :
  boot_ready pgd x3 x2 l2 s → graft_post (level2_ident_pgt L) [] l2 0 n (with_brk ts) ts' l' →
  t ∈ [init_level4_pgt L; level3_ident_pgt L; level3_kernel_pgt L; level2_kernel_pgt L] → ts' !! t = ts !! t.
Proof.
  intros Hb [_ _ _ _ Hother _] Ht. pose proof (br_distinct _ _ _ _ _ Hb) as Hnd. cbn [app] in Hnd.
  rewrite !NoDup_cons, !not_elem_of_cons in Hnd. destruct_and! Hnd.
  assert ((t ∉ pte_pages L l2 ++ fresh 0) ∧ t ≠ level2_ident_pgt L) as [Hn Hne].
  { rewrite !elem_of_cons, elem_of_nil in Ht. by destruct Ht as [->|[->|[->|[->|[]]]]]. }
  rewrite elem_of_app in Hn. rewrite Hother by tauto. apply with_brk_other. tauto.
Qed.

Lemma old_page pgd x3 x2 l2 s l4 l3i l3k ts1 i e page :
  boot_ready pgd x3 x2 l2 s → copied_tables l4 l3i l3k l2 (bt_tables s) ts1 →
  l2 !! i = Some e → pmd_present e = true → bt_tables s !! m2v L e = Some page →
  m2v L e ≠ level2_ident_pgt L ∧ (m2v L e ∉ fresh 0) ∧ with_brk ts1 !! m2v L e = Some page.
Proof.
  intros Hb (_ & _ & _ & _ & _ & Hc) Hi Hp Hpage. pose proof (br_distinct _ _ _ _ _ Hb) as Hnd.
  assert (m2v L e ∈ pte_pages L l2) as Hin.
  { unfold pte_pages. apply list_elem_of_fmap_2, list_elem_of_filter. split; [done|]. by eapply list_elem_of_lookup_2. }
  assert (m2v L e ∉ fresh 0) as Hf.
  { apply NoDup_app in Hnd as (_ & _ & Hnd). apply NoDup_app in Hnd as (_ & Hd & _). by apply Hd. }
  cbn [app] in Hnd. rewrite !NoDup_cons, !not_elem_of_cons in Hnd. destruct_and! Hnd.
  assert (∀ a, a ∉ pte_pages L l2 ++ fresh 0 → m2v L e ≠ a) as Hne by (intros a Ha <-; apply Ha, elem_of_app; by left).
  split; [by apply Hne|]. split; [done|]. rewrite with_brk_other, Hc; [done| |done].
  rewrite !not_elem_of_cons. split_and!; try (by apply Hne). apply not_elem_of_nil.
Qed.

(** Walking down, level by level. *)
Lemma translate_run l4 l3 l2 base i j l e page s :
  base mod 2 ^ 30 = 0 → 0 ≤ i < 512 → (j < 512)%nat →
  link L l4 (pgd_index base) s = Some l3 → link L l3 (pud_index base) s = Some l2 →
  bt_tables s !! l2 = Some l → l !! Z.to_nat i = Some e → Z.testbit e 0 = true → bt_tables s !! m2v L e = Some page →
  translate L l4 (base + 2 ^ 21 * i + 4096 * Z.of_nat j) s = page !! j.
Proof.
  intros Hb Hi Hj H4 H3 Hl He Hp Hpage. unfold translate.
  destruct (index_split base i (Z.of_nat j) Hb Hi) as (-> & -> & -> & ->); [lia|].
  rewrite H4. cbn [mbind option_bind]. rewrite H3. cbn [mbind option_bind].
  rewrite (link_run _ _ _ _ _ Hl He Hp). cbn [mbind option_bind]. unfold entry_at. rewrite Hpage. cbn [mbind option_bind].
  by rewrite Nat2Z.id.
Qed.

(** A page number by table and entry. *)
Lemma page_number pfn : 0 ≤ pfn →
  pfn = 512 * Z.of_nat (Z.to_nat (pfn / 512)) + Z.of_nat (Z.to_nat (pfn mod 512)) ∧ (Z.to_nat (pfn mod 512) < 512)%nat.
Proof.
  intros Hp. pose proof (Z.mod_pos_bound pfn 512). pose proof (Z.div_pos pfn 512).
  pose proof (Z.div_mod pfn 512). lia.
Qed.

Lemma mod_30 a : a mod 2 ^ 39 = 0 → a mod 2 ^ 30 = 0.
Proof. intros Ha. apply Z.div_exact in Ha; [|done]. rewrite Ha. replace (2 ^ 39) with (2 ^ 9 * 2 ^ 30) by done. rewrite (Z.mul_comm (2 ^ 9)), <-Z.mul_assoc, Z.mul_comm. by apply Z.mod_mul. Qed.

(** ** Correctness *)


End boot_lemmas.

(** ** A machine that boots

    Machine frames are 16 further on than the kernel's; the hypervisor refuses
    writable mappings, and to pin the new table before all parts of it are
    read-only.  The kernel was started on one page table of 512 entries, the
    upper part of which is in use, and has 700 pages. *)

Definition boot_p2m : P2M := {|
  phys_bits := 46; iomap_bit := 10;
  get_phys_to_machine f := f + 16; m2p f := f - 16;
  INVALID_P2M_ENTRY := 2 ^ 64 - 1; FOREIGN_FRAME_BIT := 2 ^ 63; IDENTITY_FRAME_BIT := 2 ^ 62;
  auto_translated := false; xen_initial_domain := false; pat_enabled := true; ISA_END_ADDRESS := 1048576
|}.

#[export] Instance boot_p2m_laws : @P2MLaws boot_p2m.
Proof. split; simpl; lia. Qed.

Definition boot_start : Z := 0xffffffff80000000.
Definition boot_offset : Z := 0xffff880000000000.

Definition boot_page_table : PageTable := {|
  deref p := 0;
  pgd_offset m a := 0; pud_offset p a := 0; pmd_offset p a := 0; pte_offset_kernel p a := 0;
  pgd_none v := v =? 0; pud_none v := v =? 0; pmd_none v := v =? 0; pte_none v := bool_decide (v = 0);
  pte_present v := Z.testbit v 0; pte_mfn v := v / 4096;
  pgd_present v := Z.testbit v 0; pgd_bad v := false;
  pud_present v := Z.testbit v 0; pud_bad v := false;
  pmd_present v := Z.testbit v 0; pmd_bad v := false;
  pte_file v := false;
  pgd_page_vaddr v := v / 4096 * 4096; pud_page_vaddr v := v / 4096 * 4096; pmd_page_vaddr v := v / 4096 * 4096;
  pte_pfn v := v / 4096; pfn_to_mfn p := p + 16;
  PTRS_PER_PGD := 512; PTRS_PER_PUD := 512; PTRS_PER_PMD := 512; PTRS_PER_PTE := 512
|}.

Definition boot_pages : Pages := {|
  virt_to_page v := v / 4096; page_to_pfn p := p; pfn_to_page p := p;
  lowmem_page_address p := boot_offset + 4096 * p;
  PageHighMem p := false; pmd_page v := v / 4096; pgd_val v := v;
  pfn_pte pfn prot := @xen_make_pte boot_p2m (make_entry pfn prot);
  PAGE_KERNEL := 0x163; PAGE_KERNEL_RO := 0x161;
  phys_of_virt v := if decide (boot_start ≤ v) then v - boot_start else v - boot_offset;
  pgd_index a := a / 2 ^ 39 mod 512; pud_index a := a / 2 ^ 30 mod 512; pmd_index a := a / 2 ^ 21 mod 512;
  FIXADDR_TOP := 0xffffffffff7ff000; STACK_TOP_MAX := 2 ^ 47 - 4096; PGDIR_SIZE := 2 ^ 39;
  PAGE_OFFSET := boot_offset; USE_SPLIT_PTLOCKS := true; pte_lockptr p := 2 * p + 1
|}.

Definition boot_table (k : Z) : Z := boot_start + 4096 * k.
Definition boot_layout1 : boot_layout :=
  mk_boot_layout boot_start (boot_table 20) (boot_table 21) (boot_table 22) (boot_table 23) (boot_table 24)
    (boot_table 25) (boot_table 26) (boot_table 40) 0x163 (boot_table 600) (boot_table 30) 4.

(** An entry of the table the kernel was started on, and one of its own. *)
Definition machine_entry (k fl : Z) : Z := make_entry (k + 16) fl.
Definition entries (l : list (nat * Z)) : list Z := foldr (λ p, <[p.1 := p.2]>) (replicate 512 0) l.
Definition boot_l2 : list Z := entries [(0%nat, machine_entry 33 0x67)].
Definition boot_l1 : list Z :=
  (λ j, if decide (Z.of_nat j < 500) then 0 else machine_entry (Z.of_nat j) 0x163) <$> seq 0 512.
Definition boot_memory : gmap Z (list Z) := list_to_map
  [(boot_table 20, entries [(0%nat, 4096 * 21 + 0x63); (272%nat, 4096 * 21 + 0x63); (511%nat, 4096 * 22 + 0x67)]);
   (boot_table 21, entries [(0%nat, 4096 * 24 + 0x63)]); (boot_table 22, entries [(510%nat, 4096 * 25 + 0x63); (511%nat, 4096 * 26 + 0x67)]);
   (boot_table 24, entries []); (boot_table 25, entries []); (boot_table 26, entries []);
   (boot_table 30, entries [(511%nat, machine_entry 31 0x67)]); (boot_table 31, entries [(510%nat, machine_entry 32 0x67)]);
   (boot_table 32, boot_l2); (boot_table 33, boot_l1)].

Definition boot_machine : @boot_state list_mcb :=
  @mk_boot_state list_mcb boot_memory [] (@mk_cpu_state list_mcb 0 true 0 empty_buffer) 0 [].

Definition is_update (t : Z) (c : xen_op) : bool := match c with UpdateVa va _ _ => va =? t | _ => false end.
Definition checking_answer (calls : list xen_op) (op : xen_op) : Z :=
  match op with
  | UpdateVa _ v _ => if Z.testbit v 1 then 1 else 0
  | Mmuext o =>
      if decide (o = mk_mmuext_op MMUEXT_PIN_L4_TABLE (Some 36) None) then
        if forallb (λ k, existsb (is_update (boot_table k)) calls) [40; 24; 20; 21; 22; 23; 25; 26] then 0 else 1
      else 0
  | Other _ => 1
  end.

Lemma boot_x64 : @x64 boot_page_table boot_pages boot_p2m.
Proof. by split. Qed.

Lemma boot_translated p : 0 ≤ p < 1000 → @translated boot_p2m p (p + 16).
Proof.
  intros Hp. assert (∀ k, 34 ≤ k → Z.land (p + 16) (2 ^ k) = 0) as Hk.
  { intros k Hk. rewrite <-Z.shiftl_1_l. apply land_bit_0; [lia|]. apply high_bit with 34; lia. }
  split_and!; simpl; try lia; by apply (Hk 63) || by apply (Hk 62).
Qed.

Lemma boot_prot : @plain_prot boot_p2m 0x163.
Proof.
  split_and!; try done. split; [unfold is_u64; lia|]. intros n Hn. apply high_bit with 9; [lia|]. simpl in Hn. lia.
Qed.

Lemma boot_maps p : 0 ≤ p < 1000 → @maps boot_p2m p (machine_entry p 0x163).
Proof. intros Hp. apply (@make_maps boot_p2m boot_p2m_laws), boot_translated; [apply boot_prot|done]. Qed.

Lemma boot_kernel_page k : 0 ≤ k < 1000 →
  @kernel_page boot_pages boot_p2m boot_layout1 (boot_table k).
Proof.
  intros Hk. unfold kernel_page, boot_table. cbn [phys_of_virt boot_pages]. unfold boot_start.
  rewrite decide_True by lia. replace (18446744071562067968 + 4096 * k - 18446744071562067968) with (Z.shiftl k 12)
    by (rewrite Z.shiftl_mul_pow2 by lia; lia).
  unfold PAGE_SHIFT. rewrite Z.shiftr_shiftl_l, Z.sub_diag, Z.shiftl_0_r by lia.
  split; [done|]. split; [simpl; lia|]. split; [|exists (k + 16); by apply boot_translated].
  unfold __ka. cbn [START_KERNEL_map boot_layout1]. unfold boot_start. rewrite Z.shiftl_mul_pow2 by lia.
  rewrite u64_small by (unfold is_u64; lia). lia.
Qed.

Lemma boot_sound : @sound_tables boot_page_table boot_p2m boot_layout1 700 0 boot_l2 boot_memory.
Proof.
  intros i e Hi Hp. destruct i as [|i].
  - assert (e = machine_entry 33 0x67) as -> by (vm_compute in Hi; by injection Hi as <-).
    exists boot_l1. split; [vm_compute; reflexivity|]. split; [done|]. intros j x Hj Hx _.
    unfold boot_l1 in Hj. rewrite list_lookup_fmap in Hj. destruct (seq 0 512 !! j) as [y|] eqn:Ey; [|done].
    apply lookup_seq in Ey as [-> Hlt]. cbn [fmap option_fmap option_map] in Hj. case_decide; simplify_eq.
    change (0 + 512 * Z.of_nat 0) with 0. rewrite Z.add_0_l. apply boot_maps. lia.
  - assert (e = 0) as ->; [|done]. change (replicate 511 0 !! i = Some e) in Hi. by apply lookup_replicate in Hi as [-> _].
Qed.

Lemma boot_is_ready :
  @boot_ready boot_page_table boot_pages boot_p2m list_mcb boot_layout1 700 (boot_table 30) (boot_table 31) (boot_table 32)
    boot_l2 boot_machine.
Proof.
  split; [| | |by split|by split|vm_compute; reflexivity..|].
  - intros t Ht. rewrite !elem_of_cons, elem_of_nil in Ht.
    by destruct Ht as [->|[->|[->|[->|[->|[->|[]]]]]]]; eexists; (split; [vm_compute; reflexivity|]).
  - apply (bool_decide_unpack _). vm_compute. exact I.
  - intros t Ht. assert (t ∈ boot_table <$> [21; 22; 24; 25; 40; 41; 42; 43]) as Hin by exact Ht.
    apply list_elem_of_fmap in Hin as (k & -> & Hk). apply boot_kernel_page.
    rewrite !elem_of_cons, elem_of_nil in Hk. lia.
  - split; [vm_compute; reflexivity|]. split; [done|]. apply boot_sound.
Qed.

Lemma checking_pin calls :
  @protect_ops boot_pages boot_layout1 1 ⊆ calls →
  checking_answer calls (@pin_op4 boot_page_table boot_pages boot_layout1) = 0.
Proof.
  intros Hin. change (checking_answer calls (Mmuext (mk_mmuext_op MMUEXT_PIN_L4_TABLE (Some 36) None)) = 0).
  cbn [checking_answer]. rewrite decide_True by done.
  destruct (forallb _ _) eqn:E; [done|]. rewrite <-not_true_iff_false, forallb_forall in E. exfalso. apply E.
  intros k Hk. apply existsb_exists. exists (@ro_op boot_pages (boot_table k)). split; [|apply Z.eqb_refl].
  apply list_elem_of_In, Hin. apply list_elem_of_In.
  repeat (destruct Hk as [<-|Hk]; [vm_compute; repeat (first [left; reflexivity|right])|]). done.
Qed.

