(* ===== verification/XenInit.v ===== *)
(** * Page tables under construction (arch/x86/xen/mmu.c)

    Between the switch to its own table and the end of the page-table setup the
    kernel maps its memory with tables it takes one by one from a buffer of
    pages: what is written to an entry then, how a table is made read-only and
    pinned, how the rest of the buffer is given back; the fixed mappings and the
    ISA range; and the table of operations at that stage and after it. *)

From S2P Require Import Prelude Protocol PageWalk MalState MalHooks XenMmu Hypercall XenPin.

(** ** The surroundings *)

(** Entries of the fixed mappings (<asm/fixmap.h>, <asm/pgtable.h>): the
    indices, the entry of an index, the one in the user half of the vsyscall
    page, [mfn_pte] and the address of [dummy_mapping]; an option that is not
    configured has no index. *)
Class Fixmaps : Type := {
  FIX_BTMAP_END : Z; FIX_BTMAP_BEGIN : Z;
  VSYSCALL_LAST_PAGE : Z; VSYSCALL_FIRST_PAGE : Z; VVAR_PAGE : Z;
  FIX_TEXT_POKE0 : Z; FIX_TEXT_POKE1 : Z;
  FIX_APIC_BASE : option Z;
  FIX_IO_APIC_BASES : option (Z * Z);
  FIX_PARAVIRT_BOOTMAP : Z;
  fix_entry : Z → Z;
  user_vsyscall_entry : Z → Z;
  mfn_pte : Z → Z → Z;
  dummy_mapping : Z;
  PAGE_KERNEL_IO : Z;
  ISA_START_ADDRESS : Z
}.

Definition _PAGE_RW : Z := Z.shiftl 1 1.

Section init.
  Context `{PM : P2M} `{MC : Multicalls} `{AS : AddrSpace} `{PT : PageTable} `{PG : Pages} `{FX : Fixmaps}.
  (** the result of a hypercall, given the earlier ones *)
  Context (answer : list xen_op → xen_op → Z).
  (** [paravirt_get_lazy_mode() == PARAVIRT_LAZY_MMU] *)
  Context (lazy_mmu : bool).
  (** the buffer of pages for tables, and the entries of early_ioremap *)
  Context (pgt_buf_start pgt_buf_top : Z) (is_early_ioremap_ptep : Z → bool).

(** The entries by their address, and the queue; the hypercalls made directly;
    the ranges reserved. *)
Record init_state : Type := mk_init_state {
  in_mmu : mmu_state;
  in_calls : list xen_op;
  in_reserved : list (Z * Z)
}.
Definition on_mmu (f : mmu_state → mmu_state) (s : init_state) : init_state :=
  mk_init_state (f (in_mmu s)) (in_calls s) (in_reserved s).

(** ** Entries *)

(** [pte_wrprotect], [pte_mkwrite], [pte_pfn]: [pte_val] is [xen_pte_val]. *)
Definition pte_wrprotect (pte : Z) : Z := clear pte _PAGE_RW.
Definition pte_mkwrite (pte : Z) : Z := Z.lor pte _PAGE_RW.
Definition pfn_of_pte (pte : Z) : Z := frame_of (xen_pte_val pte).

(** [static pte_t mask_rw_pte(pte_t *ptep, pte_t pte)] of x86-64 *)
Definition mask_rw_pte (pgt_buf_end ptep pte : Z) : Z :=
  let pfn := pfn_of_pte pte in
  if (negb (is_early_ioremap_ptep ptep) && bool_decide (pgt_buf_start ≤ pfn) && bool_decide (pfn < pgt_buf_top))
     || (is_early_ioremap_ptep ptep && bool_decide (pfn ≠ u64 (pgt_buf_end - 1)))
  then pte_wrprotect pte else pte.

(** [static void xen_set_pte_init(pte_t *ptep, pte_t pte)] *)
Definition xen_set_pte_init (pgt_buf_end ptep pte : Z) : mmu_state → mmu_state :=
  xen_set_pte lazy_mmu ptep (mask_rw_pte pgt_buf_end ptep pte).

(** ** Tables *)

(** [lookup_address] while the tables are being made: null until there is an
    entry for the address. *)
Definition lookup_entry (va : Z) (s : init_state) : option Z := tables (in_mmu s) !! lookup_address va.

(** [if (HYPERVISOR_update_va_mapping(va, val, flags)) BUG();], the hypervisor
    writing the entry of [va], and [if (HYPERVISOR_mmuext_op(...)) BUG();] *)
Definition hyp_update_va (va val flags : Z) (s : init_state) : outcome init_state :=
  if decide (answer (in_calls s) (UpdateVa va val flags) ≠ 0) then Err BugOn
  else Ret (mk_init_state (native_set (lookup_address va) val (in_mmu s)) (in_calls s ++ [UpdateVa va val flags]) (in_reserved s)).
Definition hyp_mmuext (op : mmuext_op) (s : init_state) : outcome init_state :=
  if decide (answer (in_calls s) (Mmuext op) ≠ 0) then Err BugOn
  else Ret (mk_init_state (in_mmu s) (in_calls s ++ [Mmuext op]) (in_reserved s)).

(** [make_lowmem_page_readonly] and [make_lowmem_page_readwrite] on these tables *)
Definition lowmem_readonly (address : Z) (s : init_state) : outcome init_state :=
  match lookup_entry address s with
  | None => Ret s
  | Some pte => hyp_update_va address (pte_wrprotect pte) 0 s
  end.
Definition lowmem_readwrite (address : Z) (s : init_state) : outcome init_state :=
  match lookup_entry address s with
  | None => Ret s
  | Some pte => hyp_update_va address (pte_mkwrite pte) 0 s
  end.

(** [__va(PFN_PHYS(pfn))] *)
Definition lowmem_va (pfn : Z) : Z := va_of_phys (u64 (Z.shiftl pfn PAGE_SHIFT)).

(** [xen_alloc_pte_init], [xen_alloc_pmd_init] (for pmd and pud),
    [xen_release_pte_init], [xen_release_pmd_init]; the memory map is not flat. *)
Definition xen_alloc_pte_init (pfn : Z) (s : init_state) : outcome init_state :=
  s ← lowmem_readonly (lowmem_va pfn) s;
  hyp_mmuext (mk_mmuext_op MMUEXT_PIN_L1_TABLE (Some (pfn_to_mfn pfn)) None) s.
Definition xen_alloc_pmd_init (pfn : Z) : init_state → outcome init_state := lowmem_readonly (lowmem_va pfn).
Definition xen_release_pte_init (pfn : Z) (s : init_state) : outcome init_state :=
  s ← hyp_mmuext (mk_mmuext_op MMUEXT_UNPIN_TABLE (Some (pfn_to_mfn pfn)) None) s;
  lowmem_readwrite (lowmem_va pfn) s.
Definition xen_release_pmd_init (pfn : Z) : init_state → outcome init_state := lowmem_readwrite (lowmem_va pfn).

(** [while (end < PFN_PHYS(pgt_buf_top)) { ...; end += PAGE_SIZE; }] *)
Fixpoint reserve_loop (fuel : nat) (end_ : Z) (s : init_state) : outcome init_state :=
  if decide (end_ < u64 (Z.shiftl pgt_buf_top PAGE_SHIFT)) then
    match fuel with
    | O => Err OutOfFuel
    | S n => s ← lowmem_readwrite (va_of_phys end_) s; reserve_loop n (u64 (end_ + PAGE_SIZE)) s
    end
  else Ret s.

(** [static void xen_mapping_pagetable_reserve(u64 start, u64 end)];
    [native_pagetable_reserve] notes the range. *)
Definition xen_mapping_pagetable_reserve (fuel : nat) (start end_ : Z) (s : init_state) : outcome init_state :=
  reserve_loop fuel end_ (mk_init_state (in_mmu s) (in_calls s) (in_reserved s ++ [(start, end_)])).

(** ** Fixed mappings *)

Definition between (a b x : Z) : bool := bool_decide (a ≤ x) && bool_decide (x ≤ b).
Definition vsyscall_index (idx : Z) : bool :=
  between VSYSCALL_LAST_PAGE VSYSCALL_FIRST_PAGE idx || bool_decide (idx = VVAR_PAGE).

(** [switch (idx) { ... }] *)
Definition fixmap_pte (idx phys prot : Z) : Z :=
  let dummy := pfn_pte (Z.shiftr (phys_of_virt dummy_mapping) PAGE_SHIFT) PAGE_KERNEL in
  if between FIX_BTMAP_END FIX_BTMAP_BEGIN idx || vsyscall_index idx ||
     bool_decide (idx = FIX_TEXT_POKE0 ∨ idx = FIX_TEXT_POKE1) then pfn_pte phys prot
  else if bool_decide (FIX_APIC_BASE = Some idx) then dummy
  else if (match FIX_IO_APIC_BASES with Some (a, b) => between a b idx | None => false end) then dummy
  else if bool_decide (idx = FIX_PARAVIRT_BOOTMAP) then mfn_pte phys prot
  else mfn_pte phys (Z.lor prot _PAGE_IOMAP).

(** [static void xen_set_fixmap(unsigned idx, phys_addr_t phys, pgprot_t prot)];
    [__native_set_fixmap] and [set_pte_vaddr_pud] set the entries, with
    [set_pte], the [set_pte] of the table of operations. *)
Definition xen_set_fixmap (set_pte : Z → Z → mmu_state → mmu_state) (idx phys prot : Z) (s : mmu_state) : mmu_state :=
  let pte := fixmap_pte idx (Z.shiftr phys PAGE_SHIFT) prot in
  let s := set_pte (fix_entry idx) pte s in
  if vsyscall_index idx then set_pte (user_vsyscall_entry idx) pte s else s.

(** [for (pa = ISA_START_ADDRESS; pa < ISA_END_ADDRESS; pa += PAGE_SIZE)] *)
Fixpoint ident_map_loop (fuel : nat) (pa : Z) (s : init_state) : outcome init_state :=
  if decide (pa < ISA_END_ADDRESS) then
    match fuel with
    | O => Err OutOfFuel
    | S n =>
        s ← hyp_update_va (u64 (PAGE_OFFSET + pa)) (mfn_pte (Z.shiftr pa PAGE_SHIFT) PAGE_KERNEL_IO) 0 s;
        ident_map_loop n (pa + PAGE_SIZE) s
    end
  else Ret s.

(** [void xen_ident_map_ISA(void)]; the flush at its end is the operation
    [xen_flush_tlb] of the processor. *)
Definition xen_ident_map_ISA (fuel : nat) (s : init_state) : outcome (bool * init_state) :=
  if negb xen_initial_domain then Ret (false, s)
  else s ← ident_map_loop fuel ISA_START_ADDRESS s; Ret (true, s).

(** ** The table of operations *)

(** The fields of [struct pv_mmu_ops] that read and write entries *)
Record pv_mmu_ops : Type := mk_pv_mmu_ops {
  pv_set_pte : Z → Z → mmu_state → mmu_state;
  pv_set_pte_at : Z → Z → mmu_state → mmu_state;
  pv_set_pmd : Z → Z → mmu_state → outcome mmu_state;
  pv_set_pud : Z → Z → mmu_state → outcome mmu_state;
  pv_set_pgd : Z → Z → mmu_state → mmu_state;
  pv_ptep_modify_prot_commit : Z → Z → mmu_state → outcome mmu_state;
  pv_set_fixmap : Z → Z → Z → mmu_state → mmu_state;
  pv_pte_val : Z → Z; pv_pgd_val : Z → Z; pv_pmd_val : Z → Z; pv_pud_val : Z → Z;
  pv_make_pte : Z → Z; pv_make_pgd : Z → Z; pv_make_pmd : Z → Z; pv_make_pud : Z → Z
}.

(** [static const struct pv_mmu_ops xen_mmu_ops]; [__ptep_modify_prot_commit] is
    a function of asm-generic/pgtable.h. *)
Definition xen_mmu_ops (__ptep_modify_prot_commit : Z → Z → mmu_state → outcome mmu_state) (pgt_buf_end : Z) : pv_mmu_ops :=
  mk_pv_mmu_ops (xen_set_pte_init pgt_buf_end) (xen_set_pte_at lazy_mmu) xen_set_pmd_hyper xen_set_pud_hyper
    xen_set_pgd_hyper __ptep_modify_prot_commit (xen_set_fixmap (xen_set_pte_init pgt_buf_end))
    xen_pte_val xen_pgd_val xen_pmd_val xen_pud_val xen_make_pte xen_make_pgd xen_make_pmd xen_make_pud.

(** [static void xen_post_allocator_init(void)]: the fields it replaces; the
    fields for tables gained and lost change from those above to those of
    XenPin, and the tables of the kernel are marked ([xen_mark_init_mm_pinned]). *)
Definition xen_post_allocator_init (page_pinned : Z → bool) (user_pgd_page : Z → Z) (user_limit_index : Z)
    (ops : pv_mmu_ops) : pv_mmu_ops :=
  mk_pv_mmu_ops (xen_set_pte lazy_mmu) (pv_set_pte_at ops) (xen_set_pmd page_pinned) (xen_set_pud page_pinned)
    (xen_set_pgd page_pinned user_pgd_page user_limit_index) (pv_ptep_modify_prot_commit ops)
    (xen_set_fixmap (xen_set_pte lazy_mmu))
    (pv_pte_val ops) (pv_pgd_val ops) (pv_pmd_val ops) (pv_pud_val ops)
    (pv_make_pte ops) (pv_make_pgd ops) (pv_make_pmd ops) (pv_make_pud ops).

End init.

(** ** Entries and their writable bit *)

Section entries.
  Context `{PL : P2MLaws}.

(** The frame of an entry, as the kernel sees it, does not depend on the
    writable bit. *)
Lemma frame_of_agree f fl fl' : (∀ n, 12 ≤ n → Z.testbit fl n = Z.testbit fl' n) →
  frame_of (make_entry f fl) = frame_of (make_entry f fl').
Proof.
  intros Hfl. apply Z.bits_inj'. intros n Hn. rewrite !frame_bit by done. unfold make_entry.
  rewrite !Z.lor_spec. by rewrite Hfl by lia.
Qed.

Lemma pfn_agree v w : (∀ n, 0 ≤ n → n ≠ 1 → Z.testbit v n = Z.testbit w n) → pfn_of_pte v = pfn_of_pte w.
Proof.
  intros Hb. pose proof iomap_bit_range. pose proof phys_bits_range. unfold pfn_of_pte, xen_pte_val. rewrite !pat_to_linux_run.
  assert (Hl : ∀ n, 0 ≤ n → n ≠ 1 → Z.testbit (pat_to_linux v) n = Z.testbit (pat_to_linux w) n).
  { intros n Hn Hne. unfold pat_to_linux. rewrite !(Hb 7), !(Hb 4), !(Hb 3) by lia.
    case_decide; [|by apply Hb]. by rewrite !Z.lor_spec, !Z.ldiff_spec, Hb. }
  set (v' := pat_to_linux v) in *. set (w' := pat_to_linux w) in *. rewrite !iomap_test, (Hl iomap_bit) by lia.
  assert (Hframe : frame_of v' = frame_of w').
  { apply Z.bits_inj'. intros n Hn. rewrite !frame_bit by done. by rewrite Hl by lia. }
  destruct (_ && _); [done|]. unfold pte_mfn_to_pfn. fold (frame_of v'). fold (frame_of w'). rewrite Hframe.
  pose proof (present_test v') as Hv. pose proof (present_test w') as Hw. rewrite (Hl 0) in Hv by lia.
  destruct (decide _), (decide _); try tauto. apply frame_of_agree. intros i Hi. by rewrite !Z.land_spec, Hl by lia.
Qed.

Lemma wrprotect_bit v n : 0 ≤ n → Z.testbit (pte_wrprotect v) n = Z.testbit v n && negb (1 =? n).
Proof. intros Hn. unfold pte_wrprotect, clear, _PAGE_RW. by rewrite Z.ldiff_spec, shiftl_1_bit by lia. Qed.

Lemma mkwrite_bit v n : 0 ≤ n → Z.testbit (pte_mkwrite v) n = Z.testbit v n || (1 =? n).
Proof. intros Hn. unfold pte_mkwrite, _PAGE_RW. by rewrite Z.lor_spec, shiftl_1_bit by lia. Qed.

Lemma wrprotect_ro v : Z.testbit (pte_wrprotect v) 1 = false.
Proof. rewrite wrprotect_bit by done. apply andb_false_r. Qed.

Lemma mkwrite_rw v : Z.testbit (pte_mkwrite v) 1 = true.
Proof. rewrite mkwrite_bit by done. apply orb_true_r. Qed.

Lemma wrprotect_pfn v : pfn_of_pte (pte_wrprotect v) = pfn_of_pte v.
Proof.
  apply pfn_agree. intros n Hn Hne. rewrite wrprotect_bit by done. destruct (Z.eqb_spec 1 n); [lia|]. apply andb_true_r.
Qed.

Lemma mkwrite_pfn v : pfn_of_pte (pte_mkwrite v) = pfn_of_pte v.
Proof.
  apply pfn_agree. intros n Hn Hne. rewrite mkwrite_bit by done. destruct (Z.eqb_spec 1 n); [lia|]. apply orb_false_r.
Qed.

Context (pgt_buf_start pgt_buf_top : Z) (early : Z → bool).
Abbreviation mask := (mask_rw_pte pgt_buf_start pgt_buf_top early).

Lemma mask_pfn e ptep pte : pfn_of_pte (mask e ptep pte) = pfn_of_pte pte.
Proof. unfold mask_rw_pte. case_match; [apply wrprotect_pfn|done]. Qed.

(** Outside the entries of early_ioremap no page of the buffer is made
    writable; in them, no page but the one taken last. *)
Lemma mask_ro e ptep pte : early ptep = false → pgt_buf_start ≤ pfn_of_pte pte < pgt_buf_top →
  Z.testbit (mask e ptep pte) 1 = false.
Proof.
  intros He Hp. unfold mask_rw_pte. rewrite He, !bool_decide_true by lia. apply wrprotect_ro.
Qed.

Lemma mask_early e ptep pte : early ptep = true → Z.testbit (mask e ptep pte) 1 = true → pfn_of_pte pte = u64 (e - 1).
Proof.
  intros He. unfold mask_rw_pte. rewrite He. cbn [negb andb orb]. destruct (decide (pfn_of_pte pte = u64 (e - 1))) as [->|Hp]; [done|].
  rewrite bool_decide_true by done. by rewrite wrprotect_ro.
Qed.

End entries.

(** ** Building the tables *)

Section tables.
  Context `{PL : P2MLaws} `{MC : Multicalls} `{AS : AddrSpace} `{PT : PageTable} `{PG : Pages}.
  Context (answer : list xen_op → xen_op → Z) (Hanswer : ∀ calls op, answer calls op = 0).
  Context (pgt_buf_start pgt_buf_top : Z) (early : Z → bool).

(** What the kernel does while it maps its memory: it sets an entry, or takes
    the next page of the buffer for a table, of entries or of a higher level. *)
Inductive early_op : Type := SetPte (ptep pte : Z) | TakeTable (leaf : bool).

Fixpoint run_early (ops : list early_op) (e : Z) (s : init_state) : outcome (Z * init_state) :=
  match ops with
  | [] => Ret (e, s)
  | SetPte ptep pte :: ops' =>
      run_early ops' e (on_mmu (xen_set_pte_init false pgt_buf_start pgt_buf_top early e ptep pte) s)
  | TakeTable leaf :: ops' =>
      s ← (if leaf then xen_alloc_pte_init answer e s else xen_alloc_pmd_init answer e s);
      run_early ops' (e + 1) s
  end.

Fixpoint tables_taken (ops : list early_op) : Z :=
  match ops with
  | [] => 0
  | SetPte _ _ :: ops' => tables_taken ops'
  | TakeTable _ :: ops' => 1 + tables_taken ops'
  end.

(** No page that is a table is mapped writable; a page of the rest of the buffer
    only where all memory is mapped. *)
Definition guarded (e : Z) (s : init_state) : Prop := ∀ ptep v,
  tables (in_mmu s) !! ptep = Some v → early ptep = false → pgt_buf_start ≤ pfn_of_pte v < pgt_buf_top →
  Z.testbit v 1 = true → e ≤ pfn_of_pte v ∧ ptep = lookup_address (lowmem_va (pfn_of_pte v)).

(** The entry of a page of the buffer, where all memory is mapped, is for that
    page. *)
Definition linear (s : init_state) : Prop := ∀ p v, pgt_buf_start ≤ p < pgt_buf_top →
  lookup_entry (lowmem_va p) s = Some v → pfn_of_pte v = p.
Definition linear_op (o : early_op) : Prop :=
  match o with
  | SetPte ptep pte => ∀ p, pgt_buf_start ≤ p < pgt_buf_top → ptep = lookup_address (lowmem_va p) → pfn_of_pte pte = p
  | TakeTable _ => True
  end.

(** Writing an entry *)
Lemma guarded_write e e' s ptep v calls res : guarded e s → e' = e ∨ (e' = e + 1 ∧ ptep = lookup_address (lowmem_va e)) →
  (early ptep = false → pgt_buf_start ≤ pfn_of_pte v < pgt_buf_top → Z.testbit v 1 = true →
    e' ≤ pfn_of_pte v ∧ ptep = lookup_address (lowmem_va (pfn_of_pte v))) →
  guarded e' (mk_init_state (native_set ptep v (in_mmu s)) calls res).
Proof.
  intros Hg He Hv ptep' w. cbn. destruct (decide (ptep' = ptep)) as [->|Hne].
  - rewrite lookup_insert_eq. intros [= <-]. exact Hv.
  - rewrite lookup_insert_ne by done. intros Hw Ha Hb Hc. destruct (Hg ptep' w Hw Ha Hb Hc) as (Hle & ->).
    split; [|done]. destruct He as [->|[-> ->]]; [done|]. destruct (decide (pfn_of_pte w = e)) as [<-|]; [done|lia].
Qed.

Lemma linear_write s ptep v calls res : linear s →
  (∀ p, pgt_buf_start ≤ p < pgt_buf_top → ptep = lookup_address (lowmem_va p) → pfn_of_pte v = p) →
  linear (mk_init_state (native_set ptep v (in_mmu s)) calls res).
Proof.
  intros Hl Hv p w Hp. unfold lookup_entry. cbn. destruct (decide (lookup_address (lowmem_va p) = ptep)) as [E|Hne].
  - rewrite E, lookup_insert_eq. intros [= <-]. by apply Hv.
  - rewrite lookup_insert_ne by done. by apply Hl.
Qed.

Lemma set_pte_keeps e ptep pte s : guarded e s → linear s → linear_op (SetPte ptep pte) →
  let s' := on_mmu (xen_set_pte_init false pgt_buf_start pgt_buf_top early e ptep pte) s in guarded e s' ∧ linear s'.
Proof.
  intros Hg Hl Ho. unfold on_mmu, xen_set_pte_init, xen_set_pte, __xen_set_pte. cbn. split.
  - apply (guarded_write e e); [done|by left|]. intros He Hp. rewrite mask_pfn in *. by rewrite mask_ro.
  - apply linear_write; [done|]. intros p Hp E. rewrite mask_pfn. by apply Ho.
Qed.

(** Write-protecting the mapping of the next page makes it fit for a table. *)
Lemma readonly_run e s : guarded e s → linear s →
  ∃ s', lowmem_readonly answer (lowmem_va e) s = Ret s' ∧ guarded (e + 1) s' ∧ linear s'.
Proof.
  intros Hg Hl. unfold lowmem_readonly, lookup_entry. destruct (tables (in_mmu s) !! _) as [v|] eqn:E.
  - unfold hyp_update_va. rewrite Hanswer. eexists. split; [done|]. split.
    + eapply guarded_write; [exact Hg|by right|]. by rewrite wrprotect_ro.
    + apply linear_write; [done|]. intros p Hp Ep. rewrite wrprotect_pfn. apply Hl; [done|]. unfold lookup_entry.
      by rewrite <-Ep.
  - exists s. split; [done|]. split; [|done]. intros ptep w Hw Ha Hb Hc. destruct (Hg ptep w Hw Ha Hb Hc) as (Hle & ->).
    split; [|done]. destruct (decide (pfn_of_pte w = e)) as [Heq|]; [|lia]. rewrite Heq in *. congruence.
Qed.

Lemma take_table_run e (leaf : bool) s : guarded e s → linear s →
  ∃ s', (if leaf then xen_alloc_pte_init answer e s else xen_alloc_pmd_init answer e s) = Ret s' ∧
    guarded (e + 1) s' ∧ linear s'.
Proof.
  intros Hg Hl. destruct (readonly_run e s Hg Hl) as (s' & E & Hg' & Hl'). destruct leaf.
  - unfold xen_alloc_pte_init. rewrite E. cbn. unfold hyp_mmuext. rewrite Hanswer. eexists. split; [done|].
    split; [exact Hg'|exact Hl'].
  - exists s'. done.
Qed.

Lemma early_run ops e s : guarded e s → linear s → Forall linear_op ops →
  ∃ s', run_early ops e s = Ret (e + tables_taken ops, s') ∧ guarded (e + tables_taken ops) s' ∧ linear s'.
Proof.
  intros Hg Hl Ho. revert e s Hg Hl. induction Ho as [|o ops Hx Ho IH]; intros e s Hg Hl.
  - exists s. cbn. by rewrite Z.add_0_r.
  - destruct o as [ptep pte|leaf]; cbn [run_early tables_taken].
    + destruct (set_pte_keeps e ptep pte s Hg Hl Hx) as (Hg' & Hl'). by apply IH.
    + destruct (take_table_run e leaf s Hg Hl) as (s1 & E & Hg' & Hl'). rewrite E. cbn.
      rewrite Z.add_assoc. by apply IH.
Qed.

(** Page numbers do not wrap. *)
Lemma shift_small x : Z.shiftl x PAGE_SHIFT = x * 4096.
Proof. unfold PAGE_SHIFT. by rewrite Z.shiftl_mul_pow2. Qed.

Lemma phys_small x : 0 ≤ x ≤ 2 ^ 51 → u64 (x * 4096) = x * 4096.
Proof. intros Hx. apply u64_small. unfold is_u64. lia. Qed.

Lemma readwrite_run e p s : pgt_buf_start ≤ p < pgt_buf_top → e ≤ p → guarded e s → linear s →
  ∃ s', lowmem_readwrite answer (lowmem_va p) s = Ret s' ∧ guarded e s' ∧ linear s' ∧
    (∀ q v, lookup_entry q s = Some v → Z.testbit v 1 = true → ∃ v', lookup_entry q s' = Some v' ∧ Z.testbit v' 1 = true) ∧
    (∀ v, lookup_entry (lowmem_va p) s' = Some v → Z.testbit v 1 = true) ∧
    (∀ q, lookup_entry q s = None → lookup_entry q s' = None).
Proof.
  intros Hp He Hg Hl. unfold lowmem_readwrite. destruct (lookup_entry (lowmem_va p) s) as [v|] eqn:E.
  - unfold hyp_update_va. rewrite Hanswer. eexists. split; [done|]. pose proof (Hl p v Hp E) as Hv. unfold lookup_entry in *.
    split_and!.
    + eapply guarded_write; [exact Hg|by left|]. rewrite mkwrite_pfn, Hv. by intros.
    + apply linear_write; [done|]. intros q Hq Eq. rewrite mkwrite_pfn. apply Hl; [done|]. unfold lookup_entry. by rewrite <-Eq.
    + intros q w Hw Hr. cbn. destruct (decide (lookup_address q = lookup_address (lowmem_va p))) as [->|Hne].
      * rewrite lookup_insert_eq. eexists. split; [done|]. apply mkwrite_rw.
      * rewrite lookup_insert_ne by done. by exists w.
    + intros w. cbn. rewrite lookup_insert_eq. intros [= <-]. apply mkwrite_rw.
    + intros q Hq. cbn. rewrite lookup_insert_ne by congruence. done.
  - exists s. split_and!; try done; [naive_solver|]. congruence.
Qed.

(** Giving back the rest *)
Lemma reserve_run fuel p e s : pgt_buf_start ≤ p ≤ pgt_buf_top → e ≤ p → 0 ≤ p → pgt_buf_top < 2 ^ 51 →
  pgt_buf_top - p ≤ Z.of_nat fuel → guarded e s → linear s →
  ∃ s', reserve_loop answer pgt_buf_top fuel (Z.shiftl p PAGE_SHIFT) s = Ret s' ∧ guarded e s' ∧ linear s' ∧
    (∀ q v, lookup_entry q s = Some v → Z.testbit v 1 = true → ∃ v', lookup_entry q s' = Some v' ∧ Z.testbit v' 1 = true) ∧
    (∀ q v, p ≤ q < pgt_buf_top → lookup_entry (lowmem_va q) s' = Some v → Z.testbit v 1 = true) ∧
    (∀ q, lookup_entry q s = None → lookup_entry q s' = None).
Proof.
  intros Hp He H0 Htop. revert p s Hp He H0. induction fuel as [|fuel IH]; intros p s Hp He H0 Hf Hg Hl;
    cbn [reserve_loop]; rewrite !shift_small, phys_small by lia.
  - rewrite decide_False by lia. exists s. split_and!; try done; [naive_solver|]. intros q v Hq. lia.
  - case_decide as Hlt.
    2:{ exists s. split_and!; try done; [naive_solver|]. intros q v Hq. lia. }
    assert (Eva : va_of_phys (p * 4096) = lowmem_va p) by (unfold lowmem_va; by rewrite shift_small, phys_small by lia).
    destruct (readwrite_run e p s ltac:(lia) He Hg Hl) as (s1 & E & Hg1 & Hl1 & Hkeep & Hset & Hnone).
    rewrite Eva, E. cbn. replace (u64 (p * 4096 + PAGE_SIZE)) with (Z.shiftl (p + 1) PAGE_SHIFT).
    2:{ rewrite shift_small, <-phys_small by lia. f_equal. unfold PAGE_SIZE, PAGE_SHIFT. cbn. lia. }
    destruct (IH (p + 1) s1 ltac:(lia) ltac:(lia) ltac:(lia) ltac:(lia) Hg1 Hl1) as (s2 & E2 & Hg2 & Hl2 & Hk2 & Hs2 & Hn2).
    exists s2. split_and!; try done.
    + intros q v Hq Hv. destruct (Hkeep q v Hq Hv) as (v1 & Hq1 & Hv1). by apply (Hk2 q v1).
    + intros q v Hq Hv. destruct (decide (q = p)) as [->|]; [|apply (Hs2 q); [lia|done]].
      destruct (lookup_entry (lowmem_va p) s1) as [v1|] eqn:E1; [|by rewrite Hn2 in Hv].
      destruct (Hk2 _ v1 E1 (Hset v1 eq_refl)) as (v2 & Hv2 & Hw). rewrite Hv in Hv2. by injection Hv2 as ->.
    + intros q Hq. by apply Hn2, Hnone.
Qed.

(** While the kernel maps its memory, and after it has given back the pages it
    did not need, no table is writable: whatever entries it sets, and whichever
    pages of the buffer it takes for tables in between, every entry outside
    those of early_ioremap for a page that was taken is read-only at the end; a
    page that was not is writable where all memory is mapped, if it is mapped
    there; and an entry of early_ioremap is never made writable but for the page
    taken last. *)
Theorem early_tables_read_only ops fuel s :
  let e := pgt_buf_start + tables_taken ops in
  guarded pgt_buf_start s → linear s → Forall linear_op ops →
  0 ≤ pgt_buf_start → e ≤ pgt_buf_top → pgt_buf_top < 2 ^ 51 → pgt_buf_top - e ≤ Z.of_nat fuel →
  (∃ s1 s2, run_early ops pgt_buf_start s = Ret (e, s1) ∧
    xen_mapping_pagetable_reserve answer pgt_buf_top fuel (Z.shiftl pgt_buf_start PAGE_SHIFT) (Z.shiftl e PAGE_SHIFT) s1 = Ret s2 ∧
    (∀ s' ptep v, s' = s1 ∨ s' = s2 → tables (in_mmu s') !! ptep = Some v → early ptep = false →
      pgt_buf_start ≤ pfn_of_pte v < e → Z.testbit v 1 = false) ∧
    (∀ q v, e ≤ q < pgt_buf_top → lookup_entry (lowmem_va q) s2 = Some v → pfn_of_pte v = q ∧ Z.testbit v 1 = true)) ∧
  (∀ e' ptep pte, early ptep = true → Z.testbit (mask_rw_pte pgt_buf_start pgt_buf_top early e' ptep pte) 1 = true →
    pfn_of_pte pte = u64 (e' - 1)).
Proof.
  intros e Hg Hl Ho H0 He Htop Hf. assert (Ht : 0 ≤ tables_taken ops).
  { clear. induction ops as [|[] ops IH]; cbn [tables_taken]; lia. }
  split; [|intros e' ptep pte Hx Hy; exact (mask_early _ _ early e' ptep pte Hx Hy)].
  destruct (early_run ops pgt_buf_start s Hg Hl Ho) as (s1 & E1 & Hg1 & Hl1). fold e in E1, Hg1.
  set (s1' := mk_init_state (in_mmu s1) (in_calls s1) (in_reserved s1 ++ [(Z.shiftl pgt_buf_start PAGE_SHIFT, Z.shiftl e PAGE_SHIFT)])).
  destruct (reserve_run fuel e e s1' ltac:(lia) ltac:(lia) ltac:(lia) Htop ltac:(lia) Hg1 Hl1)
    as (s2 & E2 & Hg2 & Hl2 & _ & Hw & _).
  exists s1, s2. split; [exact E1|]. split; [exact E2|]. split.
  - intros s' ptep v Hs Hv Hn Hp. assert (Hgs : guarded e s') by (destruct Hs as [-> | ->]; [exact Hg1|exact Hg2]).
    destruct (Z.testbit v 1) eqn:Eb; [|done]. destruct (Hgs ptep v Hv Hn ltac:(lia) Eb). lia.
  - intros q v Hq Hv. split; [by apply (Hl2 q); [lia|]|by apply (Hw q v)].
Qed.

End tables.

(** ** The table of operations and the driver's hook *)

Section operations.
  Context `{PM : P2M} `{ML : MulticallsLaws} `{AS : AddrSpace} `{PG : Pages} `{FX : Fixmaps}.
  Context (lazy_mmu : bool) (pgt_buf_start pgt_buf_top pgt_buf_end : Z) (early : Z → bool).
  Context (page_pinned : Z → bool) (user_pgd_page : Z → Z) (user_limit_index : Z).
  Context (__ptep_modify_prot_commit : Z → Z → mmu_state → outcome mmu_state).

(** The two tables this file installs. *)
Definition ops_init : pv_mmu_ops := xen_mmu_ops lazy_mmu pgt_buf_start pgt_buf_top early __ptep_modify_prot_commit pgt_buf_end.
Definition ops_final : pv_mmu_ops := xen_post_allocator_init lazy_mmu page_pinned user_pgd_page user_limit_index ops_init.

Lemma set_pte_driver ptep pte s : mmu_driver (xen_set_pte lazy_mmu ptep pte s) = mmu_driver s.
Proof. unfold xen_set_pte, __xen_set_pte, xen_batched_set_pte. destruct lazy_mmu; [apply batched_sends|done]. Qed.

Lemma set_hyper_driver ptr val s s' :
  xen_set_pmd_hyper ptr val s = Ret s' ∨ xen_set_pud_hyper ptr val s = Ret s' → mmu_driver s' = mmu_driver s.
Proof.
  unfold xen_set_pmd_hyper, xen_set_pud_hyper. destruct (arbitrary_virt_to_machine ptr); cbn; [|by intros [|]].
  intros [[= <-]|[= <-]]; apply batched_sends.
Qed.

Lemma set_fixmap_driver set idx phys prot s : (∀ ptep pte s, mmu_driver (set ptep pte s) = mmu_driver s) →
  mmu_driver (xen_set_fixmap set idx phys prot s) = mmu_driver s.
Proof. intros Hset. unfold xen_set_fixmap. cbv zeta. case_match; by rewrite !Hset. Qed.

(** With the operations this file installs, at first or after the page-table
    setup, the driver's hook never runs: the commit of a protection change is
    the generic one, which (asm-generic/pgtable.h) is [set_pte_at].  The hook
    of [xen_ptep_modify_prot_commit] depends on code elsewhere that puts that
    function into the table. *)
Theorem installed_operations_unhooked ops :
  (∀ ptep pte s, __ptep_modify_prot_commit ptep pte s = Ret (xen_set_pte_at lazy_mmu ptep pte s)) →
  ops = ops_init ∨ ops = ops_final →
  ∀ ptr val s,
    (∀ s', s' = pv_set_pte ops ptr val s ∨ s' = pv_set_pte_at ops ptr val s ∨ s' = pv_set_pgd ops ptr val s →
      mmu_driver s' = mmu_driver s) ∧
    (∀ s', pv_set_pmd ops ptr val s = Ret s' ∨ pv_set_pud ops ptr val s = Ret s' ∨
       pv_ptep_modify_prot_commit ops ptr val s = Ret s' → mmu_driver s' = mmu_driver s) ∧
    (∀ prot, mmu_driver (pv_set_fixmap ops ptr val prot s) = mmu_driver s).
Proof.
  intros Hc Hops ptr val s. pose proof (set_pte_driver) as Hd. pose proof (set_pgd_driver page_pinned user_pgd_page user_limit_index ptr val s) as Hpgd.
  destruct Hops as [-> | ->]; split_and!; cbn; try (intros; apply set_fixmap_driver; intros; apply Hd).
  - intros s' [-> |[-> | ->]]; [apply Hd|apply Hd|].
    apply (sends_batch s _ (virt_to_machine ptr) val), sends_issue, extend_sends.
  - intros s' [E|[E|E]]; [apply (set_hyper_driver ptr val s s'); tauto..|]. rewrite Hc in E. injection E as <-. apply Hd.
  - intros s' [-> |[-> | ->]]; [apply Hd|apply Hd|exact Hpgd].
  - unfold xen_set_pmd, xen_set_pud. destruct (negb (page_pinned ptr)).
    + intros s' [[= <-]|[[= <-]|E]]; [done..|]. rewrite Hc in E. injection E as <-. apply Hd.
    + intros s' [E|[E|E]]; [apply (set_hyper_driver ptr val s s'); tauto..|]. rewrite Hc in E. injection E as <-. apply Hd.
Qed.

End operations.

(** ** Witnesses *)

(** All memory is mapped at its address, by entries of eight bytes from 2^40
    on; pages 4 to 7 are the buffer, the entries below 64 those of
    early_ioremap. *)
Definition init_space : AddrSpace := {|
  read_pte v := 0;
  pte_dirty v := false;
  mfn_of_pte v := v / 4096;
  virt_addr_valid v := true;
  virt_to_machine v := v + 16 * 4096;
  lookup_address v := 2 ^ 40 + v / 4096 * 8;
  mfn_to_pfn v := v - 16;
  va_of_phys v := v
|}.
Definition init_early (ptep : Z) : bool := bool_decide (ptep < 64).

(** Pages 4 and 5 are mapped writable by the table the kernel was started on. *)
Definition early_entries : gmap Z Z := {[ 2 ^ 40 + 32 := 20 * 4096 + 3; 2 ^ 40 + 40 := 21 * 4096 + 3 ]}.
Definition init_example : @init_state toy_multicalls :=
  mk_init_state (@mk_mmu_state toy_multicalls early_entries [] toy_connected) [] [].

(** It takes page 4, maps it for a moment through early_ioremap, once more at
    another address, and page 6 where it belongs, and takes page 5. *)
Definition init_ops : list early_op :=
  [TakeTable true; SetPte 8 (20 * 4096 + 3); SetPte 4096 (20 * 4096 + 3); SetPte (2 ^ 40 + 48) (22 * 4096 + 3); TakeTable false].

Lemma buffer_pages p : 4 ≤ p < 8 → p = 4 ∨ p = 5 ∨ p = 6 ∨ p = 7.
Proof. lia. Qed.

Lemma early_tables_read_only_witness :
  ∃ s1 s2, @run_early toy_p2m toy_multicalls init_space small_page_table (λ _ _, 0) 4 8 init_early init_ops 4 init_example = Ret (6, s1) ∧
    @xen_mapping_pagetable_reserve toy_multicalls init_space (λ _ _, 0) 8 2 (Z.shiftl 4 PAGE_SHIFT) (Z.shiftl 6 PAGE_SHIFT) s1 = Ret s2 ∧
    tables (in_mmu s2) !! 4096 = Some (20 * 4096 + 1) ∧ tables (in_mmu s2) !! (2 ^ 40 + 40) = Some (21 * 4096 + 1) ∧
    tables (in_mmu s2) !! (2 ^ 40 + 48) = Some (22 * 4096 + 3).
Proof.
  destruct (@early_tables_read_only toy_p2m toy_p2m_laws toy_multicalls init_space small_page_table (λ _ _, 0) (λ _ _, eq_refl)
    4 8 init_early init_ops 2 init_example) as [(s1 & s2 & E1 & E2 & _) _].
  - intros ptep v Hv _ _ _. cbn in Hv. unfold early_entries in Hv. apply lookup_insert_Some in Hv as [[<- <-]|[_ Hv]].
    + split; [by vm_compute|by vm_compute].
    + apply lookup_singleton_Some in Hv as [<- <-]. split; [by vm_compute|by vm_compute].
  - intros p v Hp. destruct (buffer_pages p Hp) as [->|[->|[->| ->]]]; intros Hv; vm_compute in Hv;
      first [discriminate Hv|injection Hv as <-; by vm_compute].
  - repeat constructor; intros p Hp; destruct (buffer_pages p Hp) as [->|[->|[->| ->]]]; vm_compute; done.
  - done.
  - by vm_compute.
  - done.
  - by vm_compute.
  - exists s1, s2. split; [exact E1|]. split; [exact E2|]. vm_compute in E1. injection E1 as <-. vm_compute in E2. injection E2 as <-.
    by vm_compute.
Defined.
