(* ===== verification/MalIrq.v ===== *)
(** * The event-channel handler of the DomU driver (drivers/xen/malpage/malpage.c)

    [malpage_irq_handle] takes the monitor's responses off the shared ring: a
    KILL is carried out at once, a REPORT is queued for the report thread, the
    others do nothing.  The handler runs to completion on a shared page that
    nobody writes meanwhile; the interleaving with the report thread is in
    MalThread.v, the monitor's side of the ring in Monitor.v. *)

From S2P Require Import Prelude PfnList Protocol PageWalk MalState MalHooks.

Section irq.
  Context `{RM : RingMacros}.
  (** whether [kzalloc(sizeof(struct req_list_t), GFP_ATOMIC)] finds memory *)
  Context (kzalloc_ok : malpage_state → bool).

(** ** Operations *)

(** [case MALPAGE_RING_REPORT] up to [skip=1]: lock, append, unlock, [up]. *)
Definition enqueue_report (pid : Z) (st : malpage_state) : outcome malpage_state :=
  st1 ← spin_lock_queue st;
  if kzalloc_ok st1 then
    let st2 := set_queue (report_queue st1 ++ [s32 pid]) st1 in
    let st3 := spin_unlock_queue st2 in
    Ret (set_sem (thread_report_sem st3 + 1) st3)
  else Err NullDeref.

(** The [switch(resp->operation)]: the variable [skip] and the state after it. *)
Definition irq_response (resp : message) (skip : Z) (st : malpage_state)
    : outcome (Z * malpage_state) :=
  let op := operation resp in
  if decide (op = MALPAGE_RING_NONOP) then Ret (skip, st)
  else if decide (op = MALPAGE_RING_KILL) then
    Ret (0, (malpage_op_process MALPAGE_RING_KILL (process_id resp) st).2)
  else if decide (op = MALPAGE_RING_RESUME) then Ret (0, st)
  else if decide (op = MALPAGE_RING_HALT) then Ret (1, st)
  else if decide (op = MALPAGE_RING_NX) then
    Ret (1, (malpage_flipnx_page (mmu_ptr resp) (mmu_val resp) st).2)
  else if decide (op = MALPAGE_RING_REPORT) then
    st1 ← enqueue_report (process_id resp) st; Ret (1, st1)
  else Ret (skip, st).

(** [for(rc = ...; rc != rp; rc++)]; the index is a 32-bit counter. *)
Fixpoint irq_loop (fuel : nat) (rc rp skip : Z) (st : malpage_state)
    : outcome (Z * malpage_state) :=
  if decide (rc = rp) then Ret (skip, st)
  else match fuel with
  | O => Err OutOfFuel
  | S n =>
      i ← share_info st;
      s ← load_page st (front_sring (fring i));
      r ← irq_response (slot s (ring_slot rc)) skip st;
      irq_loop n (u32 (rc + 1)) rp r.1 r.2
  end.

(** [if(!skip) { ... }] with [rc = rp]: whether to [goto again], and the state. *)
Definition irq_finish (rc : Z) (st : malpage_state) : outcome (bool * malpage_state) :=
  i ← share_info st;
  let p := front_sring (fring i) in
  let f := mk_as_front_ring (req_prod_pvt (fring i)) rc p in
  let st1 := set_share_info (Some (set_fring f i)) st in
  s ← load_page st1 p;
  if decide (rc ≠ req_prod_pvt f) then
    let '(notify, s') := RING_FINAL_CHECK_FOR_RESPONSES f s in
    Ret (notify, set_page p s' st1)
  else
    Ret (false, set_page p (mk_sring (req_prod s) (req_event s) (rsp_prod s) (u32 (rc + 1)) (ring s)) st1).

(** [static irqreturn_t malpage_irq_handle(int irq, void *dev_id)]: [skip] is
    the content of the uninitialised local, [fuel] bounds the [goto again]s. *)
Fixpoint malpage_irq_handle (fuel : nat) (skip : Z) (st : malpage_state) : outcome malpage_state :=
  match fuel with
  | O => Err OutOfFuel
  | S n =>
      i ← share_info st;
      s ← load_page st (front_sring (fring i));
      let rp := rsp_prod s in
      let rc := rsp_cons (fring i) in
      r ← irq_loop (Z.to_nat (u32 (rp - rc))) rc rp skip st;
      if decide (r.1 = 0) then
        '(notify, st') ← irq_finish rp r.2;
        if notify : bool then malpage_irq_handle n r.1 st' else Ret st'
      else Ret r.2
  end.

(** ** The specification *)

(** The responses between the two indices, oldest first. *)
Definition responses (s : sring) (rc rp : Z) : list message :=
  (λ k, slot s (ring_slot (rc + k))) <$> seqZ 0 (u32 (rp - rc)).

(** The value a response leaves in [skip], if it sets it. *)
Definition decisive (m : message) : option Z :=
  if decide (operation m = MALPAGE_RING_KILL ∨ operation m = MALPAGE_RING_RESUME) then Some 0
  else if decide (operation m ∈ [MALPAGE_RING_HALT; MALPAGE_RING_NX; MALPAGE_RING_REPORT]) then Some 1
  else None.

Definition final_skip (skip : Z) (ms : list message) : Z :=
  foldl (λ sk m, default sk (decisive m)) skip ms.

(** The pids to report, in the order of the responses. *)
Definition reported_pids (ms : list message) : list Z :=
  (λ m, s32 (process_id m)) <$> filter (λ m, operation m = MALPAGE_RING_REPORT) ms.

(** The signals of the KILL responses for processes that exist. *)
Definition kill_signals (ts : list task_struct) (ms : list message) : list event :=
  (λ m, Signal SIGKILL (s32 (process_id m))) <$>
    filter (λ m, operation m = MALPAGE_RING_KILL ∧ s32 (process_id m) ∈ task_pid <$> ts) ms.

(** The effect of a list of responses on queue, semaphore and processes. *)
Definition after_responses (ms : list message) (st : malpage_state) : malpage_state :=
  set_queue (report_queue st ++ reported_pids ms)
    (set_sem (thread_report_sem st + Z.of_nat (length (reported_pids ms)))
      (log_all (kill_signals (tasks st) ms) st)).

(** The responses up to [rp] acknowledged on the ring: the consumer index
    moves and an event is asked for at the next response. *)
Definition acknowledged (i : malpage_share_info_t) (s : sring) (rp : Z) (st : malpage_state)
    : malpage_state :=
  let f := fring i in
  set_page (front_sring f) (mk_sring (req_prod s) (req_event s) (rsp_prod s) (u32 (rp + 1)) (ring s))
    (set_share_info (Some (set_fring (mk_as_front_ring (req_prod_pvt f) rp (front_sring f)) i)) st).

(** What the handler does with the ring [s]. *)
Definition irq_result (skip : Z) (i : malpage_share_info_t) (s : sring) (st : malpage_state)
    : malpage_state :=
  let ms := responses s (rsp_cons (fring i)) (rsp_prod s) in
  let st' := after_responses ms st in
  if decide (final_skip skip ms = 0) then acknowledged i s (rsp_prod s) st' else st'.

(** The state in which the driver takes an event: registered and connected,
    the queue lock free, memory for the nodes, real processes in the list. *)
Record irq_ready (st : malpage_state) (i : malpage_share_info_t) (s : sring) : Prop := mk_irq_ready {
  ir_connected : connected st i s;
  ir_lock : report_queue_lock st = false;
  ir_alloc : ∀ st', kzalloc_ok st' = true;
  ir_init : task_pid (init_task st) = 0;
  ir_tasks : Forall (λ t, 0 < task_pid t) (tasks st);
  ir_rc : is_u32 (rsp_cons (fring i));
  ir_rp : is_u32 (rsp_prod s)
}.

End irq.

(** ** Lemmas *)

Ltac state_eq := unfold after_responses, log_all, log, set_queue, set_sem, set_queue_lock; simpl;
  f_equal; simpl; rewrite ?app_nil_r, <-?app_assoc; try done; try lia.

Lemma after_responses_nil st : after_responses [] st = st.
Proof. destruct st. state_eq. Qed.

Lemma reported_pids_cons m ms : reported_pids (m :: ms) = reported_pids [m] ++ reported_pids ms.
Proof. unfold reported_pids. rewrite !filter_cons. by case_decide. Qed.

Lemma kill_signals_cons ts m ms :
  kill_signals ts (m :: ms) = kill_signals ts [m] ++ kill_signals ts ms.
Proof. unfold kill_signals. rewrite !filter_cons. by case_decide. Qed.

Lemma after_responses_cons m ms st :
  after_responses (m :: ms) st = after_responses ms (after_responses [m] st).
Proof.
  unfold after_responses. rewrite reported_pids_cons, kill_signals_cons, length_app. state_eq.
Qed.

Section irq_lemmas.
  Context `{RL : RingLaws}.
  Context (kzalloc_ok : malpage_state → bool).

Lemma irq_ready_after ms st i s :
  irq_ready kzalloc_ok st i s → irq_ready kzalloc_ok (after_responses ms st) i s.
Proof. intros []. by split. Qed.

Lemma enqueue_report_run pid st i s :
  irq_ready kzalloc_ok st i s →
  enqueue_report kzalloc_ok pid st =
    Ret (set_queue (report_queue st ++ [s32 pid]) (set_sem (thread_report_sem st + 1) st)).
Proof.
  intros []. unfold enqueue_report, spin_lock_queue. rewrite ir_lock0. simpl. rewrite ir_alloc0.
  f_equal. unfold spin_unlock_queue. state_eq.
Qed.

(** The effect of one response, by cases on its operation. *)
Lemma after_response m st :
  after_responses [m] st =
    if decide (operation m = MALPAGE_RING_REPORT)
    then set_queue (report_queue st ++ [s32 (process_id m)]) (set_sem (thread_report_sem st + 1) st)
    else if decide (operation m = MALPAGE_RING_KILL)
    then if decide (s32 (process_id m) ∈ task_pid <$> tasks st)
         then log (Signal SIGKILL (s32 (process_id m))) st else st
    else st.
Proof.
  unfold after_responses, reported_pids, kill_signals. rewrite !filter_cons.
  destruct st. repeat (destruct (decide _)); try (exfalso; unfold MALPAGE_RING_REPORT, MALPAGE_RING_KILL in *;
    intuition lia); simpl; state_eq.
Qed.

Lemma irq_response_run m skip st i s :
  irq_ready kzalloc_ok st i s →
  irq_response kzalloc_ok m skip st = Ret (default skip (decisive m), after_responses [m] st).
Proof.
  intros Hr. rewrite after_response. unfold irq_response, decisive.
  destruct m as [op ? ? pid]. simpl.
  repeat (destruct (decide (op = _)) as [->|?]; simpl;
    [repeat (destruct (decide _); try by (exfalso; set_solver)); try done|]); simpl.
  all: rewrite ?(enqueue_report_run _ _ _ _ Hr); try done.
  1-2: destruct Hr; rewrite (op_process_run _ _ SIGKILL) by done; simpl;
    destruct (decide _); done.
  destruct (decide _); [naive_solver|]. destruct (decide _); set_solver.
Qed.

Lemma irq_loop_run (n fuel : nat) rc rp skip st i s :
  irq_ready kzalloc_ok st i s → is_u32 rc → Z.of_nat n < 2 ^ 32 → rp = u32 (rc + Z.of_nat n) →
  (n ≤ fuel)%nat →
  let ms := (λ k, slot s (ring_slot (rc + k))) <$> seqZ 0 (Z.of_nat n) in
  irq_loop kzalloc_ok fuel rc rp skip st = Ret (final_skip skip ms, after_responses ms st).
Proof.
  revert fuel rc skip st. induction n as [|n IH]; intros fuel rc skip st Hr Hrc Hn Hrp Hf ms.
  - unfold ms. simpl. rewrite after_responses_nil.
    assert (rc = rp) as -> by (rewrite Hrp, Z.add_0_r; by rewrite u32_small).
    by destruct fuel; simpl; rewrite decide_True.
  - destruct fuel as [|fuel]; [lia|]. simpl.
    rewrite decide_False by (rewrite Hrp; clear -Hrc Hn; zwrap).
    pose proof (ir_connected _ _ _ _ Hr) as (Hi & Hp & Hs). unfold share_info. rewrite Hi. simpl.
    unfold load_page. rewrite decide_False by done. rewrite Hs. simpl.
    rewrite (irq_response_run _ _ _ _ _ Hr). simpl.
    rewrite IH; [|by apply irq_ready_after|apply u32_range|lia|rewrite Hrp, u32_add_l; f_equal; lia|lia].
    unfold ms. rewrite batch_cons. by rewrite (after_responses_cons _ (_ <$> _)). 
Qed.

Lemma irq_finish_run rp st i s :
  connected st i s → rsp_prod s = rp → 
  irq_finish rp st = Ret (false, acknowledged i s rp st).
Proof.
  intros (Hi & Hp & Hs) <-. unfold irq_finish, share_info, load_page. rewrite Hi. simpl.
  rewrite decide_False by done. rewrite Hs. simpl.
  rewrite RING_FINAL_CHECK_FOR_RESPONSES_law. simpl. rewrite Z.sub_diag. simpl.
  by case_decide.
Qed.

Lemma irq_handle_run fuel skip st i s :
  irq_ready kzalloc_ok st i s →
  malpage_irq_handle kzalloc_ok (S fuel) skip st = Ret (irq_result skip i s st).
Proof.
  intros Hr. pose proof (ir_connected _ _ _ _ Hr) as (Hi & Hp & Hs). simpl.
  unfold share_info. rewrite Hi. simpl. unfold load_page. rewrite decide_False by done.
  rewrite Hs. simpl. set (d := u32 (rsp_prod s - rsp_cons (fring i))).
  assert (Hd : is_u32 d) by apply u32_range.
  rewrite (irq_loop_run (Z.to_nat d) _ _ _ _ _ _ _ Hr); [|by destruct Hr| | |done].
  - rewrite Z2Nat.id by (by destruct Hd). unfold irq_result, responses. fold d. simpl.
    destruct (decide _); [|done].
    by rewrite (irq_finish_run _ _ i s).
  - rewrite Z2Nat.id; by destruct Hd.
  - rewrite Z2Nat.id by (by destruct Hd). destruct Hr. unfold d in *. clear -ir_rc0 ir_rp0. zwrap.
Qed.

(** The handler's result is ready for the next event. *)
Lemma irq_ready_result skip st i s :
  irq_ready kzalloc_ok st i s →
  ∃ i' s', irq_ready kzalloc_ok (irq_result skip i s st) i' s' ∧
    rsp_prod s' = rsp_prod s ∧ ring s' = ring s ∧
    rsp_cons (fring i') =
      (if decide (final_skip skip (responses s (rsp_cons (fring i)) (rsp_prod s)) = 0)
       then rsp_prod s else rsp_cons (fring i)) ∧
    si_irq i' = si_irq i ∧ front_sring (fring i') = front_sring (fring i).
Proof.
  intros Hr. unfold irq_result. destruct (decide _); simpl.
  - destruct Hr as [(Hi & Hp & Hs)]. pose (f := fring i).
    exists (set_fring (mk_as_front_ring (req_prod_pvt f) (rsp_prod s) (front_sring f)) i),
      (mk_sring (req_prod s) (req_event s) (rsp_prod s) (u32 (rsp_prod s + 1)) (ring s)).
    split_and!; try done. split; try done. split_and!; [done|done|apply lookup_insert_eq].
  - exists i, s. split_and!; try done. by apply irq_ready_after.
Qed.

(** Acknowledging changes neither queue, semaphore nor processes. *)
Lemma irq_result_effects skip i s st :
  let ms := responses s (rsp_cons (fring i)) (rsp_prod s) in
  let st' := irq_result skip i s st in
  report_queue st' = report_queue st ++ reported_pids ms ∧
  thread_report_sem st' = thread_report_sem st + Z.of_nat (length (reported_pids ms)) ∧
  events st' = events st ++ kill_signals (tasks st) ms ∧
  report_queue_lock st' = report_queue_lock st ∧ tasks st' = tasks st.
Proof. simpl. unfold irq_result. by case_decide. Qed.

Lemma responses_nil s rc : responses s rc rc = [].
Proof. unfold responses. by rewrite Z.sub_diag. Qed.

Lemma responses_same s s' rc rp : ring s' = ring s → responses s' rc rp = responses s rc rp.
Proof. intros E. unfold responses, slot. by rewrite E. Qed.

(** ** Properties *)

(** C7: the handler terminates (one pass: nobody writes the page meanwhile) and
    takes every response between the consumer and the producer index, in
    order and across the wrap of the 32-bit index: each KILL signals its
    process if there is one, each REPORT appends its pid to the queue and
    raises the semaphore by one, anything else is ignored.  The responses are
    acknowledged exactly when the last of them that sets [skip] is a KILL or
    RESUME; when none sets it, the uninitialised local decides. *)
Theorem irq_handle_correct fuel skip st i s :
  irq_ready kzalloc_ok st i s →
  malpage_irq_handle kzalloc_ok (S fuel) skip st = Ret (irq_result skip i s st) ∧
  let ms := responses s (rsp_cons (fring i)) (rsp_prod s) in
  let st' := irq_result skip i s st in
  report_queue st' = report_queue st ++ reported_pids ms ∧
  thread_report_sem st' = thread_report_sem st + Z.of_nat (length (reported_pids ms)) ∧
  events st' = events st ++ kill_signals (tasks st) ms ∧
  report_queue_lock st' = false ∧
  ∃ i', malpage_share_info st' = Some i' ∧
    rsp_cons (fring i') = if decide (final_skip skip ms = 0) then rsp_prod s else rsp_cons (fring i).
Proof.
  intros Hr. split; [by apply irq_handle_run|]. simpl.
  destruct (irq_ready_result skip _ _ _ Hr) as (i' & s' & [(Hi' & _ & _) Hl _ _ _ _ _] & _ & _ & Hc & _).
  destruct (irq_result_effects skip i s st) as (? & ? & ? & ? & _). split_and!; try done. eauto.
Qed.

(** responses are consumed exactly once when the batch ends in a KILL or
    RESUME: a second event with nothing new changes no queue, semaphore or
    process.  When the batch ends in a REPORT (or HALT or NX) it is never
    acknowledged, and the next event takes all of it again: every pid of the
    batch is queued twice, every KILL is sent twice. *)
Theorem irq_handle_twice fuel fuel' skip skip' st i s :
  irq_ready kzalloc_ok st i s →
  let ms := responses s (rsp_cons (fring i)) (rsp_prod s) in
  ∃ st1 st2, malpage_irq_handle kzalloc_ok (S fuel) skip st = Ret st1 ∧
    malpage_irq_handle kzalloc_ok (S fuel') skip' st1 = Ret st2 ∧
    if decide (final_skip skip ms = 0)
    then report_queue st2 = report_queue st ++ reported_pids ms ∧
         thread_report_sem st2 = thread_report_sem st1 ∧ events st2 = events st1
    else report_queue st2 = report_queue st ++ reported_pids ms ++ reported_pids ms ∧
         events st2 = events st ++ kill_signals (tasks st) ms ++ kill_signals (tasks st) ms.
Proof.
  intros Hr ms. destruct (irq_ready_result skip _ _ _ Hr) as (i' & s' & Hr' & Hp & Hg & Hc & _).
  eexists _, _. split_and!; [by apply irq_handle_run|by apply irq_handle_run|].
  destruct (irq_result_effects skip i s st) as (Hq1 & Hn1 & He1 & _ & Ht1).
  destruct (irq_result_effects skip' i' s' (irq_result skip i s st)) as (Hq2 & Hn2 & He2 & _ & _).
  rewrite Hq2, Hn2, He2, Hq1, He1, Ht1, (responses_same s s'), Hp, Hc by done. fold ms.
  destruct (decide (final_skip skip ms = 0)) as [E|E]; [rewrite responses_nil; simpl|fold ms].
  - rewrite !app_nil_r. split_and!; [done|lia|done].
  - by rewrite <-!app_assoc.
Qed.

End irq_lemmas.

(** A response, and a page with three of them around the wrap of the index. *)
Example toy_resp (op pid : Z) : message := mk_message op 0 0 pid 3 0 0 0.
Example toy_responses (last : Z) : sring :=
  mk_sring 40 1 2 0 (<[31 := toy_resp MALPAGE_RING_KILL 77]> (<[0 := toy_resp MALPAGE_RING_REPORT 1]>
    {[1 := toy_resp last 0]})).
Example toy_irq_info : malpage_share_info_t :=
  mk_share_info 3 8 20 41 0 "uuid" (mk_as_front_ring 40 (2 ^ 32 - 1) 4096).
Example toy_irq_state (last : Z) : malpage_state :=
  set_page 4096 (toy_responses last) (set_share_info (Some toy_irq_info) toy_state).

Lemma toy_irq_ready last : irq_ready (λ _, true) (toy_irq_state last) toy_irq_info (toy_responses last).
Proof.
  split; try done.
  repeat constructor; simpl; lia.
Qed.

Lemma irq_handle_correct_witness :
  ∃ st', @malpage_irq_handle ring32 (λ _, true) 1 0 (toy_irq_state MALPAGE_RING_RESUME) = Ret st' ∧
    report_queue st' = [1] ∧ events st' = [Signal SIGKILL 77].
Proof.
  destruct (@irq_handle_correct ring32 ring32_laws (λ _, true) 0 0 _ _ _
    (toy_irq_ready MALPAGE_RING_RESUME)) as (E & Hq & _ & He & _).
  eexists. split; [exact E|]. split; [exact Hq|exact He].
Defined.

Lemma irq_handle_twice_witness :
  ∃ st1 st2, @malpage_irq_handle ring32 (λ _, true) 1 0 (toy_irq_state MALPAGE_RING_NONOP) = Ret st1 ∧
    @malpage_irq_handle ring32 (λ _, true) 1 0 st1 = Ret st2 ∧
    report_queue st2 = [1; 1] ∧ events st2 = [Signal SIGKILL 77; Signal SIGKILL 77].
Proof.
  destruct (@irq_handle_twice ring32 ring32_laws (λ _, true) 0 0 0 0 _ _ _
    (toy_irq_ready MALPAGE_RING_NONOP)) as (st1 & st2 & E1 & E2 & H).
  exists st1, st2. split; [exact E1|]. split; [exact E2|]. exact H.
Defined.
