(* ===== verification/MalReport.v ===== *)
(** * Reporting a process (drivers/xen/malpage/malpage.c)

    [malpage_report] and what it calls: the list of the process's frames
    becomes an array, every frame is granted to Dom0, and the grants are
    published in XenStore; [malpage_watch] publishes a process to watch.  The
    services of the kernel that answer differently from call to call (the
    grant table) see the history of events; the allocator is a class. *)

From S2P Require Import Prelude PfnList Protocol KernelText PageWalk MalState.

(** ** Data *)

(** [process_report_t] of malpage.h; the arrays are null when their
    allocation failed. *)
Record process_report_t : Type := mk_process_report {
  rep_process_id : Z;
  rep_domid : Z;
  rep_process_age : Z;
  pfn_list : option (list Z);
  gref_list : option (list Z);
  pfn_list_length : Z
}.

Definition MALPAGE_XS_REPORT_PATH : string := "/malpage/report".
Definition MALPAGE_XS_REPORT_READY_PATH : string := "ready".
Definition MALPAGE_XS_REPORT_DOMID_PATH : string := "domid".
Definition MALPAGE_XS_REPORT_PID_PATH : string := "pid".
Definition MALPAGE_XS_REPORT_GREF_PATH : string := "grefs".
Definition MALPAGE_XS_WATCHREPORT_PATH : string := "/malpage/watch".

Section report.
  Context `{PT : PageTable} `{AL : Allocator}.
  (** [kzalloc] of a list node, and whether [kzalloc] of an array or a report
      of [n] bytes finds memory *)
  Context (kzalloc : gmap Z pfn_ll_node → Z) (array_ok : Z → bool).
  (** [gnttab_grant_foreign_access(dom, frame, readonly)] after a history *)
  Context (gnttab_grant_foreign_access : list event → Z → Z → Z → Z).

(** ** Operations *)

(** [static unsigned int malpage_grant_mfn(unsigned long mfn)]: the test
    [gref < 0] is on an unsigned variable. *)
Definition malpage_grant_mfn (mfn : Z) (st : malpage_state) : Z * malpage_state :=
  let r := gnttab_grant_foreign_access (events st) (u16 MALPAGE_DOM0_ID) mfn 1 in
  let gref := u32 r in
  let st1 := log (GrantAccess (u16 MALPAGE_DOM0_ID) mfn 1 r) st in
  if decide (gref < 0) then (u32 MALPAGE_GRANTERR, st1) else (gref, st1).

(** [static process_report_t* malpage_generate_report(struct task_struct *task)];
    [rep->domid] is still zero, and [free_pfn_ll(tmp_root)] is commented out. *)
Definition malpage_generate_report (fuel : nat) (h : gmap Z pfn_ll_node) (root0 tail0 : Z)
    (task : task_struct) : outcome (process_report_t * gmap Z pfn_ll_node) :=
  if array_ok 48 then
    '(tmp_root, h1, _) ← pfnlist_vmarea kzalloc fuel h root0 tail0 task true false;
    size ← pfnlist_size fuel h1 tmp_root;
    let len := u32 size in
    arr ← pfnlist_mkarray fuel (array_ok (u64 (8 * s32 len))) h1 tmp_root (s32 len);
    let grefs := if array_ok (u64 (4 * len)) then Some (replicate (Z.to_nat len) 0) else None in
    Ret (mk_process_report (u32 (task_pid task)) 0 0 arr grefs len, h1)
  else Err NullDeref.

(** The body of [for(i=0; i < rep->pfn_list_length; i++)] of [malpage_xs_report],
    [n] frames left; [dir] is [report_gref_path]. *)
Fixpoint xs_frames (n : nat) (i : Z) (dir : string) (rep : process_report_t) (st : malpage_state)
    : outcome malpage_state :=
  match n with
  | O => Ret st
  | S n' =>
      pfn ← array_get (pfn_list rep) i;
      pfn_str ← sprintf (slen "18446744073709551615") (format_u pfn);
      gref ← array_get (gref_list rep) i;
      gref_str ← sprintf (slen "100000") (format_u gref);
      xs_frames n' (i + 1) dir rep
        (log (Xs XsEnd) (log (Xs (XsWrite dir gref_str pfn_str)) (log (Xs XsStart) st)))
  end.

(** [static int malpage_xs_report(process_report_t *rep)] *)
Definition malpage_xs_report (rep : process_report_t) (st : malpage_state)
    : outcome (Z * malpage_state) :=
  domid_str ← sprintf (slen "10000") (format_u (rep_domid rep));
  pid_str ← sprintf (slen "100000") (format_u (rep_process_id rep));
  report_path ← sprintf (slen MALPAGE_XS_REPORT_PATH + slen domid_str)
    (MALPAGE_XS_REPORT_PATH +:+ "/" +:+ domid_str);
  if decide (slen report_path < 1) then Ret (MALPAGE_GENERALERR, st) else
  report_gref_path ← sprintf
    (slen MALPAGE_XS_REPORT_PATH + slen domid_str + slen MALPAGE_XS_REPORT_GREF_PATH)
    (MALPAGE_XS_REPORT_PATH +:+ "/" +:+ domid_str +:+ "/" +:+ MALPAGE_XS_REPORT_GREF_PATH);
  if decide (slen report_gref_path < 1) then Ret (MALPAGE_GENERALERR, st) else
  let st1 := log (Xs XsEnd) (log (Xs (XsMkdir report_path MALPAGE_XS_REPORT_GREF_PATH))
               (log (Xs XsStart) st)) in
  st2 ← xs_frames (Z.to_nat (pfn_list_length rep)) 0 report_gref_path rep st1;
  Ret (0, log (Xs XsEnd)
    (log (Xs (XsWrite report_path MALPAGE_XS_REPORT_READY_PATH "1"))
    (log (Xs (XsWrite report_path MALPAGE_XS_REPORT_PID_PATH pid_str))
    (log (Xs (XsWrite report_path MALPAGE_XS_REPORT_DOMID_PATH domid_str))
    (log (Xs XsStart) st2))))).

(** [static int malpage_xs_watch(process_report_t *rep)]; [xstrans] is on the
    heap, 4 bytes. *)
Definition malpage_xs_watch (rep : process_report_t) (st : malpage_state)
    : outcome (Z * malpage_state) :=
  _ ← of_option NullDeref (kmalloc_size 4);
  let st1 := log (Xs XsStart) st in
  domid_str ← sprintf (slen "10000") (format_u (rep_domid rep));
  pid_str ← sprintf (slen "100000") (format_u (rep_process_id rep));
  report_path ← sprintf (slen MALPAGE_XS_WATCHREPORT_PATH + slen domid_str)
    (MALPAGE_XS_WATCHREPORT_PATH +:+ "/" +:+ domid_str);
  if decide (slen report_path < 1) then Ret (MALPAGE_GENERALERR, st1) else
  Ret (0, log (Xs XsEnd)
    (log (Xs (XsWrite report_path MALPAGE_XS_REPORT_READY_PATH "1"))
    (log (Xs (XsWrite report_path MALPAGE_XS_REPORT_PID_PATH pid_str))
    (log (Xs (XsWrite report_path MALPAGE_XS_REPORT_DOMID_PATH domid_str)) st1)))).

(** [for (i = 0; i < rep->pfn_list_length; i++) rep->gref_list[i] =
    malpage_grant_mfn(rep->pfn_list[i])], [n] frames left. *)
Fixpoint grant_frames (n : nat) (i : Z) (rep : process_report_t) (st : malpage_state)
    : outcome (process_report_t * malpage_state) :=
  match n with
  | O => Ret (rep, st)
  | S n' =>
      mfn ← array_get (pfn_list rep) i;
      let '(gref, st1) := malpage_grant_mfn mfn st in
      grefs ← array_set (gref_list rep) i gref;
      grant_frames n' (i + 1)
        (mk_process_report (rep_process_id rep) (rep_domid rep) (rep_process_age rep)
          (pfn_list rep) grefs (pfn_list_length rep)) st1
  end.

(** [for_each_process(task) { if (task->pid == procID) { success = 1; break; } }] *)
Definition find_process (ts : list task_struct) (procID : Z) : option task_struct :=
  snd <$> list_find (λ t, task_pid t = procID) ts.

(** [static int malpage_report(pid_t procID, malpage_share_info_t *info)] *)
Definition malpage_report (fuel : nat) (h : gmap Z pfn_ll_node) (root0 tail0 : Z)
    (procID : Z) (info : option malpage_share_info_t) (st : malpage_state)
    : outcome (Z * gmap Z pfn_ll_node * malpage_state) :=
  match find_process (tasks st) procID with
  | None => Ret (-1, h, st)
  | Some task =>
      '(rep0, h1) ← malpage_generate_report fuel h root0 tail0 task;
      i ← of_option NullDeref info;
      let rep := mk_process_report (rep_process_id rep0) (u16 (si_domid i)) (rep_process_age rep0)
                   (pfn_list rep0) (gref_list rep0) (pfn_list_length rep0) in
      '(rep1, st1) ← grant_frames (Z.to_nat (pfn_list_length rep)) 0 rep st;
      '(_, st2) ← malpage_xs_report rep1 st1;
      Ret (0, h1, st2)
  end.

(** [static int malpage_watch(pid_t procID, malpage_share_info_t *info)]: the
    report is on the stack, the arrays are not used. *)
Definition malpage_watch (procID : Z) (info : option malpage_share_info_t) (st : malpage_state)
    : outcome (Z * malpage_state) :=
  i ← of_option NullDeref info;
  '(_, st1) ← malpage_xs_watch (mk_process_report (u32 procID) (u16 (si_domid i)) 0 None None 0) st;
  Ret (0, st1).

(** [static int malpage_ioctl(inode, filp, cmd, arg)] *)
Definition malpage_ioctl (cmd arg : Z) (st : malpage_state) : outcome (Z * malpage_state) :=
  let procID := s32 arg in
  if decide (cmd = MALPAGE_REPORT) then Ret (0, st)
  else if decide (cmd = MALPAGE_WATCH) then
    '(_, st1) ← malpage_watch procID (malpage_share_info st) st; Ret (0, st1)
  else if decide (cmd = MALPAGE_TEST) then Ret (0, st)
  else Ret (MALPAGE_BADCMD, st).

(** ** The specification *)

(** Granting the frames one after the other: the events, and the references
    as the driver stores them. *)
Fixpoint grant_events (hist : list event) (frames : list Z) : list event :=
  match frames with
  | [] => []
  | f :: fs =>
      let e := GrantAccess 0 f 1 (gnttab_grant_foreign_access hist 0 f 1) in
      e :: grant_events (hist ++ [e]) fs
  end.

End report.

(** The reference a grant event leaves in the report. *)
Definition event_gref (e : event) : Z :=
  match e with GrantAccess _ _ _ r => u32 r | _ => 0 end.

(** The memory map of a process the scan handles; [fuel] pays for its loops. *)
Definition mm_ok `{PageTable} (fuel : nat) (m : mm_struct) : Prop :=
  mmap m ≠ [] ∧ map_count m = Z.of_nat (length (mmap m)) ∧ map_count m < 2 ^ 31 ∧
  Forall (vma_ok fuel) (mmap m) ∧
  (length (concat (vma_addrs false <$> mmap m)) ≤ fuel)%nat ∧ Z.of_nat fuel < 2 ^ 31.

(** The distinct frames of a process, in the order of their first address. *)
Definition process_frames `{PageTable} (m : mm_struct) : list Z :=
  nub_by id (mfns_of m (concat (vma_addrs false <$> mmap m))).

(** The paths and the sequence of XenStore calls of a report. *)
Definition report_dir (domid : Z) : string := MALPAGE_XS_REPORT_PATH +:+ "/" +:+ format_u domid.
Definition grefs_dir (domid : Z) : string := report_dir domid +:+ "/" +:+ MALPAGE_XS_REPORT_GREF_PATH.

Definition transaction (ops : list xs_op) : list event := Xs <$> (XsStart :: ops ++ [XsEnd]).

Definition xs_report_events (domid pid : Z) (frames grefs : list Z) : list event :=
  transaction [XsMkdir (report_dir domid) "grefs"] ++
  concat (zip_with (λ f g, transaction [XsWrite (grefs_dir domid) (format_u g) (format_u f)])
    frames grefs) ++
  transaction [XsWrite (report_dir domid) "domid" (format_u domid);
               XsWrite (report_dir domid) "pid" (format_u pid);
               XsWrite (report_dir domid) "ready" "1"].

Definition watch_dir (domid : Z) : string := MALPAGE_XS_WATCHREPORT_PATH +:+ "/" +:+ format_u domid.

Definition xs_watch_events (domid pid : Z) : list event :=
  transaction [XsWrite (watch_dir domid) "domid" (format_u domid);
               XsWrite (watch_dir domid) "pid" (format_u pid);
               XsWrite (watch_dir domid) "ready" "1"].

(** Every text of a report fits its block. *)
Definition report_fits `{Allocator} (domid pid : Z) (frames grefs : list Z) : Prop :=
  fits 5 (format_u domid) ∧ fits 6 (format_u pid) ∧
  fits (15 + slen (format_u domid)) (report_dir domid) ∧
  fits (15 + slen (format_u domid) + 5) (grefs_dir domid) ∧
  Forall (λ f, fits 20 (format_u f)) frames ∧ Forall (λ g, fits 6 (format_u g)) grefs.

(** Chains of [log] collapse to one [log_all]. *)
Ltac logs := rewrite !log_log_all, !log_all_app; f_equal; rewrite <-?app_assoc; try done.

#[global] Arguments log : simpl never.
#[global] Arguments log_all : simpl never.
#[global] Arguments report_dir : simpl never.
#[global] Arguments grefs_dir : simpl never.
#[global] Arguments watch_dir : simpl never.
#[global] Arguments String.append : simpl never.

(** ** Lemmas *)

Lemma find_process_Some ts p t : find_process ts p = Some t → t ∈ ts ∧ task_pid t = p.
Proof.
  unfold find_process. destruct (list_find _ ts) as [[i u]|] eqn:E; simpl; [|done].
  intros [= ->]. apply list_find_Some in E as (E & Hp & _).
  split; [by eapply list_elem_of_lookup_2|done].
Qed.

Lemma find_process_None ts p : p ∉ task_pid <$> ts → find_process ts p = None.
Proof.
  intros Hp. unfold find_process. destruct (list_find _ ts) as [[i u]|] eqn:E; [|done].
  apply list_find_Some in E as (E & <- & _). destruct Hp.
  apply list_elem_of_fmap. exists u. split; [done|by eapply list_elem_of_lookup_2].
Qed.

Lemma process_frames_NoDup `{PageTable} m : NoDup (process_frames m).
Proof. rewrite <-(list_fmap_id (process_frames m)). apply nub_by_NoDup. Qed.

Lemma elem_of_process_frames `{PageTable} m f :
  f ∈ process_frames m ↔
    0 < f ∧ ∃ v a, v ∈ mmap m ∧ a ∈ region_addrs (vma_bounds v) ∧ f = addr_to_mfn m a.
Proof.
  unfold process_frames. rewrite elem_of_nub_id, elem_of_mfns.
  assert (Hv : ∀ v, vma_addrs false v = region_addrs (vma_bounds v)) by (intros v; apply app_nil_r).
  assert (Hc : ∀ a, a ∈ concat (vma_addrs false <$> mmap m) ↔
    ∃ v, v ∈ mmap m ∧ a ∈ region_addrs (vma_bounds v)).
  { intros a. rewrite list_elem_of_In, in_concat. split.
    - intros (as_ & Has & Ha). apply list_elem_of_In, list_elem_of_fmap in Has as (v & -> & Hin).
      exists v. rewrite <-Hv. split; [done|by apply list_elem_of_In].
    - intros (v & Hin & Ha). exists (vma_addrs false v). split; [|by rewrite Hv; apply list_elem_of_In].
      apply list_elem_of_In, list_elem_of_fmap. eauto. }
  setoid_rewrite Hc. naive_solver.
Qed.

Section slab_lemmas.
  Context `{SC : SlabClasses}.

(** Texts that fit the size class their block is rounded up to. *)
Lemma fits_8 n s : 0 < n ≤ 8 → slen s < 8 → fits n s.
Proof. intros. exists 8. split; [by apply slab_8|lia]. Qed.
Lemma fits_16 n s : 8 < n ≤ 16 → slen s < 16 → fits n s.
Proof. intros. exists 16. split; [by apply slab_16|lia]. Qed.
Lemma fits_32 n s : 16 < n ≤ 32 → slen s < 32 → fits n s.
Proof. intros. exists 32. split; [by apply slab_32|lia]. Qed.

Lemma report_dir_slen d : slen (report_dir d) = 16 + slen (format_u d).
Proof. unfold report_dir. rewrite !slen_app. change (slen MALPAGE_XS_REPORT_PATH) with 15.
  change (slen "/") with 1. lia. Qed.
Lemma grefs_dir_slen d : slen (grefs_dir d) = 22 + slen (format_u d).
Proof. unfold grefs_dir. rewrite !slen_app, report_dir_slen.
  change (slen MALPAGE_XS_REPORT_GREF_PATH) with 5. change (slen "/") with 1. lia. Qed.
Lemma watch_dir_slen d : slen (watch_dir d) = 15 + slen (format_u d).
Proof. unfold watch_dir. rewrite !slen_app. change (slen MALPAGE_XS_WATCHREPORT_PATH) with 14.
  change (slen "/") with 1. lia. Qed.

Lemma domid_slen d : is_u16 d → 1 ≤ slen (format_u d) ≤ 5.
Proof. unfold is_u16. intros. apply format_u_slen_le; lia. Qed.

Lemma two_digits d : 10 ≤ d → is_u16 d → 2 ≤ slen (format_u d).
Proof.
  unfold is_u16. intros Hd Hu.
  destruct (decide (d < 100)); [rewrite (format_u_slen 2); lia|].
  destruct (decide (d < 1000)); [rewrite (format_u_slen 3); lia|].
  destruct (decide (d < 10000)); [rewrite (format_u_slen 4); lia|].
  rewrite (format_u_slen 5); lia.
Qed.

Lemma three_digits d : 100 ≤ d → is_u16 d → 3 ≤ slen (format_u d).
Proof.
  unfold is_u16. intros Hd Hu.
  destruct (decide (d < 1000)); [rewrite (format_u_slen 3); lia|].
  destruct (decide (d < 10000)); [rewrite (format_u_slen 4); lia|].
  rewrite (format_u_slen 5); lia.
Qed.

Lemma report_fits_slab dom pid fs gs :
  10 ≤ dom → is_u16 dom → 0 ≤ pid < 10 ^ 7 → Forall is_u64 fs → Forall (λ g, 0 ≤ g < 10 ^ 7) gs →
  report_fits dom pid fs gs.
Proof.
  intros Hd Hu Hp Hf Hg. pose proof (domid_slen _ Hu). pose proof (two_digits _ Hd Hu).
  split_and!.
  - apply fits_8; lia.
  - pose proof (format_u_slen_le 7 pid). apply fits_8; lia.
  - rewrite <-?report_dir_slen. apply fits_32; [lia|rewrite report_dir_slen; lia].
  - apply fits_32; [lia|rewrite grefs_dir_slen; lia].
  - eapply Forall_impl; [done|]. intros f Hfu. pose proof (format_u_slen_le 20 f).
    unfold is_u64 in Hfu. apply fits_32; lia.
  - eapply Forall_impl; [done|]. intros g Hgu. cbv beta in Hgu. pose proof (format_u_slen_le 7 g). apply fits_8; lia.
Qed.

End slab_lemmas.

Section report_lemmas.
  Context `{PT : PageTable} `{AL : Allocator}.
  Context (kzalloc : gmap Z pfn_ll_node → Z) (array_ok : Z → bool).
  Context (gnttab : list event → Z → Z → Z → Z).

Lemma grant_mfn_run mfn st :
  malpage_grant_mfn gnttab mfn st =
    (u32 (gnttab (events st) 0 mfn 1), log (GrantAccess 0 mfn 1 (gnttab (events st) 0 mfn 1)) st).
Proof.
  unfold malpage_grant_mfn. change (u16 MALPAGE_DOM0_ID) with 0.
  pose proof (u32_range (gnttab (events st) 0 mfn 1)) as [? _]. by rewrite decide_False by lia.
Qed.

Lemma grant_events_length hist frames : length (grant_events gnttab hist frames) = length frames.
Proof. revert hist. induction frames as [|f fs IH]; intros hist; simpl; [done|]. by rewrite IH. Qed.

Lemma grant_frames_run pid dom age fd gd fs len st :
  length gd = length fd →
  grant_frames gnttab (length fs) (Z.of_nat (length fd))
    (mk_process_report pid dom age (Some (fd ++ fs)) (Some (gd ++ replicate (length fs) 0)) len) st =
  Ret (mk_process_report pid dom age (Some (fd ++ fs))
         (Some (gd ++ (event_gref <$> grant_events gnttab (events st) fs))) len,
       log_all (grant_events gnttab (events st) fs) st).
Proof.
  revert fd gd st. induction fs as [|f fs IH]; intros fd gd st Hl.
  { simpl. by rewrite log_all_nil. }
  cbn [length grant_frames pfn_list gref_list replicate]. rewrite array_get_app. simpl.
  rewrite grant_mfn_run, <-Hl, array_set_app. simpl.
  replace (Z.of_nat (length gd) + 1) with (Z.of_nat (length (fd ++ [f])))
    by (rewrite length_app; simpl; lia).
  rewrite (cons_middle f fd fs), app_assoc.
  rewrite (cons_middle _ gd (replicate _ _)), (app_assoc gd).
  rewrite IH by (rewrite !length_app; simpl; lia). simpl.
  by rewrite log_log_all, log_all_app, <-!app_assoc.
Qed.

Lemma xs_frames_run dir pid dom age fd gd fs gs len st :
  length gd = length fd → length gs = length fs →
  Forall (λ f, fits 20 (format_u f)) fs → Forall (λ g, fits 6 (format_u g)) gs →
  xs_frames (length fs) (Z.of_nat (length fd)) dir
    (mk_process_report pid dom age (Some (fd ++ fs)) (Some (gd ++ gs)) len) st =
  Ret (log_all (concat (zip_with (λ f g, transaction [XsWrite dir (format_u g) (format_u f)]) fs gs)) st).
Proof.
  revert fd gd gs st. induction fs as [|f fs IH]; intros fd gd [|g gs] st Hl Hl2 Hf Hg; try done.
  { simpl. by rewrite log_all_nil. }
  apply Forall_cons in Hf as [Hf Hfs]. apply Forall_cons in Hg as [Hg Hgs].
  cbn [length xs_frames pfn_list gref_list]. rewrite array_get_app. simpl.
  change (slen "18446744073709551615") with 20. change (slen "100000") with 6.
  rewrite (sprintf_fits _ _ Hf). simpl. rewrite <-Hl, array_get_app. simpl.
  rewrite (sprintf_fits _ _ Hg). simpl.
  replace (Z.of_nat (length gd) + 1) with (Z.of_nat (length (fd ++ [f])))
    by (rewrite length_app; simpl; lia).
  rewrite (cons_middle f fd fs), app_assoc, (cons_middle g gd gs), (app_assoc gd).
  injection Hl2 as Hl2. rewrite IH by (rewrite ?length_app; simpl; try done; lia).
  f_equal. logs.
Qed.

Lemma xs_report_run pid dom age fs gs len st :
  length gs = length fs → len = Z.of_nat (length fs) → report_fits dom pid fs gs →
  malpage_xs_report (mk_process_report pid dom age (Some fs) (Some gs) len) st =
    Ret (0, log_all (xs_report_events dom pid fs gs) st).
Proof.
  intros Hl -> (Hd & Hp & Hr & Hg & Hfs & Hgs). unfold malpage_xs_report. cbn [rep_domid rep_process_id pfn_list_length].
  change (slen "10000") with 5. change (slen "100000") with 6.
  change (slen MALPAGE_XS_REPORT_PATH) with 15. change (slen MALPAGE_XS_REPORT_GREF_PATH) with 5.
  rewrite (sprintf_fits _ _ Hd). cbn [mbind outcome_bind]. rewrite (sprintf_fits _ _ Hp). cbn [mbind outcome_bind].
  fold (report_dir dom). rewrite (sprintf_fits _ _ Hr). cbn [mbind outcome_bind].
  rewrite decide_False by (unfold slen; simpl; lia).
  assert (Ed : MALPAGE_XS_REPORT_PATH +:+ "/" +:+ format_u dom +:+ "/" +:+ MALPAGE_XS_REPORT_GREF_PATH
    = grefs_dir dom) by done.
  rewrite Ed, (sprintf_fits _ _ Hg). cbn [mbind outcome_bind]. rewrite decide_False by (unfold slen; simpl; lia).
  rewrite Nat2Z.id. erewrite (xs_frames_run _ _ _ _ [] [] fs gs) by done. cbn [mbind outcome_bind].
  unfold xs_report_events. do 2 f_equal. logs.
Qed.

(** Whatever happens, a report only adds events. *)
Lemma grant_frames_logs n i rep st r :
  grant_frames gnttab n i rep st = Ret r → ∃ es, r.2 = log_all es st.
Proof.
  revert i rep st. induction n as [|n IH]; intros i rep st E; cbn [grant_frames] in E.
  { injection E as <-. exists []. by rewrite log_all_nil. }
  bind_inv E. rewrite grant_mfn_run in E. bind_inv E.
  apply IH in E as [es ->]. rewrite log_log_all, log_all_app. eauto.
Qed.

Lemma xs_frames_logs n i dir rep st st' :
  xs_frames n i dir rep st = Ret st' → ∃ es, st' = log_all es st.
Proof.
  revert i st. induction n as [|n IH]; intros i st E; cbn [xs_frames] in E.
  { injection E as <-. exists []. by rewrite log_all_nil. }
  do 4 bind_inv E. apply IH in E as [es ->]. rewrite !log_log_all, !log_all_app. eauto.
Qed.

Lemma xs_report_logs rep st r : malpage_xs_report rep st = Ret r → ∃ es, r.2 = log_all es st.
Proof.
  assert (Hnil : ∃ es, st = log_all es st) by (exists []; by rewrite log_all_nil).
  unfold malpage_xs_report. intros E.
  do 3 bind_inv E. destruct (decide _); [by injection E as <-|].
  bind_inv E. destruct (decide _); [by injection E as <-|].
  bind_inv E. apply xs_frames_logs in E4 as [es ->]. injection E as <-. cbn [snd].
  rewrite !log_log_all, !log_all_app. eauto.
Qed.

Lemma malpage_report_logs fuel h root0 tail0 pid info st r h' st' :
  malpage_report kzalloc array_ok gnttab fuel h root0 tail0 pid info st = Ret (r, h', st') →
  ∃ es, st' = log_all es st.
Proof.
  unfold malpage_report. intros E. destruct (find_process _ _) as [t|].
  - bind_inv E. destruct r0 as [rep h1]. bind_inv E. bind_inv E. destruct r1 as [rep1 st1].
    bind_inv E. destruct r1 as [r2 st2]. injection E as _ _ <-.
    apply grant_frames_logs in E2 as [es1 E2]. apply xs_report_logs in E3 as [es2 E3].
    cbn [snd] in *. subst. rewrite log_all_app. eauto.
  - injection E as _ _ <-. exists []. by rewrite log_all_nil.
Qed.

(** Memory for every node and array. *)
Hypothesis kzalloc_fresh : ∀ h, kzalloc h ≠ NULL ∧ h !! kzalloc h = None.
Hypothesis array_ok_all : ∀ n, array_ok n = true.

Lemma generate_report_run fuel h tail0 pid m :
  mm_ok fuel m →
  ∃ h' (l : list (Z * Z)),
    malpage_generate_report kzalloc array_ok fuel h NULL tail0 (mk_task_struct pid (Some m)) =
      Ret (mk_process_report (u32 pid) 0 0 (Some (process_frames m))
             (Some (replicate (length (process_frames m)) 0))
             (Z.of_nat (length (process_frames m))), h') ∧
    linked h' l ∧ l.*2 = process_frames m.
Proof.
  intros (Hne & Hc & Hb & Hok & Hlen & Hf).
  destruct (pfnlist_vmarea_run kzalloc kzalloc_fresh fuel h tail0 pid m true false)
    as (h' & l & locks & E & Hl & Hl2 & _); try done.
  assert (Hll : (length l ≤ fuel)%nat).
  { transitivity (length (mfns_of m (concat (vma_addrs false <$> mmap m)))).
    - rewrite <-(length_fmap snd l), Hl2. apply sublist_length, nub_by_sublist.
    - etrans; [apply mfns_of_length|done]. }
  destruct (pfnlist_array_run fuel h' (head_addr l) l 0) as (Hs & _ & Ha);
    [by split|done|lia|lia|].
  exists h', l. split; [|done]. unfold malpage_generate_report. rewrite array_ok_all, E. simpl.
  rewrite Hs. simpl. rewrite !array_ok_all.
  assert (Hu : u32 (Z.of_nat (length l)) = Z.of_nat (length l)) by (apply u32_small; unfold is_u32; lia).
  rewrite Hu, s32_small by (unfold is_s32; lia). rewrite Ha. simpl.
  fold (process_frames m) in Hl2. by rewrite <-Hl2, Nat2Z.id, length_fmap.
Qed.

Lemma malpage_report_run fuel h tail0 pid m i st :
  find_process (tasks st) pid = Some (mk_task_struct pid (Some m)) → mm_ok fuel m →
  let frames := process_frames m in
  let es := grant_events gnttab (events st) frames in
  report_fits (u16 (si_domid i)) (u32 pid) frames (event_gref <$> es) →
  ∃ h' (l : list (Z * Z)),
    malpage_report kzalloc array_ok gnttab fuel h NULL tail0 pid (Some i) st =
      Ret (0, h', log_all (es ++ xs_report_events (u16 (si_domid i)) (u32 pid) frames (event_gref <$> es)) st) ∧
    linked h' l ∧ l.*2 = frames.
Proof.
  intros Hp Hm frames es Hfit.
  destruct (generate_report_run fuel h tail0 pid m Hm) as (h' & l & E & Hl & Hl2).
  exists h', l. split; [|done]. unfold malpage_report. rewrite Hp, E. simpl. fold frames.
  rewrite Nat2Z.id.
  erewrite (grant_frames_run _ _ _ [] [] frames) by done. simpl.
  rewrite xs_report_run; [|by rewrite length_fmap, grant_events_length|done|exact Hfit].
  simpl. by rewrite log_all_app.
Qed.

(** ** Properties *)

(** C3: reporting a live process whose memory map is sound, with memory at
    hand and blocks large enough for the texts, returns 0 and does exactly
    this, in this order: it grants Dom0 read-only access to every distinct
    frame mapped in the process's regions, each once and in the order of the
    addresses, then creates the report directory, writes one node per frame
    (name: the grant reference as stored, value: the frame) in a transaction
    of its own, and publishes domain, pid and the "ready" flag last, together,
    so that a reader who sees "ready" sees a complete report.  The references
    are what the grant table answered, cast to unsigned: a failed grant is
    published as a huge reference.  The list of nodes is never freed.  For a
    process that is gone, -1 is returned and nothing happens. *)
Theorem malpage_report_correct fuel h tail0 pid m i st :
  find_process (tasks st) pid = Some (mk_task_struct pid (Some m)) → mm_ok fuel m →
  let frames := process_frames m in
  let es := grant_events gnttab (events st) frames in
  report_fits (u16 (si_domid i)) (u32 pid) frames (event_gref <$> es) →
  (∃ h' (l : list (Z * Z)),
    malpage_report kzalloc array_ok gnttab fuel h NULL tail0 pid (Some i) st =
      Ret (0, h', log_all (es ++ xs_report_events (u16 (si_domid i)) (u32 pid) frames (event_gref <$> es)) st) ∧
    linked h' l ∧ l.*2 = frames) ∧
  NoDup frames ∧
  (∀ f, f ∈ frames ↔ 0 < f ∧ ∃ v a, v ∈ mmap m ∧ a ∈ region_addrs (vma_bounds v) ∧ f = addr_to_mfn m a) ∧
  (∀ gone, gone ∉ task_pid <$> tasks st →
    malpage_report kzalloc array_ok gnttab fuel h NULL tail0 gone (Some i) st = Ret (-1, h, st)).
Proof.
  intros Hp Hm frames es Hfit. split_and!.
  - by apply malpage_report_run.
  - apply process_frames_NoDup.
  - apply elem_of_process_frames.
  - intros gone Hg. unfold malpage_report. by rewrite find_process_None.
Qed.

End report_lemmas.

Section xs_overflow.
  Context `{AL : Allocator} {SC : SlabClasses}.

Lemma xs_report_overflow pid dom age fs gs len st :
  0 ≤ dom < 10 → 0 ≤ pid < 10 ^ 7 →
  malpage_xs_report (mk_process_report pid dom age fs gs len) st = Err OutOfBounds.
Proof.
  intros Hd Hp. unfold malpage_xs_report. simpl. change (slen "10000") with 5.
  change (slen "100000") with 6. change (slen MALPAGE_XS_REPORT_PATH) with 15.
  assert (E1 : slen (format_u dom) = 1) by (apply format_u_slen; lia).
  rewrite (sprintf_fits 5) by (apply fits_8; lia). simpl.
  pose proof (format_u_slen_le 7 pid). rewrite (sprintf_fits 6) by (apply fits_8; lia). simpl.
  fold (report_dir dom).
  rewrite (sprintf_overflow _ (report_dir dom) 16); [reflexivity|apply slab_16; lia|rewrite report_dir_slen; lia].
Qed.

Lemma xs_watch_run pid dom age fs gs len st :
  is_u16 dom → 0 ≤ pid < 10 ^ 7 →
  malpage_xs_watch (mk_process_report pid dom age fs gs len) st =
    if decide (dom < 100) then Err OutOfBounds else Ret (0, log_all (xs_watch_events dom pid) st).
Proof.
  intros Hd Hp. unfold malpage_xs_watch. simpl. change (slen "10000") with 5.
  change (slen "100000") with 6. change (slen MALPAGE_XS_WATCHREPORT_PATH) with 14.
  rewrite slab_8 by lia. simpl. pose proof (domid_slen _ Hd).
  rewrite (sprintf_fits 5) by (apply fits_8; lia). simpl.
  pose proof (format_u_slen_le 7 pid). rewrite (sprintf_fits 6) by (apply fits_8; lia). simpl.
  fold (watch_dir dom). case_decide as Hs.
  - pose proof (format_u_slen_le 2 dom) as Hl. destruct Hd as [Hd _].
    rewrite (sprintf_overflow _ (watch_dir dom) 16); [reflexivity|apply slab_16; lia|].
    rewrite watch_dir_slen.
    destruct (decide (dom < 10)); [rewrite (format_u_slen 1); lia|rewrite (format_u_slen 2); lia].
  - pose proof (three_digits dom ltac:(lia) Hd). rewrite sprintf_fits; [|apply fits_32; [lia|rewrite watch_dir_slen; lia]].
    simpl. rewrite decide_False by (rewrite watch_dir_slen; lia).
    unfold xs_watch_events. do 2 f_equal. logs.
Qed.

(** C37: the blocks for the two paths leave out the slash and the terminating
    zero.  With the slab allocator's size classes a report overflows its block
    exactly for the domains with one digit, and a watch for those with one or
    two, which are the domain numbers a host hands out first; for the other
    domains the rounding up of the blocks hides the mistake and everything is
    written as meant.  An ioctl with WATCH publishes the process, whatever
    becomes of it; REPORT and TEST do nothing, and other commands are refused. *)
Theorem xenstore_paths pid dom age fs gs st i :
  is_u16 dom → 0 ≤ pid < 10 ^ 7 → Forall is_u64 fs → Forall (λ g, 0 ≤ g < 10 ^ 7) gs →
  length gs = length fs → malpage_share_info st = Some i → si_domid i = dom →
  malpage_xs_report (mk_process_report pid dom age (Some fs) (Some gs) (Z.of_nat (length fs))) st =
    (if decide (dom < 10) then Err OutOfBounds
     else Ret (0, log_all (xs_report_events dom pid fs gs) st)) ∧
  malpage_ioctl MALPAGE_WATCH pid st =
    (if decide (dom < 100) then Err OutOfBounds
     else Ret (0, log_all (xs_watch_events dom pid) st)) ∧
  malpage_ioctl MALPAGE_REPORT pid st = Ret (0, st) ∧
  malpage_ioctl MALPAGE_TEST pid st = Ret (0, st) ∧
  (∀ cmd, cmd ∉ [MALPAGE_REPORT; MALPAGE_WATCH; MALPAGE_TEST] →
     malpage_ioctl cmd pid st = Ret (MALPAGE_BADCMD, st)).
Proof.
  intros Hd Hp Hf Hg Hl Hi <-. split_and!; try done.
  - case_decide as Hs; [apply xs_report_overflow; [destruct Hd|]; lia|].
    apply xs_report_run; [done|done|]. apply report_fits_slab; try done. lia.
  - unfold malpage_ioctl. simpl. unfold malpage_watch. rewrite Hi. simpl.
    rewrite s32_small by (unfold is_s32; lia). rewrite (u32_small pid) by (unfold is_u32; lia).
    rewrite (u16_small (si_domid i)) by done. rewrite xs_watch_run by done. by case_decide.
  - intros cmd Hc. unfold malpage_ioctl. repeat (rewrite decide_False by set_solver). done.
Qed.

End xs_overflow.

(** A task of two frames, in domain 12. *)
Example toy_report_info : malpage_share_info_t :=
  mk_share_info 12 8 20 41 0 "uuid" (mk_as_front_ring 0 0 4096).
Example toy_report_state : malpage_state :=
  mk_malpage_state (Some toy_report_info) ∅ false false [] 0 (mk_task_struct 0 None)
    [mk_task_struct 1 None; mk_task_struct 77 (Some toy_mm)] [].
(** References 100, 101, ... *)
Example toy_gnttab (hist : list event) (dom frame readonly : Z) : Z := 100 + Z.of_nat (length hist).

Lemma toy_mm_reportable : @mm_ok toy_page_table 8 toy_mm.
Proof. unfold mm_ok. split_and!; try done; [exact toy_mm_ok|vm_compute; lia]. Qed.

Lemma toy_frames : @process_frames toy_page_table toy_mm = [7; 9].
Proof. by vm_compute. Qed.

Lemma malpage_report_correct_witness :
  (∃ h' (l : list (Z * Z)),
    @malpage_report toy_page_table slab toy_kzalloc (λ _, true) toy_gnttab 8 ∅ NULL 99 77
      (Some toy_report_info) toy_report_state =
    Ret (0, h', log_all ([GrantAccess 0 7 1 100; GrantAccess 0 9 1 101] ++
                         xs_report_events 12 77 [7; 9] [100; 101]) toy_report_state) ∧
    linked h' l ∧ l.*2 = [7; 9]) ∧
  @malpage_report toy_page_table slab toy_kzalloc (λ _, true) toy_gnttab 8 ∅ NULL 99 78
      (Some toy_report_info) toy_report_state = Ret (-1, ∅, toy_report_state).
Proof.
  destruct (@malpage_report_correct toy_page_table slab toy_kzalloc (λ _, true) toy_gnttab
    toy_kzalloc_fresh (λ _, eq_refl) 8 ∅ 99 77 toy_mm toy_report_info toy_report_state)
    as ((h' & l & E & Hl) & _ & _ & Hgone).
  - reflexivity.
  - exact toy_mm_reportable.
  - apply (@report_fits_slab slab slab_classes); [done|by vm_compute|done|..].
    + rewrite toy_frames. repeat apply Forall_cons_2; try apply Forall_nil_2; by vm_compute.
    + rewrite toy_frames. repeat apply Forall_cons_2; try apply Forall_nil_2; by vm_compute.
  - split.
    + assert (Hg : grant_events toy_gnttab (events toy_report_state) [7; 9] =
        [GrantAccess 0 7 1 100; GrantAccess 0 9 1 101]) by reflexivity.
      assert (Hd : u16 (si_domid toy_report_info) = 12) by reflexivity.
      assert (Hu : u32 77 = 77) by reflexivity.
      rewrite toy_frames, Hg, Hd, Hu in E. rewrite toy_frames in Hl. cbn [event_gref fmap list_fmap] in E.
      change (u32 100) with 100 in E. change (u32 101) with 101 in E.
      exists h', l. split; [exact E|exact Hl].
    + apply Hgone. apply (bool_decide_unpack _). by vm_compute.
Defined.

Lemma xenstore_paths_witness :
  @malpage_ioctl slab MALPAGE_WATCH 77 toy_report_state = Err OutOfBounds.
Proof.
  apply (@xenstore_paths slab slab_classes 77 12 0 [] [] toy_report_state toy_report_info).
  - split; done.
  - lia.
  - constructor.
  - constructor.
  - reflexivity.
  - reflexivity.
  - reflexivity.
Defined.
