(* ===== verification/MalThread.v ===== *)
(** * The report thread of the DomU driver (drivers/xen/malpage/malpage.c)

    [malpage_report_thread] as a machine of small steps, interleaved with the
    event handler, which fills the queue the thread empties, and with the rest
    of the system.  The steps are those of the C code between which another
    context can run; the lock [report_queue_lock] is held at [TTake] only. *)

From S2P Require Import Prelude PfnList Protocol KernelText PageWalk MalState MalHooks MalIrq MalReport.

(** ** Data *)

(** Where the thread is in its loop; the pid is the local [report_pid]. *)
Inductive thread_pc : Type :=
  | TSleep               (** before [msleep] *)
  | TDown                (** before [down_interruptible] *)
  | TLock                (** before [spin_lock] *)
  | TTake                (** in the critical section *)
  | THalt (pid : Z)      (** before [malpage_op_process(MALPAGE_RING_HALT, ...)] *)
  | TReport (pid : Z)    (** before [malpage_report] *)
  | TResume (pid : Z)    (** before [malpage_op_process(MALPAGE_RING_RESUME, ...)] *)
  | TDone.               (** returned: "report list was empty! Bailing out." *)

#[export] Instance thread_pc_eq_dec : EqDecision thread_pc.
Proof. solve_decision. Defined.

Record system : Type := mk_system {
  pc : thread_pc;
  node_heap : gmap Z pfn_ll_node;
  driver : malpage_state
}.

(** What a step means for the queue. *)
Inductive action : Type :=
  | Tau
  | Queued (pids : list Z)
  | Taken (pid : Z).

Section thread.
  Context `{PT : PageTable} `{AL : Allocator} `{RM : RingMacros}.
  Context (kzalloc : gmap Z pfn_ll_node → Z) (array_ok : Z → bool) (kzalloc_ok : malpage_state → bool).
  Context (gnttab_grant_foreign_access : list event → Z → Z → Z → Z).
  (** the fuel of the scans, and the stack where the scan's locals are *)
  Context (fuel : nat) (root0 tail0 : Z).

(** ** Operations *)

(** One step of [malpage_report_thread]; [None] when the thread cannot go on.
    [interrupted] tells whether a signal ends [down_interruptible], whose
    result the code ignores. *)
Definition malpage_report_thread (interrupted : bool) (sys : system)
    : outcome (option (action * system)) :=
  let st := driver sys in
  let goto pc' st' := Ret (Some (Tau, mk_system pc' (node_heap sys) st')) in
  match pc sys with
  | TSleep => goto TDown st
  | TDown =>
      if decide (0 < thread_report_sem st) then goto TLock (set_sem (thread_report_sem st - 1) st)
      else if interrupted then goto TLock st
      else Ret None
  | TLock => st1 ← spin_lock_queue st; goto TTake st1
  | TTake =>
      match report_queue st with
      | [] => goto TDone st
      | pid :: q =>
          Ret (Some (Taken pid,
            mk_system (THalt pid) (node_heap sys) (spin_unlock_queue (set_queue q st))))
      end
  | THalt pid => goto (TReport pid) (malpage_op_process MALPAGE_RING_HALT (u32 pid) st).2
  | TReport pid =>
      '(_, h, st1) ← malpage_report kzalloc array_ok gnttab_grant_foreign_access fuel
                       (node_heap sys) root0 tail0 pid (malpage_share_info st) st;
      Ret (Some (Tau, mk_system (TResume pid) h st1))
  | TResume pid => goto TSleep (malpage_op_process MALPAGE_RING_RESUME (u32 pid) st).2
  | TDone => Ret None
  end.

(** Steps that concern neither queue nor semaphore nor their lock: the
    monitor writing the ring, the hooks, processes coming and going. *)
Definition same_queue (st st' : malpage_state) : Prop :=
  report_queue st' = report_queue st ∧ thread_report_sem st' = thread_report_sem st ∧
  report_queue_lock st' = report_queue_lock st.

Inductive step (interruptible : bool) : system → action → system → Prop :=
  | step_thread b sys a sys' :
      (b = true → interruptible = true) →
      malpage_report_thread b sys = Ret (Some (a, sys')) →
      step interruptible sys a sys'
  | step_irq n skip sys st' pids :
      malpage_irq_handle kzalloc_ok n skip (driver sys) = Ret st' →
      report_queue st' = report_queue (driver sys) ++ pids →
      step interruptible sys (Queued pids) (mk_system (pc sys) (node_heap sys) st')
  | step_env sys h st' :
      same_queue (driver sys) st' →
      step interruptible sys Tau (mk_system (pc sys) h st').

Inductive steps (interruptible : bool) : system → list action → system → Prop :=
  | steps_nil sys : steps interruptible sys [] sys
  | steps_snoc sys tr sys1 a sys2 :
      steps interruptible sys tr sys1 → step interruptible sys1 a sys2 →
      steps interruptible sys (tr ++ [a]) sys2.

(** [n] thread steps in a row, without interruption. *)
Fixpoint run_thread (n : nat) (sys : system) : outcome system :=
  match n with
  | O => Ret sys
  | S n' =>
      r ← malpage_report_thread false sys;
      match r with Some (_, sys') => run_thread n' sys' | None => Ret sys end
  end.

End thread.

(** ** The invariant *)

(** The state after [malpage_init]. *)
Definition started (sys : system) : Prop :=
  pc sys = TSleep ∧ report_queue (driver sys) = [] ∧ thread_report_sem (driver sys) = 0 ∧
  report_queue_lock (driver sys) = false.

(** The semaphore counts the queued pids, but for the one the thread has
    claimed and not yet taken; the lock is held in the critical section. *)
Definition claimed (p : thread_pc) : Z :=
  match p with TLock | TTake => 1 | _ => 0 end.

Record thread_inv (sys : system) : Prop := mk_thread_inv {
  ti_sem : thread_report_sem (driver sys) + claimed (pc sys) = Z.of_nat (length (report_queue (driver sys)));
  ti_nonneg : 0 ≤ thread_report_sem (driver sys);
  ti_lock : report_queue_lock (driver sys) = bool_decide (pc sys = TTake);
  ti_alive : pc sys ≠ TDone
}.

(** The pids a trace queues and takes, in order. *)
Definition queued (tr : list action) : list Z :=
  concat ((λ a, match a with Queued ps => ps | _ => [] end) <$> tr).
Definition taken (tr : list action) : list Z :=
  concat ((λ a, match a with Taken p => [p] | _ => [] end) <$> tr).

(** ** Lemmas *)

Lemma queued_snoc tr a :
  queued (tr ++ [a]) = queued tr ++ match a with Queued ps => ps | _ => [] end.
Proof. unfold queued. rewrite fmap_app, concat_app. simpl. by rewrite app_nil_r. Qed.

Lemma taken_snoc tr a :
  taken (tr ++ [a]) = taken tr ++ match a with Taken p => [p] | _ => [] end.
Proof. unfold taken. rewrite fmap_app, concat_app. simpl. by rewrite app_nil_r. Qed.

(** What the handler does to queue, semaphore and lock, on any state it
    returns from: it appends, raises the semaphore as often, and leaves a held
    lock alone. *)
Definition enqueues (st st' : malpage_state) : Prop :=
  ∃ ps, report_queue st' = report_queue st ++ ps ∧
    thread_report_sem st' = thread_report_sem st + Z.of_nat (length ps) ∧
    report_queue_lock st' = report_queue_lock st ∧ (report_queue_lock st = true → ps = []).

Lemma enqueues_same st st' : same_queue st st' → enqueues st st'.
Proof.
  intros (Hq & Hs & Hl). exists []. rewrite app_nil_r. simpl. split_and!; try done. lia.
Qed.

Lemma enqueues_trans st1 st2 st3 : enqueues st1 st2 → enqueues st2 st3 → enqueues st1 st3.
Proof.
  intros (p1 & Hq1 & Hs1 & Hl1 & Hn1) (p2 & Hq2 & Hs2 & Hl2 & Hn2). exists (p1 ++ p2).
  rewrite Hq2, Hq1, Hs2, Hs1, length_app, app_assoc. split_and!; [done|lia|congruence|].
  intros Hl. rewrite Hn1, Hn2 by congruence. done.
Qed.

Lemma op_process_same op pid st : same_queue st (malpage_op_process op pid st).2.
Proof. destruct (op_process_frame op pid st) as [es ->]. done. Qed.

Section thread_lemmas.
  Context `{RM : RingMacros} (kzalloc_ok : malpage_state → bool).

Lemma irq_response_enqueues m skip st r :
  irq_response kzalloc_ok m skip st = Ret r → enqueues st r.2.
Proof.
  unfold irq_response. repeat case_decide; intros E; simplify_eq/=.
  all: try by apply enqueues_same.
  - apply enqueues_same, op_process_same.
  - unfold enqueue_report, spin_lock_queue in E.
    destruct (report_queue_lock st) eqn:Hl; simpl in E; [done|].
    destruct (kzalloc_ok _); simpl in E; [|done]. injection E as <-.
    exists [s32 (process_id m)]. simpl. split_and!; congruence || lia.
Qed.

Lemma irq_loop_enqueues n rc rp skip st r :
  irq_loop kzalloc_ok n rc rp skip st = Ret r → enqueues st r.2.
Proof.
  revert rc skip st. induction n as [|n IH]; intros rc skip st; simpl; case_decide; try done.
  1,2: intros [= <-]; by apply enqueues_same.
  destruct (share_info st) as [i|]; simpl; [|done].
  destruct (load_page st _) as [s|]; simpl; [|done].
  destruct (irq_response _ _ _ _) as [r1|] eqn:E; simpl; [|done].
  intros Hr. eapply enqueues_trans; [by eapply irq_response_enqueues|by eapply IH].
Qed.

Lemma irq_finish_same rc st r : irq_finish rc st = Ret r → same_queue st r.2.
Proof.
  unfold irq_finish. destruct (share_info st) as [i|]; simpl; [|done].
  destruct (load_page _ _) as [s|]; simpl; [|done].
  case_decide; [destruct (RING_FINAL_CHECK_FOR_RESPONSES _ _)|]; by intros [= <-].
Qed.

Lemma irq_handle_enqueues n skip st st' :
  malpage_irq_handle kzalloc_ok n skip st = Ret st' → enqueues st st'.
Proof.
  revert skip st. induction n as [|n IH]; intros skip st; simpl; [done|].
  destruct (share_info st) as [i|]; simpl; [|done].
  destruct (load_page st _) as [s|]; simpl; [|done].
  destruct (irq_loop _ _ _ _ _ _) as [r|] eqn:E; simpl; [|done].
  apply irq_loop_enqueues in E. case_decide; [|by intros [= <-]].
  destruct (irq_finish _ _) as [[b st1]|] eqn:Ef; simpl; [|done].
  apply irq_finish_same, enqueues_same in Ef. simpl in Ef.
  destruct b; intros Hr; [apply IH in Hr|injection Hr as <-]; eauto using enqueues_trans.
Qed.

End thread_lemmas.

Section queue_lemmas.
  Context `{PT : PageTable} `{AL : Allocator} `{RM : RingMacros}.
  Context (kzalloc : gmap Z pfn_ll_node → Z) (array_ok : Z → bool) (kzalloc_ok : malpage_state → bool).
  Context (gnttab : list event → Z → Z → Z → Z) (fuel : nat) (root0 tail0 : Z).

Abbreviation thread_run := (malpage_report_thread kzalloc array_ok gnttab fuel root0 tail0).
Abbreviation sys_step := (step kzalloc array_ok kzalloc_ok gnttab fuel root0 tail0).
Abbreviation sys_steps := (steps kzalloc array_ok kzalloc_ok gnttab fuel root0 tail0).

(** One step keeps the invariant and the pids: what was queued before or by
    the step is what the step takes and what stays queued. *)
Definition conserves (sys : system) (a : action) (sys' : system) : Prop :=
  thread_inv sys' ∧
  report_queue (driver sys) ++ queued [a] = taken [a] ++ report_queue (driver sys').

(** A step to a place where the lock is free and nothing is claimed. *)
Lemma conserves_same sys a pc' h st' :
  thread_inv sys → same_queue (driver sys) st' → queued [a] = [] → taken [a] = [] →
  claimed pc' = claimed (pc sys) → (pc' = TTake ↔ pc sys = TTake) → pc' ≠ TDone →
  conserves sys a (mk_system pc' h st').
Proof.
  intros [Hs Hn Hl Ha] (Eq & Es & El) Hqa Hta Hc Ht Hd. split.
  - split; cbn [driver pc]; rewrite ?Eq, ?Es, ?El, ?Hc; try done.
    rewrite Hl. by apply bool_decide_ext.
  - cbn [driver]. by rewrite Hqa, Hta, app_nil_r, Eq.
Qed.

Lemma thread_conserves sys a sys' :
  thread_inv sys → thread_run false sys = Ret (Some (a, sys')) → conserves sys a sys'.
Proof.
  intros Hi. destruct sys as [p h st]. pose proof Hi as [Hs Hn Hl Ha].
  unfold malpage_report_thread. cbn [driver pc node_heap] in *. intros E.
  destruct p as [| | | |pid|pid|pid|]; simplify_eq/=.
  - by apply conserves_same.
  - case_decide; [|done]. simplify_eq/=. split; [split; simpl|]; try done; try lia.
    by rewrite app_nil_r.
  - unfold spin_lock_queue in E. rewrite Hl in E. simplify_eq/=. split; [split; simpl|]; try done.
    by rewrite app_nil_r.
  - destruct (report_queue st) as [|pid q] eqn:Eq; simplify_eq/=; [lia|].
    split; [split; simpl|]; try done; try lia. simpl. by rewrite Eq, app_nil_r.
  - apply conserves_same; try done. apply op_process_same.
  - bind_inv E. destruct r as [[r h'] st']. injection E as <- <-.
    apply conserves_same; try done. apply malpage_report_logs in E0 as [es ->]. done.
  - apply conserves_same; try done. apply op_process_same.
Qed.

Lemma step_conserves sys a sys' :
  sys_step false sys a sys' → thread_inv sys → conserves sys a sys'.
Proof.
  intros [b sys1 a1 sys2 Hb E|n skip sys1 st' pids E Eq|sys1 h st' Hsame] Hi.
  - destruct b; [by discriminate Hb|]. by apply thread_conserves.
  - apply irq_handle_enqueues in E as (ps & Hq & Hn & Hl & Hnil).
    assert (ps = pids) as -> by (rewrite Hq in Eq; by apply app_inv_head in Eq).
    destruct Hi as [Hs Hnn Hlk Ha]. split; [split; simpl|].
    + rewrite Hq, length_app. lia.
    + lia.
    + by rewrite Hl.
    + done.
    + unfold queued, taken. simpl. by rewrite app_nil_r, Hq.
  - apply conserves_same; try done. by destruct Hi.
Qed.

Lemma steps_conserve sys tr sys' :
  sys_steps false sys tr sys' → started sys →
  thread_inv sys' ∧ queued tr = taken tr ++ report_queue (driver sys').
Proof.
  intros Hsteps (Hp & Hq & Hs & Hl). induction Hsteps as [sys|sys tr sys1 a sys2 _ IH Hstep].
  - split; [split|by rewrite Hq]; rewrite ?Hp, ?Hq, ?Hs, ?Hl; done.
  - destruct IH as [Hi IH]; [done..|]. destruct (step_conserves _ _ _ Hstep Hi) as [Hi' E].
    split; [done|]. rewrite queued_snoc, taken_snoc, IH, <-!app_assoc. f_equal.
    unfold queued, taken in E. simpl in E. by rewrite !app_nil_r in E.
Qed.

(** ** Properties *)

(** C2: as long as no signal interrupts its wait, the report thread and the
    event handler keep the queue sound in every interleaving with each other
    and the rest of the driver: the semaphore counts the queued pids except
    for the one the thread has claimed, the lock is held exactly in the
    critical section, the thread never finds the queue empty and so never
    exits, and the pids it takes are the pids the handler queued, each once,
    in the order they arrived. *)
Theorem report_queue_fifo sys tr sys' :
  sys_steps false sys tr sys' → started sys →
  thread_report_sem (driver sys') + claimed (pc sys') =
    Z.of_nat (length (report_queue (driver sys'))) ∧
  (report_queue_lock (driver sys') = true ↔ pc sys' = TTake) ∧
  pc sys' ≠ TDone ∧
  queued tr = taken tr ++ report_queue (driver sys').
Proof.
  intros Hsteps Hst. destruct (steps_conserve _ _ _ Hsteps Hst) as [[Hs Hn Hl Ha] Hq].
  split_and!; try done.
  rewrite Hl. by rewrite bool_decide_eq_true.
Qed.

End queue_lemmas.

(** One turn of the thread's loop with a pid waiting is seven steps. *)
Section turn.
  Context `{PT : PageTable} `{AL : Allocator}.
  Context (kzalloc : gmap Z pfn_ll_node → Z) (gnttab : list event → Z → Z → Z → Z).
  Hypothesis kzalloc_fresh : ∀ h, kzalloc h ≠ NULL ∧ h !! kzalloc h = None.

(** The thread asleep with [pid] first in a sound queue of a connected driver. *)
Record turn_ready (sys : system) (pid : Z) (q : list Z) (i : malpage_share_info_t) : Prop := mk_turn_ready {
  tr_inv : thread_inv sys;
  tr_pc : pc sys = TSleep;
  tr_queue : report_queue (driver sys) = pid :: q;
  tr_info : malpage_share_info (driver sys) = Some i;
  tr_init : task_pid (init_task (driver sys)) = 0;
  tr_tasks : Forall (λ t, 0 < task_pid t) (tasks (driver sys));
  tr_pid : is_s32 pid
}.

(** The driver after the pid is taken. *)
Definition took (q : list Z) (st : malpage_state) : malpage_state :=
  set_queue q (set_sem (thread_report_sem st - 1) st).

Lemma run_step fuel tail0 n sys a sys' :
  malpage_report_thread kzalloc (λ _, true) gnttab fuel NULL tail0 false sys = Ret (Some (a, sys')) →
  run_thread kzalloc (λ _, true) gnttab fuel NULL tail0 (S n) sys =
  run_thread kzalloc (λ _, true) gnttab fuel NULL tail0 n sys'.
Proof. intros E. cbn [run_thread]. by rewrite E. Qed.

Lemma take_run fuel tail0 sys pid q i n :
  turn_ready sys pid q i →
  run_thread kzalloc (λ _, true) gnttab fuel NULL tail0 (4 + n) sys =
  run_thread kzalloc (λ _, true) gnttab fuel NULL tail0 n
    (mk_system (THalt pid) (node_heap sys) (took q (driver sys))).
Proof.
  intros [[Hs Hn Hl _] Hp Hq _ _ _ _]. destruct sys as [p h st].
  cbn [pc driver node_heap] in *. subst p. rewrite Hq in Hs. simpl in Hs, Hl.
  etrans; [by eapply run_step|]. etrans; [eapply run_step|].
  { unfold malpage_report_thread. simpl. rewrite decide_True by lia. done. }
  etrans; [eapply run_step|].
  { unfold malpage_report_thread, spin_lock_queue. simpl. rewrite Hl. done. }
  etrans; [eapply run_step|].
  { unfold malpage_report_thread. simpl. rewrite Hq. done. }
  do 2 f_equal. unfold took, spin_unlock_queue. destruct st; simpl in *; by subst.
Qed.

Lemma s32_u32 x : is_s32 x → s32 (u32 x) = x.
Proof. zwrap. Qed.

(** The turn for a live process. *)
Lemma report_turn_run fuel tail0 sys pid q i m :
  turn_ready sys pid q i →
  find_process (tasks (driver sys)) pid = Some (mk_task_struct pid (Some m)) → mm_ok fuel m →
  let frames := process_frames m in
  let es := grant_events gnttab (events (driver sys) ++ [Signal SIGSTOP pid]) frames in
  let dom := u16 (si_domid i) in
  report_fits dom (u32 pid) frames (event_gref <$> es) →
  ∃ h', run_thread kzalloc (λ _, true) gnttab fuel NULL tail0 7 sys =
    Ret (mk_system TSleep h' (log_all ([Signal SIGSTOP pid] ++ es ++
      xs_report_events dom (u32 pid) frames (event_gref <$> es) ++ [Signal SIGCONT pid])
      (took q (driver sys)))).
Proof.
  intros Ht. change 7%nat with (4 + 3)%nat. rewrite !(take_run fuel tail0 sys pid q i 3) by done.
  destruct Ht as [_ _ _ Hi Hinit Htasks Hpid]. destruct sys as [p h st]. cbn [pc driver node_heap] in *.
  intros Hf Hm Hfit. pose proof (find_process_Some _ _ _ Hf) as [Hin _].
  assert (Hp : pid ∈ task_pid <$> tasks st)
    by (apply list_elem_of_fmap; eexists; split; [|exact Hin]; done).
  rewrite (run_step _ _ _ _ Tau (mk_system (TReport pid) h (log (Signal SIGSTOP pid) (took q st)))).
  2: { unfold malpage_report_thread. cbn [pc driver node_heap].
       rewrite (op_process_run _ _ SIGSTOP) by done. by rewrite s32_u32, decide_True by done. }
  destruct (malpage_report_run kzalloc (λ _, true) gnttab kzalloc_fresh (λ _, eq_refl) fuel h tail0
    pid m i (log (Signal SIGSTOP pid) (took q st))) as (h' & l & E & _); [done..|].
  exists h'. etrans; [eapply run_step|].
  { unfold malpage_report_thread. cbn [pc driver node_heap].
    change (malpage_share_info (log _ _)) with (malpage_share_info st). rewrite Hi, E. done. }
  etrans; [eapply run_step|].
  { unfold malpage_report_thread. cbn [pc driver node_heap].
    rewrite (op_process_run _ _ SIGCONT) by done. by rewrite s32_u32, decide_True by done. }
  cbn [run_thread snd]. do 2 f_equal. rewrite !log_log_all, !log_all_app. f_equal.
  by rewrite <-!app_assoc.
Qed.

(** When a pid is waiting and nothing disturbs it, one turn of the thread
    takes the first pid, stops that process, reports it and lets it go on, in
    this order, all in one turn; a pid whose process is gone is dropped
    without any signal, grant or XenStore write.  The turn ends with the lock
    free and one pid less on queue and semaphore.  The process runs again
    before the monitor has seen the report, whatever its verdict will be. *)
Theorem report_turn fuel tail0 sys pid q i :
  turn_ready sys pid q i →
  (∀ m, find_process (tasks (driver sys)) pid = Some (mk_task_struct pid (Some m)) → mm_ok fuel m →
   let frames := process_frames m in
   let es := grant_events gnttab (events (driver sys) ++ [Signal SIGSTOP pid]) frames in
   let dom := u16 (si_domid i) in
   report_fits dom (u32 pid) frames (event_gref <$> es) →
   ∃ h', run_thread kzalloc (λ _, true) gnttab fuel NULL tail0 7 sys =
     Ret (mk_system TSleep h' (log_all ([Signal SIGSTOP pid] ++ es ++
       xs_report_events dom (u32 pid) frames (event_gref <$> es) ++ [Signal SIGCONT pid])
       (took q (driver sys))))) ∧
  (pid ∉ task_pid <$> tasks (driver sys) →
   run_thread kzalloc (λ _, true) gnttab fuel NULL tail0 7 sys =
     Ret (mk_system TSleep (node_heap sys) (took q (driver sys)))).
Proof.
  intros Ht. split; [intros m; by apply report_turn_run|].
  change 7%nat with (4 + 3)%nat. rewrite !(take_run fuel tail0 sys pid q i 3) by done.
  destruct Ht as [_ _ _ Hi Hinit Htasks Hpid]. destruct sys as [p h st]. cbn [pc driver node_heap] in *.
  intros Hp.
  assert (Hop : ∀ op sig, signal_of op = Some sig →
    malpage_op_process op (u32 pid) (took q st) = (1, took q st)).
  { intros op sig Hs. rewrite (op_process_run _ _ sig) by done. by rewrite s32_u32, decide_False. }
  etrans; [eapply run_step|].
  { unfold malpage_report_thread. cbn [pc driver node_heap]. by rewrite (Hop _ SIGSTOP). }
  etrans; [eapply run_step|].
  { unfold malpage_report_thread, malpage_report. cbn [pc driver node_heap snd].
    by rewrite find_process_None. }
  etrans; [eapply run_step|].
  { unfold malpage_report_thread. cbn [pc driver node_heap]. by rewrite (Hop _ SIGCONT). }
  done.
Qed.

End turn.

(** ** The handler against a held lock *)

Section locked.
  Context `{RL : RingLaws} (kzalloc_ok : malpage_state → bool).

Lemma irq_response_locked m skip st i s :
  irq_ready kzalloc_ok st i s →
  irq_response kzalloc_ok m skip (set_queue_lock true st) =
    if decide (operation m = MALPAGE_RING_REPORT) then Err SelfDeadlock
    else Ret (default skip (decisive m), set_queue_lock true (after_responses [m] st)).
Proof.
  intros Hr. rewrite after_response. unfold irq_response, decisive. destruct m as [op ? ? pid]. simpl.
  repeat (destruct (decide (op = _)) as [->|?]; simpl;
    [repeat (destruct (decide _); try by (exfalso; set_solver)); try done|]); simpl.
  1,2: destruct Hr; rewrite (op_process_run _ _ SIGKILL) by done; simpl; by destruct (decide _).
  destruct (decide (_ ∨ _)); [naive_solver|]. destruct (decide (_ ∈ _)); set_solver.
Qed.

Lemma irq_loop_locked (n fuel : nat) rc rp skip st i s :
  irq_ready kzalloc_ok st i s → is_u32 rc → Z.of_nat n < 2 ^ 32 → rp = u32 (rc + Z.of_nat n) →
  (n ≤ fuel)%nat →
  reported_pids ((λ k, slot s (ring_slot (rc + k))) <$> seqZ 0 (Z.of_nat n)) ≠ [] →
  irq_loop kzalloc_ok fuel rc rp skip (set_queue_lock true st) = Err SelfDeadlock.
Proof.
  revert fuel rc skip st. induction n as [|n IH]; intros fuel rc skip st Hr Hrc Hn Hrp Hf Hms; [done|].
  destruct fuel as [|fuel]; [lia|]. simpl.
  rewrite decide_False by (rewrite Hrp; clear -Hrc Hn; zwrap).
  pose proof (ir_connected _ _ _ _ Hr) as (Hi & Hp & Hs). unfold share_info. simpl. rewrite Hi. simpl.
  unfold load_page. simpl. rewrite decide_False by done. rewrite Hs. simpl.
  rewrite (irq_response_locked _ _ _ _ _ Hr). case_decide as Hop; [done|]. simpl.
  apply IH; [by apply irq_ready_after|apply u32_range|lia|rewrite Hrp, u32_add_l; f_equal; lia|lia|].
  rewrite (batch_cons s rc n), reported_pids_cons in Hms.
  unfold reported_pids at 1 in Hms. by rewrite filter_cons, decide_False in Hms.
Qed.

(** C23: the lock is shared with an interrupt handler and taken without
    disabling interrupts.  While it is held, an event whose responses contain
    a REPORT makes the handler spin on it; on the thread's own processor, in
    its critical section, nobody can release it.  And if a signal interrupts
    the thread's wait while the queue is empty, the thread bails out with the
    lock still held, and the next REPORT finds it so for ever. *)
Theorem held_lock_deadlocks st i s fuel skip :
  irq_ready kzalloc_ok st i s →
  reported_pids (responses s (rsp_cons (fring i)) (rsp_prod s)) ≠ [] →
  malpage_irq_handle kzalloc_ok (S fuel) skip (set_queue_lock true st) = Err SelfDeadlock ∧
  (∀ (PT : PageTable) (AL : Allocator) kzalloc array_ok gnttab wfuel root0 tail0 h sys,
     sys = mk_system TSleep h st → started sys →
     steps kzalloc array_ok kzalloc_ok gnttab wfuel root0 tail0 true sys [Tau; Tau; Tau; Tau]
       (mk_system TDone h (set_queue_lock true st))).
Proof.
  intros Hr Hms. split.
  - pose proof (ir_connected _ _ _ _ Hr) as (Hi & Hp & Hs). simpl. unfold share_info. simpl.
    rewrite Hi. simpl. unfold load_page. simpl. rewrite decide_False by done. rewrite Hs. simpl.
    set (d := u32 (rsp_prod s - rsp_cons (fring i))). assert (Hd : is_u32 d) by apply u32_range.
    rewrite (irq_loop_locked (Z.to_nat d) _ _ _ _ _ i s Hr); [done|by destruct Hr|..|done|].
    + rewrite Z2Nat.id; by destruct Hd.
    + rewrite Z2Nat.id by (by destruct Hd). pose proof (ir_rc _ _ _ _ Hr) as H1.
      pose proof (ir_rp _ _ _ _ Hr) as H2. unfold d in *. clear -H1 H2. zwrap.
    + rewrite Z2Nat.id by (by destruct Hd). exact Hms.
  - intros PT AL kzalloc array_ok gnttab wfuel root0 tail0 h sys -> (_ & Hq & Hs & Hl). simpl in *.
    change [Tau; Tau; Tau; Tau] with (((([] ++ [Tau]) ++ [Tau]) ++ [Tau]) ++ [Tau]).
    eapply steps_snoc; [eapply steps_snoc; [eapply steps_snoc; [eapply steps_snoc; [apply steps_nil|]|]|]|].
    + by apply (step_thread _ _ _ _ _ _ _ _ false).
    + apply (step_thread _ _ _ _ _ _ _ _ true); [done|]. unfold malpage_report_thread. simpl.
      rewrite Hs. done.
    + apply (step_thread _ _ _ _ _ _ _ _ false); [done|]. unfold malpage_report_thread, spin_lock_queue.
      simpl. rewrite Hl. done.
    + apply (step_thread _ _ _ _ _ _ _ _ false); [done|]. unfold malpage_report_thread. simpl.
      rewrite Hq. done.
Qed.

End locked.

(** The handler queues process 1, the thread takes it. *)
Example toy_started : system := mk_system TSleep ∅ (toy_irq_state MALPAGE_RING_RESUME).
Example toy_queued : malpage_state :=
  @irq_result ring32 0 toy_irq_info (toy_responses MALPAGE_RING_RESUME) (toy_irq_state MALPAGE_RING_RESUME).
Example toy_trace : list action := [Queued [1]; Tau; Tau; Tau; Taken 1].

Lemma toy_steps : ∃ sys',
  @steps toy_page_table slab ring32 toy_kzalloc (λ _, true) (λ _, true) toy_gnttab 8 NULL 99 false
    toy_started toy_trace sys' ∧ report_queue (driver sys') = [].
Proof.
  pose (d := set_sem 0 toy_queued).
  exists (mk_system (THalt 1) ∅ (spin_unlock_queue (set_queue [] (set_queue_lock true d)))). split; [|done].
  change toy_trace with ((((([] ++ [Queued [1]]) ++ [Tau]) ++ [Tau]) ++ [Tau]) ++ [Taken 1]).
  eapply (steps_snoc _ _ _ _ _ _ _ _ _ _ (mk_system TTake ∅ (set_queue_lock true d))).
  - eapply (steps_snoc _ _ _ _ _ _ _ _ _ _ (mk_system TLock ∅ d)).
    + eapply (steps_snoc _ _ _ _ _ _ _ _ _ _ (mk_system TDown ∅ toy_queued)).
      * eapply (steps_snoc _ _ _ _ _ _ _ _ _ _ (mk_system TSleep ∅ toy_queued)).
        -- eapply steps_snoc; [apply steps_nil|].
           apply (step_irq _ _ _ _ _ _ _ _ 1 0 toy_started); [|by vm_compute].
           apply (@irq_handle_run ring32 ring32_laws), toy_irq_ready.
        -- by apply (step_thread _ _ _ _ _ _ _ _ false).
      * by apply (step_thread _ _ _ _ _ _ _ _ false).
    + by apply (step_thread _ _ _ _ _ _ _ _ false).
  - by apply (step_thread _ _ _ _ _ _ _ _ false).
Qed.

Lemma report_queue_fifo_witness : ∃ sys',
  @steps toy_page_table slab ring32 toy_kzalloc (λ _, true) (λ _, true) toy_gnttab 8 NULL 99 false
    toy_started toy_trace sys' ∧ queued toy_trace = taken toy_trace ++ report_queue (driver sys').
Proof.
  destruct toy_steps as (sys' & Hs & _). exists sys'. split; [exact Hs|].
  apply (@report_queue_fifo toy_page_table slab ring32 toy_kzalloc (λ _, true) (λ _, true) toy_gnttab
    8 NULL 99 toy_started toy_trace sys' Hs).
  split; [reflexivity|]. split; [reflexivity|]. split; reflexivity.
Defined.

(** Process 77, of the two frames, is first in the queue. *)
Example toy_waiting (q : list Z) : system :=
  mk_system TSleep ∅ (set_queue q (set_sem (Z.of_nat (length q)) toy_report_state)).

Lemma toy_turn_ready pid q : is_s32 pid → turn_ready (toy_waiting (pid :: q)) pid q toy_report_info.
Proof.
  intros Hp. split; try done.
  repeat constructor; simpl; lia.
Qed.

Lemma report_turn_witness :
  (∃ h', @run_thread toy_page_table slab toy_kzalloc (λ _, true) toy_gnttab 8 NULL 99 7 (toy_waiting [77; 5]) =
    Ret (mk_system TSleep h' (log_all ([Signal SIGSTOP 77] ++
      [GrantAccess 0 7 1 101; GrantAccess 0 9 1 102] ++
      xs_report_events 12 77 [7; 9] [101; 102] ++ [Signal SIGCONT 77])
      (took [5] (driver (toy_waiting [77; 5])))))) ∧
  @run_thread toy_page_table slab toy_kzalloc (λ _, true) toy_gnttab 8 NULL 99 7 (toy_waiting [78]) =
    Ret (mk_system TSleep ∅ (took [] (driver (toy_waiting [78])))).
Proof.
  assert (Hr : is_s32 77) by (vm_compute; split; done).
  assert (Hr' : is_s32 78) by (vm_compute; split; done).
  split.
  - destruct (@report_turn toy_page_table slab toy_kzalloc toy_gnttab toy_kzalloc_fresh 8 99
      (toy_waiting [77; 5]) 77 [5] toy_report_info (toy_turn_ready 77 [5] Hr)) as [H _].
    assert (Hg : grant_events toy_gnttab (events (driver (toy_waiting [77; 5])) ++ [Signal SIGSTOP 77]) [7; 9] =
      [GrantAccess 0 7 1 101; GrantAccess 0 9 1 102]) by reflexivity.
    assert (Hd : u16 (si_domid toy_report_info) = 12) by reflexivity.
    assert (Hu : u32 77 = 77) by reflexivity.
    specialize (H toy_mm eq_refl toy_mm_reportable). cbv zeta in H. rewrite toy_frames, Hg, Hd, Hu in H.
    cbn [event_gref fmap list_fmap] in H.
    change (u32 101) with 101 in H. change (u32 102) with 102 in H. apply H.
    apply (@report_fits_slab slab slab_classes); [done|by vm_compute|done|..];
      repeat apply Forall_cons_2; try apply Forall_nil_2; by vm_compute.
  - apply (@report_turn toy_page_table slab toy_kzalloc toy_gnttab toy_kzalloc_fresh 8 99
      (toy_waiting [78]) 78 [] toy_report_info (toy_turn_ready 78 [] Hr')).
    apply (bool_decide_unpack _). by vm_compute.
Defined.

Lemma held_lock_deadlocks_witness :
  @malpage_irq_handle ring32 (λ _, true) 1 0 (set_queue_lock true (toy_irq_state MALPAGE_RING_RESUME)) =
    Err SelfDeadlock.
Proof.
  apply (@held_lock_deadlocks ring32 ring32_laws (λ _, true) (toy_irq_state MALPAGE_RING_RESUME)
    toy_irq_info (toy_responses MALPAGE_RING_RESUME) 0 0 (toy_irq_ready _)).
  vm_compute. discriminate.
Defined.
