(* ===== verification/MalRegister.v ===== *)
(** * Loading the DomU driver (drivers/xen/malpage/malpage.c)

    [malpage_init] and what it calls: the ring page is allocated, granted and
    connected, uuid and domain number are read, and the domain is registered
    in XenStore.  The answers of kernel and hypervisor are parameters that see
    the history of events. *)

From S2P Require Import Prelude Protocol KernelText PageWalk MalState MalHooks MalReport.

(** ** Data *)

Definition MALPAGE_XENSTORE_DOMID_PATH : string := "domid".
Definition MALPAGE_XENSTORE_REGISTER_PATH : string := "/malpage/register".
Definition MALPAGE_XENSTORE_REGISTER_VALUE_FORMAT : string := "%u:%u:%u:%s".
Definition MALPAGE_UUID_LENGTH : Z := slen "00000000-0000-0000-0000-000000000000" + 1.
Definition MALPAGE_DUMP_FILENAME : string := "/tmp/%d_dump.bin".

Definition set_ring_page (f : as_front_ring) (i : malpage_share_info_t) : malpage_share_info_t :=
  set_fring f i.
Definition set_gref (g : Z) (i : malpage_share_info_t) : malpage_share_info_t :=
  mk_share_info (si_domid i) g (si_evtchn i) (si_irq i) (si_ring_mfn i) (si_uuid i) (fring i).
Definition set_port (e : Z) (i : malpage_share_info_t) : malpage_share_info_t :=
  mk_share_info (si_domid i) (si_gref i) e (si_irq i) (si_ring_mfn i) (si_uuid i) (fring i).
Definition set_irq (q : Z) (i : malpage_share_info_t) : malpage_share_info_t :=
  mk_share_info (si_domid i) (si_gref i) (si_evtchn i) q (si_ring_mfn i) (si_uuid i) (fring i).

(** [kzalloc(sizeof(malpage_share_info_t), GFP_KERNEL)] *)
Definition zero_info : malpage_share_info_t :=
  mk_share_info 0 0 0 0 0 EmptyString (mk_as_front_ring 0 0 NULL).

Section register.
  Context `{RM : RingMacros} `{AL : Allocator}.
  (** [__get_free_page], null when there is none *)
  Context (get_free_page : list event → Z) (virt_to_mfn : Z → Z).
  Context (gnttab_grant_foreign_access : list event → Z → Z → Z → Z).
  (** [EVTCHNOP_alloc_unbound] for a remote domain: the error and the port *)
  Context (alloc_unbound : list event → Z → Z * Z).
  (** [bind_evtchn_to_irqhandler] *)
  Context (bind_evtchn : list event → Z → Z).
  (** what [vfs_read] of the uuid file delivers, nothing when it does not open *)
  Context (uuid_file : option string).
  (** [xenbus_read] of a node of the domain's directory *)
  Context (xenbus_read : list event → string → option string).

(** ** Operations *)

(** [static int malpage_alloc_evtchn(int domid, int *port)]: the error, and the
    value of [*port] afterwards, [old] when it is not written. *)
Definition malpage_alloc_evtchn (domid old : Z) (st : malpage_state) : Z * Z * malpage_state :=
  let '(err, port) := alloc_unbound (events st) (u16 domid) in
  let st1 := log (AllocUnbound (u16 domid)) st in
  if decide (err ≠ 0) then (err, old, st1) else (err, u32 port, st1).

(** [static void malpage_free_ring(malpage_share_info_t *info)] *)
Definition malpage_free_ring (info : malpage_share_info_t) (st : malpage_state)
    : malpage_share_info_t * malpage_state :=
  let st1 := if decide (si_irq info ≠ 0) then log (UnbindIrq (si_irq info)) st else st in
  (set_port 0 (set_irq 0 info), st1).

(** [static unsigned long malpage_setup_ring(malpage_share_info_t *info)] *)
Definition malpage_setup_ring (info : malpage_share_info_t) (st : malpage_state)
    : Z * malpage_share_info_t * malpage_state :=
  let info := set_gref MALPAGE_GRANT_INVALID_REF info in
  let sring := get_free_page (events st) in
  if decide (sring = NULL) then (u64 (- ENOMEM), info, st) else
  let st := set_page sring (SHARED_RING_INIT (mk_sring 0 0 0 0 ∅)) st in
  let info := set_ring_page (FRONT_RING_INIT sring) info in
  let fail err info st :=
    let '(info', st') := malpage_free_ring info st in (u64 err, info', st') in
  let err := gnttab_grant_foreign_access (events st) MALPAGE_DOM0_ID (virt_to_mfn sring) 0 in
  let st := log (GrantAccess MALPAGE_DOM0_ID (virt_to_mfn sring) 0 err) st in
  if decide (err < 0) then
    fail err (set_ring_page (mk_as_front_ring (req_prod_pvt (fring info)) (rsp_cons (fring info)) NULL) info)
      (mk_malpage_state (malpage_share_info st) (delete sring (pages st)) (malpage_mmu_info_lock st)
        (report_queue_lock st) (report_queue st) (thread_report_sem st) (init_task st) (tasks st) (events st))
  else
    let info := set_gref (u32 err) info in
    let '(err, port, st) := malpage_alloc_evtchn (si_domid info) (si_evtchn info) st in
    let info := set_port port info in
    if decide (err ≠ 0) then fail err info st
    else
      let err := bind_evtchn (events st) (si_evtchn info) in
      let st := log (BindIrq (si_evtchn info)) st in
      if decide (err ≤ 0) then fail err info st
      else (0, set_irq (u32 err) info, st).

(** [static int malpage_get_uuid(char *uuid)]: the result, the text in the
    buffer, and whether the address limit is left at [get_ds()]. *)
Definition malpage_get_uuid : Z * string * bool :=
  match uuid_file with
  | None => (MALPAGE_SYSFSERR, EmptyString, true)
  | Some data =>
      if decide (slen data ≠ MALPAGE_UUID_LENGTH) then (MALPAGE_SYSFSERR, data, true)
      else (0, String.substring 0 (Z.to_nat (MALPAGE_UUID_LENGTH - 1)) data, false)
  end.

(** [tmp2 = kzalloc(len); strncpy(tmp2, tmp, len); simple_strtoul(tmp2, NULL, 10)]:
    the copy has no terminating zero of its own; the scan stops at the first
    character that is no digit, or in the zeroed rest of the block, or runs out
    of the block. *)
Definition is_digit (c : Ascii.ascii) : bool :=
  let d := Z.of_N (Ascii.N_of_ascii c) in bool_decide (48 ≤ d ≤ 57).
Fixpoint all_digits (s : string) : bool :=
  match s with EmptyString => true | String c s' => is_digit c && all_digits s' end.
Definition parse_copy (s : string) : outcome Z :=
  match kmalloc_size (slen s) with
  | None => Err NullDeref
  | Some k => if all_digits s then
                if decide (slen s < k) then Ret (simple_strtoul s) else Err OutOfBounds
              else Ret (simple_strtoul s)
  end.

(** [static int malpage_get_domid(void)] *)
Definition malpage_get_domid (st : malpage_state) : outcome (Z * malpage_state) :=
  _ ← of_option NullDeref (kmalloc_size 4);
  let st1 := log (Xs XsStart) st in
  let tmp := xenbus_read (events st1) MALPAGE_XENSTORE_DOMID_PATH in
  let st2 := log (Xs XsEnd) (log (Xs (XsRead MALPAGE_XENSTORE_DOMID_PATH EmptyString)) st1) in
  match tmp with
  | None => Ret (MALPAGE_XSERR, st2)
  | Some text => v ← parse_copy text; Ret (s32 v, st2)
  end.

(** The text of the registration. *)
Definition register_value (domid gref evtchn : Z) (uuid : string) : string :=
  format_u domid +:+ ":" +:+ format_u gref +:+ ":" +:+ format_u evtchn +:+ ":" +:+ uuid.

(** [static malpage_share_info_t *malpage_register(void)]: [info] is not null
    whatever went wrong; the transaction is ended twice. *)
Definition malpage_register (st : malpage_state) : outcome (malpage_share_info_t * malpage_state) :=
  _ ← of_option NullDeref (kmalloc_size 72);
  let '(ret, info1, st1) := malpage_setup_ring zero_info st in
  _ ← of_option NullDeref (kmalloc_size MALPAGE_UUID_LENGTH);
  let uuid := malpage_get_uuid.1.2 in
  '(d, st2) ← malpage_get_domid st1;
  let info := mk_share_info (u16 d) (si_gref info1) (si_evtchn info1) (si_irq info1) (s32 ret) uuid
                (fring info1) in
  value ← sprintf (slen MALPAGE_XENSTORE_REGISTER_VALUE_FORMAT + MALPAGE_UUID_LENGTH + 15)
    (register_value (si_domid info) (si_gref info) (si_evtchn info) uuid);
  _ ← of_option NullDeref (kmalloc_size 4);
  let st3 := log (Xs XsStart) st2 in
  domid_str ← sprintf (slen "10000") (format_u (si_domid info));
  let st4 := log (Xs XsEnd) (log (Xs XsEnd)
               (log (Xs (XsWrite MALPAGE_XENSTORE_REGISTER_PATH domid_str value)) st3)) in
  Ret (info, st4).

(** [sizeof(struct semaphore)]: a lock, a counter and a list head. *)
Definition SEMAPHORE_SIZE : Z := 24.

(** [static int malpage_init(void)], after the answers of the kernel:
    [xen_domain()], the major number, the result of [cdev_add], and whether
    [device_create] returned a device.  The event handler is bound in
    [malpage_register], before the queues are initialised. *)
Definition malpage_init (xen_domain : bool) (major cdev_err : Z) (device_ok : bool) (st : malpage_state)
    : outcome (Z * malpage_state) :=
  if negb xen_domain then Ret (- ENODEV, st)
  else if decide (major < 0) then Ret (- ENODEV, st)
  else if decide (cdev_err ≠ 0) then Ret (1, st)
  else if negb device_ok then Ret (- ENODEV, st)
  else
    '(info, st1) ← malpage_register (log (Device true) st);
    let st2 := set_share_info (Some info) st1 in
    _ ← of_option NullDeref (kmalloc_size SEMAPHORE_SIZE);
    _ ← of_option NullDeref (kmalloc_size SEMAPHORE_SIZE);
    let st3 := log InitQueues (set_mmu_lock false (set_queue_lock false (set_queue [] (set_sem 0 st2)))) in
    Ret (0, log (SetHook "kmalpage_do_page_fault") (log (SetHook "kmalpage_multi_mmu_update")
              (log (SetHook "kmalpage_mmu_update") (log StartThread st3)))).

(** [static void malpage_exit(void)]: hooks, thread and event handler stay. *)
Definition malpage_exit (st : malpage_state) : malpage_state := log (Device false) st.

(** [static void *malpage_kzalloc(size_t size)]: the pointer is moved by half
    the extra room, also when it is null. *)
Definition malpage_kzalloc (kzalloc : Z → Z) (size : Z) : Z := u64 (kzalloc (u64 (size + 8)) + 8 / 2).

(** [static int malpage_dump_file(process_report_t *rep)]: the writes, as
    offset and frame; [file] is what [filp_open] returned, [data_of] is [pfn_to_kaddr(mfn_to_local_pfn(mfn))],
    [vfs_write] the bytes written at an offset, by which it moves [pos]. *)
Fixpoint dump_pages (data_of : Z → Z) (vfs_write : Z → Z) (pos : Z) (frames : list Z) : list (Z * Z) :=
  match frames with
  | [] => []
  | f :: fs =>
      if decide (f = 0) then dump_pages data_of vfs_write pos fs
      else if decide (data_of f = NULL) then dump_pages data_of vfs_write pos fs
      else (pos, f) :: dump_pages data_of vfs_write (pos + vfs_write pos + PAGE_SIZE) fs
  end.
(** [IS_ERR(p)] of the kernel: the last 4095 addresses are error codes. *)
Definition IS_ERR (p : Z) : bool := bool_decide (2 ^ 64 - 4095 ≤ p).
Definition malpage_dump_file (data_of : Z → Z) (vfs_write : Z → Z) (file : Z)
    (rep : process_report_t) : outcome (Z * list (Z * Z)) :=
  _ ← sprintf (slen MALPAGE_DUMP_FILENAME + 10)
        ("/tmp/" +:+ format_d (s32 (rep_process_id rep)) +:+ "_dump.bin");
  if decide (file ≠ NULL) then
    frames ← (if decide (pfn_list_length rep = 0) then Ret []
              else l ← of_option NullDeref (pfn_list rep);
                   if decide (pfn_list_length rep ≤ Z.of_nat (length l)) then Ret l else Err OutOfBounds);
    let writes := dump_pages data_of vfs_write 0 (take (Z.to_nat (pfn_list_length rep)) frames) in
    (* [vfs_write] and [filp_close] follow the pointer [filp_open] returned *)
    if IS_ERR file then Err WildAccess else Ret (0, writes)
  else Ret (0, []).

End register.

(** ** Lemmas *)

Lemma all_digits_number fuel n acc :
  0 ≤ n → all_digits acc = true → all_digits (number fuel n acc) = true.
Proof.
  revert n acc. induction fuel as [|f IH]; intros n acc Hn Ha; simpl; [done|].
  assert (Hd : 0 ≤ n mod 10 < 10) by (apply Z.mod_pos_bound; lia).
  assert (Hc : all_digits (String (digit (n mod 10)) acc) = true).
  { simpl. rewrite Ha. unfold is_digit. rewrite digit_value by done.
    by rewrite bool_decide_eq_true_2 by lia. }
  destruct (decide _); [done|]. apply IH; [by apply Z.div_pos|done].
Qed.

Section register_lemmas.
  Context `{RL : RingLaws} `{AL : Allocator} {SC : SlabClasses}.
  Context (get_free_page : list event → Z) (virt_to_mfn : Z → Z).
  Context (gnttab : list event → Z → Z → Z → Z).
  Context (alloc_unbound : list event → Z → Z * Z) (bind_evtchn : list event → Z → Z).
  Context (uuid_file : option string) (xenbus_read : list event → string → option string).

Abbreviation setup_ring := (malpage_setup_ring get_free_page virt_to_mfn gnttab alloc_unbound bind_evtchn).
Abbreviation register := (malpage_register get_free_page virt_to_mfn gnttab alloc_unbound bind_evtchn
  uuid_file xenbus_read).
Abbreviation init := (malpage_init get_free_page virt_to_mfn gnttab alloc_unbound bind_evtchn
  uuid_file xenbus_read).

(** What XenStore holds as the domain's own number comes back as a number. *)
Lemma parse_domid d : is_u16 d → parse_copy (format_u d) = Ret d.
Proof.
  intros Hd. pose proof (domid_slen _ Hd) as Hl. unfold parse_copy. rewrite slab_8 by lia.
  unfold is_u16 in Hd. unfold format_u at 1. rewrite all_digits_number by (lia || done).
  rewrite decide_True by lia. by rewrite strtoul_format by (unfold is_u64; lia).
Qed.

Lemma get_domid_run d st :
  is_u16 d → (∀ hist, xenbus_read hist "domid" = Some (format_u d)) →
  malpage_get_domid xenbus_read st = Ret (d, log_all (transaction [XsRead "domid" EmptyString]) st).
Proof.
  intros Hd Hx. unfold malpage_get_domid. rewrite slab_8 by lia. cbn [of_option mbind outcome_bind].
  unfold MALPAGE_XENSTORE_DOMID_PATH. rewrite Hx. rewrite parse_domid by done. cbn [mbind outcome_bind].
  unfold is_u16 in Hd. rewrite s32_small by (unfold is_s32; lia). do 2 f_equal. logs.
Qed.

(** The events of a ring that is set up, given the answers on the way. *)
Definition ring_events (page err port : Z) : list event :=
  [GrantAccess 0 (virt_to_mfn page) 0 err; AllocUnbound 0; BindIrq (u32 port)].

Definition fresh_ring : sring := mk_sring 0 1 0 1 ∅.

(** Everything cooperates: page, grant, event channel and interrupt. *)
Record ring_available (hist : list event) (page gref port irq : Z) : Prop := mk_ring_available {
  ra_page : get_free_page hist = page;
  ra_page_ok : page ≠ NULL;
  ra_grant : gnttab hist 0 (virt_to_mfn page) 0 = gref;
  ra_grant_ok : 0 ≤ gref;
  ra_port : alloc_unbound (hist ++ [GrantAccess 0 (virt_to_mfn page) 0 gref]) 0 = (0, port);
  ra_irq : bind_evtchn (hist ++ [GrantAccess 0 (virt_to_mfn page) 0 gref; AllocUnbound 0]) (u32 port) = irq;
  ra_irq_ok : 0 < irq
}.

Lemma setup_ring_run st page gref port irq :
  ring_available (events st) page gref port irq →
  setup_ring zero_info st =
    (0, mk_share_info 0 (u32 gref) (u32 port) (u32 irq) 0 EmptyString (mk_as_front_ring 0 0 page),
     log_all (ring_events page gref port) (set_page page fresh_ring st)).
Proof.
  intros [Hp Hp0 Hg Hg0 Hport Hirq Hirq0]. unfold malpage_setup_ring. rewrite Hp.
  rewrite decide_False by done. rewrite SHARED_RING_INIT_law, FRONT_RING_INIT_law.
  change (events (set_page _ _ st)) with (events st). change MALPAGE_DOM0_ID with 0. rewrite Hg.
  rewrite decide_False by lia. unfold malpage_alloc_evtchn.
  change (u16 (si_domid _)) with 0.
  change (events (log (GrantAccess 0 (virt_to_mfn page) 0 gref) _))
    with (events st ++ [GrantAccess 0 (virt_to_mfn page) 0 gref]).
  rewrite Hport. rewrite (decide_False (P := 0 ≠ 0)) by auto. rewrite (decide_False (P := 0 ≠ 0)) by auto.
  cbn [si_evtchn set_port]. 
  match goal with |- context [bind_evtchn ?h (u32 port)] =>
    replace h with (events st ++ [GrantAccess 0 (virt_to_mfn page) 0 gref; AllocUnbound 0])
      by (unfold log; simpl; by rewrite <-app_assoc) end.
  rewrite Hirq, decide_False by lia. f_equal. logs.
Qed.

(** The rest of the registration, whatever became of ring and domain number. *)
Lemma register_run st ret info1 st1 dres st2 :
  (∀ n, is_Some (kmalloc_size n)) →
  setup_ring zero_info st = (ret, info1, st1) → malpage_get_domid xenbus_read st1 = Ret (dres, st2) →
  let uuid := (malpage_get_uuid uuid_file).1.2 in
  let d := u16 dres in
  let value := register_value d (si_gref info1) (si_evtchn info1) uuid in
  fits 63 value →
  register st =
    Ret (mk_share_info d (si_gref info1) (si_evtchn info1) (si_irq info1) (s32 ret) uuid (fring info1),
         log_all (transaction [XsWrite "/malpage/register" (format_u d) value] ++ [Xs XsEnd]) st2).
Proof.
  intros Hmem Hring Hdom uuid d value Hfit. unfold malpage_register.
  destruct (Hmem 72) as [k1 E1], (Hmem MALPAGE_UUID_LENGTH) as [k2 E2], (Hmem 4) as [k3 E3].
  rewrite E1. cbn [of_option mbind outcome_bind]. rewrite Hring, E2. cbn [of_option mbind outcome_bind].
  rewrite Hdom. cbn [of_option mbind outcome_bind si_domid si_gref si_evtchn]. fold uuid d.
  change (slen MALPAGE_XENSTORE_REGISTER_VALUE_FORMAT + MALPAGE_UUID_LENGTH + 15) with 63. fold value.
  rewrite (sprintf_fits _ _ Hfit). cbn [mbind outcome_bind]. rewrite E3. cbn [of_option mbind outcome_bind].
  assert (Hd : is_u16 d) by apply u16_range.
  pose proof (domid_slen _ Hd). change (slen "10000") with 5. rewrite sprintf_fits by (apply fits_8; lia).
  cbn [mbind outcome_bind]. do 2 f_equal. unfold MALPAGE_XENSTORE_REGISTER_PATH. logs.
Qed.

(** *** The effect of [malpage_init] *)

(** The state and the events after the registration. *)
Definition initialised (info : malpage_share_info_t) (st : malpage_state) : malpage_state :=
  log_all [InitQueues; StartThread; SetHook "kmalpage_mmu_update"; SetHook "kmalpage_multi_mmu_update";
           SetHook "kmalpage_do_page_fault"]
    (set_mmu_lock false (set_queue_lock false (set_queue [] (set_sem 0 (set_share_info (Some info) st))))).

Lemma init_run major st info st1 :
  0 ≤ major → (∀ n, is_Some (kmalloc_size n)) → register (log (Device true) st) = Ret (info, st1) →
  init true major 0 true st = Ret (0, initialised info st1).
Proof.
  intros Hm Hmem E. destruct (Hmem SEMAPHORE_SIZE) as [k Ek]. unfold malpage_init. cbn [negb]. rewrite decide_False by lia.
  rewrite decide_False by auto. rewrite E. cbn [mbind outcome_bind]. rewrite Ek. cbn [of_option mbind outcome_bind]. unfold initialised. do 2 f_equal. logs.
Qed.

(** ** Properties *)

(** C35: loading the driver, when page, grant, event channel, interrupt, memory
    and XenStore cooperate, returns 0 and leaves it connected: a fresh ring
    page granted to Dom0, an interrupt bound to a channel for Dom0 (the domain
    number the code passes is still zero at that point, which is Dom0's), the
    queue empty and all locks free.  The domain is registered under its own
    number, read from XenStore as text and written back as the same text, with
    the reference and the port.  The order of events shows that the handler is
    bound before the queues it fills are initialised. *)
Theorem malpage_init_correct st major d page gref port irq :
  0 ≤ major → is_u16 d → (∀ n, is_Some (kmalloc_size n)) →
  (∀ hist, xenbus_read hist "domid" = Some (format_u d)) →
  ring_available (events st ++ [Device true]) page gref port irq →
  let uuid := (malpage_get_uuid uuid_file).1.2 in
  let value := register_value d (u32 gref) (u32 port) uuid in
  fits 63 value →
  ∃ st', init true major 0 true st = Ret (0, st') ∧
    connected st' (mk_share_info d (u32 gref) (u32 port) (u32 irq) 0 uuid (mk_as_front_ring 0 0 page))
      fresh_ring ∧
    report_queue st' = [] ∧ thread_report_sem st' = 0 ∧ report_queue_lock st' = false ∧
    malpage_mmu_info_lock st' = false ∧
    events st' = events st ++ [Device true] ++ ring_events page gref port ++
      transaction [XsRead "domid" EmptyString] ++
      transaction [XsWrite "/malpage/register" (format_u d) value] ++ [Xs XsEnd] ++
      [InitQueues; StartThread; SetHook "kmalpage_mmu_update"; SetHook "kmalpage_multi_mmu_update";
       SetHook "kmalpage_do_page_fault"].
Proof.
  intros Hm Hd Hmem Hx Hring uuid value Hfit.
  pose proof (setup_ring_run (log (Device true) st) page gref port irq Hring) as Es.
  eexists. split; [eapply init_run; [done|done|]|].
  { eapply register_run; [done|exact Es|by apply get_domid_run|].
    cbn [si_gref si_evtchn]. rewrite (u16_small d) by done. exact Hfit. }
  rewrite (u16_small d) by done. cbn [si_gref si_evtchn si_irq fring].
  split_and!; try done.
  - split; [done|]. split; [exact (ra_page_ok _ _ _ _ _ Hring)|]. simpl. apply lookup_insert_eq.
  - unfold initialised, log_all, log.
    cbn [events set_mmu_lock set_queue_lock set_queue set_sem set_share_info set_page].
    rewrite <-!app_assoc. reflexivity.
Qed.

(** None of the failures on the way is noticed by [malpage_init], which
    returns 0 and installs the hooks.  Without a page or a grant the ring
    pointer stays null, and the first violation the page-fault hook reports
    dereferences it; when the domain number cannot be read, the error code -14
    becomes the number 65522 under which the domain registers. *)
Theorem malpage_init_unchecked st major dres st2 ret info1 st1 :
  0 ≤ major → (∀ n, is_Some (kmalloc_size n)) →
  setup_ring zero_info (log (Device true) st) = (ret, info1, st1) →
  malpage_get_domid xenbus_read st1 = Ret (dres, st2) →
  fits 63 (register_value (u16 dres) (si_gref info1) (si_evtchn info1) (malpage_get_uuid uuid_file).1.2) →
  ∃ st' i', init true major 0 true st = Ret (0, st') ∧ malpage_share_info st' = Some i' ∧
    (get_free_page (events st ++ [Device true]) = NULL ∨
     gnttab (events st ++ [Device true]) 0 (virt_to_mfn (get_free_page (events st ++ [Device true]))) 0 < 0 →
     ∀ task address, malpage_do_page_fault task address (Z.lor MALPAGE_PF_INSTR MALPAGE_PF_USER) st' =
       Err NullDeref) ∧
    ((∀ hist, xenbus_read hist "domid" = None) → si_domid i' = 65522).
Proof.
  intros Hm Hmem Hring Hdom Hfit.
  pose proof (register_run (log (Device true) st) _ _ _ _ _ Hmem Hring Hdom Hfit) as Er.
  eexists _, _. split; [by eapply init_run|]. split; [done|]. split.
  - intros Hbad task address. unfold malpage_do_page_fault.
    rewrite decide_True by (split_and!; by vm_compute). unfold push_request, share_info. simpl.
    assert (Hn : front_sring (fring info1) = NULL); [|by rewrite Hn].
    unfold malpage_setup_ring in Hring.
    change (events (log (Device true) st)) with (events st ++ [Device true]) in Hring.
    destruct (decide (get_free_page _ = NULL)) as [Hp|Hp]; [by injection Hring as _ <- _|].
    destruct Hbad as [|Hg]; [done|].
    change (events (set_page _ _ (log (Device true) st))) with (events st ++ [Device true]) in Hring.
    change MALPAGE_DOM0_ID with 0 in Hring.
    rewrite decide_True in Hring by done. by injection Hring as _ <- _.
  - intros Hx. simpl. unfold malpage_get_domid in Hdom. destruct (Hmem 4) as [k Ek].
    rewrite Ek in Hdom. cbn [of_option mbind outcome_bind] in Hdom.
    unfold MALPAGE_XENSTORE_DOMID_PATH in Hdom. rewrite Hx in Hdom. injection Hdom as <- _. done.
Qed.

End register_lemmas.


(** ** Witnesses *)

Definition toy_uuid : option string :=
  Some ("01234567-89ab-cdef-0123-456789abcdef" +:+ String (Ascii.ascii_of_nat 10) EmptyString).
Definition toy_page (hist : list event) : Z := 4096.
Definition toy_frame_of (va : Z) : Z := va / 4096.
Definition toy_grants (hist : list event) (dom frame readonly : Z) : Z := 8.
Definition toy_alloc (hist : list event) (dom : Z) : Z * Z := (0, 17).
Definition toy_bind (hist : list event) (port : Z) : Z := 260.
Definition toy_xenbus (hist : list event) (path : string) : option string := Some (format_u 5).
Definition toy_no_xenbus (hist : list event) (path : string) : option string := None.
Definition toy_no_page (hist : list event) : Z := NULL.
Definition unloaded : malpage_state := mk_malpage_state None ∅ false false [] 0 (mk_task_struct 0 None) [] [].

Lemma malpage_init_correct_witness :
  ∃ st', @malpage_init ring32 slab toy_page toy_frame_of toy_grants toy_alloc toy_bind toy_uuid toy_xenbus
           true 250 0 true unloaded = Ret (0, st') ∧
    connected st' (mk_share_info 5 8 17 260 0 "01234567-89ab-cdef-0123-456789abcdef"
      (mk_as_front_ring 0 0 4096)) fresh_ring ∧ report_queue st' = [].
Proof.
  destruct (@malpage_init_correct ring32 ring32_laws slab slab_classes toy_page toy_frame_of toy_grants
    toy_alloc toy_bind toy_uuid toy_xenbus unloaded 250 5 4096 8 17 260) as (st' & E & Hc & Hq & _).
  - lia.
  - unfold is_u16. lia.
  - intros n. simpl. repeat case_decide; by eexists.
  - reflexivity.
  - split; done.
  - exists 63. split; [reflexivity|]. apply (bool_decide_unpack _). by vm_compute.
  - exists st'. split_and!; [exact E|exact Hc|exact Hq].
Defined.

Lemma malpage_init_unchecked_witness :
  ∃ st' i', @malpage_init ring32 slab toy_no_page toy_frame_of toy_grants toy_alloc toy_bind toy_uuid
              toy_no_xenbus true 250 0 true unloaded = Ret (0, st') ∧
    malpage_share_info st' = Some i' ∧ si_domid i' = 65522 ∧
    @malpage_do_page_fault ring32 (mk_task_struct 77 None) 5000 20 st' = Err NullDeref.
Proof.
  destruct (@malpage_init_unchecked ring32 slab slab_classes toy_no_page toy_frame_of toy_grants
    toy_alloc toy_bind toy_uuid toy_no_xenbus unloaded 250 (-14)
    (log_all (transaction [XsRead "domid" EmptyString]) (log (Device true) unloaded))
    (u64 (-12)) zero_info (log (Device true) unloaded)) as (st' & i' & E & Hi & Hbad & Hdom).
  - lia.
  - intros n. simpl. repeat case_decide; by eexists.
  - reflexivity.
  - reflexivity.
  - eexists. split; [reflexivity|]. apply (bool_decide_unpack _). by vm_compute.
  - exists st', i'. split_and!; [exact E|exact Hi|by apply Hdom|].
    apply (Hbad (or_introl eq_refl) (mk_task_struct 77 None) 5000).
Defined.
