(* ===== verification/Monitor.v ===== *)
(** * The Dom0 driver (drivers/xen/monitor/monitor.c)

    Registration of a domain and its ring, the watch list, the event handler
    that answers the domain's requests, the mapping of a reported process and
    the device's [read] and [ioctl].  The pages of other domains are named by
    domain and grant reference; mapping one puts it at a kernel address.
    Grant table, event channels, allocator and user copies are parameters. *)

From S2P Require Import Prelude Protocol MalHooks.

(** ** Data *)

(** [typedef struct monitor_uspace_info_t], [process_watchreport_t] and
    [process_report_t] as user space fills them. *)
Record monitor_uspace_info_t : Type := mk_uspace_info { us_domid : Z; us_gref : Z; us_evtchn : Z }.

Record process_watchreport_t : Type := mk_watchreport {
  wr_process_id : Z; wr_domid : Z; wr_process_age : Z
}.

Record monitor_report_t : Type := mk_monitor_report {
  mr_process_id : Z;
  mr_domid : Z;
  mr_process_age : Z;
  mr_pfn_list : option (list Z);
  mr_gref_list : option (list Z);
  mr_pfn_list_length : Z
}.

(** [typedef struct monitor_share_info_t]. *)
Record monitor_share_info_t : Type := mk_monitor_share_info {
  mi_domid : Z;
  mi_gref : Z;
  mi_evtchn : Z;
  mi_irq : Z;
  bring : as_back_ring
}.

Definition set_bring (b : as_back_ring) (i : monitor_share_info_t) : monitor_share_info_t :=
  mk_monitor_share_info (mi_domid i) (mi_gref i) (mi_evtchn i) (mi_irq i) b.
Definition set_evtchn (e : Z) (i : monitor_share_info_t) : monitor_share_info_t :=
  mk_monitor_share_info (mi_domid i) (mi_gref i) e (mi_irq i) (bring i).

(** [struct vm_struct] *)
Record vm_struct : Type := mk_vm_struct { vm_addr : Z; vm_size : Z }.

Inductive monitor_event : Type :=
  | MNotify (irq : Z)                        (** [notify_remote_via_irq] *)
  | MapGrant (host gref dom : Z) (ret status : Z)  (** [GNTTABOP_map_grant_ref] *)
  | UnmapGrant (host : Z)                    (** [GNTTABOP_unmap_grant_ref] *)
  | BindInterdomain (dom evtchn : Z).        (** [bind_interdomain_evtchn_to_irqhandler] *)

(** The globals of monitor.h.  [infos] is the heap of share infos;
    [monitor_dom_list] is null until [monitor_init]; a domain without a process
    table has a null entry, a table holds the entries that are not zero.
    [foreign] is the memory other domains share, [mapped] where it is mapped. *)
Record monitor_state : Type := mk_monitor_state {
  infos : gmap Z monitor_share_info_t;
  foreign : gmap (Z * Z) sring;
  mapped : gmap Z (Z * Z);
  monitor_share_info : Z;
  monitor_dom_list : option (gmap Z (gmap Z Z));
  curr_proc : Z;
  report_in_progress : Z;
  vm_struct_list : option (list vm_struct);
  vm_struct_list_size : Z;
  mevents : list monitor_event
}.

Definition set_infos (x : gmap Z monitor_share_info_t) (st : monitor_state) : monitor_state :=
  mk_monitor_state x (foreign st) (mapped st) (monitor_share_info st) (monitor_dom_list st)
    (curr_proc st) (report_in_progress st) (vm_struct_list st) (vm_struct_list_size st) (mevents st).
Definition set_foreign (x : gmap (Z * Z) sring) (st : monitor_state) : monitor_state :=
  mk_monitor_state (infos st) x (mapped st) (monitor_share_info st) (monitor_dom_list st)
    (curr_proc st) (report_in_progress st) (vm_struct_list st) (vm_struct_list_size st) (mevents st).
Definition set_mapped (x : gmap Z (Z * Z)) (st : monitor_state) : monitor_state :=
  mk_monitor_state (infos st) (foreign st) x (monitor_share_info st) (monitor_dom_list st)
    (curr_proc st) (report_in_progress st) (vm_struct_list st) (vm_struct_list_size st) (mevents st).
Definition set_monitor_share_info (x : Z) (st : monitor_state) : monitor_state :=
  mk_monitor_state (infos st) (foreign st) (mapped st) x (monitor_dom_list st)
    (curr_proc st) (report_in_progress st) (vm_struct_list st) (vm_struct_list_size st) (mevents st).
Definition set_dom_list (x : option (gmap Z (gmap Z Z))) (st : monitor_state) : monitor_state :=
  mk_monitor_state (infos st) (foreign st) (mapped st) (monitor_share_info st) x
    (curr_proc st) (report_in_progress st) (vm_struct_list st) (vm_struct_list_size st) (mevents st).
Definition set_curr_proc (x : Z) (st : monitor_state) : monitor_state :=
  mk_monitor_state (infos st) (foreign st) (mapped st) (monitor_share_info st) (monitor_dom_list st)
    x (report_in_progress st) (vm_struct_list st) (vm_struct_list_size st) (mevents st).
Definition set_in_progress (x : Z) (st : monitor_state) : monitor_state :=
  mk_monitor_state (infos st) (foreign st) (mapped st) (monitor_share_info st) (monitor_dom_list st)
    (curr_proc st) x (vm_struct_list st) (vm_struct_list_size st) (mevents st).
Definition set_vm_structs (l : option (list vm_struct)) (n : Z) (st : monitor_state) : monitor_state :=
  mk_monitor_state (infos st) (foreign st) (mapped st) (monitor_share_info st) (monitor_dom_list st)
    (curr_proc st) (report_in_progress st) l n (mevents st).
Definition mlog (es : list monitor_event) (st : monitor_state) : monitor_state :=
  mk_monitor_state (infos st) (foreign st) (mapped st) (monitor_share_info st) (monitor_dom_list st)
    (curr_proc st) (report_in_progress st) (vm_struct_list st) (vm_struct_list_size st)
    (mevents st ++ es).

(** [info->...] *)
Definition load_info (st : monitor_state) (p : Z) : outcome monitor_share_info_t :=
  if decide (p = NULL) then Err NullDeref else of_option WildAccess (infos st !! p).

(** [sring->...]: the shared page behind a kernel address. *)
Definition load_ring (st : monitor_state) (p : Z) : outcome sring :=
  if decide (p = NULL) then Err NullDeref
  else of_option WildAccess (r ← mapped st !! p; foreign st !! r).

(** The state with the ring behind [p] and the info at [ip] replaced. *)
Definition store_ring (p : Z) (s : sring) (st : monitor_state) : monitor_state :=
  match mapped st !! p with
  | Some r => set_foreign (<[r := s]> (foreign st)) st
  | None => st
  end.
Definition store_info (ip : Z) (i : monitor_share_info_t) (st : monitor_state) : monitor_state :=
  set_infos (<[ip := i]> (infos st)) st.

(** [monitor_dom_list[d]]: null, or the table of domain [d]. *)
Definition dom_cursor (st : monitor_state) (d : Z) : outcome (option (gmap Z Z)) :=
  l ← of_option NullDeref (monitor_dom_list st);
  if decide (0 ≤ d < MONITOR_MAX_VMS) then Ret (l !! d) else Err OutOfBounds.

Section monitor.
  Context `{RM : RingMacros} `{AS : AddrSpace}.

(** ** The watch list *)

(** The number of entries of a table, as fuel. *)
Definition max_procs : nat := Z.to_nat MONITOR_MAX_PROCS.

(** [for(i=0; i < MONITOR_MAX_PROCS; i++) { proc_cursor = dom_cursor[i];
    if(proc_cursor && i==process_id) return 1; } return 0;], [n] entries left. *)
Fixpoint scan_watched (n : nat) (i process_id : Z) (table : gmap Z Z) : Z :=
  match n with
  | O => 0
  | S n' =>
      if decide (default 0 (table !! i) ≠ 0 ∧ i = process_id) then 1
      else scan_watched n' (i + 1) process_id table
  end.

(** [static int monitor_check_mmuupdate(mmu_ptr, mmu_val, domid, process_id)] *)
Definition monitor_check_mmuupdate (domid process_id : Z) (st : monitor_state) : outcome Z :=
  cursor ← dom_cursor st domid;
  match cursor with
  | None => Ret (-1)
  | Some table => Ret (scan_watched (max_procs) 0 process_id table)
  end.

(** [static int monitor_check_page_fault(domid, process_id, address)] *)
Definition monitor_check_page_fault (domid process_id : Z) (st : monitor_state) : outcome Z :=
  cursor ← dom_cursor st (u32 domid);
  match cursor with
  | None => Ret (-1)
  | Some table => Ret (scan_watched (max_procs) 0 process_id table)
  end.

(** [static int monitor_watch(unsigned long arg)] *)
Definition monitor_watch (arg : process_watchreport_t) (st : monitor_state)
    : outcome (Z * monitor_state) :=
  let domid := wr_domid arg in
  cursor ← dom_cursor st domid;
  match cursor with
  | None => Ret (-1, st)
  | Some table =>
      if decide (0 ≤ wr_process_id arg < MONITOR_MAX_PROCS) then
        Ret (0, set_dom_list ((λ l, <[domid := <[wr_process_id arg := 1]> table]> l)
                  <$> monitor_dom_list st) st)
      else Err OutOfBounds
  end.

(** [static void monitor_print_watched(void)]: what it prints, as pairs of
    domain and process; domain [i], [n] domains left. *)
Fixpoint print_procs (n : nat) (j : Z) (table : gmap Z Z) : list Z :=
  match n with
  | O => []
  | S n' => if decide (default 0 (table !! j) ≠ 0) then j :: print_procs n' (j + 1) table
            else print_procs n' (j + 1) table
  end.
Fixpoint print_doms (n : nat) (i : Z) (st : monitor_state) : outcome (list (Z * list Z)) :=
  match n with
  | O => Ret []
  | S n' =>
      cursor ← dom_cursor st i;
      rest ← print_doms n' (i + 1) st;
      match cursor with
      | None => Ret rest
      | Some table => Ret ((i, print_procs (max_procs) 0 table) :: rest)
      end
  end.
Definition monitor_print_watched (st : monitor_state) : outcome (list (Z * list Z)) :=
  print_doms (Z.to_nat MONITOR_MAX_VMS) 0 st.

(** ** The event handler *)

Definition set_operation (op : Z) (m : message) : message :=
  mk_message op (pfn_gref m) (msg_pfn m) (process_id m) (domid m) (mmu_ptr m) (fault_addr m) (mmu_val m).

(** [resp.operation = MONITOR_RING_NONOP; ... switch (req.operation) { ... }]:
    the local [resp] after the switch. *)
Definition monitor_answer (req resp : message) (st : monitor_state) : outcome message :=
  let resp := set_operation MONITOR_RING_NONOP resp in
  if decide (operation req = MONITOR_RING_REPORT) then Ret (set_operation MONITOR_RING_NONOP resp)
  else if decide (operation req = MONITOR_RING_MMUUPDATE) then
    if decide (0 < domid req < MONITOR_MAX_VMS) then
      r ← monitor_check_mmuupdate (domid req) (process_id req) st;
      if decide (0 < r) then
        Ret (mk_message MONITOR_RING_NX (pfn_gref resp) (msg_pfn resp) (process_id req) (domid req)
               (mmu_ptr req) (fault_addr resp) (mmu_val req))
      else Ret resp
    else Ret resp
  else if decide (operation req = MONITOR_RING_NXVIOLATION) then
    if decide (0 < domid req < MONITOR_MAX_VMS) then
      r ← (if decide (report_in_progress st = 0) then monitor_check_page_fault (domid req) (process_id req) st
           else Ret 0);
      if decide (0 < r) then
        Ret (mk_message MONITOR_RING_REPORT (pfn_gref resp) (msg_pfn resp) (process_id req) (domid req)
               (mmu_ptr resp) (fault_addr resp) (mmu_val resp))
      else Ret (set_operation MONITOR_RING_NONOP resp)
    else Ret resp
  else Ret (set_operation MONITOR_RING_NONOP resp).

(** [memcpy(RING_GET_RESPONSE(...), &resp, sizeof(resp)); rsp_prod_pvt++;
    RING_PUSH_RESPONSES(...); notify_remote_via_irq(...)] for the info at [ip]. *)
Definition push_response (push : as_back_ring → sring → sring) (ip : Z) (resp : message)
    (st : monitor_state) : outcome monitor_state :=
  i ← load_info st ip;
  let b := bring i in
  s ← load_ring st (back_sring b);
  let s1 := set_slot s (ring_slot (rsp_prod_pvt b)) resp in
  let b1 := mk_as_back_ring (u32 (rsp_prod_pvt b + 1)) (req_cons b) (back_sring b) in
  Ret (mlog [MNotify (mi_evtchn i)]
    (store_ring (back_sring b) (push b1 s1) (store_info ip (set_bring b1 i) st))).

(** [while(rc != rp) { ... }] of the handler. *)
Fixpoint monitor_irq_loop (fuel : nat) (ip rc rp : Z) (resp : message) (st : monitor_state)
    : outcome monitor_state :=
  if decide (rc = rp) then Ret st
  else match fuel with
  | O => Err OutOfFuel
  | S n =>
      i ← load_info st ip;
      let b := bring i in
      if RING_REQUEST_CONS_OVERFLOW b rc then Ret st
      else
        s ← load_ring st (back_sring b);
        let req := slot s (ring_slot rc) in
        let rc' := u32 (rc + 1) in
        let st1 := store_info ip (set_bring (mk_as_back_ring (rsp_prod_pvt b) rc' (back_sring b)) i) st in
        resp' ← monitor_answer req resp st1;
        st2 ← push_response RING_PUSH_RESPONSES ip resp' st1;
        monitor_irq_loop n ip rc' rp resp' st2
  end.

(** [static irqreturn_t monitor_irq_handle(int irq, void *dev_id)]: [ip] is
    [dev_id], [resp0] the content of the uninitialised local [resp]. *)
Definition monitor_irq_handle (ip : Z) (resp0 : message) (st : monitor_state) : outcome monitor_state :=
  i ← load_info st ip;
  s ← load_ring st (back_sring (bring i));
  let rc := req_cons (bring i) in
  let rp := req_prod s in
  monitor_irq_loop (Z.to_nat (u32 (rp - rc))) ip rc rp resp0 st.

(** ** Commands to a domain *)

(** [static int monitor_op_process(unsigned int op, unsigned int pid)]: the
    other fields of [resp] are what the stack holds. *)
Definition monitor_op_process (op pid : Z) (resp0 : message) (st : monitor_state)
    : outcome (Z * monitor_state) :=
  let resp := mk_message op (pfn_gref resp0) (msg_pfn resp0) pid (domid resp0) (mmu_ptr resp0)
                (fault_addr resp0) (mmu_val resp0) in
  st1 ← push_response (λ b s, (RING_PUSH_RESPONSES_AND_CHECK_NOTIFY b s).2)
          (monitor_share_info st) resp st;
  Ret (0, st1).

(** [monitor_halt_process], [monitor_resume_process], [monitor_kill_process] *)
Definition monitor_halt_process (pid : Z) (resp0 : message) (st : monitor_state) : outcome monitor_state :=
  r ← monitor_op_process MONITOR_RING_HALT pid resp0 st; Ret r.2.
Definition monitor_resume_process (pid : Z) (resp0 : message) (st : monitor_state) : outcome monitor_state :=
  r ← monitor_op_process MONITOR_RING_RESUME pid resp0 st; Ret r.2.
Definition monitor_kill_process (pid : Z) (resp0 : message) (st : monitor_state) : outcome monitor_state :=
  r ← monitor_op_process MONITOR_RING_KILL pid resp0 st; Ret r.2.

(** [static unsigned long* monitor_machine_to_virt(unsigned long maddr)] *)
Definition monitor_machine_to_virt (maddr : Z) : Z :=
  let offset := page_offset maddr in
  va_of_phys (Z.lor (u64 (Z.shiftl (mfn_to_pfn (Z.shiftr maddr PAGE_SHIFT)) PAGE_SHIFT)) offset).

End monitor.

#[global] Opaque max_procs.

(** ** The specification *)

(** The process is on the watch list. *)
Definition watched (st : monitor_state) (d p : Z) : bool :=
  match monitor_dom_list st ≫= (.!! d) with
  | Some table => bool_decide (0 ≤ p < MONITOR_MAX_PROCS ∧ default 0 (table !! p) ≠ 0)
  | None => false
  end.

(** The answer to a request: what the monitor decides; [resp] is the previous
    answer, whose other fields stay. *)
Definition verdict (st : monitor_state) (req resp : message) : message :=
  let known := bool_decide (0 < domid req < MONITOR_MAX_VMS) && watched st (domid req) (process_id req) in
  if decide (operation req = MONITOR_RING_MMUUPDATE ∧ known = true) then
    mk_message MONITOR_RING_NX (pfn_gref resp) (msg_pfn resp) (process_id req) (domid req)
      (mmu_ptr req) (fault_addr resp) (mmu_val req)
  else if decide (operation req = MONITOR_RING_NXVIOLATION ∧ known = true ∧ report_in_progress st = 0) then
    mk_message MONITOR_RING_REPORT (pfn_gref resp) (msg_pfn resp) (process_id req) (domid req)
      (mmu_ptr resp) (fault_addr resp) (mmu_val resp)
  else set_operation MONITOR_RING_NONOP resp.

Fixpoint verdicts (st : monitor_state) (reqs : list message) (resp : message) : list message :=
  match reqs with
  | [] => []
  | r :: rs => let a := verdict st r resp in a :: verdicts st rs a
  end.

(** A registered domain: info and ring are there, and every response sent so
    far answered a request. *)
Record monitor_ready (st : monitor_state) (ip : Z) (i : monitor_share_info_t) (r : Z * Z) (s : sring)
    : Prop := mk_monitor_ready {
  mo_ip : ip ≠ NULL;
  mo_info : infos st !! ip = Some i;
  mo_sring : back_sring (bring i) ≠ NULL;
  mo_mapped : mapped st !! back_sring (bring i) = Some r;
  mo_page : foreign st !! r = Some s;
  mo_list : is_Some (monitor_dom_list st);
  mo_cons : is_u32 (req_cons (bring i));
  mo_prod : is_u32 (req_prod s);
  mo_aligned : rsp_prod_pvt (bring i) = req_cons (bring i);
  mo_published : rsp_prod s = req_cons (bring i)
}.

(** [ms] written to the slots from index [rc] on. *)
Fixpoint fill `{RingMacros} (rc : Z) (ms : list message) (g : gmap Z message) : gmap Z message :=
  match ms with
  | [] => g
  | m :: ms' => fill (u32 (rc + 1)) ms' (<[ring_slot rc := m]> g)
  end.

(** The monitor after answering the requests up to [rp] with [ms]. *)
Definition served `{RingMacros} (ip : Z) (i : monitor_share_info_t) (r : Z * Z) (s : sring) (rp : Z)
    (ms : list message) (st : monitor_state) : monitor_state :=
  let b := bring i in
  mlog (replicate (length ms) (MNotify (mi_evtchn i)))
    (set_foreign (<[r := mk_sring (req_prod s) (req_event s) rp (rsp_event s)
                           (fill (req_cons b) ms (ring s))]> (foreign st))
      (set_infos (<[ip := set_bring (mk_as_back_ring rp rp (back_sring b)) i]> (infos st)) st)).

(** ** Lemmas *)

Lemma scan_watched_spec n i p table :
  scan_watched n i p table = if decide (i ≤ p < i + Z.of_nat n ∧ default 0 (table !! p) ≠ 0) then 1 else 0.
Proof.
  revert i. induction n as [|n IH]; intros i; cbn [scan_watched].
  - rewrite decide_False by lia. done.
  - rewrite IH. destruct (decide (default 0 (table !! i) ≠ 0 ∧ i = p)) as [[H ->]|H].
    + by rewrite decide_True by (split; [lia|done]).
    + apply decide_ext. destruct (decide (i = p)) as [->|]; [|intuition lia].
      split; [lia|]. intros [_ Hp]. by destruct H.
Qed.

Lemma max_procs_Z : Z.of_nat max_procs = MONITOR_MAX_PROCS.
Proof. exact (Z2Nat.id MONITOR_MAX_PROCS ltac:(unfold MONITOR_MAX_PROCS; lia)). Qed.

Section watch_lemmas.
  Context `{RM : RingMacros}.

Lemma dom_cursor_run st d :
  is_Some (monitor_dom_list st) → 0 ≤ d < MONITOR_MAX_VMS →
  dom_cursor st d = Ret (monitor_dom_list st ≫= (.!! d)).
Proof. intros [l Hl] Hd. unfold dom_cursor. rewrite Hl. simpl. by rewrite decide_True. Qed.

(** Both checks answer 1 exactly for a watched process. *)
Lemma check_run st d p :
  is_Some (monitor_dom_list st) → 0 ≤ d < MONITOR_MAX_VMS →
  ∃ r, monitor_check_mmuupdate d p st = Ret r ∧ monitor_check_page_fault d p st = Ret r ∧
    (0 < r ↔ watched st d p = true) ∧ (0 < r ↔ r = 1).
Proof.
  intros Hl Hd. unfold monitor_check_mmuupdate, monitor_check_page_fault.
  rewrite u32_small by (unfold MONITOR_MAX_VMS, is_u32 in *; lia).
  rewrite dom_cursor_run by done. cbn [mbind outcome_bind]. unfold watched.
  destruct (monitor_dom_list st ≫= _) as [table|].
  - eexists. split; [reflexivity|]. split; [reflexivity|]. rewrite scan_watched_spec.
    rewrite max_procs_Z. rewrite bool_decide_eq_true.
    destruct (decide _) as [H|H]; split; split; intros; try done; lia || tauto.
  - eexists. split; [reflexivity|]. split; [reflexivity|]. split; split; intros; done || lia.
Qed.

Lemma monitor_answer_run st req resp :
  is_Some (monitor_dom_list st) → monitor_answer req resp st = Ret (verdict st req resp).
Proof.
  intros Hl. unfold monitor_answer, verdict. destruct req as [op ? ? p d ptr fa v]. simpl.
  destruct (bool_decide (0 < d < MONITOR_MAX_VMS)) eqn:Hd;
    [apply bool_decide_eq_true in Hd|apply bool_decide_eq_false in Hd].
  - destruct (check_run st d p Hl) as (r & -> & -> & Hr & _); [lia|]. simpl.
    rewrite !(decide_True (P := 0 < d < MONITOR_MAX_VMS)) by done. simpl.
    destruct (watched st d p).
    + assert (0 < r) by tauto.
      repeat (destruct (decide _); simpl; simplify_eq/=); try done; tauto || lia.
    + assert (¬ 0 < r) by (intros ?; naive_solver).
      repeat (destruct (decide _); simpl; simplify_eq/=); try done; tauto || lia.
  - rewrite !(decide_False (P := 0 < d < MONITOR_MAX_VMS)) by done. simpl.
    repeat (destruct (decide _); simpl; simplify_eq/=); try done; tauto || lia.
Qed.

End watch_lemmas.

Section serve_lemmas.
  Context `{RL : RingLaws}.

Lemma load_info_run st ip i : ip ≠ NULL → infos st !! ip = Some i → load_info st ip = Ret i.
Proof. intros Hn Hi. unfold load_info. rewrite decide_False by done. by rewrite Hi. Qed.

Lemma load_ring_run st p r s :
  p ≠ NULL → mapped st !! p = Some r → foreign st !! r = Some s → load_ring st p = Ret s.
Proof. intros Hn Hm Hf. unfold load_ring. rewrite decide_False by done. rewrite Hm. simpl. by rewrite Hf. Qed.

(** A response pushed through any macro that publishes the private index. *)
Lemma push_response_run push st ip i r s resp :
  (∀ b s, push b s = RING_PUSH_RESPONSES b s) →
  ip ≠ NULL → infos st !! ip = Some i → back_sring (bring i) ≠ NULL →
  mapped st !! back_sring (bring i) = Some r → foreign st !! r = Some s →
  let b := bring i in
  let prod := u32 (rsp_prod_pvt b + 1) in
  push_response push ip resp st =
    Ret (mlog [MNotify (mi_evtchn i)]
      (set_foreign (<[r := mk_sring (req_prod s) (req_event s) prod (rsp_event s)
                             (<[ring_slot (rsp_prod_pvt b) := resp]> (ring s))]> (foreign st))
        (set_infos (<[ip := set_bring (mk_as_back_ring prod (req_cons b) (back_sring b)) i]> (infos st)) st))).
Proof.
  intros Hp Hn Hi Hb Hm Hf b prod. unfold push_response.
  rewrite (load_info_run _ _ _ Hn Hi). cbn [mbind outcome_bind].
  rewrite (load_ring_run _ _ _ _ Hb Hm Hf). cbn [mbind outcome_bind].
  rewrite Hp, RING_PUSH_RESPONSES_law. unfold store_ring, store_info.
  change (mapped (set_infos _ st)) with (mapped st). by rewrite Hm.
Qed.

Lemma served_nil ip i r s st :
  monitor_ready st ip i r s → served ip i r s (req_cons (bring i)) [] st = st.
Proof.
  intros [_ Hi _ _ Hf _ _ _ Ha Hp]. unfold served. simpl.
  assert (Es : mk_sring (req_prod s) (req_event s) (req_cons (bring i)) (rsp_event s) (ring s) = s)
    by (rewrite <-Hp; by destruct s).
  assert (Eb : set_bring (mk_as_back_ring (req_cons (bring i)) (req_cons (bring i)) (back_sring (bring i))) i = i)
    by (destruct i as [? ? ? ? []]; simpl in *; by subst).
  rewrite Es, Eb. unfold set_infos, set_foreign, mlog. simpl.
  rewrite (insert_id (infos st)), (insert_id (foreign st)), app_nil_r by done. by destruct st.
Qed.

(** Serving one request and then the others. *)
Definition after_one (ip : Z) (i : monitor_share_info_t) (r : Z * Z) (s : sring) (a : message)
    (st : monitor_state) : monitor_state :=
  served ip i r s (u32 (req_cons (bring i) + 1)) [a] st.
Definition info_after (i : monitor_share_info_t) : monitor_share_info_t :=
  let rc' := u32 (req_cons (bring i) + 1) in
  set_bring (mk_as_back_ring rc' rc' (back_sring (bring i))) i.
Definition page_after (i : monitor_share_info_t) (s : sring) (a : message) : sring :=
  mk_sring (req_prod s) (req_event s) (u32 (req_cons (bring i) + 1)) (rsp_event s)
    (<[ring_slot (req_cons (bring i)) := a]> (ring s)).

Lemma served_cons ip i r s rp a ms st :
  served ip i r s rp (a :: ms) st =
  served ip (info_after i) r (page_after i s a) rp ms (after_one ip i r s a st).
Proof.
  unfold served, after_one, served, mlog, set_foreign, set_infos. simpl.
  by rewrite !insert_insert_eq, <-!app_assoc.
Qed.

Lemma ready_after_one st ip i r s a :
  monitor_ready st ip i r s →
  monitor_ready (after_one ip i r s a st) ip (info_after i) r (page_after i s a).
Proof.
  intros []. split; simpl; try done.
  - by rewrite lookup_insert_eq.
  - by rewrite lookup_insert_eq.
  - apply u32_range.
Qed.

Lemma verdict_after_one st st' req resp :
  monitor_dom_list st' = monitor_dom_list st → report_in_progress st' = report_in_progress st →
  verdict st' req resp = verdict st req resp.
Proof. intros Hl Hr. unfold verdict, watched. by rewrite Hl, Hr. Qed.

Lemma verdicts_after_one st st' reqs resp :
  monitor_dom_list st' = monitor_dom_list st → report_in_progress st' = report_in_progress st →
  verdicts st' reqs resp = verdicts st reqs resp.
Proof.
  intros Hl Hr. revert resp. induction reqs as [|q qs IH]; intros resp; simpl; [done|].
  rewrite (verdict_after_one st st') by done. by rewrite IH.
Qed.

Lemma irq_step_run st ip i r s fuel rp resp :
  monitor_ready st ip i r s → req_cons (bring i) ≠ rp →
  let a := verdict st (slot s (ring_slot (req_cons (bring i)))) resp in
  monitor_irq_loop (S fuel) ip (req_cons (bring i)) rp resp st =
  monitor_irq_loop fuel ip (u32 (req_cons (bring i) + 1)) rp a (after_one ip i r s a st).
Proof.
  intros Hready Hne a. pose proof Hready as [Hip Hi Hb Hm Hf Hl Hc Hp Ha Hpub].
  cbn [monitor_irq_loop]. rewrite decide_False by done.
  rewrite (load_info_run _ _ _ Hip Hi). cbn [mbind outcome_bind].
  rewrite RING_REQUEST_CONS_OVERFLOW_law, Ha, Z.sub_diag.
  rewrite bool_decide_eq_false_2 by (pose proof RING_SIZE_pos; unfold u32; rewrite Z.mod_0_l; lia).
  rewrite (load_ring_run _ _ _ _ Hb Hm Hf). cbn [mbind outcome_bind].
  rewrite monitor_answer_run by done. cbn [mbind outcome_bind].
  rewrite (verdict_after_one st) by done. fold a.
  rewrite (push_response_run _ _ _ (set_bring (mk_as_back_ring (req_cons (bring i))
    (u32 (req_cons (bring i) + 1)) (back_sring (bring i))) i) r s) by (done || apply lookup_insert_eq).
  cbn [mbind outcome_bind]. f_equal. unfold after_one, served, store_info, mlog, set_foreign, set_infos.
  simpl. by rewrite insert_insert_eq.
Qed.

Lemma irq_requests_run (n fuel : nat) st ip i r s rp resp :
  monitor_ready st ip i r s → Z.of_nat n ≤ RING_SIZE → Z.of_nat n < 2 ^ 32 →
  rp = u32 (req_cons (bring i) + Z.of_nat n) → (n ≤ fuel)%nat →
  let reqs := (λ k, slot s (ring_slot (req_cons (bring i) + k))) <$> seqZ 0 (Z.of_nat n) in
  monitor_irq_loop fuel ip (req_cons (bring i)) rp resp st =
    Ret (served ip i r s rp (verdicts st reqs resp) st).
Proof.
  revert fuel st i s resp. induction n as [|n IH]; intros fuel st i s resp Hr Hn Hn2 Hrp Hf reqs.
  - assert (req_cons (bring i) = rp) as <-
      by (rewrite Hrp, Z.add_0_r; symmetry; apply u32_small; by destruct Hr).
    unfold reqs. simpl. rewrite served_nil by done. by destruct fuel; simpl; rewrite decide_True.
  - destruct fuel as [|fuel]; [lia|]. pose proof (mo_cons _ _ _ _ _ Hr) as Hc.
    rewrite (irq_step_run _ _ _ _ _ _ _ _ Hr) by (rewrite Hrp; clear -Hc Hn2; zwrap).
    set (a := verdict st _ resp).
    pose proof (ready_after_one _ _ _ _ _ a Hr) as Hr'.
    change (u32 (req_cons (bring i) + 1)) with (req_cons (bring (info_after i))).
    rewrite (IH fuel _ (info_after i) (page_after i s a)); [|done|lia|lia| |lia].
    + unfold reqs. rewrite batch_cons. simpl. rewrite served_cons. do 2 f_equal.
      rewrite (verdicts_after_one st) by done. f_equal. apply list_fmap_ext.
      intros k x Hk. apply lookup_seqZ in Hk as [-> Hk]. unfold slot, page_after. simpl.
      rewrite lookup_insert_ne; [done|].
      rewrite <-(ring_slot_u32 (u32 _ + _)), u32_add_l, ring_slot_u32.
      replace (req_cons (bring i) + 1 + (0 + Z.of_nat k)) with (req_cons (bring i) + (1 + Z.of_nat k)) by lia.
      apply not_eq_sym, ring_slot_ne. lia.
    + simpl. rewrite Hrp, u32_add_l. f_equal. lia.
Qed.

(** What ends up in the slots. *)
Lemma fill_lookup rc ms g j :
  Z.of_nat (length ms) ≤ RING_SIZE →
  (∀ k, (k < length ms)%nat → ring_slot (rc + Z.of_nat k) ≠ j) → fill rc ms g !! j = g !! j.
Proof.
  revert rc g. induction ms as [|m ms IH]; intros rc g Hl Hj; simpl; [done|]. simpl in Hl.
  rewrite IH; [|lia|].
  - rewrite lookup_insert_ne; [done|]. pose proof (Hj 0%nat) as Hk0. rewrite Z.add_0_r in Hk0. apply Hk0. simpl. lia.
  - intros k Hk. rewrite <-ring_slot_u32, u32_add_l, ring_slot_u32.
    pose proof (Hj (S k)) as Hk0. replace (rc + 1 + Z.of_nat k) with (rc + Z.of_nat (S k)) by lia.
    apply Hk0. simpl. lia.
Qed.

Lemma fill_slot rc ms g k m :
  Z.of_nat (length ms) ≤ RING_SIZE → ms !! k = Some m →
  fill rc ms g !! ring_slot (rc + Z.of_nat k) = Some m.
Proof.
  revert rc g k. induction ms as [|m' ms IH]; intros rc g k Hl Hk; simpl; [done|]. simpl in Hl.
  destruct k as [|k]; simpl in Hk.
  - injection Hk as ->. rewrite Z.add_0_r, fill_lookup; [apply lookup_insert_eq|lia|].
    intros k Hk. rewrite <-ring_slot_u32, u32_add_l, ring_slot_u32.
    replace (rc + 1 + Z.of_nat k) with (rc + (1 + Z.of_nat k)) by lia. apply ring_slot_ne. lia.
  - rewrite <-(IH (u32 (rc + 1)) (<[ring_slot rc := m']> g) k) by (done || lia). f_equal.
    rewrite <-(ring_slot_u32 (u32 _ + _)), u32_add_l, ring_slot_u32. f_equal. lia.
Qed.

Lemma verdicts_length st reqs resp : length (verdicts st reqs resp) = length reqs.
Proof. revert resp. induction reqs as [|q qs IH]; intros resp; simpl; [done|]. by rewrite IH. Qed.

(** *** After a command to the domain *)

(** The states the system can reach from [st0] once a command (a response no
    request asked for) was sent to the last registered domain, [n] commands
    in all: further commands, the domain writing its page, watches, events. *)
Inductive commanded (ip : Z) (r : Z * Z) (st0 : monitor_state) : Z → monitor_state → Prop :=
  | commanded_first op pid resp x st :
      monitor_op_process op pid resp st0 = Ret (x, st) → commanded ip r st0 1 st
  | commanded_again n op pid resp st x st' :
      commanded ip r st0 n st → monitor_op_process op pid resp st = Ret (x, st') →
      commanded ip r st0 (n + 1) st'
  | commanded_page n s st :
      commanded ip r st0 n st → is_u32 (req_prod s) →
      commanded ip r st0 n (set_foreign (<[r := s]> (foreign st)) st)
  | commanded_watch n st arg x st' :
      commanded ip r st0 n st → monitor_watch arg st = Ret (x, st') → commanded ip r st0 n st'
  | commanded_event n st resp st' :
      commanded ip r st0 n st → monitor_irq_handle ip resp st = Ret st' → commanded ip r st0 n st'.

(** The response index is [n] ahead of the request index [c]. *)
Definition ahead (ip : Z) (r : Z * Z) (c n : Z) (st : monitor_state) : Prop :=
  ∃ i, ip ≠ NULL ∧ monitor_share_info st = ip ∧ infos st !! ip = Some i ∧
    back_sring (bring i) ≠ NULL ∧ mapped st !! back_sring (bring i) = Some r ∧
    (∃ s, foreign st !! r = Some s ∧ is_u32 (req_prod s)) ∧ req_cons (bring i) = c ∧ rsp_prod_pvt (bring i) = u32 (c + n).

Lemma ahead_op ip r c n op pid resp st x st' :
  ahead ip r c n st → monitor_op_process op pid resp st = Ret (x, st') → ahead ip r c (n + 1) st'.
Proof.
  intros (i & Hip & Hlast & Hi & Hb & Hm & (s & Hf & Hs) & Hc & Hp) E. unfold monitor_op_process in E.
  rewrite Hlast, (push_response_run _ _ _ i r s) in E
    by (done || apply RING_PUSH_RESPONSES_AND_CHECK_NOTIFY_law).
  injection E as _ <-. eexists. split_and!; [done|done|simpl; apply lookup_insert_eq|done|done|..|done|].
  - simpl. rewrite lookup_insert_eq. eexists. split; [done|]. done.
  - simpl. rewrite Hp, u32_add_l. f_equal. lia.
Qed.

Lemma ahead_deaf ip r c n resp st :
  is_u32 c → 1 ≤ n ≤ 2 ^ 32 - RING_SIZE → ahead ip r c n st → monitor_irq_handle ip resp st = Ret st.
Proof.
  intros Hcu Hn (i & Hip & Hlast & Hi & Hb & Hm & (s & Hf & Hs) & Hc & Hp). unfold monitor_irq_handle.
  rewrite (load_info_run _ _ _ Hip Hi). cbn [mbind outcome_bind].
  rewrite (load_ring_run _ _ _ _ Hb Hm Hf). cbn [mbind outcome_bind]. rewrite Hc.
  pose proof RING_SIZE_pos as Hsize.
  destruct (Z.to_nat (u32 (req_prod s - c))) as [|fuel] eqn:Ef; cbn [monitor_irq_loop];
    case_decide as Hrp; try done.
  { exfalso. apply Hrp. clear -Hcu Hs Ef. zwrap. }
  rewrite (load_info_run _ _ _ Hip Hi). cbn [mbind outcome_bind].
  rewrite RING_REQUEST_CONS_OVERFLOW_law, Hp, bool_decide_eq_true_2; [done|].
  clear -Hcu Hn Hsize. zwrap.
Qed.

(** ** Properties *)

(** C9: the monitor's handler terminates and answers every request between its
    consumer index and the domain's producer index (at most a ring full),
    each in the slot it came in, in order and across the wrap of the index,
    with one notification each: REPORT for an NXVIOLATION and NX for an
    MMUUPDATE of a watched process of a domain in range, the former only while
    no report is in progress, and NONOP for everything else.  Both indices end
    at the producer, the other slots and the watch list stay. *)
Theorem monitor_irq_correct st ip i r s resp0 :
  monitor_ready st ip i r s →
  let b := bring i in
  let n := u32 (req_prod s - req_cons b) in
  n ≤ RING_SIZE →
  let reqs := (λ k, slot s (ring_slot (req_cons b + k))) <$> seqZ 0 n in
  let answers := verdicts st reqs resp0 in
  ∃ st' s', monitor_irq_handle ip resp0 st = Ret st' ∧
    infos st' !! ip = Some (set_bring (mk_as_back_ring (req_prod s) (req_prod s) (back_sring b)) i) ∧
    foreign st' !! r = Some s' ∧ rsp_prod s' = req_prod s ∧ req_prod s' = req_prod s ∧
    (∀ k a, answers !! k = Some a → slot s' (ring_slot (req_cons b + Z.of_nat k)) = a) ∧
    (∀ j, (∀ k, 0 ≤ k < n → ring_slot (req_cons b + k) ≠ j) → slot s' j = slot s j) ∧
    length answers = Z.to_nat n ∧
    mevents st' = mevents st ++ replicate (Z.to_nat n) (MNotify (mi_evtchn i)) ∧
    monitor_dom_list st' = monitor_dom_list st.
Proof.
  intros Hr b n Hn reqs answers. assert (Hu : is_u32 n) by apply u32_range.
  assert (Hn0 : 0 ≤ n) by (by destruct Hu).
  assert (Hlen : length answers = Z.to_nat n).
  { unfold answers, reqs. by rewrite verdicts_length, length_fmap, length_seqZ. }
  pose proof Hr as [Hip Hi Hb Hm Hf Hl Hc Hp Ha Hpub].
  exists (served ip i r s (req_prod s) answers st). eexists.
  split_and!; [|simpl; apply lookup_insert_eq|simpl; apply lookup_insert_eq|done|done|..|done| |done].
  - unfold monitor_irq_handle. rewrite (load_info_run _ _ _ Hip Hi). cbn [mbind outcome_bind].
    rewrite (load_ring_run _ _ _ _ Hb Hm Hf). cbn [mbind outcome_bind]. fold b n.
    unfold b. rewrite (irq_requests_run (Z.to_nat n) _ _ _ _ _ s _ _ Hr); [|..|done];
      rewrite ?Z2Nat.id by (by destruct Hu); [done|done|by destruct Hu|].
    unfold n, b. clear -Hc Hp. zwrap.
  - intros k a Hk. unfold slot. simpl. rewrite (fill_slot _ _ _ _ a); [done|lia|done].
  - intros j Hj. unfold slot. simpl. rewrite fill_lookup; [done|lia|].
    intros k Hk. apply Hj. lia.
  - simpl. by rewrite Hlen.
Qed.


Lemma watch_frame arg st x st' :
  monitor_watch arg st = Ret (x, st') → ∃ l, st' = set_dom_list l st.
Proof.
  unfold monitor_watch. intros E. bind_inv E. destruct r as [t|].
  - case_decide; [|done]. injection E as _ <-. eauto.
  - injection E as _ <-. exists (monitor_dom_list st). by destruct st.
Qed.

Lemma commanded_ahead ip r c st0 n st :
  is_u32 c → ahead ip r c 0 st0 → commanded ip r st0 n st →
  1 ≤ n ∧ (n ≤ 2 ^ 32 - RING_SIZE → ahead ip r c n st).
Proof.
  intros Hc H0 Hr. induction Hr as [op pid resp x st1 E|n op pid resp st1 x st2 _ IH E|
    n s st1 _ IH Hs|n st1 arg x st2 _ IH E|n st1 resp st2 _ IH E].
  - split; [lia|]. intros _. by apply (ahead_op _ _ _ 0 _ _ _ _ _ _ H0) in E.
  - destruct IH as [? IH]. split; [lia|]. intros ?. eapply ahead_op; [|done]. apply IH. lia.
  - destruct IH as [? IH]. split; [done|]. intros Hn.
    destruct (IH Hn) as (i & Hip & Hlast & Hi & Hb & Hm & _ & Hci & Hp).
    exists i. split_and!; try done. exists s. simpl. by rewrite lookup_insert_eq.
  - destruct IH as [? IH]. split; [done|]. intros Hn.
    destruct (watch_frame _ _ _ _ E) as [l ->]. exact (IH Hn).
  - destruct IH as [? IH]. split; [done|]. intros Hn.
    rewrite (ahead_deaf _ _ c n) in E by auto. injection E as <-. auto.
Qed.

(** A command is a response that no request asked for, and it puts the
    monitor's response index ahead of its request index.  From the first
    command on, whatever the domain writes to its page and however many
    further commands (short of the whole index range) are sent, every event
    of that domain finds "more requests in flight than the ring has entries"
    and is dropped: no request is consumed and no answer sent any more, so
    that a single RESUME or KILL ends the surveillance of the domain. *)
Theorem command_deafens_monitor st0 ip i r s n st resp :
  monitor_ready st0 ip i r s → monitor_share_info st0 = ip →
  commanded ip r st0 n st → n ≤ 2 ^ 32 - RING_SIZE →
  monitor_irq_handle ip resp st = Ret st.
Proof.
  intros [Hip Hi Hb Hm Hf Hl Hc Hp Ha _] Hlast Hcmd Hn.
  destruct (commanded_ahead ip r (req_cons (bring i)) st0 n st Hc) as [H1 Hah]; [|done|].
  - exists i. split_and!; eauto. rewrite Ha, Z.add_0_r. symmetry. by apply u32_small.
  - apply (ahead_deaf _ r (req_cons (bring i)) n); auto.
Qed.

End serve_lemmas.

Section watch_props.
  Context `{RM : RingMacros}.

Lemma print_procs_spec n j table p :
  p ∈ print_procs n j table ↔ j ≤ p < j + Z.of_nat n ∧ default 0 (table !! p) ≠ 0.
Proof.
  revert j. induction n as [|n IH]; intros j; cbn [print_procs].
  - rewrite elem_of_nil. split; [done|lia].
  - destruct (decide _) as [Hj|Hj]; [rewrite elem_of_cons|]; rewrite IH;
      (destruct (decide (p = j)) as [->|]; [|intuition lia]).
    + split; [|by left]. intros _. split; [lia|done].
    + split; [intuition lia|]. intros [_ ?]. by destruct Hj.
Qed.

Lemma print_doms_spec n i st :
  is_Some (monitor_dom_list st) → 0 ≤ i → i + Z.of_nat n ≤ MONITOR_MAX_VMS →
  ∃ l, print_doms n i st = Ret l ∧ ∀ d ps,
    (d, ps) ∈ l ↔ i ≤ d < i + Z.of_nat n ∧
      ∃ table, monitor_dom_list st ≫= (.!! d) = Some table ∧ ps = print_procs max_procs 0 table.
Proof.
  intros Hl. revert i. induction n as [|n IH]; intros i Hi Hn; cbn [print_doms].
  { exists []. split; [done|]. intros d ps. rewrite elem_of_nil. split; [done|lia]. }
  rewrite dom_cursor_run by (done || lia). cbn [mbind outcome_bind].
  destruct (IH (i + 1)) as (l & -> & Hspec); [lia..|]. cbn [mbind outcome_bind].
  assert (Hrest : ∀ d ps, d ≠ i → (d, ps) ∈ l ↔ i ≤ d < i + Z.of_nat (S n) ∧
    ∃ table, monitor_dom_list st ≫= (.!! d) = Some table ∧ ps = print_procs max_procs 0 table).
  { intros d ps Hne. rewrite Hspec. intuition lia. }
  assert (Hni : ∀ ps, (i, ps) ∉ l) by (intros ps [? _]%Hspec; lia).
  destruct (monitor_dom_list st ≫= (.!! i)) as [table|] eqn:Et; eexists; (split; [reflexivity|]);
    intros d ps; (destruct (decide (d = i)) as [->|Hne]; [|rewrite <-Hrest by done]).
  - rewrite elem_of_cons. split.
    + intros [[= ->]|Hin]; [|by destruct (Hni ps)]. split; [lia|eauto].
    + intros [_ (t & Ht & ->)]. left. congruence.
  - rewrite elem_of_cons. split; [intros [[= ? ?]|?]; done|by right].
  - split; [intros Hin; by destruct (Hni ps)|]. intros [_ (t & Ht & _)]. congruence.
  - done.
Qed.

Lemma print_watched_run st :
  is_Some (monitor_dom_list st) →
  ∃ l, monitor_print_watched st = Ret l ∧ ∀ d p,
    (∃ ps, (d, ps) ∈ l ∧ p ∈ ps) ↔ 0 ≤ d < MONITOR_MAX_VMS ∧ watched st d p = true.
Proof.
  intros Hl. unfold monitor_print_watched.
  destruct (print_doms_spec (Z.to_nat MONITOR_MAX_VMS) 0 st Hl) as (l & E & Hspec);
    [lia|by rewrite Z2Nat.id|].
  exists l. split; [done|]. intros d p. rewrite Z2Nat.id, Z.add_0_l in Hspec by done.
  unfold watched. split.
  - intros (ps & [Hd (t & -> & ->)]%Hspec & [Hp Hv]%print_procs_spec). split; [done|].
    rewrite max_procs_Z in Hp. by rewrite bool_decide_eq_true.
  - intros [Hd Hw]. destruct (monitor_dom_list st ≫= (.!! d)) as [t|] eqn:Et; [|done].
    rewrite bool_decide_eq_true in Hw. exists (print_procs max_procs 0 t).
    rewrite print_procs_spec, max_procs_Z. split; [|exact Hw].
    apply Hspec. split; [done|]. exists t. by split.
Qed.

Lemma watched_insert st l d p t d' p' :
  monitor_dom_list st = Some l → l !! d = Some t → 0 ≤ p < MONITOR_MAX_PROCS →
  watched (set_dom_list (Some (<[d := <[p := 1]> t]> l)) st) d' p' = true ↔
    (d' = d ∧ p' = p) ∨ watched st d' p' = true.
Proof.
  intros Hl Ht Hp. unfold watched. simpl. rewrite Hl. simpl.
  destruct (decide (d' = d)) as [->|Hd].
  - rewrite lookup_insert_eq, Ht, !bool_decide_eq_true. destruct (decide (p' = p)) as [->|Hpp].
    + rewrite lookup_insert_eq. split; [by left|]. intros _. by split.
    + rewrite lookup_insert_ne by done. intuition.
  - rewrite lookup_insert_ne by done. intuition.
Qed.

(** C33: watching a process of a registered domain makes exactly that process
    watched, on top of those that were: both checks of the event handler, a
    scan of 65536 entries, say yes for it and for them only, and the dump
    lists just these.  A domain that is not registered is refused with -1.
    The domain and process numbers come from user space unchecked: 256 and
    65536 are already outside the arrays. *)
Theorem monitor_watch_correct st l d p age :
  monitor_dom_list st = Some l →
  (∀ t, 0 ≤ d < MONITOR_MAX_VMS → l !! d = Some t → 0 ≤ p < MONITOR_MAX_PROCS →
    ∃ st' out, monitor_watch (mk_watchreport p d age) st = Ret (0, st') ∧
      monitor_print_watched st' = Ret out ∧
      ∀ d' p', 0 ≤ d' < MONITOR_MAX_VMS →
        let is_watched := (d' = d ∧ p' = p) ∨ watched st d' p' = true in
        (monitor_check_mmuupdate d' p' st' = Ret 1 ↔ is_watched) ∧
        (monitor_check_page_fault d' p' st' = Ret 1 ↔ is_watched) ∧
        ((∃ ps, (d', ps) ∈ out ∧ p' ∈ ps) ↔ is_watched)) ∧
  (0 ≤ d < MONITOR_MAX_VMS → l !! d = None → monitor_watch (mk_watchreport p d age) st = Ret (-1, st)) ∧
  (∀ t, 0 ≤ d < MONITOR_MAX_VMS → l !! d = Some t → MONITOR_MAX_PROCS ≤ p →
    monitor_watch (mk_watchreport p d age) st = Err OutOfBounds) ∧
  (MONITOR_MAX_VMS ≤ d → monitor_watch (mk_watchreport p d age) st = Err OutOfBounds).
Proof.
  intros Hl. assert (Hs : is_Some (monitor_dom_list st)) by eauto.
  assert (Hcur : 0 ≤ d < MONITOR_MAX_VMS → dom_cursor st d = Ret (l !! d)).
  { intros Hd. rewrite dom_cursor_run by done. by rewrite Hl. }
  unfold monitor_watch. simpl. split_and!.
  - intros t Hd Ht Hp. rewrite Hcur by done. cbn [mbind outcome_bind]. rewrite Ht, decide_True by done.
    rewrite Hl. cbn [fmap option_fmap option_map].
    set (st' := set_dom_list _ st). assert (Hs' : is_Some (monitor_dom_list st')) by (by eexists).
    destruct (print_watched_run st' Hs') as (out & Eo & Hout). exists st', out. split_and!; [done..|].
    intros d' p' Hd'.
    assert (Hw : watched st' d' p' = true ↔ (d' = d ∧ p' = p) ∨ watched st d' p' = true)
      by by apply watched_insert.
    destruct (check_run st' d' p' Hs' Hd') as (r & -> & -> & Hr & H1).
    rewrite Hout, Hw. split_and!; [..|intuition].
    all: rewrite <-Hw, <-Hr, H1; split; [by intros [= ->]|by intros ->].
  - intros Hd Ht. rewrite Hcur by done. cbn [mbind outcome_bind]. by rewrite Ht.
  - intros t Hd Ht Hp. rewrite Hcur by done. cbn [mbind outcome_bind]. rewrite Ht.
    by rewrite decide_False by lia.
  - intros Hd. unfold dom_cursor. rewrite Hl. cbn [of_option mbind outcome_bind].
    by rewrite decide_False by lia.
Qed.

End watch_props.

(** Domain 3 with two requests around the wrap; process 77 is watched. *)
Example toy_request (op pid : Z) : message := mk_message op 0 0 pid 3 512 0 0.
Example toy_requests : sring :=
  mk_sring 1 1 (2 ^ 32 - 1) 1 (<[31 := toy_request MONITOR_RING_NXVIOLATION 77]>
    {[0 := toy_request MONITOR_RING_MMUUPDATE 78]}).
Example toy_monitor_info : monitor_share_info_t :=
  mk_monitor_share_info 3 8 20 0 (mk_as_back_ring (2 ^ 32 - 1) (2 ^ 32 - 1) 128).
Example toy_monitor : monitor_state :=
  mk_monitor_state {[64 := toy_monitor_info]} {[(3, 8) := toy_requests]} {[128 := (3, 8)]} 64
    (Some {[3 := {[77 := 1]}]}) 0 0 None 0 [].

Lemma toy_monitor_ready : monitor_ready toy_monitor 64 toy_monitor_info (3, 8) toy_requests.
Proof. split; try by vm_compute. by eexists. Qed.

Lemma monitor_irq_correct_witness :
  ∃ st' s', @monitor_irq_handle ring32 64 zero_message toy_monitor = Ret st' ∧
    foreign st' !! (3, 8) = Some s' ∧
    slot s' 31 = mk_message MONITOR_RING_REPORT 0 0 77 3 0 0 0 ∧
    operation (slot s' 0) = MONITOR_RING_NONOP ∧
    mevents st' = [MNotify 20; MNotify 20].
Proof.
  destruct (@monitor_irq_correct ring32 ring32_laws toy_monitor 64 toy_monitor_info (3, 8)
    toy_requests zero_message toy_monitor_ready) as
    (st' & s' & E & _ & Hf & _ & _ & Ha & _ & _ & He & _).
  - vm_compute. discriminate.
  - exists st', s'. split; [exact E|]. split; [exact Hf|]. split; [|split].
    + apply (Ha 0%nat). vm_compute. reflexivity.
    + pose proof (Ha 1%nat (mk_message MONITOR_RING_NONOP 0 0 77 3 0 0 0)) as H1.
      assert (Hs : slot s' (@ring_slot ring32 (2 ^ 32 - 1 + Z.of_nat 1)) =
        mk_message MONITOR_RING_NONOP 0 0 77 3 0 0 0) by (apply H1; vm_compute; reflexivity).
      change (@ring_slot ring32 (2 ^ 32 - 1 + Z.of_nat 1)) with 0 in Hs. by rewrite Hs.
    + exact He.
Defined.

(** A command, new requests of the domain, an event: nothing is answered. *)
Lemma command_deafens_monitor_witness :
  ∃ st, @commanded ring32 64 (3, 8) toy_monitor 1 st ∧
    @monitor_irq_handle ring32 64 zero_message st = Ret st.
Proof.
  destruct (@monitor_op_process ring32 MONITOR_RING_RESUME 77 zero_message toy_monitor)
    as [[x st]|f] eqn:E; [|vm_compute in E; discriminate].
  assert (Hc : @commanded ring32 64 (3, 8) toy_monitor 1 st) by by eapply commanded_first.
  exists st. split; [exact Hc|].
  apply (@command_deafens_monitor ring32 ring32_laws toy_monitor 64 toy_monitor_info (3, 8)
    toy_requests 1 st zero_message toy_monitor_ready).
  - reflexivity.
  - exact Hc.
  - vm_compute. discriminate.
Defined.

Lemma monitor_watch_correct_witness :
  ∃ st', monitor_watch (mk_watchreport 78 3 0) toy_monitor = Ret (0, st') ∧
    monitor_check_page_fault 3 78 st' = Ret 1 ∧
    monitor_watch (mk_watchreport 78 4 0) toy_monitor = Ret (-1, toy_monitor).
Proof.
  destruct (@monitor_watch_correct toy_monitor {[3 := {[77 := 1]}]} 3 78 0) as (H1 & _).
  - reflexivity.
  - destruct (H1 {[77 := 1]}) as (st' & out & E & _ & H).
    + split; [done|reflexivity].
    + reflexivity.
    + split; [done|reflexivity].
    + exists st'. split; [exact E|]. split.
      * apply (H 3 78); [split; [done|reflexivity]|]. left. split; reflexivity.
      * apply (@monitor_watch_correct toy_monitor {[3 := {[77 := 1]}]} 4 78 0); [reflexivity| |reflexivity].
        split; [done|reflexivity].
Defined.
