(* ===== verification/MonitorReport.v ===== *)
(** * Registration, reports and the device of the Dom0 driver (drivers/xen/monitor/monitor.c)

    The operations user space starts: registering a domain, taking a report
    (its frames are mapped), reading the frames back, and [monitor_ioctl].
    The services of kernel and hypervisor see the history of events. *)

From S2P Require Import Prelude Protocol MalHooks Monitor.

Definition MONITOR_VMSTRUCT_SIZE : Z := PAGE_SIZE * 2.

Section monitor_report.
  Context `{RM : RingMacros}.
  (** [kzalloc] of an info, and of an array of [n] bytes *)
  Context (kzalloc_info : gmap Z monitor_share_info_t → Z) (array_ok : Z → bool).
  (** [alloc_vm_area(PAGE_SIZE)], and what [free_vm_area(0)] does *)
  Context (alloc_vm_area : list monitor_event → option vm_struct) (free_vm_area_null : outcome unit).
  (** [HYPERVISOR_grant_table_op(GNTTABOP_map_grant_ref, ...)] of a reference of
      a domain at an address: its result and [ops.status] *)
  Context (map_grant_ref : list monitor_event → Z → Z → Z → Z * Z).
  (** [bind_interdomain_evtchn_to_irqhandler(dom, evtchn, ...)] *)
  Context (bind_interdomain : list monitor_event → Z → Z → Z).
  (** [copy_from_user] of an array of [n] elements: what arrives, and the
      number of bytes that did not *)
  Context (copy_from_user : list Z → nat → list Z * Z).
  (** [copy_to_user(buffer + offset, addr, n)]: the bytes not copied *)
  Context (copy_to_user : Z → Z → Z → Z).
  (** user memory, read at the three types of the ioctl argument *)
  Context (user_info : Z → monitor_uspace_info_t) (user_report : Z → monitor_report_t)
          (user_watch : Z → process_watchreport_t).

(** ** Operations *)

(** [static monitor_share_info_t* monitor_populate_info(unsigned long arg)] *)
Definition monitor_populate_info (arg : Z) (st : monitor_state) : outcome (Z * monitor_state) :=
  let tmp_info := user_info arg in
  let ip := kzalloc_info (infos st) in
  if decide (ip = NULL) then Err NullDeref
  else Ret (ip, store_info ip (mk_monitor_share_info (u16 (us_domid tmp_info)) (us_gref tmp_info)
                  (us_evtchn tmp_info) 0 (mk_as_back_ring 0 0 NULL)) st).

(** [static int monitor_register(monitor_share_info_t *info)]: the debug print
    dereferences [info] before the test for null. *)
Definition monitor_register (ip : Z) (st : monitor_state) : outcome (Z * monitor_state) :=
  info ← load_info st ip;
  match alloc_vm_area (mevents st) with
  | None => _ ← free_vm_area_null; Ret (- EFAULT, st)
  | Some v_start =>
      let host := vm_addr v_start in
      let '(ret, status) := map_grant_ref (mevents st) host (mi_gref info) (mi_domid info) in
      let st1 := mlog [MapGrant host (mi_gref info) (mi_domid info) ret status] st in
      if decide (ret ≠ 0) then Ret (- EFAULT, st1)
      else if decide (status ≠ 0) then Ret (- EFAULT, st1)
      else
        let st2 := set_mapped (<[host := (mi_domid info, mi_gref info)]> (mapped st1)) st1 in
        let info2 := set_bring (BACK_RING_INIT host) info in
        let err := bind_interdomain (mevents st2) (mi_domid info) (mi_evtchn info) in
        let st3 := mlog [BindInterdomain (mi_domid info) (mi_evtchn info)] (store_info ip info2 st2) in
        if decide (err < 0) then
          Ret (- EFAULT, mlog [UnmapGrant host] (set_mapped (delete host (mapped st3)) st3))
        else
          let info3 := set_evtchn (u32 err) info2 in
          let st4 := store_info ip info3 st3 in
          l ← of_option NullDeref (monitor_dom_list st4);
          if decide (0 ≤ mi_domid info < MONITOR_MAX_VMS) then
            Ret (0, set_dom_list (Some (if array_ok (8 * MONITOR_MAX_PROCS)
                                        then <[mi_domid info := ∅]> l
                                        else delete (mi_domid info) l)) st4)
          else Err OutOfBounds
  end.

(** [static struct vm_struct* monitor_map_gref(unsigned int gref, unsigned int domid)] *)
Definition monitor_map_gref (gref domid : Z) (st : monitor_state) : outcome (vm_struct * monitor_state) :=
  match alloc_vm_area (mevents st) with
  | None => _ ← free_vm_area_null; Err NullDeref
  | Some v_start =>
      let host := vm_addr v_start in
      let size1 := if decide (gref < 1) then 0 else vm_size v_start in
      let '(ret, status) := map_grant_ref (mevents st) host gref (u16 domid) in
      let st1 := mlog [MapGrant host gref (u16 domid) ret status] st in
      let st2 := if decide (ret = 0 ∧ status = 0)
                 then set_mapped (<[host := (u16 domid, gref)]> (mapped st1)) st1 else st1 in
      let size2 := if decide (ret ≠ 0) then 0 else size1 in
      let size3 := if decide (status ≠ 0) then 0 else size2 in
      Ret (mk_vm_struct host size3, st2)
  end.

(** [for(i = 0; i < rep->pfn_list_length; i++)] of [monitor_report], [n] frames
    left; [vm_struct_list[j++] = ...] appends. *)
Fixpoint map_report (n : nat) (i : Z) (rep : monitor_report_t) (st : monitor_state)
    : outcome monitor_state :=
  match n with
  | O => Ret st
  | S n' =>
      gref ← array_get (mr_gref_list rep) i;
      '(v, st1) ← monitor_map_gref gref (mr_domid rep) st;
      if decide (0 < vm_size v) then
        l ← of_option NullDeref (vm_struct_list st1);
        map_report n' (i + 1) rep (set_vm_structs (Some (l ++ [v])) (vm_struct_list_size st1) st1)
      else map_report n' (i + 1) rep st1
  end.

(** [static int monitor_report(process_report_t *rep)] *)
Definition monitor_report (rep : monitor_report_t) (st : monitor_state) : outcome (Z * monitor_state) :=
  let list0 := if array_ok (u64 (mr_pfn_list_length rep * PAGE_SIZE)) then Some [] else None in
  st1 ← map_report (Z.to_nat (mr_pfn_list_length rep)) 0 rep
          (set_vm_structs list0 (vm_struct_list_size st) st);
  let j := default 0 (Z.of_nat ∘ length <$> vm_struct_list st1) in
  Ret (0, set_curr_proc (mr_process_id rep) (set_vm_structs (vm_struct_list st1) j st1)).

(** One array of the report: [kzalloc], then [copy_from_user], whose failure is
    only printed; a null destination is written to. *)
Definition populate_array (len size : Z) (user : option (list Z)) : outcome (option (list Z)) :=
  if array_ok (u64 (len * size)) then
    u ← of_option WildAccess user;
    Ret (Some (copy_from_user u (Z.to_nat len)).1)
  else Err NullDeref.

(** [static process_report_t* monitor_populate_report(unsigned long arg)] *)
Definition monitor_populate_report (arg : Z) : outcome monitor_report_t :=
  let tmp_rep := user_report arg in
  let len := mr_pfn_list_length tmp_rep in
  pfns ← populate_array len 8 (mr_pfn_list tmp_rep);
  grefs ← populate_array len 4 (mr_gref_list tmp_rep);
  Ret (mk_monitor_report (mr_process_id tmp_rep) (mr_domid tmp_rep) (mr_process_age tmp_rep)
         pfns grefs len).

(** ** [monitor_read] *)

(** [while(i*MONITOR_VMSTRUCT_SIZE < *offp) i++;] *)
Fixpoint read_index (fuel : nat) (i off : Z) : outcome Z :=
  if decide (u64 (i * MONITOR_VMSTRUCT_SIZE) < u64 off) then
    match fuel with O => Err OutOfFuel | S n => read_index n (s32 (i + 1)) off end
  else Ret i.

(** [while(leftover>0)]: the result is [byte_count] and the copies made, each
    with its offset in the buffer, its source and its length. *)
Fixpoint read_blocks (fuel : nat) (i leftover byte_count : Z) (copies : list (Z * Z * Z))
    (st : monitor_state) : outcome (Z * list (Z * Z * Z)) :=
  if decide (0 < leftover) then
    match fuel with
    | O => Err OutOfFuel
    | S n =>
        l ← of_option NullDeref (vm_struct_list st);
        v ← of_option NullDeref (l !! Z.to_nat i);
        if decide (MONITOR_VMSTRUCT_SIZE ≤ u64 leftover) then
          let throwaway := copy_to_user byte_count (vm_addr v) MONITOR_VMSTRUCT_SIZE in
          read_blocks n (s32 (i + 1)) (s32 (leftover - MONITOR_VMSTRUCT_SIZE))
            (s32 (byte_count + (MONITOR_VMSTRUCT_SIZE - throwaway)))
            (copies ++ [(byte_count, vm_addr v, MONITOR_VMSTRUCT_SIZE)]) st
        else
          let throwaway := copy_to_user byte_count (vm_addr v) leftover in
          Ret (s32 (byte_count + (leftover - throwaway)), copies ++ [(byte_count, vm_addr v, leftover)])
    end
  else Ret (byte_count, copies).

(** [static ssize_t monitor_read(filp, buffer, count, offp)]: [*offp] is read
    and never written. *)
Definition monitor_read (count off : Z) (st : monitor_state) : outcome (Z * list (Z * Z * Z)) :=
  let size := vm_struct_list_size st in
  let total := u64 (size * MONITOR_VMSTRUCT_SIZE) in
  if decide (total < u64 off) then Ret (0, [])
  else
    i ← read_index (S (Z.to_nat size)) 0 off;
    let rest := u64 ((size - i) * MONITOR_VMSTRUCT_SIZE) in
    let leftover := if decide (rest < u64 (s32 count)) then s32 rest else s32 count in
    read_blocks (S (Z.to_nat size)) i leftover 0 [] st.

(** ** [monitor_ioctl] *)

Definition monitor_ioctl (cmd arg : Z) (resp0 : message) (st : monitor_state)
    : outcome (Z * monitor_state) :=
  if decide (cmd = MONITOR_REGISTER) then
    '(ip, st1) ← monitor_populate_info arg st;
    let st2 := set_monitor_share_info ip st1 in
    '(_, st3) ← monitor_register ip st2;
    Ret (0, st3)
  else if decide (cmd = MONITOR_REPORT) then
    rep ← monitor_populate_report arg;
    '(_, st1) ← monitor_report rep st;
    Ret (0, st1)
  else if decide (cmd = MONITOR_DUMP) then _ ← monitor_print_watched st; Ret (0, st)
  else if decide (cmd = MONITOR_DONE_REPORT) then Ret (0, st)
  else if decide (cmd = MONITOR_RESUME) then
    if decide (curr_proc st ≠ NULL) then
      st1 ← monitor_resume_process (curr_proc st) resp0 st; Ret (0, set_curr_proc NULL st1)
    else Ret (0, st)
  else if decide (cmd = MONITOR_KILL) then
    if decide (curr_proc st ≠ NULL) then
      st1 ← monitor_kill_process (curr_proc st) resp0 st; Ret (0, set_curr_proc NULL st1)
    else Ret (0, st)
  else if decide (cmd = MONITOR_WATCH) then
    '(_, st1) ← monitor_watch (user_watch arg) st; Ret (0, st1)
  else if decide (cmd = MONITOR_DEREGISTER) then Ret (0, st)
  else Ret (MONITOR_BADCMD, st).

(** [static int monitor_init(void)], after the answers of the kernel: [major]
    the device number's, [cdev_err] the result of [cdev_add], [device_ok]
    whether [device_create] returned a device. *)
Definition monitor_init (major cdev_err : Z) (device_ok : bool) (st : monitor_state)
    : Z * monitor_state :=
  if decide (major < 0) then (- ENODEV, st)
  else if decide (cdev_err ≠ 0) then (1, st)
  else if negb device_ok then (- ENODEV, st)
  else
    let l := if array_ok (8 * MONITOR_MAX_VMS) then Some ∅ else None in
    (0, set_in_progress 0 (set_curr_proc NULL (set_dom_list l st))).

(** ** Runs of the driver *)

(** The states after [monitor_init] and any sequence of events and ioctls. *)
Inductive reachable (init : monitor_state) : monitor_state → Prop :=
  | reach_init major st :
      monitor_init major 0 true init = (0, st) → reachable init st
  | reach_event st ip resp st' :
      reachable init st → monitor_irq_handle ip resp st = Ret st' → reachable init st'
  | reach_ioctl st cmd arg resp x st' :
      reachable init st → monitor_ioctl cmd arg resp st = Ret (x, st') → reachable init st'
  | reach_page st r s :
      reachable init st → reachable init (set_foreign (<[r := s]> (foreign st)) st).

End monitor_report.

(** ** The specification of a report *)

Section mapping.
  Context (alloc_vm_area : list monitor_event → option vm_struct).
  Context (map_grant_ref : list monitor_event → Z → Z → Z → Z * Z).

(** Mapping the references of domain [d] one after the other: what is logged,
    and the areas that hold a page afterwards. *)
Fixpoint mapping (hist : list monitor_event) (d : Z) (grefs : list Z)
    : list monitor_event * list vm_struct :=
  match grefs with
  | [] => ([], [])
  | g :: gs =>
      let v := default (mk_vm_struct 0 0) (alloc_vm_area hist) in
      let '(ret, status) := map_grant_ref hist (vm_addr v) g d in
      let e := MapGrant (vm_addr v) g d ret status in
      let '(es, vs) := mapping (hist ++ [e]) d gs in
      (e :: es, if decide (1 ≤ g ∧ ret = 0 ∧ status = 0) then v :: vs else vs)
  end.

End mapping.

(** ** Lemmas *)

Section register_lemmas.
  Context `{RL : RingLaws}.
  Context (array_ok : Z → bool).
  Context (alloc_vm_area : list monitor_event → option vm_struct) (free_vm_area_null : outcome unit).
  Context (map_grant_ref : list monitor_event → Z → Z → Z → Z * Z).
  Context (bind_interdomain : list monitor_event → Z → Z → Z).

Abbreviation register := (monitor_register array_ok alloc_vm_area free_vm_area_null map_grant_ref bind_interdomain).

(** ** Properties *)

(** C34: registering a domain, on every path.  When all services cooperate, the
    domain, with a fresh ring, is ready to be served: the ring page is mapped,
    both indices are at its start, the interrupt is kept in [evtchn], and it has
    an empty watch list (also when it had been registered before and watched
    something); the others keep theirs.  When there is no memory for that list
    the registration succeeds all the same, but every watch of the domain is
    refused with -1.  Without an area of addresses [free_vm_area(0)] is called,
    and if that returns, -EFAULT is returned with nothing changed; when the page
    cannot be mapped -EFAULT is returned with nothing changed, and when the
    channel cannot be bound it is returned with the page unmapped again and the
    watch lists as they were.  A domain number of 256 or more is written outside
    the list, and a null info is dereferenced before it is tested. *)
Theorem monitor_register_correct ip info st l :
  ip ≠ NULL → infos st !! ip = Some info → monitor_dom_list st = Some l → 0 ≤ mi_domid info →
  let d := mi_domid info in
  register NULL st = Err NullDeref ∧
  (alloc_vm_area (mevents st) = None →
   (free_vm_area_null = Ret () → register ip st = Ret (- EFAULT, st)) ∧
   (∀ e, free_vm_area_null = Err e → register ip st = Err e)) ∧
  (∀ v ret status, alloc_vm_area (mevents st) = Some v →
   map_grant_ref (mevents st) (vm_addr v) (mi_gref info) d = (ret, status) →
   let mapping := MapGrant (vm_addr v) (mi_gref info) d ret status in
   (ret ≠ 0 ∨ status ≠ 0 → register ip st = Ret (- EFAULT, mlog [mapping] st)) ∧
   (∀ s err, ret = 0 → status = 0 → vm_addr v ≠ NULL → mapped st !! vm_addr v = None →
    foreign st !! (d, mi_gref info) = Some s → rsp_prod s = 0 → is_u32 (req_prod s) →
    bind_interdomain (mevents st ++ [mapping]) d (mi_evtchn info) = err →
    (err < 0 → ∃ st', register ip st = Ret (- EFAULT, st') ∧ mapped st' = mapped st ∧
       monitor_dom_list st' = monitor_dom_list st ∧
       mevents st' = mevents st ++ [mapping; BindInterdomain d (mi_evtchn info); UnmapGrant (vm_addr v)]) ∧
    (0 ≤ err → MONITOR_MAX_VMS ≤ d → register ip st = Err OutOfBounds) ∧
    (0 ≤ err → d < MONITOR_MAX_VMS → ∃ st' i', register ip st = Ret (0, st') ∧
       monitor_ready st' ip i' (d, mi_gref info) s ∧
       bring i' = mk_as_back_ring 0 0 (vm_addr v) ∧ mi_evtchn i' = u32 err ∧
       (∀ d' p, watched st' d' p = bool_decide (d' ≠ d) && watched st d' p) ∧
       dom_cursor st' d = Ret (if array_ok (8 * MONITOR_MAX_PROCS) then Some ∅ else None) ∧
       (array_ok (8 * MONITOR_MAX_PROCS) = false → ∀ arg, wr_domid arg = d → monitor_watch arg st' = Ret (-1, st'))))).
Proof.
  intros Hip Hi Hl Hd d. split; [done|]. unfold monitor_register. rewrite (load_info_run _ _ _ Hip Hi). cbn [mbind outcome_bind].
  split; [by intros ->; split; [intros ->|intros e ->]|]. intros v ret status -> Hmap. fold d. rewrite Hmap. split.
  { intros Hbad. destruct (decide (ret ≠ 0)); [done|]. by rewrite decide_True by tauto. }
  intros s err -> -> Hva Hmv Hf Hrp Hreq Herr.
  rewrite !(decide_False (P := 0 ≠ 0)) by auto. cbn [mevents set_mapped mlog]. rewrite Herr. split_and!.
  - intros He. rewrite decide_True by lia. eexists. split; [reflexivity|].
    split; [by apply delete_insert_id|]. split; [done|]. simpl. by rewrite <-!app_assoc.
  - intros He Hm. rewrite decide_False by lia. cbn [monitor_dom_list store_info set_infos mlog set_mapped]. rewrite Hl. cbn [of_option mbind outcome_bind].
    by rewrite decide_False by lia.
  - intros He Hm. rewrite decide_False by lia. cbn [monitor_dom_list store_info set_infos mlog set_mapped]. rewrite Hl. cbn [of_option mbind outcome_bind].
    rewrite decide_True by done. set (l' := if array_ok _ then _ else _).
    assert (Hl' : l' !! d = if array_ok (8 * MONITOR_MAX_PROCS) then Some ∅ else None).
    { unfold l'. destruct (array_ok _); [apply lookup_insert_eq|apply lookup_delete_eq]. }
    assert (Hother : ∀ d', d' ≠ d → l' !! d' = l !! d').
    { intros d' Hne. unfold l'. destruct (array_ok _); [by rewrite lookup_insert_ne|by rewrite lookup_delete_ne]. }
    clearbody l'. eexists _, _. split; [reflexivity|]. split.
    { split; [done|apply lookup_insert_eq|..]; simpl; rewrite ?BACK_RING_INIT_law; try done; first [by rewrite lookup_insert_eq|by eexists]. }
    split; [by rewrite <-BACK_RING_INIT_law|]. split; [done|]. split; [|split].
    + intros d' p. unfold watched. simpl. rewrite Hl. simpl. destruct (decide (d' = d)) as [->|Hne].
      * rewrite Hl', (bool_decide_eq_false_2 (d ≠ d)) by auto. destruct (array_ok _); [|done].
        apply bool_decide_eq_false_2. intros [_ Hw]. by rewrite lookup_empty in Hw.
      * rewrite Hother, (bool_decide_eq_true_2 (_ ≠ _)) by done. done.
    + unfold dom_cursor. simpl. by rewrite decide_True, Hl' by done.
    + intros Harr arg Ha. unfold monitor_watch, dom_cursor. rewrite Ha. simpl. rewrite decide_True by done. cbn [mbind outcome_bind].
      by rewrite Hl', Harr.
Qed.

  (** What the ioctls need besides. *)
  Context (kzalloc_info : gmap Z monitor_share_info_t → Z).
  Context (copy_from_user : list Z → nat → list Z * Z).
  Context (user_info : Z → monitor_uspace_info_t) (user_report : Z → monitor_report_t)
          (user_watch : Z → process_watchreport_t).

Abbreviation ioctl := (monitor_ioctl kzalloc_info array_ok alloc_vm_area free_vm_area_null map_grant_ref
  bind_interdomain copy_from_user user_info user_report user_watch).

(** The ioctl ignores that a registration failed: it answers 0 and makes
    the unusable info the one all commands go to, so that the next KILL or
    RESUME while a report is pending dereferences a null ring. *)
Theorem failed_register_is_kept arg cmd resp st v ret status :
  let ip := kzalloc_info (infos st) in
  let d := u16 (us_domid (user_info arg)) in
  ip ≠ NULL → alloc_vm_area (mevents st) = Some v →
  map_grant_ref (mevents st) (vm_addr v) (us_gref (user_info arg)) d = (ret, status) →
  ret ≠ 0 ∨ status ≠ 0 → curr_proc st ≠ NULL → cmd ∈ [MONITOR_RESUME; MONITOR_KILL] →
  ∃ st', ioctl MONITOR_REGISTER arg resp st = Ret (0, st') ∧ monitor_share_info st' = ip ∧
    ioctl cmd arg resp st' = Err NullDeref.
Proof.
  intros ip d Hip Hv Hmap Hbad Hcur Hcmd. unfold monitor_ioctl at 1.
  rewrite decide_True by done. unfold monitor_populate_info. fold ip.
  rewrite decide_False by done. cbn [mbind outcome_bind]. fold d.
  set (info := mk_monitor_share_info d _ _ _ _).
  unfold monitor_register. rewrite (load_info_run _ _ info Hip) by apply lookup_insert_eq.
  cbn [mbind outcome_bind]. simpl. rewrite Hv, Hmap.
  set (st1 := mlog _ (set_monitor_share_info ip _)).
  assert (E : (if decide (ret ≠ 0) then Ret (- EFAULT, st1)
               else if decide (status ≠ 0) then Ret (- EFAULT, st1)
               else Err BugOn) = Ret (- EFAULT, st1)).
  { destruct (decide _); [done|]. rewrite decide_True by tauto. done. }
  exists st1. split_and!; [|done|].
  - destruct (decide (ret ≠ 0)); [done|]. rewrite decide_True by tauto. done.
  - assert (Hop : ∀ op pid, monitor_op_process op pid resp st1 = Err NullDeref).
    { intros op pid. unfold monitor_op_process, push_response.
      change (monitor_share_info st1) with ip.
      rewrite (load_info_run _ _ info Hip) by apply lookup_insert_eq. done. }
    change (curr_proc st) with (curr_proc st1) in Hcur.
    apply elem_of_cons in Hcmd as [->|Hcmd]; [|apply list_elem_of_singleton in Hcmd as ->].
    all: unfold monitor_ioctl, monitor_resume_process, monitor_kill_process.
    all: repeat (rewrite decide_False by done); rewrite decide_True by done.
    all: by rewrite decide_True, Hop by done.
Qed.

(** RESUME and KILL, when a report is pending, put one response with that
    operation and the reported pid into the next slot of the ring of the domain
    that registered last, whichever domain the report came from, publish it,
    notify and forget the report; without a report they do nothing.  Unknown
    commands are refused with BADCMD, DONE_REPORT and DEREGISTER are no-ops. *)
Theorem monitor_command_correct cmd op arg resp st i r s :
  (cmd = MONITOR_RESUME ∧ op = MONITOR_RING_RESUME) ∨ (cmd = MONITOR_KILL ∧ op = MONITOR_RING_KILL) →
  monitor_share_info st ≠ NULL → infos st !! monitor_share_info st = Some i →
  back_sring (bring i) ≠ NULL → mapped st !! back_sring (bring i) = Some r → foreign st !! r = Some s →
  (curr_proc st ≠ NULL →
   ∃ st' s', ioctl cmd arg resp st = Ret (0, st') ∧ foreign st' !! r = Some s' ∧
     (let m := slot s' (ring_slot (rsp_prod_pvt (bring i))) in
      operation m = op ∧ process_id m = curr_proc st ∧ domid m = domid resp) ∧
     (∀ j, j ≠ ring_slot (rsp_prod_pvt (bring i)) → slot s' j = slot s j) ∧
     (∀ r', r' ≠ r → foreign st' !! r' = foreign st !! r') ∧
     rsp_prod s' = u32 (rsp_prod_pvt (bring i) + 1) ∧
     mevents st' = mevents st ++ [MNotify (mi_evtchn i)] ∧ curr_proc st' = NULL ∧
     ioctl cmd arg resp st' = Ret (0, st')) ∧
  (curr_proc st = NULL → ioctl cmd arg resp st = Ret (0, st)) ∧
  ioctl MONITOR_DONE_REPORT arg resp st = Ret (0, st) ∧
  ioctl MONITOR_DEREGISTER arg resp st = Ret (0, st) ∧
  (∀ bad, bad ∉ [MONITOR_REGISTER; MONITOR_REPORT; MONITOR_DUMP; MONITOR_DONE_REPORT; MONITOR_RESUME;
                 MONITOR_KILL; MONITOR_WATCH; MONITOR_DEREGISTER] →
     ioctl bad arg resp st = Ret (MONITOR_BADCMD, st)).
Proof.
  intros Hcmd Hip Hi Hb Hm Hf.
  assert (Hidle : ∀ st0, curr_proc st0 = NULL → ioctl cmd arg resp st0 = Ret (0, st0)).
  { intros st0 E. unfold monitor_ioctl. destruct Hcmd as [[-> _]|[-> _]];
      repeat (rewrite decide_False by done); rewrite decide_True by done;
      by rewrite decide_False by (intros H'; by apply H'). }
  split_and!; [|by apply Hidle|done|done|].
  - intros Hcur.
    assert (Hpush : ∃ st1, monitor_op_process op (curr_proc st) resp st = Ret (0, st1) ∧
      ioctl cmd arg resp st = Ret (0, set_curr_proc NULL st1)).
    { unfold monitor_op_process. rewrite (push_response_run _ _ _ i r s)
        by (done || apply RING_PUSH_RESPONSES_AND_CHECK_NOTIFY_law).
      cbn [mbind outcome_bind]. eexists. split; [reflexivity|]. unfold monitor_ioctl.
      destruct Hcmd as [[-> ->]|[-> ->]]; repeat (rewrite decide_False by done);
        rewrite decide_True, decide_True by done;
        unfold monitor_resume_process, monitor_kill_process, monitor_op_process;
        rewrite (push_response_run _ _ _ i r s)
          by (done || apply RING_PUSH_RESPONSES_AND_CHECK_NOTIFY_law); done. }
    destruct Hpush as (st1 & Eop & E). unfold monitor_op_process in Eop.
    rewrite (push_response_run _ _ _ i r s) in Eop
      by (done || apply RING_PUSH_RESPONSES_AND_CHECK_NOTIFY_law).
    injection Eop as <-. eexists _, _. split; [exact E|]. split; [apply lookup_insert_eq|].
    split_and!; try done.
    + unfold slot. simpl. by rewrite lookup_insert_eq.
    + intros j Hj. unfold slot. simpl. by rewrite lookup_insert_ne.
    + intros r' Hr'. simpl. by rewrite lookup_insert_ne.
    + by apply Hidle.
  - intros bad Hbad. unfold monitor_ioctl. repeat (rewrite decide_False by set_solver). done.
Qed.

(** *** Reports *)

Lemma map_report_run pid d age pfns done_ gs len st l :
  (∀ hist, ∃ v, alloc_vm_area hist = Some v ∧ 0 < vm_size v) → is_u16 d → vm_struct_list st = Some l →
  ∃ mp, map_report alloc_vm_area free_vm_area_null map_grant_ref (length gs) (Z.of_nat (length done_))
      (mk_monitor_report pid d age pfns (Some (done_ ++ gs)) len) st =
    Ret (mlog (mapping alloc_vm_area map_grant_ref (mevents st) d gs).1
      (set_mapped mp (set_vm_structs
        (Some (l ++ (mapping alloc_vm_area map_grant_ref (mevents st) d gs).2)) (vm_struct_list_size st) st))).
Proof.
  intros Ha Hd. revert done_ l st. induction gs as [|g gs IH]; intros done_ l st Hl.
  { exists (mapped st). simpl. rewrite app_nil_r. unfold mlog, set_mapped, set_vm_structs. simpl.
    rewrite app_nil_r, <-Hl. by destruct st. }
  cbn [length map_report mr_gref_list]. rewrite array_get_app. cbn [mbind outcome_bind].
  unfold monitor_map_gref. destruct (Ha (mevents st)) as (v & Ev & Hv). cbn [mr_domid].
  cbn [mapping]. rewrite Ev, (u16_small d) by done.
  change (default (mk_vm_struct 0 0) (Some v)) with v.
  replace (Z.of_nat (length done_) + 1) with (Z.of_nat (length (done_ ++ [g])))
    by (rewrite length_app; simpl; lia).
  rewrite (cons_middle g done_ gs), app_assoc.
  destruct (map_grant_ref (mevents st) (vm_addr v) g d) as [ret status].
  set (e := MapGrant (vm_addr v) g d ret status).
  destruct (mapping alloc_vm_area map_grant_ref (mevents st ++ [e]) d gs) as [es vs] eqn:Em. cbn [mbind outcome_bind vm_size fst snd].
  destruct (decide (1 ≤ g ∧ ret = 0 ∧ status = 0)) as [(Hg & -> & ->)|Hbad].
  - rewrite !(decide_False (P := 0 ≠ 0)) by auto. rewrite (decide_False (P := g < 1)) by lia.
    rewrite decide_True by done. rewrite (decide_True (P := 0 = 0 ∧ 0 = 0)) by done.
    cbn [vm_struct_list set_mapped mlog]. rewrite Hl. cbn [of_option mbind outcome_bind].
    destruct (IH (done_ ++ [g]) (l ++ [mk_vm_struct (vm_addr v) (vm_size v)])
      (set_vm_structs (Some (l ++ [mk_vm_struct (vm_addr v) (vm_size v)])) (vm_struct_list_size st)
        (set_mapped (<[vm_addr v := (d, g)]> (mapped st)) (mlog [e] st)))) as [mp E]; [done|].
    exists mp. etrans; [exact E|]. cbn [mevents set_vm_structs set_mapped mlog]. rewrite Em. cbn [fst snd].
    unfold mlog, set_mapped, set_vm_structs. simpl. rewrite <-!app_assoc. by destruct v.
  - rewrite (decide_False (P := 0 < _)).
    2: { destruct (decide (status ≠ 0)); [lia|]. destruct (decide (ret ≠ 0)); [lia|].
         destruct (decide (g < 1)); [lia|]. destruct Hbad. lia. }
    destruct (decide (ret = 0 ∧ status = 0)).
    + destruct (IH (done_ ++ [g]) l (set_mapped (<[vm_addr v := (d, g)]> (mapped st)) (mlog [e] st)))
        as [mp E]; [done|exists mp; etrans; [exact E|]; cbn [mevents set_mapped mlog]; rewrite Em].
      cbn [fst snd]. unfold mlog, set_mapped, set_vm_structs. simpl. by rewrite <-!app_assoc.
    + destruct (IH (done_ ++ [g]) l (mlog [e] st))
        as [mp E]; [done|exists mp; etrans; [exact E|]; cbn [mevents set_mapped mlog]; rewrite Em].
      cbn [fst snd]. unfold mlog, set_mapped, set_vm_structs. simpl. by rewrite <-!app_assoc.
Qed.

(** C32: a report from user space is copied in and every reference of it is
    mapped, in order; the areas of those that mapped become the list the
    device serves, their number its size, and the reported process the one
    the next command is for.  References that are 0, and maps that fail, are
    left out.  The areas of the previous report are forgotten, not unmapped. *)
Theorem monitor_report_correct arg resp st pid d age pfns grefs :
  user_report arg = mk_monitor_report pid d age (Some pfns) (Some grefs) (Z.of_nat (length grefs)) →
  (∀ n, array_ok n = true) → length pfns = length grefs →
  (∀ l, length l = length grefs → (copy_from_user l (length grefs)).1 = l) →
  (∀ hist, ∃ v, alloc_vm_area hist = Some v ∧ 0 < vm_size v) → is_u16 d →
  let m := mapping alloc_vm_area map_grant_ref (mevents st) d grefs in
  ∃ mp, ioctl MONITOR_REPORT arg resp st =
    Ret (0, mlog m.1 (set_mapped mp (set_curr_proc pid
      (set_vm_structs (Some m.2) (Z.of_nat (length m.2)) st)))) ∧
    length m.1 = length grefs ∧ (length m.2 ≤ length grefs)%nat.
Proof.
  intros Hu Harr Hlen Hcopy Ha Hd m.
  destruct (map_report_run pid d age (Some pfns) [] grefs (Z.of_nat (length grefs))
    (set_vm_structs (Some []) (vm_struct_list_size st) st) []) as [mp E]; [done..|].
  exists mp. split.
  - unfold monitor_ioctl. repeat (rewrite decide_False by done). rewrite decide_True by done.
    unfold monitor_populate_report, populate_array. rewrite Hu.
    cbn [mr_pfn_list_length mr_pfn_list mr_gref_list mr_process_id mr_domid mr_process_age].
    rewrite !Harr. cbn [of_option mbind outcome_bind]. rewrite !Nat2Z.id, !Hcopy by done. unfold monitor_report.
    cbn [mr_pfn_list_length mr_process_id]. rewrite Harr, Nat2Z.id.
    change 0 with (Z.of_nat (length (@nil Z))). cbn [app] in E. simpl length at 2. rewrite E.
    reflexivity.
  - unfold m. clear. generalize (mevents st) as hist. induction grefs as [|g gs IH]; intros hist; simpl; [done|].
    destruct (map_grant_ref _ _ _ _) as [ret status]. specialize (IH (hist ++
      [MapGrant (vm_addr (default (mk_vm_struct 0 0) (alloc_vm_area hist))) g d ret status])).
    destruct (mapping alloc_vm_area map_grant_ref _ _ gs) as [es vs]. simpl in *. destruct (decide _); simpl; lia.
Qed.

(** *** The flag [report_in_progress] *)

Lemma push_response_progress push ip resp st st' :
  push_response push ip resp st = Ret st' → report_in_progress st' = report_in_progress st.
Proof.
  unfold push_response. intros E. do 2 bind_inv E. injection E as <-. unfold store_ring.
  simpl. by destruct (mapped st !! _).
Qed.

Lemma irq_loop_progress fuel ip rc rp resp st st' :
  monitor_irq_loop fuel ip rc rp resp st = Ret st' → report_in_progress st' = report_in_progress st.
Proof.
  revert rc resp st. induction fuel as [|n IH]; intros rc resp st E; cbn [monitor_irq_loop] in E;
    case_decide; try done; try by injection E as <-.
  bind_inv E. destruct (RING_REQUEST_CONS_OVERFLOW _ _); [by injection E as <-|].
  do 3 bind_inv E. apply IH in E. apply push_response_progress in E3. by rewrite E, E3.
Qed.

Lemma irq_progress ip resp st st' :
  monitor_irq_handle ip resp st = Ret st' → report_in_progress st' = report_in_progress st.
Proof. unfold monitor_irq_handle. intros E. do 2 bind_inv E. by apply irq_loop_progress in E. Qed.

Lemma register_progress ip st x st' :
  register ip st = Ret (x, st') → report_in_progress st' = report_in_progress st.
Proof.
  unfold monitor_register. intros E. bind_inv E. destruct (alloc_vm_area _) as [v|].
  - destruct (map_grant_ref _ _ _ _) as [ret status].
    repeat (case_decide; [by injection E as _ <-|]). bind_inv E.
    case_decide; [|done]. by injection E as _ <-.
  - bind_inv E. by injection E as _ <-.
Qed.

Lemma map_report_progress n i rep st st' :
  map_report alloc_vm_area free_vm_area_null map_grant_ref n i rep st = Ret st' →
  report_in_progress st' = report_in_progress st.
Proof.
  revert i st. induction n as [|n IH]; intros i st E; cbn [map_report] in E; [by injection E as <-|].
  do 2 bind_inv E. destruct r0 as [v st1].
  assert (H1 : report_in_progress st1 = report_in_progress st).
  { unfold monitor_map_gref in E1. destruct (alloc_vm_area _); [|bind_inv E1; cbv beta in E1; discriminate E1].
    destruct (map_grant_ref _ _ _ _) as [ret status]. injection E1 as _ <-. by destruct (decide (ret = 0 ∧ status = 0)). }
  case_decide; [bind_inv E|]; apply IH in E; by rewrite E.
Qed.

Lemma command_progress op pid resp st st' :
  (r ← monitor_op_process op pid resp st; Ret r.2) = Ret st' →
  report_in_progress st' = report_in_progress st.
Proof.
  intros H1. bind_inv H1. injection H1 as <-. unfold monitor_op_process in E. bind_inv E.
  injection E as <-. by apply push_response_progress in E0.
Qed.

Lemma ioctl_progress cmd arg resp st x st' :
  ioctl cmd arg resp st = Ret (x, st') → report_in_progress st' = report_in_progress st.
Proof.
  unfold monitor_ioctl. intros E. case_decide.
  { bind_inv E. destruct r as [ip st1]. bind_inv E. destruct r as [y st3]. injection E as _ <-.
    apply register_progress in E1. unfold monitor_populate_info in E0. case_decide; [done|].
    injection E0 as <- <-. done. }
  case_decide.
  { do 2 bind_inv E. destruct r0 as [y st1]. injection E as _ <-.
    unfold monitor_report in E1. bind_inv E1. injection E1 as _ <-. by apply map_report_progress in E. }
  case_decide; [bind_inv E; by injection E as _ <-|].
  case_decide; [by injection E as _ <-|].
  case_decide; [case_decide; [|by injection E as _ <-]; bind_inv E; injection E as _ <-;
    by apply (command_progress MONITOR_RING_RESUME) in E0|].
  case_decide; [case_decide; [|by injection E as _ <-]; bind_inv E; injection E as _ <-;
    by apply (command_progress MONITOR_RING_KILL) in E0|].
  case_decide.
  { bind_inv E. destruct r as [y st1]. injection E as _ <-. by apply watch_frame in E0 as [l ->]. }
  by case_decide; injection E as _ <-.
Qed.

(** The flag that is to keep the monitor from asking for a report while one
    is going on is cleared by [monitor_init] and set by nothing: it is zero in
    every state of every run, so that every NXVIOLATION of a watched process
    is answered with a REPORT, as many as there are faults. *)
Theorem report_never_in_progress init st req resp :
  reachable kzalloc_info array_ok alloc_vm_area free_vm_area_null map_grant_ref bind_interdomain
    copy_from_user user_info user_report user_watch init st →
  report_in_progress st = 0 ∧
  (is_Some (monitor_dom_list st) → operation req = MONITOR_RING_NXVIOLATION →
   0 < domid req < MONITOR_MAX_VMS → watched st (domid req) (process_id req) = true →
   ∃ m, monitor_answer req resp st = Ret m ∧ operation m = MONITOR_RING_REPORT ∧
     process_id m = process_id req ∧ domid m = domid req).
Proof.
  intros Hr. assert (Hz : report_in_progress st = 0).
  { induction Hr as [major st E|st ip resp' st' _ IH E|st cmd arg resp' x st' _ IH E|st r s _ IH].
    - unfold monitor_init in E. repeat case_decide; simplify_eq/=. done.
    - by rewrite (irq_progress _ _ _ _ E).
    - by rewrite (ioctl_progress _ _ _ _ _ _ E).
    - done. }
  split; [done|]. intros Hl Hop Hd Hw. rewrite monitor_answer_run by done. eexists. split; [done|].
  unfold verdict. rewrite Hop, Hw, bool_decide_eq_true_2 by done. simpl.
  by rewrite decide_True.
Qed.

End register_lemmas.

Section read_lemmas.
  Context (copy_to_user : Z → Z → Z → Z).

(** *** Reading *)

Definition nblocks (off : Z) : Z := (off + 8191) / 8192.

Lemma read_index_run fuel i off :
  0 ≤ i ≤ nblocks off → 0 ≤ off < 2 ^ 43 → nblocks off < 2 ^ 31 - 1 → nblocks off - i ≤ Z.of_nat fuel →
  read_index fuel i off = Ret (nblocks off).
Proof.
  change MONITOR_VMSTRUCT_SIZE with 8192. revert i. induction fuel as [|n IH]; intros i Hi Ho Hb Hf;
    cbn [read_index]; change MONITOR_VMSTRUCT_SIZE with 8192;
    rewrite (u64_small off) by (unfold is_u64; lia);
    rewrite u64_small by (unfold is_u64, nblocks in *; Z.div_mod_to_equations; lia).
  - assert (i = nblocks off) as -> by lia.
    rewrite decide_False; [done|]. unfold nblocks. Z.div_mod_to_equations. lia.
  - destruct (decide (i = nblocks off)) as [->|Hne].
    + rewrite decide_False; [done|]. unfold nblocks. Z.div_mod_to_equations. lia.
    + rewrite decide_True by (unfold nblocks in *; Z.div_mod_to_equations; lia).
      rewrite s32_small by (unfold is_s32; lia). apply IH; lia.
Qed.

(** What a read may do: every copy lies inside the buffer and reads one entry
    of the list from [lo] on. *)
Definition copies_ok (l : list vm_struct) (lo count : Z) (copies : list (Z * Z * Z)) : Prop :=
  Forall (λ c, ∃ v k, lo ≤ Z.of_nat k ∧ l !! k = Some v ∧ c.1.2 = vm_addr v ∧
    0 ≤ c.1.1 ∧ 0 < c.2 ≤ MONITOR_VMSTRUCT_SIZE ∧ c.1.1 + c.2 ≤ count) copies.

(** A well-behaved [copy_to_user]. *)
Definition copy_law : Prop := ∀ o a n, 0 ≤ n → 0 ≤ copy_to_user o a n ≤ n.

Lemma read_blocks_run fuel l lo i leftover bytes copies count st :
  copy_law → vm_struct_list st = Some l → 0 ≤ lo ≤ i → 0 ≤ leftover → 0 ≤ bytes →
  leftover ≤ (Z.of_nat (length l) - i) * 8192 → bytes + leftover ≤ count < 2 ^ 31 →
  Z.of_nat (length l) < 2 ^ 18 → (leftover + 8191) / 8192 ≤ Z.of_nat fuel →
  copies_ok l lo count copies →
  ∃ b cs, read_blocks copy_to_user fuel i leftover bytes copies st = Ret (b, cs) ∧
    bytes ≤ b ≤ bytes + leftover ∧ copies_ok l lo count cs ∧
    ((∀ o a n, copy_to_user o a n = 0) → b = bytes + leftover ∧
      Z.of_nat (length cs) = Z.of_nat (length copies) + (leftover + 8191) / 8192).
Proof.
  intros Hlaw Hl Hlo. revert i leftover bytes copies Hlo.
  induction fuel as [|n IH]; intros i leftover bytes copies Hlo Hleft Hbytes Hend Hcount Hlen Hf Hok.
  - assert (leftover = 0) as -> by (Z.div_mod_to_equations; lia). cbn [read_blocks].
    exists bytes, copies. split_and!; try done; try lia. intros _. split; [lia|]. change ((0 + 8191) / 8192) with 0. lia.
  - cbn [read_blocks]. destruct (decide (0 < leftover)) as [Hpos|Hz].
    2: { assert (leftover = 0) as -> by lia. exists bytes, copies. split_and!; try done; try lia.
         intros _. change ((0 + 8191) / 8192) with 0. lia. }
    rewrite Hl. cbn [of_option mbind outcome_bind].
    destruct (lookup_lt_is_Some_2 l (Z.to_nat i)) as [v Hv]; [lia|].
    rewrite Hv. cbn [of_option mbind outcome_bind]. change MONITOR_VMSTRUCT_SIZE with 8192.
    rewrite u64_small by (unfold is_u64; lia).
    assert (Hcopy : ∀ m, 0 < m ≤ 8192 → bytes + m ≤ count → copies_ok l lo count (copies ++ [(bytes, vm_addr v, m)])).
    { intros m Hm Hc. apply Forall_app. split; [exact Hok|]. apply Forall_singleton.
      exists v, (Z.to_nat i). change MONITOR_VMSTRUCT_SIZE with 8192. simpl. split_and!; done || lia. }
    case_decide as Hfull.
    + pose proof (Hlaw bytes (vm_addr v) 8192 ltac:(lia)) as Ht. set (t := copy_to_user _ _ _) in *.
      rewrite (s32_small (i + 1)) by (unfold is_s32; lia).
      rewrite (s32_small (leftover - 8192)) by (unfold is_s32; lia).
      rewrite (s32_small (bytes + (8192 - t))) by (unfold is_s32; lia).
      destruct (IH (i + 1) (leftover - 8192) (bytes + (8192 - t)) (copies ++ [(bytes, vm_addr v, 8192)]))
        as (b & cs & E & Hb & Hcs & Hall); try lia.
      * Z.div_mod_to_equations; lia.
      * apply Hcopy; lia.
      * exists b, cs. split_and!; [exact E|lia|lia|done|]. intros Hz. destruct (Hall Hz) as [Hbb Hn].
        assert (t = 0) by apply Hz. split; [lia|]. rewrite Hn, length_app. simpl. Z.div_mod_to_equations. lia.
    + pose proof (Hlaw bytes (vm_addr v) leftover ltac:(lia)) as Ht. set (t := copy_to_user _ _ _) in *.
      rewrite s32_small by (unfold is_s32; lia).
      eexists _, _. split; [reflexivity|]. split; [lia|]. split; [apply Hcopy; lia|].
      intros Hz. assert (t = 0) by apply Hz. split; [lia|]. rewrite length_app. simpl.
      Z.div_mod_to_equations. lia.
Qed.

(** A read terminates and stays in bounds: it starts at the block after
    the offset (rounded up), copies at most [count] bytes and never past the
    end of the list, every copy from an entry of the list at or behind the
    start and inside the caller's buffer; what it returns is between 0 and
    the smaller of [count] and the rest of the list, and exactly that when no
    copy fails.  An offset behind the end reads nothing. *)
Theorem monitor_read_correct st l count off :
  copy_law → vm_struct_list st = Some l → vm_struct_list_size st = Z.of_nat (length l) →
  Z.of_nat (length l) < 2 ^ 18 → 0 ≤ count < 2 ^ 31 → 0 ≤ off < 2 ^ 43 →
  let rest := (Z.of_nat (length l) - nblocks off) * 8192 in
  (off ≤ Z.of_nat (length l) * 8192 →
   ∃ b copies, monitor_read copy_to_user count off st = Ret (b, copies) ∧
     0 ≤ b ≤ Z.min count rest ∧ copies_ok l (nblocks off) count copies ∧
     ((∀ o a n, copy_to_user o a n = 0) → b = Z.min count rest ∧
       Z.of_nat (length copies) = (b + 8191) / 8192)) ∧
  (Z.of_nat (length l) * 8192 < off → monitor_read copy_to_user count off st = Ret (0, [])).
Proof.
  intros Hlaw Hl Hsz Hlen Hcount Hoff rest. unfold monitor_read. rewrite Hsz.
  change MONITOR_VMSTRUCT_SIZE with 8192.
  rewrite (u64_small (Z.of_nat (length l) * 8192)) by (unfold is_u64; lia).
  rewrite (u64_small off) by (unfold is_u64; lia). split.
  - intros Hin. rewrite decide_False by lia.
    assert (Hnb : 0 ≤ nblocks off ≤ Z.of_nat (length l)) by (unfold nblocks; Z.div_mod_to_equations; lia).
    rewrite read_index_run by (lia || done). cbn [mbind outcome_bind].
    fold rest. assert (Hrest : 0 ≤ rest < 2 ^ 31) by (unfold rest; lia).
    rewrite (u64_small rest) by (unfold is_u64; lia). rewrite (s32_small count) by (unfold is_s32; lia).
    rewrite (u64_small count) by (unfold is_u64; lia). rewrite (s32_small rest) by (unfold is_s32; lia).
    set (leftover := if decide (rest < count) then rest else count).
    assert (Hlo : leftover = Z.min count rest) by (unfold leftover; case_decide; lia).
    destruct (read_blocks_run (S (Z.to_nat (Z.of_nat (length l)))) l (nblocks off) (nblocks off)
      leftover 0 [] count st) as (b & cs & E & Hb & Hcs & Hall); try done; try lia.
    + rewrite Hlo. rewrite Nat2Z.inj_succ, Z2Nat.id by lia. unfold rest. Z.div_mod_to_equations. lia.
    + by apply Forall_nil.
    + exists b, cs. split_and!; [exact E|lia|lia|done|]. intros Hz. destruct (Hall Hz) as [-> Hn].
      rewrite Hn. simpl. split; [lia|f_equal; lia].
  - intros Hout. by rewrite decide_True by lia.
Qed.

End read_lemmas.

(** A host that maps everything, areas at 4096, 8192, ... by history, and a
    domain 3 that shared a fresh ring as reference 8. *)
Example toy_alloc (hist : list monitor_event) : option vm_struct :=
  Some (mk_vm_struct (4096 * (1 + Z.of_nat (length hist))) 8192).
Example toy_map (hist : list monitor_event) (host gref dom : Z) : Z * Z := (0, if decide (gref = 13) then -3 else 0).
Example toy_bind (hist : list monitor_event) (dom evtchn : Z) : Z := 40.
Example toy_copy (l : list Z) (n : nat) : list Z * Z := (take n l, 0).
Example toy_copy_out (o a n : Z) : Z := 0.
Example toy_user_info (arg : Z) : monitor_uspace_info_t := mk_uspace_info 3 (if decide (arg = 1) then 13 else 8) 20.
Example toy_user_report (arg : Z) : monitor_report_t :=
  mk_monitor_report 77 3 0 (Some [7; 9; 11]) (Some [100; 0; 102]) 3.
Example toy_user_watch (arg : Z) : process_watchreport_t := mk_watchreport 77 3 0.
Example toy_new_ring : sring := mk_sring 0 1 0 1 ∅.
Example toy_new_info : monitor_share_info_t := mk_monitor_share_info 3 8 20 0 (mk_as_back_ring 0 0 NULL).
Example toy_host : monitor_state :=
  mk_monitor_state {[64 := toy_new_info]} {[(3, 8) := toy_new_ring]} ∅ 0 (Some {[3 := {[77 := 1]}]})
    77 0 None 0 [].
Example toy_free : outcome unit := Err NullDeref.
Example toy_kzalloc_info (h : gmap Z monitor_share_info_t) : Z := 96.

Lemma monitor_register_correct_witness :
  ∃ st' i', @monitor_register ring32 (λ _, true) toy_alloc toy_free toy_map toy_bind 64 toy_host = Ret (0, st') ∧
    monitor_ready st' 64 i' (3, 8) toy_new_ring ∧ watched toy_host 3 77 = true ∧ watched st' 3 77 = false.
Proof.
  destruct (@monitor_register_correct ring32 ring32_laws (λ _, true) toy_alloc toy_free toy_map toy_bind
    64 toy_new_info toy_host {[3 := {[77 := 1]}]}) as (_ & _ & H); try done.
  destruct (H (mk_vm_struct 4096 8192) 0 0) as (_ & H0); [done|done|].
  destruct (H0 toy_new_ring 40) as (_ & _ & H1); try done. destruct H1 as (st' & i' & E & Hr & _ & _ & Hw & _); [lia|done|].
  exists st', i'. split; [exact E|]. split; [exact Hr|]. split; [by vm_compute|].
  rewrite Hw. by vm_compute.
Defined.

Lemma failed_register_is_kept_witness :
  ∃ st', @monitor_ioctl ring32 toy_kzalloc_info (λ _, true) toy_alloc toy_free toy_map toy_bind toy_copy
      toy_user_info toy_user_report toy_user_watch MONITOR_REGISTER 1 zero_message toy_host = Ret (0, st') ∧
    @monitor_ioctl ring32 toy_kzalloc_info (λ _, true) toy_alloc toy_free toy_map toy_bind toy_copy
      toy_user_info toy_user_report toy_user_watch MONITOR_KILL 1 zero_message st' = Err NullDeref.
Proof.
  destruct (@failed_register_is_kept ring32 (λ _, true) toy_alloc toy_free toy_map toy_bind
    toy_kzalloc_info toy_copy toy_user_info toy_user_report toy_user_watch 1 MONITOR_KILL zero_message toy_host
    (mk_vm_struct 4096 8192) 0 (-3)) as (st' & E & _ & E'); try done.
  - by right.
  - by right; left.
  - exists st'. split; [exact E|exact E'].
Defined.

Lemma monitor_command_correct_witness :
  ∃ st', @monitor_ioctl ring32 toy_kzalloc_info (λ _, true) toy_alloc toy_free toy_map toy_bind toy_copy
      toy_user_info toy_user_report toy_user_watch MONITOR_KILL 0 zero_message (set_curr_proc 77 toy_monitor)
    = Ret (0, st') ∧ mevents st' = [MNotify 20] ∧ curr_proc st' = 0.
Proof.
  destruct (@monitor_command_correct ring32 ring32_laws (λ _, true) toy_alloc toy_free toy_map toy_bind
    toy_kzalloc_info toy_copy toy_user_info toy_user_report toy_user_watch MONITOR_KILL MONITOR_RING_KILL
    0 zero_message (set_curr_proc 77 toy_monitor) toy_monitor_info (3, 8) toy_requests) as (H & _); try done.
  - by right.
  - destruct H as (st' & s' & E & _ & _ & _ & _ & _ & Hev & Hcur & _); [done|].
    exists st'. split; [exact E|]. split; [exact Hev|exact Hcur].
Defined.

(** The reference 0 is not mapped into the list. *)
Lemma monitor_report_correct_witness :
  ∃ st', @monitor_ioctl ring32 toy_kzalloc_info (λ _, true) toy_alloc toy_free toy_map toy_bind toy_copy
      toy_user_info toy_user_report toy_user_watch MONITOR_REPORT 0 zero_message toy_host = Ret (0, st') ∧
    vm_struct_list st' = Some [mk_vm_struct 4096 8192; mk_vm_struct 12288 8192] ∧ curr_proc st' = 77.
Proof.
  destruct (@monitor_report_correct ring32 (λ _, true) toy_alloc toy_free toy_map toy_bind
    toy_kzalloc_info toy_copy toy_user_info toy_user_report toy_user_watch 0 zero_message toy_host 77 3 0
    [7; 9; 11] [100; 0; 102]) as (mp & E & _); try done.
  - intros l Hl. unfold toy_copy. cbn [fst]. rewrite <-Hl. apply firstn_all.
  - intros hist. eexists. split; [reflexivity|done].
  - eexists. split; [exact E|]. split; [by vm_compute|done].
Defined.

Example toy_served : monitor_state :=
  set_vm_structs (Some [mk_vm_struct 4096 8192; mk_vm_struct 12288 8192]) 2 toy_host.

Lemma monitor_read_correct_witness :
  ∃ copies, monitor_read toy_copy_out 10000 0 toy_served = Ret (10000, copies) ∧ length copies = 2%nat.
Proof.
  assert (Hlaw : copy_law toy_copy_out) by (intros o a n Hn; unfold toy_copy_out; lia).
  destruct (@monitor_read_correct toy_copy_out toy_served
    [mk_vm_struct 4096 8192; mk_vm_struct 12288 8192] 10000 0 Hlaw) as (H & _); [done|done|done|lia|lia|].
  - destruct H as (b & cs & E & _ & _ & H); [done|]. destruct (H (λ _ _ _, eq_refl)) as [-> Hn].
    exists cs. split; [exact E|]. assert (Z.of_nat (length cs) = 2) by (rewrite Hn; by vm_compute). lia.
Defined.

Lemma report_never_in_progress_witness :
  report_in_progress (set_in_progress 0 (set_curr_proc NULL (set_dom_list (Some ∅) toy_served))) = 0.
Proof.
  apply (@report_never_in_progress ring32 (λ _, true) toy_alloc toy_free toy_map toy_bind
    toy_kzalloc_info
    toy_copy toy_user_info toy_user_report toy_user_watch toy_served _ zero_message zero_message).
  apply (reach_init _ _ _ _ _ _ _ _ _ _ _ 250). reflexivity.
Defined.
