(* ===== verification/System.v ===== *)
(** * The two drivers together (drivers/xen/malpage, drivers/xen/monitor)

    One page of memory is the ring page of the DomU driver and, mapped by its
    grant, that of the Dom0 driver.  The operations of either side are those of
    the component files; here they run on the shared page, one after the other,
    from a page fault in a domain to the report of the process. *)

From S2P Require Import Prelude PfnList Protocol KernelText PageWalk MalState MalHooks MalIrq MalReport MalThread Monitor.

(** ** Shared memory *)

Record world : Type := mk_world { w_dom : malpage_state; w_mon : monitor_state }.

Section system.
  Context `{RM : RingMacros} `{AS : AddrSpace}.
  Context (kzalloc_ok : malpage_state → bool).
  (** the ring page: its address in the domain, domain and grant reference; and
      the [dev_id] of the monitor's handler *)
  Context (p : Z) (r : Z * Z) (ip : Z).

(** What either side stored is what the other side loads. *)
Definition seen_by_monitor (d : malpage_state) (m : monitor_state) : monitor_state :=
  match pages d !! p with Some s => set_foreign (<[r := s]> (foreign m)) m | None => m end.
Definition seen_by_domain (m : monitor_state) (d : malpage_state) : malpage_state :=
  match foreign m !! r with Some s => set_page p s d | None => d end.

(** Page faults, as task, address and error code, one after the other. *)
Fixpoint faults (vs : list (task_struct * Z * Z)) (d : malpage_state) : outcome malpage_state :=
  match vs with
  | [] => Ret d
  | (t, a, c) :: vs' => x ← malpage_do_page_fault t a c d; faults vs' x.2
  end.

Definition dom_faults (vs : list (task_struct * Z * Z)) (w : world) : outcome world :=
  d ← faults vs (w_dom w); Ret (mk_world d (seen_by_monitor d (w_mon w))).
Definition monitor_event (resp0 : message) (w : world) : outcome world :=
  m ← monitor_irq_handle ip resp0 (w_mon w); Ret (mk_world (seen_by_domain m (w_dom w)) m).
Definition domain_event (fuel : nat) (skip : Z) (w : world) : outcome world :=
  d ← malpage_irq_handle kzalloc_ok fuel skip (w_dom w); Ret (mk_world d (seen_by_monitor d (w_mon w))).

(** Both sides are connected to the same page, every request is answered; of
    the responses the domain may have acknowledged only the older ones. *)
Record linked (w : world) (i : malpage_share_info_t) (s : sring) (mi : monitor_share_info_t) : Prop := mk_linked {
  li_dom : irq_ready kzalloc_ok (w_dom w) i s;
  li_mon : monitor_ready (w_mon w) ip mi r s;
  li_page : front_sring (fring i) = p;
  li_prod : req_prod_pvt (fring i) = req_cons (bring mi);
  li_req : req_prod s = req_cons (bring mi)
}.

(** A fault the hook takes for a violation. *)
Definition is_violation (v : task_struct * Z * Z) : Prop :=
  Z.land v.2 MALPAGE_PF_INSTR ≠ 0 ∧ Z.land v.2 MALPAGE_PF_USER ≠ 0 ∧ Z.land v.2 MALPAGE_PF_PROT = 0.

(** The requests [ms] published by the domain. *)
Definition published (i : malpage_share_info_t) (s : sring) (ms : list message) (d : malpage_state) : malpage_state :=
  let f := fring i in
  let prod := u32 (req_prod_pvt f + Z.of_nat (length ms)) in
  log_all (replicate (length ms) (Notify (si_irq i)))
    (set_page (front_sring f)
      (mk_sring prod (req_event s) (rsp_prod s) (rsp_event s) (fill (req_prod_pvt f) ms (ring s)))
      (set_share_info (Some (set_fring (mk_as_front_ring prod (rsp_cons f) (front_sring f)) i)) d)).

(** The request a violation becomes. *)
Definition request_of (i : malpage_share_info_t) (v : task_struct * Z * Z) (m : message) : Prop :=
  operation m = MALPAGE_RING_NXVIOLATION ∧ process_id m = u32 (task_pid v.1.1) ∧ domid m = si_domid i.

End system.

(** ** Lemmas *)

Section system_lemmas.
  Context `{RL : RingLaws} `{AS : AddrSpace}.
  Context (kzalloc_ok : malpage_state → bool) (p : Z) (r : Z * Z) (ip : Z).

Lemma published_nil i s d :
  connected d i s → req_prod s = req_prod_pvt (fring i) → is_u32 (req_prod s) → published i s [] d = d.
Proof.
  intros (Hi & Hn & Hs) Hp Hu. unfold published. simpl. rewrite Z.add_0_r, u32_small by (by rewrite <-Hp).
  assert (Es : mk_sring (req_prod_pvt (fring i)) (req_event s) (rsp_prod s) (rsp_event s) (ring s) = s)
    by (rewrite <-Hp; by destruct s).
  assert (Ei : set_fring (mk_as_front_ring (req_prod_pvt (fring i)) (rsp_cons (fring i)) (front_sring (fring i))) i = i)
    by (destruct i as [? ? ? ? ? ? []]; done).
  rewrite Es, Ei. unfold log_all, set_page, set_share_info. destruct d. simpl in *. subst.
  rewrite (insert_id _ _ _ Hs), app_nil_r. done.
Qed.

Lemma published_cons i s m ms d :
  let f := fring i in
  let prod := u32 (req_prod_pvt f + 1) in
  let i1 := set_fring (mk_as_front_ring prod (rsp_cons f) (front_sring f)) i in
  let s1 := mk_sring prod (req_event s) (rsp_prod s) (rsp_event s) (<[ring_slot (req_prod_pvt f) := m]> (ring s)) in
  published i s (m :: ms) d = published i1 s1 ms (reported i s m d).
Proof.
  unfold published, reported, log_all, log, set_page, set_share_info. simpl.
  rewrite u32_add_l, insert_insert_eq, <-app_assoc. simpl.
  replace (req_prod_pvt (fring i) + Z.of_nat (S (length ms))) with
    (req_prod_pvt (fring i) + 1 + Z.of_nat (length ms)) by lia. done.
Qed.

Lemma faults_run vs d i s :
  Forall is_violation vs → connected d i s → req_prod s = req_prod_pvt (fring i) → is_u32 (req_prod s) →
  ∃ ms, faults vs d = Ret (published i s ms d) ∧ Forall2 (request_of i) vs ms.
Proof.
  intros Hvs. revert d i s. induction Hvs as [|[[t a] c] vs Hv Hvs IH]; intros d i s Hc Hp Hu.
  - exists []. split; [|constructor]. by rewrite published_nil.
  - set (old := slot s (ring_slot (req_prod_pvt (fring i)))).
    set (m := mk_message MALPAGE_RING_NXVIOLATION (pfn_gref old) (msg_pfn old)
       (u32 (task_pid t)) (si_domid i) (mmu_ptr old) a (mmu_val old)).
    cbn [faults]. unfold malpage_do_page_fault. rewrite decide_True by apply Hv.
    rewrite (push_request_run _ _ _ _ Hc). cbn [mbind outcome_bind snd]. fold old. fold m.
    set (prod := u32 (req_prod_pvt (fring i) + 1)).
    destruct (IH (reported i s m d) (set_fring (mk_as_front_ring prod (rsp_cons (fring i)) (front_sring (fring i))) i)
      (mk_sring prod (req_event s) (rsp_prod s) (rsp_event s) (<[ring_slot (req_prod_pvt (fring i)) := m]> (ring s))))
      as (ms & E & Hms); [|done|apply u32_range|].
    { destruct Hc as (Hi & Hn & Hs). split_and!; [done|done|]. simpl. apply lookup_insert_eq. }
    exists (m :: ms). split; [by rewrite published_cons|]. constructor; [done|]. exact Hms.
Qed.

(** *** The specification *)

(** The pids among the violations the monitor has on its watch list. *)
Definition watched_pids (m : monitor_state) (dom : Z) (vs : list (task_struct * Z * Z)) : list Z :=
  filter (λ pid, watched m dom pid = true) ((λ v, task_pid v.1.1) <$> vs).

(** The answers to violations, and the pids they report. *)
Lemma verdicts_pids m i vs ms resp :
  Forall2 (request_of i) vs ms → 0 < si_domid i < MONITOR_MAX_VMS → report_in_progress m = 0 →
  Forall (λ v, 0 < task_pid v.1.1 < 2 ^ 31) vs →
  reported_pids (verdicts m ms resp) = watched_pids m (si_domid i) vs.
Proof.
  intros Hms Hd Hr Hpos. revert resp. induction Hms as [|v q vs ms (Hop & Hpid & Hdom) Hms IH]; intros resp; [done|].
  apply Forall_cons_1 in Hpos as [Hv Hpos]. cbn [verdicts]. rewrite reported_pids_cons, IH by done.
  unfold watched_pids. rewrite fmap_cons, filter_cons.
  assert (Hu : u32 (task_pid v.1.1) = task_pid v.1.1) by (apply u32_small; unfold is_u32; lia).
  unfold verdict. rewrite Hop, Hpid, Hdom, Hr, Hu. rewrite bool_decide_true by done. cbn [andb].
  rewrite decide_False by (intros [E _]; done). unfold reported_pids.
  destruct (watched m (si_domid i) (task_pid v.1.1)) eqn:Ew.
  - rewrite !decide_True by done. rewrite filter_cons, decide_True by done. simpl. f_equal.
    apply s32_small. unfold is_s32. lia.
  - rewrite decide_False by (intros (_ & ? & _); done). rewrite decide_False by done.
    rewrite filter_cons, decide_False; [done|]. simpl. done.
Qed.

(** The monitor takes the requests of the domain for what they are. *)
Lemma monitor_event_run w i s mi ms resp0 :
  linked kzalloc_ok p r ip w i s mi → Z.of_nat (length ms) ≤ RING_SIZE →
  let d := published i s ms (w_dom w) in
  let answers := verdicts (w_mon w) ms resp0 in
  let prod := u32 (req_prod_pvt (fring i) + Z.of_nat (length ms)) in
  let s' := mk_sring prod (req_event s) prod (rsp_event s)
              (fill (req_prod_pvt (fring i)) answers (fill (req_prod_pvt (fring i)) ms (ring s))) in
  ∃ m', monitor_event p r ip resp0 (mk_world d (seen_by_monitor p r d (w_mon w))) =
      Ret (mk_world (set_page p s' d) m') ∧
    monitor_dom_list m' = monitor_dom_list (w_mon w) ∧ report_in_progress m' = report_in_progress (w_mon w) ∧
    ∃ mi', monitor_ready m' ip mi' r s' ∧ req_cons (bring mi') = prod.
Proof.
  intros [Hd Hm Hp Hprod Hreq] Hlen d answers prod s'.
  pose proof (ir_connected _ _ _ _ Hd) as (Hi & Hn & Hs).
  set (s1 := mk_sring prod (req_event s) (rsp_prod s) (rsp_event s) (fill (req_prod_pvt (fring i)) ms (ring s))).
  assert (Hpage : pages d !! p = Some s1).
  { unfold d, published. simpl. rewrite Hp. apply lookup_insert_eq. }
  unfold monitor_event, seen_by_monitor. cbn [w_mon w_dom]. rewrite Hpage.
  set (m1 := set_foreign (<[r:=s1]> (foreign (w_mon w))) (w_mon w)).
  assert (Hm1 : monitor_ready m1 ip mi r s1).
  { destruct Hm. split; try done; simpl; [by rewrite lookup_insert_eq|apply u32_range]. }
  pose proof RING_SIZE_pow2 as (k & Hk & Epow).
  assert (Hsize : RING_SIZE < 2 ^ 32) by (rewrite Epow; apply Z.pow_lt_mono_r; lia).
  assert (Hprod32 : is_u32 (req_cons (bring mi))) by (by destruct Hm).
  unfold monitor_irq_handle. destruct Hm1 as [Hip Hinfo Hb Hmap Hf Hl Hc Hpu Ha Hpub].
  rewrite (load_info_run _ _ _ Hip Hinfo). cbn [mbind outcome_bind].
  rewrite (load_ring_run _ _ _ _ Hb Hmap Hf). cbn [mbind outcome_bind req_prod s1].
  rewrite (irq_requests_run (length ms) _ m1 ip mi r s1 prod resp0); [|by split|done|lia|by unfold prod; rewrite Hprod| ].
  2:{ unfold prod. rewrite Hprod. clear -Hprod32 Hlen Hsize. zwrap. }
  assert (Hreqs : (λ k0, slot s1 (ring_slot (req_cons (bring mi) + k0))) <$> seqZ 0 (Z.of_nat (length ms)) = ms).
  { apply list_eq_same_length with (length ms); [done| |].
    { rewrite length_fmap, length_seqZ. lia. }
    intros j x y Hj. rewrite list_lookup_fmap, lookup_seqZ_lt by lia. simpl. intros [= <-] Hy.
    unfold slot, s1. simpl. rewrite <-Hprod. by rewrite (fill_slot _ ms _ j y). }
  rewrite Hreqs. cbn [mbind outcome_bind].
  rewrite (verdicts_after_one (w_mon w)) by done. fold answers. unfold served.
  eexists. split; [|split; [|split]].
  - unfold seen_by_domain. cbn [foreign set_foreign mlog]. simpl. rewrite lookup_insert_eq, <-Hprod. reflexivity.
  - done.
  - done.
  - exists (set_bring (mk_as_back_ring prod prod (back_sring (bring mi))) mi).
    split; [split; simpl; try done|done]; rewrite ?lookup_insert_eq; try done; try apply u32_range.
Qed.

(** What the event handler leaves of page and indices. *)
Lemma irq_result_ready skip st i s :
  irq_ready kzalloc_ok st i s →
  ∃ rc ev, let i' := set_fring (mk_as_front_ring (req_prod_pvt (fring i)) rc (front_sring (fring i))) i in
    let s' := mk_sring (req_prod s) (req_event s) (rsp_prod s) ev (ring s) in
    irq_ready kzalloc_ok (irq_result skip i s st) i' s'.
Proof.
  intros Hr. pose proof Hr as [(Hi & Hp & Hs) Hl Ha Hinit Ht Hrc Hrp]. unfold irq_result.
  set (ms := responses s _ _). destruct (decide _).
  - exists (rsp_prod s), (u32 (rsp_prod s + 1)). split; try done. split_and!; [done|done|]. apply lookup_insert_eq.
  - exists (rsp_cons (fring i)), (rsp_event s). simpl.
    replace (mk_sring _ _ _ _ _) with s by (by destruct s).
    replace (set_fring _ i) with i by (by destruct i as [? ? ? ? ? ? []]). by apply irq_ready_after.
Qed.

Lemma seqZ_app0 a b : 0 ≤ a → 0 ≤ b → seqZ 0 (a + b) = seqZ 0 a ++ ((λ k, a + k) <$> seqZ 0 b).
Proof. intros Ha Hb. rewrite seqZ_app by done. f_equal. by rewrite fmap_add_seqZ, Z.add_0_r. Qed.

(** The responses up to the new index: older ones, then the answers. *)
Lemma responses_answers s' rc rp answers g :
  Z.of_nat (length answers) ≤ RING_SIZE → is_u32 rc → is_u32 rp →
  u32 (rp - rc) + Z.of_nat (length answers) < 2 ^ 32 →
  ring s' = fill rp answers g →
  responses s' rc (u32 (rp + Z.of_nat (length answers))) =
    ((λ k, slot s' (ring_slot (rc + k))) <$> seqZ 0 (u32 (rp - rc))) ++ answers.
Proof.
  intros Hl Hrc Hrp Hn Hring. unfold responses. set (n := Z.of_nat (length answers)) in *.
  assert (E : u32 (u32 (rp + n) - rc) = u32 (rp - rc) + n) by (unfold n in *; clear -Hrc Hrp Hn; zwrap).
  pose proof (u32_range (rp - rc)) as Hd. destruct Hd as [Hd _].
  rewrite E, seqZ_app0, fmap_app by (unfold n; lia). f_equal. rewrite <-list_fmap_compose.
  apply list_eq_same_length with (length answers); [done| |].
  { rewrite length_fmap, length_seqZ. unfold n. lia. }
  intros j x y Hj. rewrite list_lookup_fmap, lookup_seqZ_lt by (unfold n; lia). simpl. intros [= <-] Hy.
  unfold slot. rewrite Hring, Z.add_0_l, <-(ring_slot_u32 (rc + _)).
  replace (u32 (rc + (u32 (rp - rc) + Z.of_nat j))) with (u32 (rp + Z.of_nat j)).
  2:{ clear. zwrap. }
  by rewrite ring_slot_u32, (fill_slot _ answers _ j y).
Qed.

(** The older responses are still there when everything fits. *)
Lemma responses_kept s s' rc rp answers ms :
  Z.of_nat (length answers) = Z.of_nat (length ms) → is_u32 rc → is_u32 rp →
  u32 (rp - rc) + Z.of_nat (length answers) ≤ RING_SIZE →
  ring s' = fill rp answers (fill rp ms (ring s)) →
  (λ k, slot s' (ring_slot (rc + k))) <$> seqZ 0 (u32 (rp - rc)) = responses s rc rp.
Proof.
  intros Hlen Hrc Hrp Hfit Hring. unfold responses. apply list_fmap_ext. intros j k Hk.
  apply lookup_seqZ in Hk as [-> Hk]. rewrite Z.add_0_l. unfold slot. rewrite Hring. f_equal.
  pose proof (u32_range (rp - rc)) as [Hd _].
  assert (Hne : ∀ k0, (k0 < length answers)%nat → ring_slot (rp + Z.of_nat k0) ≠ ring_slot (rc + Z.of_nat j)).
  { intros k0 Hk0. rewrite <-(ring_slot_u32 (rp + _)).
    replace (u32 (rp + Z.of_nat k0)) with (u32 (rc + Z.of_nat j + (u32 (rp - rc) - Z.of_nat j + Z.of_nat k0))).
    2:{ clear. zwrap. }
    rewrite ring_slot_u32. apply ring_slot_ne. lia. }
  rewrite fill_lookup by (done || lia). apply fill_lookup; [lia|]. intros k0 Hk0. apply Hne. lia.
Qed.

(** *** From faults to the queue *)

(** What the hypotheses on a batch of violations have in common. *)
Record batch_ok (w : world) (i : malpage_share_info_t) (s : sring) (vs : list (task_struct * Z * Z)) : Prop := mk_batch_ok {
  bo_violations : Forall is_violation vs;
  bo_pids : Forall (λ v, 0 < task_pid v.1.1 < 2 ^ 31) vs;
  bo_room : Z.of_nat (length vs) ≤ RING_SIZE;
  bo_index : u32 (rsp_prod s - rsp_cons (fring i)) + Z.of_nat (length vs) < 2 ^ 32;
  bo_domid : 0 < si_domid i < MONITOR_MAX_VMS;
  bo_idle : report_in_progress (w_mon w) = 0
}.

Lemma batch_run w i s mi vs fuel skip resp0 :
  linked kzalloc_ok p r ip w i s mi → batch_ok w i s vs →
  ∃ w1 w2 w3 stale,
    dom_faults p r vs w = Ret w1 ∧ monitor_event p r ip resp0 w1 = Ret w2 ∧
    domain_event kzalloc_ok p r (S fuel) skip w2 = Ret w3 ∧
    report_queue (w_dom w3) = report_queue (w_dom w) ++ stale ++ watched_pids (w_mon w) (si_domid i) vs ∧
    thread_report_sem (w_dom w3) = thread_report_sem (w_dom w) + Z.of_nat (length (stale ++ watched_pids (w_mon w) (si_domid i) vs)) ∧
    (u32 (rsp_prod s - rsp_cons (fring i)) + Z.of_nat (length vs) ≤ RING_SIZE →
      stale = reported_pids (responses s (rsp_cons (fring i)) (rsp_prod s))) ∧
    tasks (w_dom w3) = tasks (w_dom w) ∧ monitor_dom_list (w_mon w3) = monitor_dom_list (w_mon w) ∧
    report_in_progress (w_mon w3) = report_in_progress (w_mon w) ∧
    ∃ i' s' mi', linked kzalloc_ok p r ip w3 i' s' mi' ∧ si_domid i' = si_domid i.
Proof.
  intros Hw [Hvs Hpos Hlen Hidx Hdom Hidle]. pose proof Hw as [Hd Hm Hp Hprod Hreq].
  pose proof Hd as [(Hi & Hn & Hs) Hl Ha Hinit Ht Hrc Hrp].
  pose proof Hm as [_ _ _ _ _ _ Hc _ _ Hpub].
  destruct (faults_run vs (w_dom w) i s Hvs) as (ms & E & Hms); [done|congruence|by rewrite Hreq|].
  pose proof (Forall2_length _ _ _ Hms) as Hlms. rewrite Hlms in Hlen.
  destruct (monitor_event_run w i s mi ms resp0 Hw Hlen) as (m' & E2 & Hdl & Hrip & mi' & Hmr & Hrcons).
  set (d := published i s ms (w_dom w)) in *. set (answers := verdicts (w_mon w) ms resp0) in *.
  set (prod := u32 (req_prod_pvt (fring i) + Z.of_nat (length ms))) in *.
  set (s2 := mk_sring prod _ prod _ _) in *.
  set (i1 := set_fring (mk_as_front_ring prod (rsp_cons (fring i)) (front_sring (fring i))) i).
  assert (Hr2 : irq_ready kzalloc_ok (set_page p s2 d) i1 s2).
  { split; try done; [|apply u32_range]. split_and!; [done|done|]. simpl. rewrite Hp. apply lookup_insert_eq. }
  destruct (irq_result_ready skip _ _ _ Hr2) as (rc & ev & Hr3).
  destruct (irq_result_effects skip i1 s2 (set_page p s2 d)) as (Hq & Hsem & _ & _ & Htk).
  assert (Hla : length answers = length ms) by apply verdicts_length.
  assert (Hresp : responses s2 (rsp_cons (fring i1)) (rsp_prod s2) =
    ((λ k, slot s2 (ring_slot (rsp_cons (fring i) + k))) <$>
       seqZ 0 (u32 (req_prod_pvt (fring i) - rsp_cons (fring i)))) ++ answers).
  { change (rsp_cons (fring i1)) with (rsp_cons (fring i)). change (rsp_prod s2) with prod.
    unfold prod. rewrite <-Hla. eapply responses_answers; [by rewrite Hla|done|by rewrite Hprod| |done].
    rewrite Hprod, <-Hpub, Hla, <-Hlms. done. }
  rewrite Hresp in Hq, Hsem. set (old := _ <$> seqZ 0 _) in *.
  assert (Hpids : reported_pids (old ++ answers) = reported_pids old ++ watched_pids (w_mon w) (si_domid i) vs).
  { rewrite <-(verdicts_pids (w_mon w) i vs ms resp0) by done. fold answers.
    unfold reported_pids. by rewrite filter_app, fmap_app. }
  rewrite Hpids in Hq, Hsem.
  eexists _, _, _, (reported_pids old). split_and!.
  - unfold dom_faults. rewrite E. reflexivity.
  - exact E2.
  - unfold domain_event. cbn [w_dom]. rewrite (irq_handle_run _ _ _ _ _ _ Hr2). reflexivity.
  - exact Hq.
  - exact Hsem.
  - intros Hfit. unfold old. rewrite Hprod, <-Hpub.
    rewrite (responses_kept s s2 _ _ answers ms); [done|by rewrite Hla|done|done| |].
    + rewrite Hla, <-Hlms. done.
    + rewrite Hpub, <-Hprod. done.
  - exact Htk.
  - unfold seen_by_monitor. cbn [w_mon]. by case_match.
  - unfold seen_by_monitor. cbn [w_mon]. by case_match.
  - set (i' := set_fring _ _) in Hr3. set (s3 := mk_sring _ _ _ _ _) in Hr3.
    exists i', s3, mi'. split; [|done]. split; [done| |done|by rewrite Hrcons|by rewrite Hrcons].
    pose proof (ir_connected _ _ _ _ Hr3) as (_ & _ & Hs3).
    change (front_sring (fring i')) with (front_sring (fring i)) in Hs3. rewrite Hp in Hs3.
    unfold seen_by_monitor. cbn [w_mon w_dom]. rewrite Hs3.
    destruct Hmr as [? ? ? ? ? ? ? ? ? Hpub']. split; try done; [by simpl; rewrite lookup_insert_eq].
Qed.

(** *** More than the ring holds *)

(** The handler after [n] requests, others being left *)
Lemma irq_requests_steps (n fuel : nat) st ip' i r' s rp resp :
  monitor_ready st ip' i r' s → Z.of_nat n ≤ RING_SIZE → is_u32 rp → Z.of_nat n ≤ u32 (rp - req_cons (bring i)) →
  let reqs := (λ k, slot s (ring_slot (req_cons (bring i) + k))) <$> seqZ 0 (Z.of_nat n) in
  let answers := verdicts st reqs resp in
  let rc := u32 (req_cons (bring i) + Z.of_nat n) in
  monitor_irq_loop (n + fuel) ip' (req_cons (bring i)) rp resp st =
    monitor_irq_loop fuel ip' rc rp (default resp (last answers)) (served ip' i r' s rc answers st).
Proof.
  revert st i s resp. induction n as [|n IH]; intros st i s resp Hr Hn Hrp Hle reqs answers rc.
  - assert (rc = req_cons (bring i)) as -> by (unfold rc; rewrite Z.add_0_r; apply u32_small; by destruct Hr).
    unfold answers, reqs. simpl. by rewrite served_nil.
  - pose proof (mo_cons _ _ _ _ _ Hr) as Hc. cbn [Nat.add].
    rewrite (irq_step_run _ _ _ _ _ _ _ _ Hr) by (intros E; rewrite E, Z.sub_diag in Hle; unfold u32 in Hle; rewrite Z.mod_0_l in Hle; lia).
    set (a := verdict st _ resp).
    change (u32 (req_cons (bring i) + 1)) with (req_cons (bring (info_after i))).
    rewrite (IH _ (info_after i) (page_after i s a) a (ready_after_one _ _ _ _ _ a Hr)); [|lia|done|].
    2:{ simpl. clear -Hle Hrp Hc. zwrap. }
    assert (Erc : u32 (req_cons (bring (info_after i)) + Z.of_nat n) = rc).
    { unfold rc. simpl. rewrite u32_add_l. f_equal. lia. }
    rewrite Erc. rewrite (verdicts_after_one st) by done.
    assert (Er : ((λ k, slot (page_after i s a) (ring_slot (req_cons (bring (info_after i)) + k))) <$> seqZ 0 (Z.of_nat n)) =
      ((λ k, slot s (ring_slot (u32 (req_cons (bring i) + 1) + k))) <$> seqZ 0 (Z.of_nat n))).
    { apply list_fmap_ext. intros k x Hk. apply lookup_seqZ in Hk as [-> Hk]. unfold slot, page_after. simpl.
      rewrite lookup_insert_ne; [done|].
      rewrite <-(ring_slot_u32 (u32 _ + _)), u32_add_l, ring_slot_u32.
      replace (req_cons (bring i) + 1 + (0 + Z.of_nat k)) with (req_cons (bring i) + (1 + Z.of_nat k)) by lia.
      apply not_eq_sym, ring_slot_ne. lia. }
    rewrite Er. unfold answers, reqs. rewrite batch_cons. cbn [verdicts]. fold a. rewrite served_cons, last_cons.
    by destruct (last _).
Qed.

Lemma served_ready st ip' i r' s rp ms :
  monitor_ready st ip' i r' s → is_u32 rp →
  monitor_ready (served ip' i r' s rp ms st) ip' (set_bring (mk_as_back_ring rp rp (back_sring (bring i))) i) r'
    (mk_sring (req_prod s) (req_event s) rp (rsp_event s) (fill (req_cons (bring i)) ms (ring s))).
Proof. intros [] Hrp. split; simpl; try done; by rewrite lookup_insert_eq. Qed.

(** An answer that is taken for a request is answered with nothing. *)
Lemma verdict_of_verdict st st' q q' resp :
  operation (verdict st (verdict st' q q') resp) = MONITOR_RING_NONOP.
Proof.
  assert (Hop : operation (verdict st' q q') ∈ [MONITOR_RING_NX; MONITOR_RING_REPORT; MONITOR_RING_NONOP]).
  { unfold verdict. repeat case_decide; cbn; set_solver. }
  unfold verdict at 1. rewrite decide_False, decide_False; [done|..]; intros [E _]; rewrite E in Hop; set_solver.
Qed.

Lemma verdicts_of_verdicts st st' reqs q resp n :
  Forall (λ a, operation a = MONITOR_RING_NONOP) (verdicts st (take n (verdicts st' reqs q)) resp).
Proof.
  revert q resp n. induction reqs as [|m reqs IH]; intros q resp [|n]; cbn; try constructor.
  - apply verdict_of_verdict.
  - apply IH.
Qed.

Lemma verdicts_drop st reqs resp n : ∃ resp', drop n (verdicts st reqs resp) = verdicts st (drop n reqs) resp'.
Proof.
  revert resp n. induction reqs as [|m reqs IH]; intros resp [|n]; cbn; try by eexists. apply IH.
Qed.

Lemma no_reports ms : Forall (λ a, operation a = MONITOR_RING_NONOP) ms → reported_pids ms = [].
Proof.
  induction 1 as [|m ms Hm _ IH]; [done|]. unfold reported_pids in *. rewrite filter_cons, decide_False; [done|]. by rewrite Hm.
Qed.

Lemma fill_app rc ms1 ms2 g : fill rc (ms1 ++ ms2) g = fill (u32 (rc + Z.of_nat (length ms1))) ms2 (fill rc ms1 g).
Proof.
  revert rc g. induction ms1 as [|m ms1 IH]; intros rc g; cbn [app fill length].
  - destruct ms2; cbn [fill]; [done|]. rewrite Z.add_0_r, u32_add_l, ring_slot_u32. done.
  - rewrite IH, u32_add_l. do 2 f_equal. lia.
Qed.

(** A full ring with [k] messages written over the first: what its slots hold *)
Lemma fill_over rc ms1 ms2 g : Z.of_nat (length ms1) = RING_SIZE → (length ms2 ≤ length ms1)%nat →
  let over := fill (u32 (rc + RING_SIZE)) ms2 (fill rc ms1 g) in
  (λ j, default zero_message (over !! ring_slot (rc + j))) <$> seqZ 0 RING_SIZE = ms2 ++ drop (length ms2) ms1.
Proof.
  intros H1 H2 over. apply list_eq_same_length with (length ms1); [| |].
  { rewrite length_app, length_drop. lia. } { rewrite length_fmap, length_seqZ. lia. }
  intros j x y Hj. rewrite list_lookup_fmap, lookup_seqZ_lt by lia. simpl. intros [= <-] Hy.
  assert (Hwrap : ∀ k, ring_slot (u32 (rc + RING_SIZE) + k) = ring_slot (rc + k)).
  { intros k. rewrite <-(ring_slot_u32 (u32 _ + _)), u32_add_l, ring_slot_u32. apply ring_slot_eq.
    replace (rc + RING_SIZE + k) with (rc + k + 1 * RING_SIZE) by lia. apply Z.mod_add. pose proof RING_SIZE_pos. lia. }
  unfold over. destruct (decide (j < length ms2)%nat) as [Hlt|Hge].
  - rewrite lookup_app_l in Hy by done. rewrite Z.add_0_l, <-Hwrap. by rewrite (fill_slot _ ms2 _ j y) by (done || lia).
  - rewrite lookup_app_r, lookup_drop in Hy by lia. replace (length ms2 + (j - length ms2))%nat with j in Hy by lia.
    rewrite Z.add_0_l, fill_lookup; [by rewrite (fill_slot _ ms1 _ j y) by (done || lia)|lia|].
    intros k Hk E. rewrite Hwrap in E. replace (rc + Z.of_nat j) with (rc + Z.of_nat k + (Z.of_nat j - Z.of_nat k)) in E by lia.
    symmetry in E. revert E. apply ring_slot_ne. lia.
Qed.

(** The monitor's event when [k] messages [ms2] were written over the first [k]
    of a full ring [ms1]: it answers the newer ones first, then those that are
    left, then its own first answers. *)
Lemma monitor_overrun_run w i s mi ms1 ms2 resp0 :
  linked kzalloc_ok p r ip w i s mi → Z.of_nat (length ms1) = RING_SIZE → (length ms2 ≤ length ms1)%nat →
  RING_SIZE + Z.of_nat (length ms2) < 2 ^ 32 →
  let d := published i s (ms1 ++ ms2) (w_dom w) in
  let rc := req_prod_pvt (fring i) in
  let prod := u32 (rc + Z.of_nat (length (ms1 ++ ms2))) in
  let answers := verdicts (w_mon w) (ms2 ++ drop (length ms2) ms1) resp0 in
  ∃ m' again g, let s' := mk_sring prod (req_event s) prod (rsp_event s) (fill (u32 (rc + RING_SIZE)) again (fill rc answers g)) in
    monitor_event p r ip resp0 (mk_world d (seen_by_monitor p r d (w_mon w))) = Ret (mk_world (set_page p s' d) m') ∧
    length again = length ms2 ∧ Forall (λ a, operation a = MONITOR_RING_NONOP) again ∧
    ∃ mi', monitor_ready m' ip mi' r s' ∧ req_cons (bring mi') = prod.
Proof.
  intros [Hd Hm Hp Hprod Hreq] H1 H2 H32 d rc prod answers.
  assert (Hlen : Z.of_nat (length (ms1 ++ ms2)) = RING_SIZE + Z.of_nat (length ms2)) by (rewrite length_app; lia).
  set (s1 := mk_sring prod (req_event s) (rsp_prod s) (rsp_event s) (fill rc (ms1 ++ ms2) (ring s))).
  assert (Hpage : pages d !! p = Some s1) by (unfold d, published; simpl; rewrite Hp; apply lookup_insert_eq).
  unfold monitor_event, seen_by_monitor. cbn [w_mon w_dom]. rewrite Hpage.
  set (m1 := set_foreign (<[r:=s1]> (foreign (w_mon w))) (w_mon w)).
  assert (Hm1 : monitor_ready m1 ip mi r s1).
  { destruct Hm. split; try done; simpl; [by rewrite lookup_insert_eq|apply u32_range]. }
  assert (Hrc : is_u32 (req_cons (bring mi))) by (by destruct Hm).
  pose proof RING_SIZE_pos as Hpos. set (R := Z.to_nat RING_SIZE). assert (HR : Z.of_nat R = RING_SIZE) by (unfold R; lia).
  pose proof Hm1 as [Hip Hinfo Hb Hmap Hf _ _ _ _ _]. unfold monitor_irq_handle.
  rewrite (load_info_run _ _ _ Hip Hinfo). cbn [mbind outcome_bind].
  rewrite (load_ring_run _ _ _ _ Hb Hmap Hf). cbn [mbind outcome_bind req_prod s1].
  assert (Hfuel : Z.to_nat (u32 (prod - req_cons (bring mi))) = (R + (length ms2 + 0))%nat).
  { unfold prod, rc. rewrite Hprod, Hlen. clear -Hrc H32 HR Hpos. zwrap. }
  rewrite Hfuel, (irq_requests_steps R _ m1 ip mi r s1 prod resp0 Hm1); [|lia|apply u32_range|].
  2:{ unfold prod, rc. rewrite Hprod, Hlen. clear -Hrc H32 HR Hpos. zwrap. }
  assert (Hreqs : (λ k, slot s1 (ring_slot (req_cons (bring mi) + k))) <$> seqZ 0 (Z.of_nat R) = ms2 ++ drop (length ms2) ms1).
  { rewrite HR, <-Hprod. unfold slot, s1. cbn [ring]. rewrite fill_app, H1. by apply fill_over. }
  rewrite Hreqs, (verdicts_after_one (w_mon w)) by done. fold answers. set (mid := u32 (req_cons (bring mi) + Z.of_nat R)).
  set (resp1 := default resp0 (last answers)).
  pose proof (served_ready m1 ip mi r s1 mid answers Hm1 (u32_range _)) as Hm2.
  set (m2 := served _ _ _ _ _ _ _) in *. set (mi2 := set_bring _ mi) in *. set (s2 := mk_sring _ _ _ _ _) in Hm2.
  change mid with (req_cons (bring mi2)).
  rewrite (irq_requests_steps (length ms2) 0 m2 ip mi2 r s2 prod resp1 Hm2); [|lia|apply u32_range|].
  2:{ simpl. unfold mid, prod, rc. rewrite Hprod, Hlen. clear -Hrc H32 HR Hpos. zwrap. }
  assert (Erp : u32 (req_cons (bring mi2) + Z.of_nat (length ms2)) = prod).
  { simpl. unfold mid, prod, rc. rewrite Hprod, Hlen, u32_add_l. f_equal. lia. }
  rewrite Erp. cbn [monitor_irq_loop]. rewrite decide_True by done. cbn [mbind outcome_bind].
  assert (Hla : length answers = length ms1) by (unfold answers; rewrite verdicts_length, length_app, length_drop; lia).
  assert (Hreqs2 : (λ k, slot s2 (ring_slot (req_cons (bring mi2) + k))) <$> seqZ 0 (Z.of_nat (length ms2)) = take (length ms2) answers).
  { apply list_eq_same_length with (length ms2); [rewrite length_take; lia|rewrite length_fmap, length_seqZ; lia|].
    intros j x y Hj. rewrite list_lookup_fmap, lookup_seqZ_lt by lia. simpl. intros [= <-] Hy.
    rewrite lookup_take_lt in Hy by done. unfold slot, s2. cbn [ring]. rewrite Z.add_0_l, <-ring_slot_u32.
    replace (u32 (mid + Z.of_nat j)) with (u32 (req_cons (bring mi) + Z.of_nat j + RING_SIZE)).
    2:{ unfold mid. rewrite u32_add_l. f_equal. lia. }
    replace (ring_slot (u32 (req_cons (bring mi) + Z.of_nat j + RING_SIZE))) with (ring_slot (req_cons (bring mi) + Z.of_nat j)).
    2:{ rewrite ring_slot_u32. apply ring_slot_eq. rewrite <-(Z.mul_1_l RING_SIZE) at 2. rewrite Z.mod_add; [done|lia]. }
    by rewrite (fill_slot _ answers _ j y) by (done || lia). }
  rewrite Hreqs2. set (again := verdicts m2 _ _).
  assert (Emid : mid = u32 (rc + RING_SIZE)) by (unfold mid, rc; by rewrite HR, Hprod).
  assert (Es2 : ring s2 = fill rc answers (ring s1)) by (unfold s2, rc; cbn [ring]; by rewrite Hprod).
  pose proof (served_ready m2 ip mi2 r s2 prod again Hm2 (u32_range _)) as Hm3. rewrite Es2 in Hm3.
  change (req_cons (bring mi2)) with mid in Hm3. rewrite Emid in Hm3.
  exists (served ip mi2 r s2 prod again m2), again, (ring s1). split; [|split; [|split]].
  - unfold seen_by_domain. rewrite (mo_page _ _ _ _ _ Hm3). reflexivity.
  - unfold again. rewrite verdicts_length, length_take. lia.
  - apply verdicts_of_verdicts.
  - eexists. split; [exact Hm3|done].
Qed.

(** The responses the domain then sees *)
Lemma overrun_responses s' rp k again answers g :
  ring s' = fill (u32 (rp + RING_SIZE)) again (fill rp answers g) → is_u32 rp →
  Z.of_nat (length answers) = RING_SIZE → length again = k → Z.of_nat k ≤ RING_SIZE → RING_SIZE + Z.of_nat k < 2 ^ 32 →
  responses s' rp (u32 (rp + (RING_SIZE + Z.of_nat k))) = again ++ drop k answers ++ again.
Proof.
  intros Hring Hrp Ha Hk Hle H32. pose proof RING_SIZE_pos as Hpos. unfold responses.
  replace (u32 (u32 (rp + (RING_SIZE + Z.of_nat k)) - rp)) with (RING_SIZE + Z.of_nat k) by (clear -Hrp H32 Hpos; zwrap).
  pose proof (fill_over rp answers again g Ha ltac:(lia)) as E. cbv zeta in E. rewrite <-Hring in E. rewrite Hk in E.
  rewrite seqZ_app0, fmap_app by lia. unfold slot. rewrite E, <-app_assoc. do 2 f_equal.
  rewrite <-list_fmap_compose. replace RING_SIZE with (Z.of_nat k + (RING_SIZE - Z.of_nat k)) in E by lia.
  rewrite seqZ_app0, fmap_app in E by lia. apply app_inj_1 in E as [E _]; [|rewrite length_fmap, length_seqZ; lia].
  rewrite <-E. apply list_fmap_ext. intros _ j _. cbn. do 2 f_equal. apply ring_slot_eq.
  replace (rp + (RING_SIZE + j)) with (rp + j + 1 * RING_SIZE) by lia. apply Z.mod_add. lia.
Qed.

(** Both sides with the indices the page has are linked. *)
Lemma relinked d m' i' s' s0 mi' :
  irq_ready kzalloc_ok d i' s' → monitor_ready m' ip mi' r s0 → front_sring (fring i') = p →
  req_prod_pvt (fring i') = req_cons (bring mi') → req_prod s' = req_cons (bring mi') → rsp_prod s' = req_cons (bring mi') →
  linked kzalloc_ok p r ip (mk_world d (seen_by_monitor p r d m')) i' s' mi'.
Proof.
  intros Hd Hm Hp Hprod Hreq Hrsp. split; [done| |done|done|done].
  pose proof (ir_connected _ _ _ _ Hd) as (_ & _ & Hs). rewrite Hp in Hs.
  unfold seen_by_monitor. cbn [w_mon w_dom]. rewrite Hs. destruct Hm.
  split; try done; [by simpl; rewrite lookup_insert_eq|by rewrite Hreq].
Qed.

(** ** Properties *)

(** C1: the way of a violation through both drivers.  Whatever number of
    violations the ring has room for a linked pair of drivers takes: every
    handler returns, the monitor answers all of them, and the domain then
    queues, behind what was queued, the pids of those violators that are on
    the watch list, in the order of the violations, each waking the report
    thread once; the pair is linked again.  In front of them are queued once
    more the pids of the responses the domain had not acknowledged. *)
Theorem violations_reported w i s mi vs fuel skip resp0 :
  linked kzalloc_ok p r ip w i s mi → batch_ok w i s vs →
  u32 (rsp_prod s - rsp_cons (fring i)) + Z.of_nat (length vs) ≤ RING_SIZE →
  ∃ w1 w2 w3,
    dom_faults p r vs w = Ret w1 ∧ monitor_event p r ip resp0 w1 = Ret w2 ∧
    domain_event kzalloc_ok p r (S fuel) skip w2 = Ret w3 ∧
    let new := reported_pids (responses s (rsp_cons (fring i)) (rsp_prod s)) ++
                 watched_pids (w_mon w) (si_domid i) vs in
    report_queue (w_dom w3) = report_queue (w_dom w) ++ new ∧
    thread_report_sem (w_dom w3) = thread_report_sem (w_dom w) + Z.of_nat (length new) ∧
    ∃ i' s' mi', linked kzalloc_ok p r ip w3 i' s' mi'.
Proof.
  intros Hw Hb Hfit.
  destruct (batch_run w i s mi vs fuel skip resp0 Hw Hb) as
    (w1 & w2 & w3 & stale & E1 & E2 & E3 & Hq & Hsem & Hst & _ & _ & _ & i' & s' & mi' & Hl & _).
  exists w1, w2, w3. rewrite <-Hst by done. do 3 (split; [done|]). intros new.
  do 2 (split; [done|]). by exists i', s', mi'.
Qed.

(** C31: nothing counts the requests in flight, and a slot holds a request or a
    response.  When [k] violations more than the ring has slots happen before
    the monitor runs, the handlers still return and the drivers stay linked,
    but neither the oldest [k] violations nor the newest [k] can be reported:
    the requests of the former are overwritten by the latter's, and the answers
    to those by the monitor's answers to its own answers.  The watched ones
    among the others are queued, in order; with [k] a ring full, none is. *)
Theorem ring_overrun_loses w i s mi vs k fuel skip resp0 :
  linked kzalloc_ok p r ip w i s mi → rsp_cons (fring i) = rsp_prod s →
  Forall is_violation vs → Forall (λ v, 0 < task_pid v.1.1 < 2 ^ 31) vs →
  0 < si_domid i < MONITOR_MAX_VMS → report_in_progress (w_mon w) = 0 →
  Z.of_nat (length vs) = RING_SIZE + Z.of_nat k → Z.of_nat k ≤ RING_SIZE → RING_SIZE + Z.of_nat k < 2 ^ 32 →
  ∃ w1 w2 w3,
    dom_faults p r vs w = Ret w1 ∧ monitor_event p r ip resp0 w1 = Ret w2 ∧
    domain_event kzalloc_ok p r (S fuel) skip w2 = Ret w3 ∧
    let new := watched_pids (w_mon w) (si_domid i) (drop k (take (length vs - k) vs)) in
    report_queue (w_dom w3) = report_queue (w_dom w) ++ new ∧
    thread_report_sem (w_dom w3) = thread_report_sem (w_dom w) + Z.of_nat (length new) ∧
    ∃ i' s' mi', linked kzalloc_ok p r ip w3 i' s' mi'.
Proof.
  intros Hw Hack Hvs Hpos Hdom Hidle Hlen Hk H32. pose proof Hw as [Hd Hm Hp Hprod Hreq].
  pose proof Hd as [(Hi & Hn & Hs) Hl Ha Hinit Ht Hrc Hrp]. pose proof Hm as [_ _ _ _ _ _ Hc _ _ Hpub].
  destruct (faults_run vs (w_dom w) i s Hvs) as (ms & E & Hms); [done|congruence|by rewrite Hreq|].
  pose proof (Forall2_length _ _ _ Hms) as Hlms. pose proof RING_SIZE_pos as Hsize. set (R := (length vs - k)%nat).
  assert (HR : Z.of_nat R = RING_SIZE) by (unfold R; lia).
  set (ms1 := take R ms). set (ms2 := drop R ms). assert (Ems : ms = ms1 ++ ms2) by (unfold ms1, ms2; by rewrite take_drop).
  assert (L1 : length ms1 = R) by (unfold ms1; rewrite length_take; lia).
  assert (L2 : length ms2 = k) by (unfold ms2; rewrite length_drop; lia). rewrite Ems in E.
  destruct (monitor_overrun_run w i s mi ms1 ms2 resp0 Hw) as (m' & again & g & E2 & La & Hnone & mi' & Hmr & Hrcons); [lia..|].
  set (d := published i s (ms1 ++ ms2) (w_dom w)) in *. rewrite L2 in *.
  set (answers := verdicts (w_mon w) (ms2 ++ drop k ms1) resp0) in *.
  set (prod := u32 (req_prod_pvt (fring i) + Z.of_nat (length (ms1 ++ ms2)))) in *.
  set (s2 := mk_sring prod _ prod _ _) in *.
  set (i1 := set_fring (mk_as_front_ring prod (rsp_cons (fring i)) (front_sring (fring i))) i).
  assert (Hr2 : irq_ready kzalloc_ok (set_page p s2 d) i1 s2).
  { split; try done; [|apply u32_range]. split_and!; [done|done|]. simpl. rewrite Hp. apply lookup_insert_eq. }
  destruct (irq_result_ready skip _ _ _ Hr2) as (rc & ev & Hr3).
  destruct (irq_result_effects skip i1 s2 (set_page p s2 d)) as (Hq & Hsem & _ & _ & _).
  assert (Hresp : responses s2 (rsp_cons (fring i1)) (rsp_prod s2) = again ++ drop k answers ++ again).
  { change (rsp_cons (fring i1)) with (rsp_cons (fring i)). change (rsp_prod s2) with prod. unfold prod.
    rewrite length_app, L1, L2, Nat2Z.inj_add, HR. rewrite Hack, Hpub, <-Hprod. apply (overrun_responses _ _ _ _ _ g); try done.
    - by rewrite Hprod.
    - unfold answers. rewrite verdicts_length, length_app, length_drop. lia. }
  rewrite Hresp in Hq, Hsem.
  assert (Hpids : reported_pids (again ++ drop k answers ++ again) =
    watched_pids (w_mon w) (si_domid i) (drop k (take (length vs - k) vs))).
  { unfold reported_pids. rewrite !filter_app, !fmap_app. fold (reported_pids again). fold (reported_pids (drop k answers)).
    rewrite (no_reports again Hnone), app_nil_r. cbn [app].
    destruct (verdicts_drop (w_mon w) (ms2 ++ drop k ms1) resp0 k) as (resp' & Ed). unfold answers. rewrite Ed.
    rewrite drop_app_length' by done. fold R. apply (verdicts_pids (w_mon w) i); [|done|done|].
    - unfold ms1. by apply Forall2_drop, Forall2_take.
    - by apply Forall_drop, Forall_take. }
  rewrite Hpids in Hq, Hsem. eexists _, _, _. split; [|split; [|split; [|cbv zeta; split; [|split]]]].
  - unfold dom_faults. rewrite E. reflexivity.
  - exact E2.
  - unfold domain_event. cbn [w_dom]. rewrite (irq_handle_run _ _ _ _ _ _ Hr2). reflexivity.
  - exact Hq.
  - exact Hsem.
  - do 3 eexists. eapply relinked; [exact Hr3|exact Hmr|..]; simpl; rewrite ?Hrcons; done.
Qed.

End system_lemmas.

(** *** To the report *)

Section reporting.
  Context `{PT : PageTable} `{AL : Allocator} `{RL : RingLaws} `{AS : AddrSpace}.
  Context (kzalloc : gmap Z pfn_ll_node → Z) (gnttab : list event → Z → Z → Z → Z).
  Hypothesis kzalloc_fresh : ∀ h, kzalloc h ≠ NULL ∧ h !! kzalloc h = None.

(** C10: a violation is followed by a report.  When a process on the watch list
    violates the protection, the drivers are linked with nothing outstanding
    and the report thread sleeps on an empty queue, then the two events and
    one turn of the thread stop the process, grant its frames, publish them in
    XenStore and let it go on; queue and semaphore are empty again. *)
Theorem violation_leads_to_report p r ip w i s mi v m fuel tail0 h n skip resp0 :
  linked (λ _, true) p r ip w i s mi → batch_ok w i s [v] →
  rsp_cons (fring i) = rsp_prod s → report_queue (w_dom w) = [] → thread_report_sem (w_dom w) = 0 →
  watched (w_mon w) (si_domid i) (task_pid v.1.1) = true →
  let pid := task_pid v.1.1 in
  find_process (tasks (w_dom w)) pid = Some (mk_task_struct pid (Some m)) → mm_ok fuel m →
  let frames := process_frames m in
  let dom := u16 (si_domid i) in
  (∀ evs, report_fits dom (u32 pid) frames (event_gref <$> grant_events gnttab evs frames)) →
  ∃ w1 w2 w3 sys evs, dom_faults p r [v] w = Ret w1 ∧ monitor_event p r ip resp0 w1 = Ret w2 ∧
    domain_event (λ _, true) p r (S n) skip w2 = Ret w3 ∧
    run_thread kzalloc (λ _, true) gnttab fuel NULL tail0 7 (mk_system TSleep h (w_dom w3)) = Ret sys ∧
    pc sys = TSleep ∧ report_queue (driver sys) = [] ∧ thread_report_sem (driver sys) = 0 ∧
    let es := grant_events gnttab evs frames in
    events (driver sys) = events (w_dom w3) ++ [Signal SIGSTOP pid] ++ es ++
      xs_report_events dom (u32 pid) frames (event_gref <$> es) ++ [Signal SIGCONT pid].
Proof.
  intros Hw Hb Hack Hq0 Hs0 Hwatch pid Hf Hm frames dom Hfit. pose proof Hw as [Hd _ _ _ _].
  destruct (batch_run (λ _, true) p r ip w i s mi [v] n skip resp0 Hw Hb) as
    (w1 & w2 & w3 & stale & E1 & E2 & E3 & Hq & Hsem & Hst & Htk & _ & _ & i' & s' & mi' & [Hd' _ _ _ _] & Hdom).
  assert (stale = []) as ->.
  { rewrite Hst, Hack, responses_nil; [done|]. rewrite Hack, Z.sub_diag.
    pose proof (bo_room _ _ _ _ Hb). unfold u32. rewrite Z.mod_0_l; lia. }
  assert (Hpids : watched_pids (w_mon w) (si_domid i) [v] = [pid]).
  { unfold watched_pids. simpl. rewrite filter_cons, decide_True by done. done. }
  rewrite Hpids, Hq0 in Hq. rewrite Hpids, Hs0 in Hsem. simpl in Hq, Hsem.
  pose proof (bo_pids _ _ _ _ Hb) as Hpid. apply Forall_cons_1 in Hpid as [Hpid _]. fold pid in Hpid.
  set (sys := mk_system TSleep h (w_dom w3)).
  assert (Ht : turn_ready sys pid [] i').
  { pose proof (ir_connected _ _ _ _ Hd') as (Hi' & _ & _).
    split; [|done|done|done|by destruct Hd'|by destruct Hd'|unfold is_s32; lia].
    split; simpl; [rewrite Hsem, Hq; done|rewrite Hsem; lia|by destruct Hd'|done]. }
  destruct (report_turn_run kzalloc gnttab kzalloc_fresh fuel tail0 sys pid [] i' m Ht) as (h' & E).
  { simpl. rewrite Htk. exact Hf. }
  { done. }
  { rewrite Hdom. apply Hfit. }
  rewrite Hdom in E. exists w1, w2, w3. eexists _, (events (w_dom w3) ++ [Signal SIGSTOP pid]).
  do 3 (split; [done|]). split; [exact E|]. split; [done|]. split; [done|].
  split; [unfold took, log_all; simpl; rewrite Hsem; done|]. reflexivity.
Qed.

End reporting.

(** ** A concrete pair of drivers *)

Example linked_info : malpage_share_info_t :=
  mk_share_info 12 8 20 41 0 "uuid" (mk_as_front_ring (2 ^ 32 - 1) (2 ^ 32 - 1) 4096).
Example linked_page : sring := mk_sring (2 ^ 32 - 1) 1 (2 ^ 32 - 1) 0 ∅.
Example linked_monitor_info : monitor_share_info_t :=
  mk_monitor_share_info 12 8 20 0 (mk_as_back_ring (2 ^ 32 - 1) (2 ^ 32 - 1) 128).
Example linked_world : world :=
  mk_world
    (mk_malpage_state (Some linked_info) {[4096 := linked_page]} false false [] 0 (mk_task_struct 0 None)
      [mk_task_struct 1 None; mk_task_struct 77 (Some toy_mm)] [])
    (mk_monitor_state {[64 := linked_monitor_info]} {[(12, 8) := linked_page]} {[128 := (12, 8)]} 64
      (Some {[12 := {[77 := 1]}]}) 0 0 None 0 []).
Example violation (pid : Z) : task_struct * Z * Z := (mk_task_struct pid None, 5000, 20).

Lemma linked_world_ok :
  @linked (λ _, true) 4096 (12, 8) 64 linked_world linked_info linked_page linked_monitor_info.
Proof.
  split; try done.
  split; try done. repeat constructor; simpl; lia.
Qed.

Lemma batch_ok_toy (vs : list (task_struct * Z * Z)) :
  vs = [violation 77] ∨ vs = [violation 1; violation 77; violation 77] →
  @batch_ok ring32 linked_world linked_info linked_page vs.
Proof.
  intros [-> | ->]; split; try done; try (repeat constructor; simpl; lia); repeat apply Forall_cons_2;
    try apply Forall_nil_2; by split_and!; vm_compute.
Qed.

Lemma violations_reported_witness :
  ∃ w1 w2 w3, @dom_faults ring32 4096 (12, 8) [violation 1; violation 77; violation 77] linked_world = Ret w1 ∧
    @monitor_event ring32 4096 (12, 8) 64 zero_message w1 = Ret w2 ∧
    @domain_event ring32 (λ _, true) 4096 (12, 8) 1 0 w2 = Ret w3 ∧ report_queue (w_dom w3) = [77; 77].
Proof.
  destruct (@violations_reported ring32 ring32_laws (λ _, true) 4096 (12, 8) 64 linked_world linked_info linked_page
    linked_monitor_info [violation 1; violation 77; violation 77] 0 0 zero_message)
    as (w1 & w2 & w3 & E1 & E2 & E3 & Hq & _).
  - exact linked_world_ok.
  - apply batch_ok_toy. by right.
  - by vm_compute.
  - exists w1, w2, w3. split; [exact E1|]. split; [exact E2|]. split; [exact E3|].
    etransitivity; [exact Hq|]. reflexivity.
Defined.

Example linked_gnttab (hist : list event) (dom frame readonly : Z) : Z := 100 + frame.

Lemma violation_leads_to_report_witness :
  ∃ w1 w2 w3 sys, @dom_faults ring32 4096 (12, 8) [violation 77] linked_world = Ret w1 ∧
    @monitor_event ring32 4096 (12, 8) 64 zero_message w1 = Ret w2 ∧
    @domain_event ring32 (λ _, true) 4096 (12, 8) 1 0 w2 = Ret w3 ∧
    @run_thread toy_page_table slab toy_kzalloc (λ _, true) linked_gnttab 8 NULL 99 7
      (mk_system TSleep ∅ (w_dom w3)) = Ret sys ∧
    events (driver sys) = events (w_dom w3) ++ [Signal SIGSTOP 77] ++
      [GrantAccess 0 7 1 107; GrantAccess 0 9 1 109] ++
      xs_report_events 12 77 [7; 9] [107; 109] ++ [Signal SIGCONT 77].
Proof.
  assert (Hg : ∀ evs, grant_events linked_gnttab evs [7; 9] = [GrantAccess 0 7 1 107; GrantAccess 0 9 1 109])
    by reflexivity.
  destruct (@violation_leads_to_report toy_page_table slab ring32 ring32_laws toy_kzalloc linked_gnttab toy_kzalloc_fresh
    4096 (12, 8) 64 linked_world linked_info linked_page linked_monitor_info (violation 77) toy_mm 8 99 ∅ 0 0 zero_message)
    as (w1 & w2 & w3 & sys & evs & E1 & E2 & E3 & E4 & _ & _ & _ & He).
  - exact linked_world_ok.
  - apply batch_ok_toy. by left.
  - reflexivity.
  - reflexivity.
  - reflexivity.
  - by vm_compute.
  - reflexivity.
  - exact toy_mm_reportable.
  - intros evs. rewrite toy_frames, Hg. apply (@report_fits_slab slab slab_classes);
      [done|by vm_compute|done|..]; repeat apply Forall_cons_2; try apply Forall_nil_2; by vm_compute.
  - rewrite toy_frames, Hg in He. exists w1, w2, w3, sys. do 4 (split; [done|]). exact He.
Defined.

(** Two violations more than the 32 slots: of four by the watched process, the first
    and the last are lost. *)
Lemma overrun_batch : Forall is_violation (violation 77 :: violation 1 :: violation 77 :: replicate 28 (violation 1) ++ [violation 77; violation 77; violation 1]).
Proof. repeat apply Forall_cons_2; try apply Forall_app_2; try apply Forall_replicate; repeat apply Forall_cons_2; try apply Forall_nil_2; by split_and!; vm_compute. Qed.

Lemma ring_overrun_loses_witness :
  let vs := violation 77 :: violation 1 :: violation 77 :: replicate 28 (violation 1) ++ [violation 77; violation 77; violation 1] in
  ∃ w1 w2 w3, @dom_faults ring32 4096 (12, 8) vs linked_world = Ret w1 ∧
    @monitor_event ring32 4096 (12, 8) 64 zero_message w1 = Ret w2 ∧
    @domain_event ring32 (λ _, true) 4096 (12, 8) 1 0 w2 = Ret w3 ∧ report_queue (w_dom w3) = [77; 77].
Proof.
  cbv zeta. set (vs := violation 77 :: _).
  destruct (@ring_overrun_loses ring32 ring32_laws (λ _, true) 4096 (12, 8) 64 linked_world linked_info linked_page
    linked_monitor_info vs 2 0 0 zero_message) as (w1 & w2 & w3 & E1 & E2 & E3 & Hq & _).
  - exact linked_world_ok.
  - done.
  - exact overrun_batch.
  - apply (bool_decide_unpack _). by vm_compute.
  - by vm_compute.
  - done.
  - by vm_compute.
  - by vm_compute.
  - by vm_compute.
  - exists w1, w2, w3. split; [exact E1|]. split; [exact E2|]. split; [exact E3|].
    etransitivity; [exact Hq|]. reflexivity.
Defined.
