(* ===== verification/UclBits.v ===== *)
(** * The bit buffers of the packer's compression library (packers/exepak-1.5/ucl-1.02)

    The three [getbit] macros of src/getbit.h, which the decompressors are
    compiled with one after the other, and the writer of src/ucl_mchw.ch.  Bits
    and whole bytes share one stream: the writer reserves the bytes of the next
    group of bits when the first of them comes and fills them in later, the
    reader fetches a group when it needs its first bit.  What both agree on is
    the class [BitBufferLaws] and the function [layout]. *)

From S2P Require Import Prelude.

(** ** Streams of bits and bytes *)

Inductive item : Type := Bit (b : bool) | Byte (x : Z).

(** A number from its bits, the first one the highest. *)
Definition val_from (a : Z) (bs : list bool) : Z := foldl (λ a b, 2 * a + Z.b2z b) a bs.
Definition val (bs : list bool) : Z := val_from 0 bs.

(** The bits among the items, and the next [n] of them, padded with zeros. *)
Definition bits_of (l : list item) : list bool := omap (λ i, match i with Bit b => Some b | Byte _ => None end) l.
Definition group (n : nat) (bs : list bool) : list bool := take n (bs ++ replicate n false).

(** [p[0] = UCL_BYTE(b >> 0); p[1] = UCL_BYTE(b >> 8); ...] *)
Fixpoint le_bytes (n : nat) (w : Z) : list Z :=
  match n with O => [] | S n' => w mod 256 :: le_bytes n' (Z.shiftr w 8) end.

(** The bytes of a stream, [k] bits left in the current group of [8 * g]: a
    group lies where its first bit is needed. *)
Fixpoint layout (g k : nat) (l : list item) : list Z :=
  match l with
  | [] => []
  | Byte x :: l' => x :: layout g k l'
  | Bit b :: l' =>
      match k with
      | S k' => layout g k' l'
      | O => le_bytes g (val (group (8 * g) (bits_of (Bit b :: l')))) ++ layout g (8 * g - 1) l'
      end
  end.

(** ** Readers *)

(** A bit buffer: [getbit src ilen s] is the bit, [ilen] and buffer afterwards;
    a group has [bb_bytes] bytes. *)
Class BitBuffer : Type := {
  bb_state : Type;
  bb_init : bb_state;
  bb_bytes : nat;
  getbit : list Z → Z → bb_state → outcome (Z * Z * bb_state)
}.

(** [src[i]] *)
Definition src_get (src : list Z) (i : Z) : outcome Z :=
  if decide (0 ≤ i) then of_option OutOfBounds (src !! Z.to_nat i) else Err OutOfBounds.

(** [#define getbit_8(bb, src, ilen)], the first alternative *)
Definition getbit_8 (src : list Z) (ilen bb : Z) : outcome (Z * Z * Z) :=
  '(ilen', bb') ← (if decide (Z.land bb 0x7f ≠ 0) then Ret (ilen, u32 (bb * 2))
                   else x ← src_get src ilen; Ret (u32 (ilen + 1), u32 (u32 (x * 2) + 1)));
  Ret (Z.land (Z.shiftr bb' 8) 1, ilen', bb').

(** [#define getbit_le16(bb, src, ilen)] *)
Definition getbit_le16 (src : list Z) (ilen bb : Z) : outcome (Z * Z * Z) :=
  let bb := u32 (bb * 2) in
  if decide (Z.land bb 0xffff ≠ 0) then Ret (Z.land (Z.shiftr bb 16) 1, ilen, bb)
  else
    let ilen := u32 (ilen + 2) in
    x0 ← src_get src (ilen - 2);
    x1 ← src_get src (ilen - 1);
    let bb := u32 (u32 (u32 (x0 + u32 (x1 * 256)) * 2) + 1) in
    Ret (Z.land (Z.shiftr bb 16) 1, ilen, bb).

(** [#define getbit_le32(bb, bc, src, ilen)]; the state is [bb] and [bc]. *)
Definition getbit_le32 (src : list Z) (ilen : Z) (s : Z * Z) : outcome (Z * Z * (Z * Z)) :=
  let '(bb, bc) := s in
  if decide (0 < bc) then
    let bc := u32 (bc - 1) in
    Ret (Z.land (Z.shiftr bb bc) 1, ilen, (bb, bc))
  else
    let bc := 31 in
    x0 ← src_get src ilen;
    x1 ← src_get src (ilen + 1);
    x2 ← src_get src (ilen + 2);
    x3 ← src_get src (ilen + 3);
    let bb := u32 (x0 + x1 * 0x100 + x2 * 0x10000 + x3 * 0x1000000) in
    Ret (Z.land (Z.shiftr bb 31) 1, u32 (ilen + 4), (bb, bc)).

#[export] Instance buffer_8 : BitBuffer :=
  {| bb_state := Z; bb_init := 0; bb_bytes := 1; getbit := getbit_8 |}.
#[export] Instance buffer_le16 : BitBuffer :=
  {| bb_state := Z; bb_init := 0; bb_bytes := 2; getbit := getbit_le16 |}.
#[export] Instance buffer_le32 : BitBuffer :=
  {| bb_state := Z * Z; bb_init := (0, 0); bb_bytes := 4; getbit := getbit_le32 |}.

(** What a client may rely on: [holds s bs] says that the bits [bs] of the
    current group are still to come; they are delivered one by one, and the
    next group is fetched, least significant byte first, when none is left. *)
Class BitBufferLaws `{BB : BitBuffer} : Type := {
  holds : bb_state → list bool → Prop;
  bb_bytes_pos : (0 < bb_bytes)%nat;
  holds_init : holds bb_init [];
  holds_short : ∀ s bs, holds s bs → (length bs < 8 * bb_bytes)%nat;
  getbit_held : ∀ src ilen s b bs, holds s (b :: bs) →
    ∃ s', getbit src ilen s = Ret (Z.b2z b, ilen, s') ∧ holds s' bs;
  getbit_fetch : ∀ src ilen s b bs,
    holds s [] → 0 ≤ ilen → ilen + Z.of_nat bb_bytes < 2 ^ 32 → length (b :: bs) = (8 * bb_bytes)%nat →
    take bb_bytes (drop (Z.to_nat ilen) src) = le_bytes bb_bytes (val (b :: bs)) →
    ∃ s', getbit src ilen s = Ret (Z.b2z b, ilen + Z.of_nat bb_bytes, s') ∧ holds s' bs
}.

(** ** The writer *)

(** The part of [UCL_COMPRESS_T] the writer keeps: the group under
    construction, how many bits it has, its size, where it goes, and what is
    written so far, [bb_op] being its end. *)
Record bit_writer : Type := mk_bit_writer {
  bb_b : Z;
  bb_k : Z;
  bb_c_s8 : nat;
  bb_p : option nat;
  bb_out : list Z
}.
Definition bb_c_s (c : bit_writer) : Z := 8 * Z.of_nat (bb_c_s8 c).

(** [static int bbConfig(c, endian, bitsize)] with a bit size *)
Definition bbConfig (bitsize : Z) : option bit_writer :=
  if decide (bitsize ≠ 8 ∧ bitsize ≠ 16 ∧ bitsize ≠ 32) then None
  else Some (mk_bit_writer 0 0 (Z.to_nat (bitsize / 8)) None []).

(** [static void bbWriteBits(UCL_COMPRESS_T *c)] *)
Fixpoint store_bytes (p : nat) (bytes out : list Z) : list Z :=
  match bytes with [] => out | x :: bytes' => store_bytes (S p) bytes' (<[p := x]> out) end.
Definition bbWriteBits (c : bit_writer) : outcome bit_writer :=
  p ← of_option NullDeref (bb_p c);
  Ret (mk_bit_writer (bb_b c) (bb_k c) (bb_c_s8 c) (bb_p c)
         (store_bytes p (le_bytes (bb_c_s8 c) (bb_b c)) (bb_out c))).

(** [c->bb_p = c->bb_op; c->bb_op += c->bb_c_s8;]: the bytes skipped are
    written by [bbWriteBits], zero stands for what the buffer held. *)
Definition reserve (c : bit_writer) : bit_writer :=
  mk_bit_writer (bb_b c) (bb_k c) (bb_c_s8 c) (Some (length (bb_out c)))
    (bb_out c ++ replicate (bb_c_s8 c) 0).

(** [static void bbPutBit(UCL_COMPRESS_T *c, unsigned bit)] *)
Definition bbPutBit (bit : bool) (c : bit_writer) : outcome bit_writer :=
  if decide (bb_k c < bb_c_s c) then
    let c := if decide (bb_k c = 0) then reserve c else c in
    Ret (mk_bit_writer (u32 (u32 (Z.shiftl (bb_b c) 1) + Z.b2z bit)) (bb_k c + 1) (bb_c_s8 c) (bb_p c)
           (bb_out c))
  else
    c ← bbWriteBits c;
    let c := reserve c in
    Ret (mk_bit_writer (Z.b2z bit) 1 (bb_c_s8 c) (bb_p c) (bb_out c)).

(** [static void bbPutByte(UCL_COMPRESS_T *c, unsigned b)] *)
Definition bbPutByte (b : Z) (c : bit_writer) : bit_writer :=
  mk_bit_writer (bb_b c) (bb_k c) (bb_c_s8 c) (bb_p c) (bb_out c ++ [b mod 256]).

(** [static void bbFlushBits(UCL_COMPRESS_T *c, unsigned filler_bit)] *)
Fixpoint fill_bits (fuel : nat) (filler : bool) (c : bit_writer) : outcome bit_writer :=
  if decide (bb_k c = bb_c_s c) then Ret c
  else match fuel with
  | O => Err OutOfFuel
  | S n => c ← bbPutBit filler c; fill_bits n filler c
  end.
Definition bbFlushBits (filler : bool) (c : bit_writer) : outcome bit_writer :=
  c ← (if decide (0 < bb_k c) then
         c ← fill_bits (Z.to_nat (bb_c_s c)) filler c;
         c ← bbWriteBits c;
         Ret (mk_bit_writer (bb_b c) 0 (bb_c_s8 c) (bb_p c) (bb_out c))
       else Ret c);
  Ret (mk_bit_writer (bb_b c) (bb_k c) (bb_c_s8 c) None (bb_out c)).

(** Writing the items of a stream one after the other. *)
Fixpoint put_items (l : list item) (c : bit_writer) : outcome bit_writer :=
  match l with
  | [] => Ret c
  | Bit b :: l' => c ← bbPutBit b c; put_items l' c
  | Byte x :: l' => put_items l' (bbPutByte x c)
  end.

(** ** Lemmas on bits *)

Lemma val_from_eq a bs : val_from a bs = a * 2 ^ Z.of_nat (length bs) + val bs.
Proof.
  unfold val, val_from. revert a. induction bs as [|b bs IH]; intros a; cbn [foldl length]; [lia|].
  rewrite (IH (2 * a + Z.b2z b)), (IH (2 * 0 + Z.b2z b)), Nat2Z.inj_succ, Z.pow_succ_r by lia. lia.
Qed.

Lemma val_cons b bs : val (b :: bs) = Z.b2z b * 2 ^ Z.of_nat (length bs) + val bs.
Proof. rewrite <-val_from_eq. unfold val, val_from. cbn [foldl]. by rewrite Z.mul_0_r, Z.add_0_l. Qed.

Lemma val_app bs b : val (bs ++ [b]) = 2 * val bs + Z.b2z b.
Proof. unfold val, val_from. by rewrite foldl_app. Qed.

Lemma val_range bs : 0 ≤ val bs < 2 ^ Z.of_nat (length bs).
Proof.
  induction bs as [|b bs IH]; [done|]. rewrite val_cons, length_cons, Nat2Z.inj_succ, Z.pow_succ_r by lia.
  destruct b; simpl; lia.
Qed.

Lemma group_length n bs : length (group n bs) = n.
Proof. unfold group. rewrite length_take, length_app, length_replicate. lia. Qed.

Lemma le_bytes_length n w : length (le_bytes n w) = n.
Proof. revert w. induction n; intros w; simpl; auto. Qed.

(** Every group of bytes is that of some bits. *)
Lemma bits_of_bytes bytes :
  Forall (λ x, 0 ≤ x < 256) bytes →
  ∃ bs, length bs = (8 * length bytes)%nat ∧ le_bytes (length bytes) (val bs) = bytes.
Proof.
  induction bytes as [|x bytes IH]; intros Hb; [by exists []|].
  apply Forall_cons_1 in Hb as [Hx Hb]. destruct (IH Hb) as (bs & Hl & Hle).
  set (lo := map (λ k, Z.testbit x (7 - Z.of_nat k)) (seq 0 8)).
  assert (Hlo : ∀ y, 0 ≤ y < 256 → val (map (λ k, Z.testbit y (7 - Z.of_nat k)) (seq 0 8)) = y).
  { intros y Hy. assert (Hall : forallb (λ n, val (map (λ k, Z.testbit (Z.of_nat n) (7 - Z.of_nat k)) (seq 0 8))
      =? Z.of_nat n) (seq 0 256) = true) by (by vm_compute).
    rewrite forallb_forall in Hall. specialize (Hall (Z.to_nat y)). rewrite Z2Nat.id in Hall by lia.
    apply Z.eqb_eq, Hall, in_seq. lia. }
  exists (bs ++ lo). split.
  - rewrite length_app. unfold lo. rewrite length_map, length_seq. simpl in *. lia.
  - assert (Hv : val (bs ++ lo) = val bs * 256 + x).
    { rewrite <-(Hlo x Hx). unfold val at 1, val_from. rewrite foldl_app. fold (val_from 0 bs). fold (val bs).
      fold (val_from (val bs) lo). rewrite val_from_eq. done. }
    simpl. rewrite Hv. f_equal.
    + rewrite Z.add_comm, Z.mod_add, Z.mod_small by lia. done.
    + rewrite Z.shiftr_div_pow2 by lia. change (2 ^ 8) with 256.
      rewrite Z.add_comm, Z.div_add, (Z.div_small x) by lia. by rewrite Z.add_0_l.
Qed.

(** ** The readers deliver the bits of a group *)

(** Eight or sixteen bits with a marker behind them. *)
Definition marker (n : Z) (p : list bool) (bb : Z) : Prop :=
  (p = [] → bb mod 2 ^ (n - 1) = 0) ∧
  (p ≠ [] → bb mod 2 ^ n = (2 * val p + 1) * 2 ^ (n - 1 - Z.of_nat (length p))).

Lemma marker_div n b bs x m :
  0 < n → Z.of_nat (length bs) < n →
  x = m * 2 ^ (n + 1) + Z.b2z b * 2 ^ n + (2 * val bs + 1) * 2 ^ (n - 1 - Z.of_nat (length bs)) →
  (x / 2 ^ n) mod 2 = Z.b2z b ∧ x mod 2 ^ n ≠ 0 ∧ marker n bs x.
Proof.
  intros Hn Hk ->. set (k := Z.of_nat (length bs)) in *. pose proof (val_range bs) as Hv. fold k in Hv.
  assert (E : 2 ^ n = 2 ^ k * 2 ^ (n - 1 - k) * 2).
  { rewrite <-(Z.pow_add_r 2 k) by lia. replace n with (Z.succ (k + (n - 1 - k))) at 1 by lia.
    rewrite Z.pow_succ_r by lia. lia. }
  assert (E1 : 2 ^ (n + 1) = 2 * 2 ^ n) by (rewrite Z.pow_add_r by lia; lia).
  assert (Hq : 0 < 2 ^ (n - 1 - k)) by (apply Z.pow_pos_nonneg; lia).
  assert (Hr : 0 < (2 * val bs + 1) * 2 ^ (n - 1 - k) < 2 ^ n) by nia.
  set (r := (2 * val bs + 1) * 2 ^ (n - 1 - k)) in *. rewrite E1.
  replace (m * (2 * 2 ^ n) + Z.b2z b * 2 ^ n + r) with (r + (2 * m + Z.b2z b) * 2 ^ n) by lia.
  rewrite Z.div_add, Z.mod_add, (Z.div_small r), (Z.mod_small r) by lia. split_and!.
  - rewrite Z.add_0_l, Z.add_comm, (Z.mul_comm 2), Z.mod_add by lia. by destruct b.
  - lia.
  - split.
    + intros ->. subst r k. simpl in *. rewrite Z.sub_0_r in *. 
      assert (E2 : 2 ^ n = 2 * 2 ^ (n - 1)) by lia. rewrite E2.
      change (val []) with 0.
      replace ((2 * 0 + 1) * 2 ^ (n - 1) + (2 * m + Z.b2z b) * (2 * 2 ^ (n - 1)))
        with ((1 + 2 * (2 * m + Z.b2z b)) * 2 ^ (n - 1)) by lia. apply Z.mod_mul. lia.
    + intros _. rewrite Z.mod_add, Z.mod_small by lia. done.
Qed.

(** Doubling the buffer delivers the next bit. *)
Lemma marker_next n b bs bb :
  0 < n < 31 → Z.of_nat (length (b :: bs)) < n → marker n (b :: bs) bb →
  (u32 (bb * 2) / 2 ^ n) mod 2 = Z.b2z b ∧ u32 (bb * 2) mod 2 ^ n ≠ 0 ∧ marker n bs (u32 (bb * 2)).
Proof.
  intros Hn Hk [_ Hm]. specialize (Hm ltac:(done)). rewrite length_cons, Nat2Z.inj_succ in *.
  set (k := Z.of_nat (length bs)) in *.
  apply (marker_div n b bs _ (u32 (bb * 2) / 2 ^ (n + 1))); [lia..|].
  assert (E1 : 2 ^ (n + 1) = 2 * 2 ^ n) by (rewrite Z.pow_add_r by lia; lia).
  assert (Hpos : 0 < 2 ^ n) by (apply Z.pow_pos_nonneg; lia).
  rewrite (Z.div_mod (u32 (bb * 2)) (2 ^ (n + 1))) at 1 by lia.
  assert (Hmod : u32 (bb * 2) mod 2 ^ (n + 1) = 2 * (bb mod 2 ^ n)).
  { unfold u32. replace 32 with ((n + 1) + (31 - n)) by lia. rewrite Z.pow_add_r by lia.
    rewrite Z.rem_mul_r by (try apply Z.pow_pos_nonneg; lia).
    rewrite Z.mul_comm, (Z.mul_comm _ (_ mod _)), Z.mod_add, Z.mod_mod by lia.
    rewrite E1, Z.mul_mod_distr_l by lia. done. }
  rewrite Hmod, Hm, val_cons. fold k.
  assert (E : 2 ^ n = 2 ^ k * 2 ^ (n - 1 - Z.succ k) * 4).
  { rewrite <-(Z.pow_add_r 2 k) by lia. replace n with (2 + (k + (n - 1 - Z.succ k))) at 1 by lia.
    rewrite Z.pow_add_r by lia. change (2 ^ 2) with 4. lia. }
  assert (E2 : 2 ^ (n - 1 - k) = 2 * 2 ^ (n - 1 - Z.succ k)).
  { replace (n - 1 - k) with (Z.succ (n - 1 - Z.succ k)) by lia. rewrite Z.pow_succ_r by lia. done. }
  rewrite E2, E. fold k. lia.
Qed.

(** A group just fetched, doubled with the marker added. *)
Lemma marker_load n b bs :
  0 < n → Z.of_nat (length (b :: bs)) = n →
  ((2 * val (b :: bs) + 1) / 2 ^ n) mod 2 = Z.b2z b ∧ marker n bs (2 * val (b :: bs) + 1).
Proof.
  intros Hn Hk. rewrite length_cons, Nat2Z.inj_succ in Hk.
  destruct (marker_div n b bs (2 * val (b :: bs) + 1) 0) as (Hb & _ & Hm); [lia..| |done].
  rewrite val_cons. replace (n - 1 - Z.of_nat (length bs)) with 0 by lia.
  replace n with (Z.succ (Z.of_nat (length bs))) at 2 by lia. rewrite Z.pow_succ_r by lia. lia.
Qed.

Lemma land_shiftr_1 x n : 0 ≤ n → Z.land (Z.shiftr x n) 1 = (x / 2 ^ n) mod 2.
Proof. intros Hn. rewrite Z.shiftr_div_pow2 by done. change 1 with (Z.ones 1). by rewrite Z.land_ones. Qed.

Lemma land_ones_mod x m n : 0 ≤ n → m = Z.ones n → Z.land x m = x mod 2 ^ n.
Proof. intros Hn ->. by apply Z.land_ones. Qed.

(** Reading the bytes of a group one by one. *)
Lemma src_get_group src i g w j :
  0 ≤ i → take g (drop (Z.to_nat i) src) = le_bytes g w → (j < g)%nat →
  src_get src (i + Z.of_nat j) = Ret (Z.shiftr w (8 * Z.of_nat j) mod 256).
Proof.
  intros Hi Ht Hj. unfold src_get. rewrite decide_True by lia.
  assert (Hle : ∀ g w j, (j < g)%nat → le_bytes g w !! j = Some (Z.shiftr w (8 * Z.of_nat j) mod 256)).
  { clear. induction g as [|g IH]; intros w [|j] Hj; [lia|lia|by rewrite Z.shiftr_0_r|].
    simpl. rewrite IH by lia. rewrite Z.shiftr_shiftr by lia. do 3 f_equal. lia. }
  assert (E : src !! Z.to_nat (i + Z.of_nat j) = le_bytes g w !! j).
  { rewrite <-Ht, lookup_take by done. rewrite decide_True by done. rewrite lookup_drop. f_equal. lia. }
  rewrite E, Hle by done. done.
Qed.

Lemma marker_empty n bb : 0 < n < 32 → marker n [] bb → u32 (bb * 2) mod 2 ^ n = 0.
Proof.
  intros Hn [Hm _]. specialize (Hm eq_refl). apply Z.mod_divide in Hm as [q Hq]; [|lia].
  subst bb. unfold u32. replace 32 with (n + (32 - n)) by lia. rewrite Z.pow_add_r by lia.
  replace (q * 2 ^ (n - 1) * 2) with (q * 2 ^ n).
  2:{ replace n with (Z.succ (n - 1)) at 1 by lia. rewrite Z.pow_succ_r by lia. lia. }
  rewrite (Z.mul_comm (2 ^ n)), Z.mul_mod_distr_r by lia. apply Z.mod_mul. lia.
Qed.

Lemma val_group_range g bs : length bs = (8 * g)%nat → 0 ≤ val bs < 2 ^ (8 * Z.of_nat g).
Proof. intros Hl. pose proof (val_range bs) as Hv. rewrite Hl in Hv. by rewrite Nat2Z.inj_mul in Hv. Qed.

#[export] Instance buffer_8_laws : @BitBufferLaws buffer_8.
Proof.
  refine (@Build_BitBufferLaws buffer_8 (λ bb p, (length p < 8)%nat ∧ marker 8 p bb) _ _ _ _ _).
  - simpl. lia.
  - split; [simpl; lia|]. by split.
  - intros s bs [Hl _]. simpl. lia.
  - intros src ilen bb b bs [Hl Hm]. cbn [getbit buffer_8]. unfold getbit_8.
    destruct (marker_next 8 b bs bb) as (Hb & Hne & Hm'); [lia|lia|done|].
    rewrite (land_ones_mod bb 0x7f 7) by done. rewrite decide_True.
    2:{ intros H0. apply Hne. apply (marker_empty 8); [lia|]. by split. }
    cbn [mbind outcome_bind]. rewrite land_shiftr_1, Hb by lia. eexists. split; [done|].
    split; [simpl in Hl; lia|done].
  - intros src ilen bb b bs [_ Hm] Hi Hi2 Hl Ht. cbn [getbit buffer_8 bb_bytes] in *. unfold getbit_8.
    rewrite (land_ones_mod bb 0x7f 7) by done. assert (E0 : bb mod 2 ^ 7 = 0) by exact (proj1 Hm eq_refl).
    rewrite E0, decide_False by auto.
    pose proof (src_get_group src ilen 1 _ 0 Hi Ht ltac:(lia)) as Hx.
    rewrite Z.add_0_r, Z.shiftr_0_r in Hx. rewrite Hx. cbn [mbind outcome_bind].
    pose proof (val_group_range 1 (b :: bs) Hl) as Hv. rewrite Z.mod_small by lia.
    destruct (marker_load 8 b bs) as [Hb Hm']; [lia|lia|].
    rewrite (u32_small (_ * 2)) by (unfold is_u32; lia). rewrite Z.mul_comm.
    rewrite (u32_small (2 * _ + 1)) by (unfold is_u32; lia).
    rewrite u32_small by (unfold is_u32; lia). rewrite land_shiftr_1, Hb by lia.
    eexists. split; [done|]. split; [simpl in Hl; lia|done].
Qed.

#[export] Instance buffer_le16_laws : @BitBufferLaws buffer_le16.
Proof.
  refine (@Build_BitBufferLaws buffer_le16 (λ bb p, (length p < 16)%nat ∧ marker 16 p bb) _ _ _ _ _).
  - simpl. lia.
  - split; [simpl; lia|]. by split.
  - intros s bs [Hl _]. simpl. lia.
  - intros src ilen bb b bs [Hl Hm]. cbn [getbit buffer_le16]. unfold getbit_le16.
    destruct (marker_next 16 b bs bb) as (Hb & Hne & Hm'); [lia|lia|done|].
    rewrite (land_ones_mod _ 0xffff 16) by done. rewrite decide_True by done.
    rewrite land_shiftr_1, Hb by lia. eexists. split; [done|]. split; [simpl in Hl; lia|done].
  - intros src ilen bb b bs [_ Hm] Hi Hi2 Hl Ht. cbn [getbit buffer_le16 bb_bytes] in *. unfold getbit_le16.
    rewrite (land_ones_mod _ 0xffff 16) by done. rewrite (marker_empty 16) by (done || lia).
    rewrite decide_False by auto. rewrite u32_small by (unfold is_u32; lia).
    replace (ilen + 2 - 2) with (ilen + Z.of_nat 0) by lia. replace (ilen + 2 - 1) with (ilen + Z.of_nat 1) by lia.
    rewrite !(src_get_group src ilen 2 _ _ Hi Ht) by lia. cbn [mbind outcome_bind].
    pose proof (val_group_range 2 (b :: bs) Hl) as Hv. set (w := val (b :: bs)) in *.
    assert (Hw : Z.shiftr w (8 * Z.of_nat 0) mod 256 + u32 (Z.shiftr w (8 * Z.of_nat 1) mod 256 * 256) = w).
    { change (8 * Z.of_nat 0) with 0. change (8 * Z.of_nat 1) with 8.
      rewrite Z.shiftr_0_r, Z.shiftr_div_pow2 by lia. change (2 ^ 8) with 256.
      change (2 ^ (8 * Z.of_nat 2)) with 65536 in Hv. unfold u32. Z.div_mod_to_equations. lia. }
    rewrite Hw. destruct (marker_load 16 b bs) as [Hb Hm']; [lia|lia|]. fold w in Hb, Hm'.
    change (2 ^ (8 * Z.of_nat 2)) with 65536 in Hv.
    rewrite (u32_small w), (u32_small (w * 2)), (Z.mul_comm w) by (unfold is_u32; lia).
    rewrite u32_small by (unfold is_u32; lia). rewrite land_shiftr_1, Hb by lia.
    eexists. split; [done|]. split; [simpl in Hl; lia|done].
Qed.

#[export] Instance buffer_le32_laws : @BitBufferLaws buffer_le32.
Proof.
  refine (@Build_BitBufferLaws buffer_le32 (λ s p, (length p < 32)%nat ∧ s.2 = Z.of_nat (length p) ∧
    s.1 mod 2 ^ Z.of_nat (length p) = val p) _ _ _ _ _).
  - simpl. lia.
  - split_and!; [simpl; lia|done|done].
  - intros s bs [Hl _]. simpl. lia.
  - intros src ilen [bb bc] b bs (Hl & Hbc & Hval). cbn [getbit buffer_le32 fst snd] in *. unfold getbit_le32.
    rewrite length_cons in *. rewrite decide_True by lia.
    assert (E : u32 (bc - 1) = Z.of_nat (length bs)).
    { rewrite u32_small by (unfold is_u32; lia). lia. }
    rewrite E, land_shiftr_1 by lia. rewrite val_cons, Nat2Z.inj_succ in Hval. pose proof (val_range bs) as Hv.
    set (c := 2 ^ Z.of_nat (length bs)) in *.
    assert (Hc : 0 < c) by (apply Z.pow_pos_nonneg; lia).
    rewrite Z.pow_succ_r in Hval by lia. fold c in Hval.
    pose proof (Z.div_mod bb (2 * c) ltac:(lia)) as Hd. rewrite Hval in Hd.
    assert (Hdiv : bb / c = 2 * (bb / (2 * c)) + Z.b2z b).
    { symmetry. apply Z.div_unique with (val bs); [lia|lia]. }
    assert (Hmod : bb mod c = val bs).
    { symmetry. apply Z.mod_unique with (2 * (bb / (2 * c)) + Z.b2z b); [lia|lia]. }
    exists (bb, Z.of_nat (length bs)). split.
    + rewrite Hdiv, (Z.mul_comm 2), Z.add_comm, Z.mod_add by lia. by destruct b.
    + split_and!; [simpl in *; lia|done|]. simpl. done.
  - intros src ilen [bb bc] b bs (_ & Hbc & _) Hi Hi2 Hl Ht.
    cbn [getbit buffer_le32 bb_bytes fst snd] in *. unfold getbit_le32.
    simpl in Hbc. subst bc. rewrite decide_False by lia.
    pose proof (val_group_range 4 (b :: bs) Hl) as Hv. change (2 ^ (8 * Z.of_nat 4)) with (2 ^ 32) in Hv.
    pose proof (src_get_group src ilen 4 _ 0 Hi Ht ltac:(lia)) as H0.
    pose proof (src_get_group src ilen 4 _ 1 Hi Ht ltac:(lia)) as H1.
    pose proof (src_get_group src ilen 4 _ 2 Hi Ht ltac:(lia)) as H2.
    pose proof (src_get_group src ilen 4 _ 3 Hi Ht ltac:(lia)) as H3.
    set (w := val (b :: bs)) in *. change (Z.of_nat 0) with 0 in H0. change (Z.of_nat 1) with 1 in H1.
    change (Z.of_nat 2) with 2 in H2. change (Z.of_nat 3) with 3 in H3. rewrite Z.add_0_r in H0.
    rewrite Z.shiftr_div_pow2 in H0, H1, H2, H3 by lia.
    rewrite H0, H1, H2, H3. cbn [mbind outcome_bind].
    change (2 ^ (8 * 0)) with 1. change (2 ^ (8 * 1)) with 256. change (2 ^ (8 * 2)) with 65536.
    change (2 ^ (8 * 3)) with 16777216.
    assert (Hw : (w / 1) mod 256 + (w / 256) mod 256 * 256 + (w / 65536) mod 256 * 65536 +
      (w / 16777216) mod 256 * 16777216 = w).
    { change (2 ^ 32) with 4294967296 in Hv. Z.div_mod_to_equations. lia. }
    rewrite Hw, (u32_small w), (u32_small (ilen + 4)) by (unfold is_u32; lia).
    rewrite land_shiftr_1 by lia. pose proof (val_range bs) as Hr. simpl in Hl.
    assert (Hlen : Z.of_nat (length bs) = 31) by lia.
    assert (Ew : w = Z.b2z b * 2 ^ 31 + val bs) by (unfold w; by rewrite val_cons, Hlen).
    rewrite Hlen in Hr. exists (w, 31). split.
    + rewrite Ew, Z.add_comm, Z.div_add, (Z.div_small (val bs)) by lia. by destruct b.
    + split_and!; [simpl in *; lia|by rewrite Hlen|]. cbn [fst]. rewrite Hlen.
      rewrite Ew, Z.add_comm, Z.mod_add by lia. by apply Z.mod_small.
Qed.

(** ** The writer produces the layout *)

Lemma store_bytes_hole D bytes hole A :
  length hole = length bytes → store_bytes (length D) bytes (D ++ hole ++ A) = D ++ bytes ++ A.
Proof.
  revert D hole. induction bytes as [|x bytes IH]; intros D [|y hole] Hl; try done. cbn [store_bytes].
  assert (E : <[length D:=x]> (D ++ (y :: hole) ++ A) = (D ++ [x]) ++ hole ++ A).
  { rewrite insert_app_r_alt, Nat.sub_diag by lia. simpl. by rewrite <-(assoc_L (++)). }
  rewrite E. specialize (IH (D ++ [x]) hole). rewrite length_app, Nat.add_1_r in IH.
  rewrite IH by (simpl in Hl; lia). by rewrite <-(assoc_L (++)).
Qed.

Section writer.
  Context (g : nat) (Hg : (0 < g ≤ 4)%nat).

(** A group with the bits [pend] is under construction in a hole between [D] and [A]. *)
Definition writing (c : bit_writer) (D : list Z) (pend : list bool) (A : list Z) : Prop :=
  bb_c_s8 c = g ∧ bb_p c = Some (length D) ∧ bb_k c = Z.of_nat (length pend) ∧
  (0 < length pend ≤ 8 * g)%nat ∧ bb_b c = val pend ∧
  ∃ hole, length hole = g ∧ bb_out c = D ++ hole ++ A.

(** No group has been begun. *)
Definition fresh (c : bit_writer) (out : list Z) : Prop :=
  bb_c_s8 c = g ∧ bb_k c = 0 ∧ bb_b c = 0 ∧ bb_out c = out.

Lemma write_group c D pend A :
  writing c D pend A →
  bbWriteBits c = Ret (mk_bit_writer (bb_b c) (bb_k c) g (bb_p c) (D ++ le_bytes g (val pend) ++ A)).
Proof.
  intros (Hs & Hp & Hk & _ & Hb & hole & Hl & Ho). unfold bbWriteBits. rewrite Hp, Hs, Ho, Hb.
  cbn [of_option mbind outcome_bind]. by rewrite store_bytes_hole by (by rewrite le_bytes_length).
Qed.

(** One more bit in the current group, or the first of the next. *)
Lemma put_bit_more c D pend A b :
  writing c D pend A → (length pend < 8 * g)%nat →
  ∃ c', bbPutBit b c = Ret c' ∧ writing c' D (pend ++ [b]) A.
Proof.
  intros (Hs & Hp & Hk & Hn & Hb & hole & Hl & Ho) Hlt. unfold bbPutBit, bb_c_s.
  rewrite Hs, Hk, decide_True by lia. rewrite decide_False by lia. eexists. split; [done|].
  pose proof (val_range (pend ++ [b])) as Hv. rewrite val_app, length_app in Hv.
  assert (Hmax : 2 ^ Z.of_nat (length pend + length [b]) ≤ 2 ^ 32) by (apply Z.pow_le_mono_r; simpl; lia).
  split_and!; simpl.
  - done.
  - done.
  - rewrite length_app. simpl. lia.
  - rewrite length_app. simpl. lia.
  - rewrite length_app. simpl. lia.
  - rewrite val_app, Hb, Z.shiftl_mul_pow2, (Z.mul_comm _ (2 ^ 1)) by lia. change (2 ^ 1) with 2.
    rewrite u32_add_l. apply u32_small. unfold is_u32. lia.
  - by exists hole.
Qed.

Lemma put_bit_next c D pend A b :
  writing c D pend A → length pend = (8 * g)%nat →
  ∃ c', bbPutBit b c = Ret c' ∧ writing c' (D ++ le_bytes g (val pend) ++ A) [b] [].
Proof.
  intros Hw Hl. pose proof Hw as (Hs & Hp & Hk & _). unfold bbPutBit, bb_c_s.
  rewrite Hs, Hk, decide_False by lia. rewrite (write_group _ _ _ _ Hw). cbn [mbind outcome_bind].
  eexists. split; [done|]. split_and!; simpl; try done; try lia.
  eexists. split; [apply length_replicate|]. by rewrite app_nil_r.
Qed.

Lemma put_bit_first c out b :
  fresh c out → ∃ c', bbPutBit b c = Ret c' ∧ writing c' out [b] [].
Proof.
  intros (Hs & Hk & Hb & Ho). unfold bbPutBit, bb_c_s. rewrite Hs, Hk, decide_True by lia.
  rewrite decide_True by done. eexists. split; [done|]. split_and!; simpl; try done; try lia.
  - by rewrite Ho.
  - rewrite Hb. by destruct b.
  - eexists. split; [apply length_replicate|]. by rewrite app_nil_r, Ho, Hs.
Qed.

Lemma fill_run n c D pend A :
  writing c D pend A → (8 * g - length pend ≤ n)%nat →
  ∃ c', fill_bits n false c = Ret c' ∧
    writing c' D (pend ++ replicate (8 * g - length pend) false) A.
Proof.
  revert c pend. induction n as [|n IH]; intros c pend Hw Hn; pose proof Hw as (Hs & Hp & Hk & Hlen & _);
    cbn [fill_bits]; unfold bb_c_s; rewrite Hs, Hk.
  - rewrite decide_True by lia. exists c. split; [done|].
    replace (8 * g - length pend)%nat with 0%nat by lia. by rewrite app_nil_r.
  - destruct (decide _) as [E|E].
    + exists c. split; [done|]. replace (8 * g - length pend)%nat with 0%nat by lia. by rewrite app_nil_r.
    + destruct (put_bit_more c D pend A false Hw) as (c1 & E1 & Hw1); [lia|]. rewrite E1.
      cbn [mbind outcome_bind]. destruct (IH c1 _ Hw1) as (c2 & E2 & Hw2); [rewrite length_app; simpl; lia|].
      exists c2. split; [done|]. rewrite length_app in Hw2. simpl in Hw2. rewrite <-(assoc_L (++)) in Hw2.
      replace (8 * g - length pend)%nat with (S (8 * g - (length pend + 1))) by lia. done.
Qed.

(** Flushing completes the group. *)
Lemma flush_run c D pend A :
  writing c D pend A →
  ∃ c', bbFlushBits false c = Ret c' ∧ bb_k c' = 0 ∧ bb_p c' = None ∧
    bb_out c' = D ++ le_bytes g (val (group (8 * g) pend)) ++ A.
Proof.
  intros Hw. pose proof Hw as (Hs & Hp & Hk & Hlen & _). unfold bbFlushBits. rewrite decide_True by lia.
  destruct (fill_run (Z.to_nat (bb_c_s c)) c D pend A Hw) as (c1 & E1 & Hw1).
  { unfold bb_c_s. rewrite Hs. lia. }
  rewrite E1. cbn [mbind outcome_bind]. rewrite (write_group _ _ _ _ Hw1). cbn [mbind outcome_bind].
  eexists. split; [done|]. split_and!; try done. simpl. do 4 f_equal. unfold group.
  rewrite take_app_ge, take_replicate by lia. do 3 f_equal. lia.
Qed.

(** Writing a stream and flushing gives its layout, after what is there. *)
Lemma put_items_writing l c D pend A :
  Forall (λ i, match i with Byte x => 0 ≤ x < 256 | Bit _ => True end) l →
  writing c D pend A →
  ∃ c1 c2, put_items l c = Ret c1 ∧ bbFlushBits false c1 = Ret c2 ∧ bb_k c2 = 0 ∧
    bb_out c2 = D ++ le_bytes g (val (group (8 * g) (pend ++ bits_of l))) ++ A ++
      layout g (8 * g - length pend) l.
Proof.
  revert c D pend A. induction l as [|[b|x] l IH]; intros c D pend A Hl Hw.
  - destruct (flush_run c D pend A Hw) as (c2 & E & Hk & _ & Ho). exists c, c2. split_and!; try done.
    simpl. by rewrite !app_nil_r.
  - apply Forall_cons_1 in Hl as [_ Hl]. pose proof Hw as (_ & _ & _ & Hn & _).
    destruct (decide (length pend < 8 * g)%nat) as [Hlt|Hge].
    + destruct (put_bit_more c D pend A b Hw Hlt) as (c1 & E1 & Hw1).
      destruct (IH c1 D _ A Hl Hw1) as (c2 & c3 & E2 & E3 & Hk & Ho). exists c2, c3.
      cbn [put_items]. rewrite E1. split_and!; [done..|]. rewrite Ho, length_app. simpl length.
      replace (8 * g - length pend)%nat with (S (8 * g - (length pend + 1))) by lia. cbn [layout].
      by rewrite <-(assoc_L (++) pend).
    + destruct (put_bit_next c D pend A b Hw) as (c1 & E1 & Hw1); [lia|].
      destruct (IH c1 _ _ [] Hl Hw1) as (c2 & c3 & E2 & E3 & Hk & Ho). exists c2, c3.
      cbn [put_items]. rewrite E1. split_and!; [done..|]. rewrite Ho.
      replace (8 * g - length pend)%nat with 0%nat by lia. cbn [layout].
      replace (group (8 * g) (pend ++ bits_of (Bit b :: l))) with pend.
      2:{ unfold group. rewrite <-(assoc_L (++)), take_app_le, take_ge by lia. done. }
      simpl length. by rewrite <-!(assoc_L (++)).
  - apply Forall_cons_1 in Hl as [Hx Hl].
    destruct (IH (bbPutByte x c) D pend (A ++ [x]) Hl) as (c2 & c3 & E2 & E3 & Hk & Ho).
    + destruct Hw as (Hs & Hp & Hk & Hn & Hb & hole & Hlen & Ho). split_and!; try done; [lia..|].
      exists hole. split; [done|]. simpl. by rewrite Ho, Z.mod_small, <-!(assoc_L (++)).
    + exists c2, c3. split_and!; try done. rewrite Ho. cbn [layout]. by rewrite <-(assoc_L (++) A).
Qed.

Lemma put_items_run l c out :
  Forall (λ i, match i with Byte x => 0 ≤ x < 256 | Bit _ => True end) l →
  fresh c out →
  ∃ c1 c2, put_items l c = Ret c1 ∧ bbFlushBits false c1 = Ret c2 ∧ bb_k c2 = 0 ∧
    bb_out c2 = out ++ layout g 0 l.
Proof.
  revert c out. induction l as [|[b|x] l IH]; intros c out Hl Hf; pose proof Hf as (Hs & Hk & Hb & Ho).
  - exists c, (mk_bit_writer (bb_b c) (bb_k c) (bb_c_s8 c) None (bb_out c)). split_and!; try done.
    + unfold bbFlushBits. rewrite decide_False by lia. done.
    + simpl. by rewrite app_nil_r.
  - apply Forall_cons_1 in Hl as [_ Hl].
    destruct (put_bit_first c out b Hf) as (c1 & E1 & Hw1).
    destruct (put_items_writing l c1 out [b] [] Hl Hw1) as (c2 & c3 & E2 & E3 & Hk3 & Ho3).
    exists c2, c3. cbn [put_items]. rewrite E1. split_and!; try done.
  - apply Forall_cons_1 in Hl as [Hx Hl].
    destruct (IH (bbPutByte x c) (out ++ [x]) Hl) as (c2 & c3 & E2 & E3 & Hk3 & Ho3).
    + split_and!; try done. simpl. by rewrite Ho, Z.mod_small.
    + exists c2, c3. split_and!; try done. rewrite Ho3. cbn [layout]. by rewrite <-(assoc_L (++)).
Qed.

End writer.
