(* ===== verification/UclDecode.v ===== *)
(** * The decompressors of the packer (packers/exepak-1.5/ucl-1.02/src)

    n2b_d.c, n2d_d.c and n2e_d.c.  Each body is compiled once per bit buffer,
    which [getbit] stands for, and in three modes: as it is, with the checks of
    [SAFE], and with [TEST_OVERLAP], which decompresses without writing.  A
    body is a computation that goes on, returns a code early, or crashes on an
    access outside its buffers. *)

From S2P Require Import Prelude UclBits.

(** ** Codes of include/ucl/uclconf.h *)

Definition UCL_E_OK : Z := 0.
Definition UCL_E_ERROR : Z := -1.
Definition UCL_E_INVALID_ARGUMENT : Z := -2.
Definition UCL_E_OUT_OF_MEMORY : Z := -3.
Definition UCL_E_NOT_COMPRESSIBLE : Z := -101.
Definition UCL_E_INPUT_OVERRUN : Z := -201.
Definition UCL_E_OUTPUT_OVERRUN : Z := -202.
Definition UCL_E_LOOKBEHIND_OVERRUN : Z := -203.
Definition UCL_E_EOF_NOT_FOUND : Z := -204.
Definition UCL_E_INPUT_NOT_CONSUMED : Z := -205.
Definition UCL_E_OVERLAP_OVERRUN : Z := -206.

(** ** Computations of a decompressor *)

(** The locals of a body, and the destination buffer. *)
Record dstate `{BitBuffer} : Type := mk_dstate {
  d_bb : bb_state;
  d_ilen : Z;
  d_olen : Z;
  d_last : Z;                     (** [last_m_off] *)
  d_dst : list Z
}.

Arguments mk_dstate {_} _ _ _ _ _.

Inductive result `{BitBuffer} (A : Type) : Type :=
  | Go (a : A) (s : dstate)
  | Done (code : Z) (s : dstate)  (** [*dst_len = olen; return code;] *)
  | Crash (f : fault).
Arguments Go {_ _} a s.
Arguments Done {_ _} code s.
Arguments Crash {_ _} f.

Definition dec `{BitBuffer} (A : Type) : Type := dstate → result A.
#[export] Instance dec_ret `{BitBuffer} : MRet dec := λ A a s, Go a s.
#[export] Instance dec_bind `{BitBuffer} : MBind dec := λ A B k m s,
  match m s with Go a s' => k a s' | Done c s' => Done c s' | Crash f => Crash f end.

(** How a body is compiled; [Overlap src_off] is the test of n2?_to.c. *)
Inductive mode : Type := Fast | Safe | Overlap (src_off : Z).

Section decoders.
  Context `{BB : BitBuffer} (md : mode).
  (** the source buffer, which the destination may overlap, [src_len] as the
      checks see it, and [*dst_len] on entry *)
  Context (src : list Z → list Z) (src_len oend : Z).

Definition safe : bool := match md with Fast => false | _ => true end.
Definition overlap : bool := match md with Overlap _ => true | _ => false end.

Definition dmod (f : dstate → dstate) : dec unit := λ s, Go tt (f s).
Definition dget {A} (f : dstate → A) : dec A := λ s, Go (f s) s.
Definition lift {A} (m : outcome A) : dec A :=
  λ s, match m with Ret a => Go a s | Err f => Crash f end.
Definition set_ilen (i : Z) (s : dstate) : dstate := mk_dstate (d_bb s) i (d_olen s) (d_last s) (d_dst s).
Definition set_olen (o : Z) (s : dstate) : dstate := mk_dstate (d_bb s) (d_ilen s) o (d_last s) (d_dst s).
Definition set_last (m : Z) (s : dstate) : dstate := mk_dstate (d_bb s) (d_ilen s) (d_olen s) m (d_dst s).

(** [getbit(bb)] *)
Definition bit : dec Z := λ s,
  match getbit (src (d_dst s)) (d_ilen s) (d_bb s) with
  | Ret (b, i, bb) => Go b (mk_dstate bb i (d_olen s) (d_last s) (d_dst s))
  | Err f => Crash f
  end.

(** [#define fail(x,r)   if (x) { *dst_len = olen; return r; }] *)
Definition fail (x : dstate → bool) (r : Z) : dec unit := λ s, if safe && x s then Done r s else Go tt s.
Definition input_over (s : dstate) : bool := bool_decide (src_len ≤ d_ilen s).

(** [src[ilen++]] *)
Definition next_byte : dec Z :=
  dst ← dget d_dst; i ← dget d_ilen; x ← lift (src_get (src dst) i); dmod (set_ilen (u32 (i + 1)));; mret x.

(** [dst[olen++] = x] *)
Definition put (x : Z) : dec unit := λ s,
  if decide (0 ≤ d_olen s < Z.of_nat (length (d_dst s))) then
    Go tt (mk_dstate (d_bb s) (d_ilen s) (u32 (d_olen s + 1)) (d_last s)
             (<[Z.to_nat (d_olen s) := x]> (d_dst s)))
  else Crash OutOfBounds.

(** [dst[olen++] = src[ilen++]] with its checks *)
Definition literal : dec unit :=
  fail input_over UCL_E_INPUT_OVERRUN;;
  fail (λ s, bool_decide (oend ≤ d_olen s)) UCL_E_OUTPUT_OVERRUN;;
  if overlap then
    fail (λ s, bool_decide (d_ilen s < d_olen s)) UCL_E_OVERLAP_OVERRUN;;
    dmod (λ s, set_ilen (u32 (d_ilen s + 1)) (set_olen (u32 (d_olen s + 1)) s))
  else x ← next_byte; put x.

(** [while (getbit(bb)) { ... dst[olen++] = src[ilen++]; }] *)
Fixpoint literals (fuel : nat) : dec unit :=
  match fuel with
  | O => λ s, Crash OutOfFuel
  | S n => b ← bit; if decide (b ≠ 0) then literal;; literals n else mret tt
  end.

(** [do { m_off = m_off*2 + getbit(bb); ... } while (!getbit(bb));] of n2b_d.c *)
Fixpoint offset_b (fuel : nat) (m_off : Z) : dec Z :=
  match fuel with
  | O => λ s, Crash OutOfFuel
  | S n =>
      b ← bit;
      let m_off := u32 (u32 (m_off * 2) + b) in
      fail input_over UCL_E_INPUT_OVERRUN;;
      fail (λ _, bool_decide (0xffffff + 3 < m_off)) UCL_E_LOOKBEHIND_OVERRUN;;
      stop ← bit;
      if decide (stop = 0) then offset_b n m_off else mret m_off
  end.

(** [for (;;) { m_off = m_off*2 + getbit(bb); ... }] of n2d_d.c and n2e_d.c *)
Fixpoint offset_de (fuel : nat) (m_off : Z) : dec Z :=
  match fuel with
  | O => λ s, Crash OutOfFuel
  | S n =>
      b ← bit;
      let m_off := u32 (u32 (m_off * 2) + b) in
      fail input_over UCL_E_INPUT_OVERRUN;;
      fail (λ _, bool_decide (0xffffff + 3 < m_off)) UCL_E_LOOKBEHIND_OVERRUN;;
      stop ← bit;
      if decide (stop ≠ 0) then mret m_off
      else b2 ← bit; offset_de n (u32 (u32 (u32 (m_off - 1) * 2) + b2))
  end.

(** [do { m_len = m_len*2 + getbit(bb); ... } while (!getbit(bb));] *)
Fixpoint length_loop (fuel : nat) (m_len : Z) : dec Z :=
  match fuel with
  | O => λ s, Crash OutOfFuel
  | S n =>
      b ← bit;
      let m_len := u32 (u32 (m_len * 2) + b) in
      fail input_over UCL_E_INPUT_OVERRUN;;
      fail (λ _, bool_decide (oend ≤ m_len)) UCL_E_OUTPUT_OVERRUN;;
      stop ← bit;
      if decide (stop = 0) then length_loop n m_len else mret m_len
  end.

(** [dst[olen++] = *m_pos++;], [n] times; [m_pos] is an index of [dst]. *)
Fixpoint copy (n : nat) (m_pos : Z) : dec unit :=
  match n with
  | O => mret tt
  | S n' =>
      dst ← dget d_dst;
      x ← lift (src_get dst m_pos);
      put x;;
      copy n' (m_pos + 1)
  end.

(** From [fail(olen + m_len > oend, ...)] to the end of the loop: one byte and
    [do ... while (--m_len > 0);]. *)
Definition copy_match (m_off m_len : Z) : dec unit :=
  fail (λ s, bool_decide (oend < u32 (d_olen s + m_len))) UCL_E_OUTPUT_OVERRUN;;
  fail (λ s, bool_decide (d_olen s < m_off)) UCL_E_LOOKBEHIND_OVERRUN;;
  if overlap then
    dmod (λ s, set_olen (u32 (u32 (d_olen s + m_len) + 1)) s);;
    fail (λ s, bool_decide (d_ilen s < d_olen s)) UCL_E_OVERLAP_OVERRUN
  else
    o ← dget d_olen;
    copy (S (Z.to_nat (u32 (m_len - 1) + 1))) (o - m_off).

(** The byte of an offset and the test for the end of the stream, common to all
    formats: nothing at the end. *)
Definition offset_byte (m_off : Z) : dec (option Z) :=
  fail input_over UCL_E_INPUT_OVERRUN;;
  x ← next_byte;
  let m_off := u32 (u32 (u32 (m_off - 3) * 256) + x) in
  mret (if decide (m_off = 0xffffffff) then None else Some m_off).

(** The offset of n2b_d.c *)
Definition match_offset_b (fuel : nat) : dec (option Z) :=
  m_off ← offset_b fuel 1;
  last ← dget d_last;
  if decide (m_off = 2) then mret (Some last)
  else
    o ← offset_byte m_off;
    match o with
    | None => mret None
    | Some m_off => let m_off := u32 (m_off + 1) in dmod (set_last m_off);; mret (Some m_off)
    end.

(** The offset of n2d_d.c and n2e_d.c, with the low bit of the length. *)
Definition match_offset_de (fuel : nat) : dec (option (Z * Z)) :=
  m_off ← offset_de fuel 1;
  last ← dget d_last;
  if decide (m_off = 2) then m_len ← bit; mret (Some (last, m_len))
  else
    o ← offset_byte m_off;
    match o with
    | None => mret None
    | Some m_off =>
        let m_len := Z.land (Z.lxor m_off 0xffffffff) 1 in
        let m_off := u32 (Z.shiftr m_off 1 + 1) in
        dmod (set_last m_off);; mret (Some (m_off, m_len))
    end.

(** The rest of the length after its first bit, n2b_d.c and n2d_d.c *)
Definition match_len_bd (fuel : nat) (m_len : Z) : dec Z :=
  b ← bit;
  let m_len := u32 (m_len * 2 + b) in
  if decide (m_len = 0) then m_len ← length_loop fuel (m_len + 1); mret (u32 (m_len + 2))
  else mret m_len.

(** and n2e_d.c *)
Definition match_len_e (fuel : nat) (m_len : Z) : dec Z :=
  if decide (m_len ≠ 0) then b ← bit; mret (1 + b)
  else
    c ← bit;
    if decide (c ≠ 0) then b ← bit; mret (3 + b)
    else m_len ← length_loop fuel (m_len + 1); mret (u32 (m_len + 3)).

(** One round of [for (;;)] of n2b_d.c after the literals; the result is
    whether to go on. *)
Definition round_b (fuel : nat) : dec bool :=
  o ← match_offset_b fuel;
  match o with
  | None => mret false
  | Some m_off =>
      m_len ← bit;
      m_len ← match_len_bd fuel m_len;
      let m_len := u32 (m_len + Z.b2z (bool_decide (0xd00 < m_off))) in
      copy_match m_off m_len;; mret true
  end.

(** n2d_d.c *)
Definition round_d (fuel : nat) : dec bool :=
  o ← match_offset_de fuel;
  match o with
  | None => mret false
  | Some (m_off, m_len) =>
      m_len ← match_len_bd fuel m_len;
      let m_len := u32 (m_len + Z.b2z (bool_decide (0x500 < m_off))) in
      copy_match m_off m_len;; mret true
  end.

(** n2e_d.c *)
Definition round_e (fuel : nat) : dec bool :=
  o ← match_offset_de fuel;
  match o with
  | None => mret false
  | Some (m_off, m_len) =>
      m_len ← match_len_e fuel m_len;
      let m_len := u32 (m_len + Z.b2z (bool_decide (0x500 < m_off))) in
      copy_match m_off m_len;; mret true
  end.

(** [for (;;) { while (getbit(bb)) ...; ... }] *)
Fixpoint rounds (round : dec bool) (fuel inner : nat) : dec unit :=
  match fuel with
  | O => λ s, Crash OutOfFuel
  | S n =>
      literals inner;;
      go ← round;
      if go : bool then rounds round n inner else mret tt
  end.

(** The code a body returns at its end. *)
Definition finish (s : dstate) : Z :=
  if decide (d_ilen s = src_len) then UCL_E_OK
  else if decide (d_ilen s < src_len) then UCL_E_INPUT_NOT_CONSUMED else UCL_E_INPUT_OVERRUN.

Definition body (round : nat → dec bool) (fuel : nat) : dec Z :=
  (if overlap then fail (λ _, bool_decide (src_len ≤ oend)) UCL_E_OVERLAP_OVERRUN else mret tt);;
  rounds (round fuel) fuel fuel;;
  dget finish.

(** What a caller sees: the code, [*dst_len] and the destination. *)
Definition run (m : dec Z) (s : dstate) : outcome (Z * Z * list Z) :=
  match m s with
  | Go code s' => Ret (code, d_olen s', d_dst s')
  | Done code s' => Ret (code, d_olen s', d_dst s')
  | Crash f => Err f
  end.

End decoders.

(** The entry points: [src] and [dst] are the buffers with what lies behind
    them, [dst_len] is [*dst_len]. *)
Definition decompress_from `{BB : BitBuffer}
    (round : mode → (list Z → list Z) → Z → Z → nat → dec bool) (md : mode) (fuel : nat)
    (src : list Z → list Z) (src_len dst_len : Z) (dst : list Z) : outcome (Z * Z * list Z) :=
  let off := match md with Overlap o => o | _ => 0 end in
  let src_len := u32 (src_len + off) in
  run (body md src src_len dst_len (round md src src_len dst_len) fuel) (mk_dstate bb_init off 0 1 dst).

(** A source apart from the destination *)
Definition apart (src : list Z) : list Z → list Z := λ _, src.
Definition decompress `{BB : BitBuffer} round (md : mode) (fuel : nat)
    (src : list Z) (src_len dst_len : Z) (dst : list Z) : outcome (Z * Z * list Z) :=
  decompress_from round md fuel (apart src) src_len dst_len dst.

(** A source in the buffer of the destination, from [off] on *)
Definition decompress_in_place `{BB : BitBuffer} round (md : mode) (fuel : nat)
    (off src_len dst_len : Z) (buf : list Z) : outcome (Z * Z * list Z) :=
  decompress_from round md fuel (drop (Z.to_nat off)) src_len dst_len buf.

Definition ucl_nrv2b_decompress `{BB : BitBuffer} := decompress round_b.
Definition ucl_nrv2d_decompress `{BB : BitBuffer} := decompress round_d.
Definition ucl_nrv2e_decompress `{BB : BitBuffer} := decompress round_e.
