(* ===== verification/UclEncode.v ===== *)
(** * The encoder of the packer (packers/exepak-1.5/ucl-1.02/src/n2_99.ch)

    What the compressor writes for a run of literals and for a match, in the
    three formats NRV2B, NRV2D and NRV2E the file is compiled for, and for the
    end of the stream.  Which matches are chosen is left open here: the lemmas
    are about every division of the input into runs and true repetitions. *)

From S2P Require Import Prelude UclBits.

(** ** Formats and state *)

(** [#define NRV2B], [NRV2D] or [NRV2E] *)
Inductive nrv : Type := NRV2B | NRV2D | NRV2E.

Definition M2_MAX_OFFSET (f : nrv) : Z := match f with NRV2B => 0xd00 | NRV2D | NRV2E => 0x500 end.
Definition SWD_N : Z := 8 * 1024 * 1024.

(** The fields of [UCL_COMPRESS_T] the encoder uses; [result] are the entries
    1, 3 and 5: longest offset, match and run. *)
Record UCL_COMPRESS_T : Type := mk_compress {
  c_bits : bit_writer;
  c_last_m_off : Z;
  c_match_bytes : Z;
  c_lit_bytes : Z;
  c_result : Z * Z * Z;
  c_max_match : Z;
  c_max_offset : Z
}.

Definition set_bits (w : bit_writer) (c : UCL_COMPRESS_T) : UCL_COMPRESS_T :=
  mk_compress w (c_last_m_off c) (c_match_bytes c) (c_lit_bytes c) (c_result c) (c_max_match c) (c_max_offset c).
Definition putbit (b : bool) (c : UCL_COMPRESS_T) : outcome UCL_COMPRESS_T :=
  w ← bbPutBit b (c_bits c); Ret (set_bits w c).
Definition putbyte (x : Z) (c : UCL_COMPRESS_T) : UCL_COMPRESS_T := set_bits (bbPutByte x (c_bits c)) c.
Definition odd (x : Z) : bool := negb (bool_decide (Z.land x 1 = 0)).

(** ** Prefix codes *)

(** [do { t <<= 1; } while (i >= t);] *)
Fixpoint ss11_top (fuel : nat) (i t : Z) : outcome Z :=
  match fuel with
  | O => Err OutOfFuel
  | S n => let t := u32 (Z.shiftl t 1) in if decide (t ≤ i) then ss11_top n i t else Ret t
  end.

(** [do { t >>= 1; bbPutBit(c, (i & t) ? 1 : 0); bbPutBit(c, 0); } while (t > 2);] *)
Fixpoint ss11_put (fuel : nat) (i t : Z) (c : UCL_COMPRESS_T) : outcome UCL_COMPRESS_T :=
  match fuel with
  | O => Err OutOfFuel
  | S n =>
      let t := Z.shiftr t 1 in
      c ← putbit (negb (bool_decide (Z.land i t = 0))) c;
      c ← putbit false c;
      if decide (2 < t) then ss11_put n i t c else Ret c
  end.

(** [static void code_prefix_ss11(UCL_COMPRESS_T *c, ucl_uint32 i)] *)
Definition code_prefix_ss11 (i : Z) (c : UCL_COMPRESS_T) : outcome UCL_COMPRESS_T :=
  '(i, c) ← (if decide (2 ≤ i) then
               let t := 4 in
               let i := u32 (i + 2) in
               t ← ss11_top 32 i t;
               let t := Z.shiftr t 1 in
               c ← ss11_put 32 i t c; Ret (i, c)
             else Ret (i, c));
  c ← putbit (odd i) c;
  putbit true c.

(** [do { i -= t; t <<= 2; } while (i >= t);] *)
Fixpoint ss12_top (fuel : nat) (i t : Z) : outcome (Z * Z) :=
  match fuel with
  | O => Err OutOfFuel
  | S n =>
      let i := u32 (i - t) in
      let t := u32 (Z.shiftl t 2) in
      if decide (t ≤ i) then ss12_top n i t else Ret (i, t)
  end.

Fixpoint ss12_put (fuel : nat) (i t : Z) (c : UCL_COMPRESS_T) : outcome UCL_COMPRESS_T :=
  match fuel with
  | O => Err OutOfFuel
  | S n =>
      let t := Z.shiftr t 1 in
      c ← putbit (negb (bool_decide (Z.land i t = 0))) c;
      c ← putbit false c;
      let t := Z.shiftr t 1 in
      c ← putbit (negb (bool_decide (Z.land i t = 0))) c;
      if decide (2 < t) then ss12_put n i t c else Ret c
  end.

(** [static void code_prefix_ss12(UCL_COMPRESS_T *c, ucl_uint32 i)] *)
Definition code_prefix_ss12 (i : Z) (c : UCL_COMPRESS_T) : outcome UCL_COMPRESS_T :=
  '(i, c) ← (if decide (2 ≤ i) then
               '(i, t) ← ss12_top 32 i 2;
               c ← ss12_put 32 i t c; Ret (i, c)
             else Ret (i, c));
  c ← putbit (odd i) c;
  putbit true c.

(** ** Matches and runs *)

(** [c->match_bytes += m_len;] and the entries of [c->result] *)
Definition count_match (m_len m_off : Z) (c : UCL_COMPRESS_T) : UCL_COMPRESS_T :=
  let '(r1, r3, r5) := c_result c in
  mk_compress (c_bits c) (c_last_m_off c) (c_match_bytes c + m_len) (c_lit_bytes c)
    (if decide (r1 < m_off) then m_off else r1, if decide (r3 < m_len) then m_len else r3, r5)
    (c_max_match c) (c_max_offset c).
Definition set_last_m_off (m_off : Z) (c : UCL_COMPRESS_T) : UCL_COMPRESS_T :=
  mk_compress (c_bits c) m_off (c_match_bytes c) (c_lit_bytes c) (c_result c) (c_max_match c) (c_max_offset c).

(** [code_match] after its loop. *)
Definition code_one_match (f : nrv) (m_len m_off : Z) (c : UCL_COMPRESS_T) : outcome UCL_COMPRESS_T :=
  let c := count_match m_len m_off c in
  c ← putbit false c;
  let m_len' := u32 (u32 (m_len - 1) - Z.b2z (bool_decide (M2_MAX_OFFSET f < m_off))) in
  c ← match f with
      | NRV2B =>
          c ← (if decide (m_off = c_last_m_off c) then c ← putbit false c; putbit true c
               else c ← code_prefix_ss11 (u32 (1 + Z.shiftr (u32 (m_off - 1)) 8)) c;
                    Ret (putbyte (u32 (m_off - 1)) c));
          if decide (4 ≤ m_len') then
            c ← putbit false c; c ← putbit false c; code_prefix_ss11 (m_len' - 4) c
          else c ← putbit (bool_decide (1 < m_len')) c; putbit (odd m_len') c
      | NRV2D =>
          let m_low := if decide (4 ≤ m_len') then 0 else m_len' in
          c ← (if decide (m_off = c_last_m_off c) then
                 c ← putbit false c; c ← putbit true c;
                 c ← putbit (bool_decide (1 < m_low)) c; putbit (odd m_low) c
               else
                 c ← code_prefix_ss12 (u32 (1 + Z.shiftr (u32 (m_off - 1)) 7)) c;
                 putbit (odd m_low) (putbyte (Z.lor (u32 (Z.shiftl (Z.land (u32 (m_off - 1)) 0x7f) 1))
                                                (if decide (1 < m_low) then 0 else 1)) c));
          if decide (4 ≤ m_len') then code_prefix_ss11 (m_len' - 4) c else Ret c
      | NRV2E =>
          let m_low := Z.b2z (bool_decide (m_len' ≤ 2)) in
          c ← (if decide (m_off = c_last_m_off c) then
                 c ← putbit false c; c ← putbit true c; putbit (negb (bool_decide (m_low = 0))) c
               else
                 c ← code_prefix_ss12 (u32 (1 + Z.shiftr (u32 (m_off - 1)) 7)) c;
                 Ret (putbyte (Z.lor (u32 (Z.shiftl (Z.land (u32 (m_off - 1)) 0x7f) 1)) (Z.lxor m_low 1)) c));
          if decide (m_low ≠ 0) then putbit (negb (bool_decide (u32 (m_len' - 1) = 0))) c
          else if decide (m_len' ≤ 4) then
            c ← putbit true c; putbit (negb (bool_decide (u32 (m_len' - 3) = 0))) c
          else c ← putbit false c; code_prefix_ss11 (m_len' - 5) c
      end;
  Ret (set_last_m_off m_off c).

(** [static void code_match(c, m_len, m_off)]: the recursive call is for a
    length within the limit. *)
Fixpoint code_match (fuel : nat) (f : nrv) (m_len m_off : Z) (c : UCL_COMPRESS_T) : outcome UCL_COMPRESS_T :=
  match fuel with
  | O => Err OutOfFuel
  | S n =>
      if decide (c_max_match c < m_len) then
        let part := u32 (c_max_match c - 3) in
        c ← code_match n f part m_off c;
        code_match n f (u32 (m_len - part)) m_off c
      else code_one_match f m_len m_off c
  end.

(** [do { bbPutBit(c, 1); bbPutByte(c, *ii++); } while (--lit > 0);] *)
Fixpoint put_literals (lits : list Z) (c : UCL_COMPRESS_T) : outcome UCL_COMPRESS_T :=
  match lits with
  | [] => Ret c
  | x :: lits' => c ← putbit true c; put_literals lits' (putbyte x c)
  end.

(** [c->lit_bytes += lit;] and the longest run *)
Definition count_run (lit : Z) (c : UCL_COMPRESS_T) : UCL_COMPRESS_T :=
  let '(r1, r3, r5) := c_result c in
  mk_compress (c_bits c) (c_last_m_off c) (c_match_bytes c) (c_lit_bytes c + lit)
    (r1, r3, if decide (r5 < lit) then lit else r5) (c_max_match c) (c_max_offset c).

(** [static void code_run(c, ii, lit)]: [lits] are the [lit] bytes at [ii]. *)
Definition code_run (lits : list Z) (c : UCL_COMPRESS_T) : outcome UCL_COMPRESS_T :=
  let lit := Z.of_nat (length lits) in
  if decide (lit = 0) then Ret c
  else
    put_literals lits (count_run lit c).

(** [/* EOF */] of [ucl_nrv_99_compress] *)
Definition code_eof (f : nrv) (c : UCL_COMPRESS_T) : outcome UCL_COMPRESS_T :=
  c ← putbit false c;
  c ← match f with
      | NRV2B => code_prefix_ss11 0x1000000 c
      | NRV2D | NRV2E => code_prefix_ss12 0x1000000 c
      end;
  let c := putbyte 0xff c in
  w ← bbFlushBits false (c_bits c);
  Ret (set_bits w c).

(** *** The division of an input *)

(** A run of literals and the match after it; the main loop of
    [ucl_nrv_99_compress] codes both, then goes on behind the match. *)
Record piece : Type := mk_piece { p_run : list Z; p_len : Z; p_off : Z }.

Fixpoint code_pieces (f : nrv) (ps : list piece) (c : UCL_COMPRESS_T) : outcome UCL_COMPRESS_T :=
  match ps with
  | [] => Ret c
  | p :: ps' =>
      c ← code_run (p_run p) c;
      c ← code_match (S (Z.to_nat (p_len p))) f (p_len p) (p_off p) c;
      code_pieces f ps' c
  end.

(** [ucl_nrv_99_compress] with the default configuration, once the search has
    divided the input: [memset(&c->conf, 0xff, ...)], [bbConfig(c, 0, 8)],
    [c->last_m_off = 1], the pieces, the final run, the end. *)
Definition compress_start (bitsize : Z) : option UCL_COMPRESS_T :=
  w ← bbConfig bitsize;
  Some (mk_compress w 1 0 0 (0, 0, 0) (2 ^ 32 - 1) (2 ^ 32 - 1)).
Definition nrv_compress (f : nrv) (ps : list piece) (final : list Z) (c : UCL_COMPRESS_T)
    : outcome UCL_COMPRESS_T :=
  c ← code_pieces f ps c;
  c ← code_run final c;
  code_eof f c.

(** ** The stream a division is coded as *)

Definition bytes_ok : list Z → Prop := Forall (λ x, 0 ≤ x < 256).
Definition items_ok : list item → Prop :=
  Forall (λ i, match i with Byte x => 0 ≤ x < 256 | Bit _ => True end).

(** The lowest [n] bits of [j], a zero after each but the last: the start-step-stop
    code with one bit per step. *)
Fixpoint digits11 (n : nat) (j : Z) : list item :=
  match n with
  | O => []
  | S k => Bit (Z.testbit j (Z.of_nat k)) :: Bit (bool_decide (k = 0%nat)) :: digits11 k j
  end.
Definition ss11_items (i : Z) : list item := digits11 (Z.to_nat (Z.log2 (i + 2))) (i + 2).

(** The one with two bits per step: [steps12] subtracts what shorter codes cover. *)
Fixpoint digits12 (n : nat) (i : Z) : list item :=
  match n with
  | O => [Bit (Z.testbit i 0); Bit true]
  | S k => Bit (Z.testbit i (Z.of_nat (2 * S k))) :: Bit false :: Bit (Z.testbit i (Z.of_nat (2 * k + 1))) ::
             digits12 k i
  end.
Fixpoint steps12 (fuel n : nat) (i : Z) : nat * Z :=
  match fuel with
  | O => (n, i)
  | S fuel' => let t := 2 * 4 ^ Z.of_nat n in if decide (t ≤ i) then steps12 fuel' (S n) (i - t) else (n, i)
  end.
Definition ss12_items (i : Z) : list item := let '(n, i') := steps12 32 0 i in digits12 n i'.

Definition run_items (lits : list Z) : list item := flat_map (λ x, [Bit true; Byte x]) lits.

(** A match after the zero bit in front of it. *)
Definition match_items (f : nrv) (last m_len m_off : Z) : list item :=
  let len := m_len - 1 - Z.b2z (bool_decide (M2_MAX_OFFSET f < m_off)) in
  match f with
  | NRV2B =>
      (if decide (m_off = last) then [Bit false; Bit true]
       else ss11_items (1 + Z.shiftr (m_off - 1) 8) ++ [Byte ((m_off - 1) mod 256)]) ++
      (if decide (4 ≤ len) then Bit false :: Bit false :: ss11_items (len - 4)
       else [Bit (bool_decide (1 < len)); Bit (odd len)])
  | NRV2D =>
      let low := if decide (4 ≤ len) then 0 else len in
      (if decide (m_off = last) then [Bit false; Bit true; Bit (bool_decide (1 < low)); Bit (odd low)]
       else ss12_items (1 + Z.shiftr (m_off - 1) 7) ++
            [Byte (2 * ((m_off - 1) mod 128) + Z.b2z (negb (bool_decide (1 < low)))); Bit (odd low)]) ++
      (if decide (4 ≤ len) then ss11_items (len - 4) else [])
  | NRV2E =>
      (if decide (m_off = last) then [Bit false; Bit true; Bit (bool_decide (len ≤ 2))]
       else ss12_items (1 + Z.shiftr (m_off - 1) 7) ++
            [Byte (2 * ((m_off - 1) mod 128) + Z.b2z (negb (bool_decide (len ≤ 2))))]) ++
      (if decide (len ≤ 2) then [Bit (bool_decide (len ≠ 1))]
       else if decide (len ≤ 4) then [Bit true; Bit (bool_decide (len ≠ 3))]
       else Bit false :: ss11_items (len - 5))
  end.

Definition eof_items (f : nrv) : list item :=
  (match f with NRV2B => ss11_items 0x1000000 | NRV2D | NRV2E => ss12_items 0x1000000 end) ++ [Byte 0xff].

Fixpoint stream (f : nrv) (last : Z) (ps : list piece) (final : list Z) : list item :=
  match ps with
  | [] => run_items final ++ Bit false :: eof_items f
  | p :: ps' => run_items (p_run p) ++ Bit false :: match_items f last (p_len p) (p_off p) ++
                  stream f (p_off p) ps' final
  end.

(** *** What a division stands for *)

(** [n] bytes repeated from [off] back, one by one: a match may overlap itself. *)
Fixpoint lz_copy (n : nat) (off : Z) (out : list Z) : list Z :=
  match n with
  | O => out
  | S n' => lz_copy n' off (out ++ [nth (length out - Z.to_nat off) out 0])
  end.
Fixpoint expand (out : list Z) (ps : list piece) : list Z :=
  match ps with
  | [] => out
  | p :: ps' => expand (lz_copy (Z.to_nat (p_len p)) (p_off p) (out ++ p_run p)) ps'
  end.

(** The matches the encoder takes: within the window and what is already
    coded, at least two bytes, three when far ([m_len < 2 || (m_len == 2 && ...)]
    is coded as literals). *)
Definition match_ok (f : nrv) (out : list Z) (m_len m_off : Z) : Prop :=
  1 ≤ m_off ≤ Z.of_nat (length out) ∧ m_off ≤ SWD_N ∧
  2 + Z.b2z (bool_decide (M2_MAX_OFFSET f < m_off)) ≤ m_len < 2 ^ 31.
Fixpoint pieces_ok (f : nrv) (out : list Z) (ps : list piece) : Prop :=
  match ps with
  | [] => True
  | p :: ps' =>
      bytes_ok (p_run p) ∧ match_ok f (out ++ p_run p) (p_len p) (p_off p) ∧
      pieces_ok f (lz_copy (Z.to_nat (p_len p)) (p_off p) (out ++ p_run p)) ps'
  end.

(** ** The encoder emits the stream *)

Lemma put_items_app l1 l2 c : put_items (l1 ++ l2) c = (c ← put_items l1 c; put_items l2 c).
Proof.
  revert c. induction l1 as [|[b|x] l1 IH]; intros c; simpl; [done| |by rewrite IH].
  destruct (bbPutBit b c); simpl; [by rewrite IH|done].
Qed.

Definition emit (l : list item) (c : UCL_COMPRESS_T) : outcome UCL_COMPRESS_T :=
  w ← put_items l (c_bits c); Ret (set_bits w c).

Lemma emit_nil c : emit [] c = Ret c.
Proof. by destruct c. Qed.

(** Emitting in two steps. *)
Lemma emit_bind l1 l2 (k : UCL_COMPRESS_T → outcome UCL_COMPRESS_T) c :
  (∀ w, k (set_bits w c) = emit l2 (set_bits w c)) → (c ← emit l1 c; k c) = emit (l1 ++ l2) c.
Proof.
  intros Hk. unfold emit. rewrite put_items_app. destruct (put_items l1 (c_bits c)) as [w|e]; simpl; [|done].
  rewrite Hk. unfold emit. simpl. by destruct (put_items l2 w).
Qed.

Lemma putbit_emit b c : putbit b c = emit [Bit b] c.
Proof. unfold putbit, emit. simpl. by destruct (bbPutBit b (c_bits c)). Qed.

Lemma putbyte_emit x y c : x mod 256 = y → Ret (putbyte x c) = emit [Byte y] c.
Proof.
  intros <-. unfold putbyte, emit. cbn [put_items mbind outcome_bind]. unfold bbPutByte. by rewrite Zmod_mod.
Qed.

Lemma odd_bit x : odd x = Z.testbit x 0.
Proof.
  unfold odd. pose proof (land_bit_0 x 0 ltac:(lia)) as H. change (Z.shiftl 1 0) with 1 in H.
  destruct (Z.testbit x 0); case_bool_decide; naive_solver.
Qed.

Lemma mask_testbit x k : 0 ≤ k → negb (bool_decide (Z.land x (2 ^ k) = 0)) = Z.testbit x k.
Proof.
  intros Hk. pose proof (land_bit_0 x k Hk) as H. rewrite Z.shiftl_1_l in H.
  destruct (Z.testbit x k); case_bool_decide; naive_solver.
Qed.

Lemma half_pow k : 0 < k → Z.shiftr (2 ^ k) 1 = 2 ^ (k - 1).
Proof. intros Hk. by rewrite <-!Z.shiftl_1_l, Z.shiftr_shiftl_l by lia. Qed.

(** *** Start-step-stop codes *)

Lemma ss11_top_run fuel k j :
  0 ≤ k → 2 ^ k ≤ j < 2 ^ 31 → Z.log2 j - k < Z.of_nat fuel → ss11_top fuel j (2 ^ k) = Ret (2 ^ (Z.log2 j + 1)).
Proof.
  revert k. induction fuel as [|fuel IH]; intros k Hk Hj Hf.
  - assert (k ≤ Z.log2 j) by (apply Z.log2_le_pow2; lia). lia.
  - cbn [ss11_top]. rewrite Z.shiftl_mul_pow2, Z.pow_1_r, Z.mul_comm, <-Z.pow_succ_r by lia. unfold Z.succ.
    assert (k < 31) by (apply (Z.pow_lt_mono_r_iff 2); lia).
    assert (2 ^ (k + 1) ≤ 2 ^ 31) by (apply Z.pow_le_mono_r; lia).
    rewrite u32_small by (unfold is_u32; lia). destruct (decide _) as [Hle|Hlt].
    + apply IH; lia.
    + do 2 f_equal. assert (Z.log2 j < k + 1) by (apply Z.log2_lt_pow2; lia).
      assert (k ≤ Z.log2 j) by (apply Z.log2_le_pow2; lia). lia.
Qed.

Definition ss_end (i : Z) (c : UCL_COMPRESS_T) : outcome UCL_COMPRESS_T := c ← putbit (odd i) c; putbit true c.

Lemma ss_end_emit i c : ss_end i c = emit [Bit (Z.testbit i 0); Bit true] c.
Proof.
  unfold ss_end. rewrite odd_bit, putbit_emit. rewrite (emit_bind _ [Bit true]); [done|].
  intros w. apply putbit_emit.
Qed.

Lemma bind_assoc {A B C} (m : outcome A) (f : A → outcome B) (g : B → outcome C) :
  ((m ≫= f) ≫= g) = (m ≫= (λ x, f x ≫= g)).
Proof. by destruct m. Qed.

Lemma ss11_put_emit fuel k j c :
  (1 ≤ k ≤ fuel)%nat →
  (c ← ss11_put fuel j (2 ^ Z.of_nat (S k)) c; ss_end j c) = emit (digits11 (S k) j) c.
Proof.
  revert k c. induction fuel as [|fuel IH]; intros k c Hk; [lia|]. cbn [ss11_put].
  rewrite half_pow, Nat2Z.inj_succ by lia. replace (Z.succ (Z.of_nat k) - 1) with (Z.of_nat k) by lia.
  rewrite mask_testbit, putbit_emit, bind_assoc by lia.
  change (digits11 (S k) j) with ([Bit (Z.testbit j (Z.of_nat k))] ++ [Bit (bool_decide (k = 0%nat))] ++ digits11 k j).
  apply emit_bind. intros w. rewrite putbit_emit, bind_assoc, bool_decide_false by lia.
  apply emit_bind. intros w'. destruct k as [|[|k]]; [lia| |].
  - rewrite decide_False by done. apply ss_end_emit.
  - rewrite decide_True. { apply IH. lia. }
    apply (Z.pow_lt_mono_r 2 1); lia.
Qed.

Lemma code_prefix_ss11_emit i c : 0 ≤ i < 2 ^ 31 - 2 → code_prefix_ss11 i c = emit (ss11_items i) c.
Proof.
  intros Hi. unfold code_prefix_ss11, ss11_items. destruct (decide (2 ≤ i)) as [H2|H2].
  - rewrite u32_small by (unfold is_u32; lia). change (ss11_top 32 (i + 2) 4) with (ss11_top 32 (i + 2) (2 ^ 2)).
    assert (Hlog : Z.log2 (i + 2) < 31) by (apply Z.log2_lt_pow2; lia).
    assert (Hlog2 : 2 ≤ Z.log2 (i + 2)) by (apply Z.log2_le_pow2; lia).
    rewrite ss11_top_run by lia. cbn [mbind outcome_bind].
    rewrite half_pow, Z.add_simpl_r, bind_assoc by lia. cbn [mbind outcome_bind].
    set (k := Z.to_nat (Z.log2 (i + 2) - 1)). replace (Z.log2 (i + 2)) with (Z.of_nat (S k)) by lia.
    rewrite Nat2Z.id. apply ss11_put_emit. lia.
  - assert (i = 0 ∨ i = 1) as [-> | ->] by lia; apply ss_end_emit.
Qed.

Lemma ss12_top_run fuel n i :
  2 * 4 ^ Z.of_nat n ≤ i < 2 ^ 31 → (16 ≤ n + fuel)%nat →
  ss12_top fuel i (2 * 4 ^ Z.of_nat n) =
    Ret ((steps12 fuel n i).2, 2 * 4 ^ Z.of_nat (steps12 fuel n i).1) ∧
  (n < (steps12 fuel n i).1 ≤ 15)%nat.
Proof.
  revert n i. induction fuel as [|fuel IH]; intros n i Hi Hf; change (2 * 4 ^ Z.of_nat n) with (2 ^ 1 * (2 ^ 2) ^ Z.of_nat n) in Hi.
  - exfalso. rewrite <-Z.pow_mul_r, <-Z.pow_add_r in Hi by lia.
    assert (2 ^ 31 ≤ 2 ^ (1 + 2 * Z.of_nat n)) by (apply Z.pow_le_mono_r; lia). lia.
  - assert (Hn : (n < 15)%nat).
    { rewrite <-Z.pow_mul_r, <-Z.pow_add_r in Hi by lia. assert (1 + 2 * Z.of_nat n < 31); [|lia].
      apply (Z.pow_lt_mono_r_iff 2); lia. }
    change (2 ^ 1 * (2 ^ 2) ^ Z.of_nat n) with (2 * 4 ^ Z.of_nat n) in Hi. cbn [ss12_top steps12].
    rewrite (decide_True (P := _ ≤ i)) by lia.
    assert (Hpos : 0 < 4 ^ Z.of_nat n) by (apply Z.pow_pos_nonneg; lia).
    assert (4 ^ Z.of_nat n ≤ 4 ^ 14) by (apply Z.pow_le_mono_r; lia).
    assert (E : 2 * 4 ^ Z.of_nat (S n) = 8 * 4 ^ Z.of_nat n).
    { rewrite Nat2Z.inj_succ, Z.pow_succ_r by lia. lia. }
    rewrite (u32_small (i - _)) by (unfold is_u32; lia). rewrite Z.shiftl_mul_pow2 by lia.
    change (2 ^ 2) with 4. rewrite (u32_small (_ * 4)) by (unfold is_u32; lia).
    replace (2 * 4 ^ Z.of_nat n * 4) with (2 * 4 ^ Z.of_nat (S n)) by lia.
    destruct (decide _) as [Hle|Hgt].
    + destruct (IH (S n) (i - 2 * 4 ^ Z.of_nat n)) as [IH1 IH2]; [lia|lia|]. split; [done|]. lia.
    + destruct fuel as [|fuel]; [split; [done|simpl; lia]|]. cbn [steps12].
      rewrite decide_False by done. simpl. split; [done|lia].
Qed.

Lemma ss12_put_emit fuel n i c :
  (n < fuel)%nat →
  (c ← ss12_put fuel i (2 * 4 ^ Z.of_nat (S n)) c; ss_end i c) = emit (digits12 (S n) i) c.
Proof.
  revert n c. induction fuel as [|fuel IH]; intros n c Hk; [lia|]. cbn [ss12_put].
  assert (E : 2 * 4 ^ Z.of_nat (S n) = 2 ^ Z.of_nat (2 * S n + 1)).
  { change 4 with (2 ^ 2). rewrite <-Z.pow_mul_r, <-Z.pow_succ_r by lia. f_equal. lia. }
  rewrite E, half_pow by lia. replace (Z.of_nat (2 * S n + 1) - 1) with (Z.of_nat (2 * S n)) by lia.
  rewrite half_pow by lia. replace (Z.of_nat (2 * S n) - 1) with (Z.of_nat (2 * n + 1)) by lia.
  change (digits12 (S n) i) with ([Bit (Z.testbit i (Z.of_nat (2 * S n)))] ++ [Bit false] ++
    [Bit (Z.testbit i (Z.of_nat (2 * n + 1)))] ++ digits12 n i).
  rewrite !mask_testbit, putbit_emit, bind_assoc by lia. apply emit_bind. intros w1.
  rewrite putbit_emit, bind_assoc. apply emit_bind. intros w2.
  rewrite putbit_emit, bind_assoc. apply emit_bind. intros w3. destruct n as [|n].
  - rewrite decide_False by done. apply ss_end_emit.
  - rewrite decide_True. 2:{ apply (Z.pow_lt_mono_r 2 1); lia. }
    replace (2 ^ Z.of_nat (2 * S n + 1)) with (2 * 4 ^ Z.of_nat (S n)). { apply IH. lia. }
    change 4 with (2 ^ 2). rewrite <-Z.pow_mul_r, <-Z.pow_succ_r by lia. f_equal. lia.
Qed.

Lemma code_prefix_ss12_emit i c : 0 ≤ i < 2 ^ 31 → code_prefix_ss12 i c = emit (ss12_items i) c.
Proof.
  intros Hi. unfold code_prefix_ss12, ss12_items. destruct (decide (2 ≤ i)) as [H2|H2].
  - destruct (ss12_top_run 32 0 i) as [E Hn]; [simpl; lia|lia|].
    change (2 * 4 ^ Z.of_nat 0) with 2 in E. rewrite E. destruct (steps12 32 0 i) as [n i'].
    cbn [mbind outcome_bind fst snd] in *. destruct n as [|n]; [lia|].
    rewrite bind_assoc. cbn [mbind outcome_bind]. apply ss12_put_emit. lia.
  - assert (i = 0 ∨ i = 1) as [-> | ->] by lia; apply ss_end_emit.
Qed.

(** *** Matches and runs *)

Lemma u32_pred x y : 0 ≤ x - y → 0 ≤ y → x < 2 ^ 32 → u32 (x - y) = x - y.
Proof. intros. apply u32_small. unfold is_u32. lia. Qed.

(** The byte of an offset, and a flag in its low bit. *)
Lemma offset_flag x (b : bool) :
  0 ≤ x → Z.lor (u32 (Z.shiftl (Z.land x 0x7f) 1)) (Z.b2z b) mod 256 = 2 * (x mod 128) + Z.b2z b.
Proof.
  intros Hx. change 0x7f with (Z.ones 7). rewrite Z.land_ones by lia. change (2 ^ 7) with 128.
  pose proof (Z.mod_pos_bound x 128 ltac:(lia)) as Hm. rewrite Z.shiftl_mul_pow2 by lia. change (2 ^ 1) with 2.
  rewrite u32_small by (unfold is_u32; lia). rewrite Z.lor_comm, <-Z.add_nocarry_lor.
  - rewrite Z.mod_small; destruct b; simpl; lia.
  - apply Z.bits_inj'. intros n Hn. rewrite Z.land_spec, Z.bits_0.
    destruct (decide (n = 0)) as [->|]; [|destruct b; [by rewrite Z.bits_above_log2 by (simpl; lia)|by rewrite Z.bits_0]].
    rewrite Z.mul_comm, Z.testbit_even_0. by rewrite andb_false_r.
Qed.

Lemma decide_emit (P : Prop) `{Decision P} (m1 m2 : outcome UCL_COMPRESS_T) l1 l2 c :
  (P → m1 = emit l1 c) → (¬ P → m2 = emit l2 c) →
  (if decide P then m1 else m2) = emit (if decide P then l1 else l2) c.
Proof. intros H1 H2. destruct (decide P); auto. Qed.

Section match_emit.
  Context (m_len m_off : Z) (c : UCL_COMPRESS_T).
  Context (Hoff : 1 ≤ m_off ≤ SWD_N).

Let page (k : Z) : 0 ≤ k → 0 ≤ 1 + Z.shiftr (m_off - 1) k < 2 ^ 31 - 2.
Proof.
  intros Hk. rewrite Z.shiftr_div_pow2 by done. unfold SWD_N in Hoff.
  assert (0 < 2 ^ k) by (apply Z.pow_pos_nonneg; lia).
  assert (0 ≤ (m_off - 1) / 2 ^ k ≤ m_off - 1); [|lia].
  split; [apply Z.div_pos; lia|].
  pose proof (Z.div_le_compat_l (m_off - 1) 1 (2 ^ k)). rewrite Z.div_1_r in *. lia.
Qed.

Let page_u32 (k : Z) : 0 ≤ k →
  u32 (1 + Z.shiftr (u32 (m_off - 1)) k) = 1 + Z.shiftr (m_off - 1) k.
Proof.
  intros Hk. unfold SWD_N in Hoff. rewrite (u32_small (m_off - 1)) by (unfold is_u32; lia).
  apply u32_small. pose proof (page k Hk). unfold is_u32. lia.
Qed.

Lemma offset_b_emit :
  (if decide (m_off = c_last_m_off c) then c ← putbit false c; putbit true c
   else c ← code_prefix_ss11 (u32 (1 + Z.shiftr (u32 (m_off - 1)) 8)) c; Ret (putbyte (u32 (m_off - 1)) c)) =
  emit (if decide (m_off = c_last_m_off c) then [Bit false; Bit true]
        else ss11_items (1 + Z.shiftr (m_off - 1) 8) ++ [Byte ((m_off - 1) mod 256)]) c.
Proof.
  apply decide_emit; intros _.
  - rewrite putbit_emit. apply (emit_bind [_] [_]). intros w. apply putbit_emit.
  - pose proof (page 8 ltac:(lia)). rewrite page_u32, code_prefix_ss11_emit by lia. apply emit_bind. intros w.
    apply putbyte_emit. unfold SWD_N in Hoff. by rewrite u32_small by (unfold is_u32; lia).
Qed.

Lemma offset_de_emit (b : bool) :
  (c ← code_prefix_ss12 (u32 (1 + Z.shiftr (u32 (m_off - 1)) 7)) c;
   Ret (putbyte (Z.lor (u32 (Z.shiftl (Z.land (u32 (m_off - 1)) 0x7f) 1)) (Z.b2z b)) c)) =
  emit (ss12_items (1 + Z.shiftr (m_off - 1) 7) ++ [Byte (2 * ((m_off - 1) mod 128) + Z.b2z b)]) c.
Proof.
  pose proof (page 7 ltac:(lia)). rewrite page_u32, code_prefix_ss12_emit by lia. apply emit_bind.
  intros w. apply putbyte_emit. unfold SWD_N in Hoff. rewrite (u32_small (m_off - 1)) by (unfold is_u32; lia).
  apply offset_flag. lia.
Qed.

Lemma offset_low_emit low :
  (if decide (m_off = c_last_m_off c) then
     c ← putbit false c; c ← putbit true c; c ← putbit (bool_decide (1 < low)) c; putbit (odd low) c
   else
     c ← code_prefix_ss12 (u32 (1 + Z.shiftr (u32 (m_off - 1)) 7)) c;
     putbit (odd low) (putbyte (Z.lor (u32 (Z.shiftl (Z.land (u32 (m_off - 1)) 0x7f) 1))
                                  (if decide (1 < low) then 0 else 1)) c)) =
  emit (if decide (m_off = c_last_m_off c) then [Bit false; Bit true; Bit (bool_decide (1 < low)); Bit (odd low)]
        else ss12_items (1 + Z.shiftr (m_off - 1) 7) ++
             [Byte (2 * ((m_off - 1) mod 128) + Z.b2z (negb (bool_decide (1 < low)))); Bit (odd low)]) c.
Proof.
  apply decide_emit; intros _.
  - rewrite putbit_emit. apply (emit_bind [_] [_; _; _]). intros w. rewrite putbit_emit.
    apply (emit_bind [_] [_; _]). intros w1. rewrite putbit_emit. apply (emit_bind [_] [_]).
    intros w2. apply putbit_emit.
  - replace (if decide (1 < low) then 0 else 1) with (Z.b2z (negb (bool_decide (1 < low)))).
    2:{ destruct (decide _); [by rewrite bool_decide_true|by rewrite bool_decide_false]. }
    set (b := negb _). pose proof (offset_de_emit b) as E.
    rewrite cons_middle, (app_assoc (ss12_items _)).
    erewrite <-(emit_bind _ _ (putbit (odd low))); [|intros w; apply putbit_emit].
    by rewrite <-E, bind_assoc.
Qed.

Lemma offset_flag_emit low :
  (if decide (m_off = c_last_m_off c) then
     c ← putbit false c; c ← putbit true c; putbit (negb (bool_decide (Z.b2z low = 0))) c
   else
     c ← code_prefix_ss12 (u32 (1 + Z.shiftr (u32 (m_off - 1)) 7)) c;
     Ret (putbyte (Z.lor (u32 (Z.shiftl (Z.land (u32 (m_off - 1)) 0x7f) 1)) (Z.lxor (Z.b2z low) 1)) c)) =
  emit (if decide (m_off = c_last_m_off c) then [Bit false; Bit true; Bit low]
        else ss12_items (1 + Z.shiftr (m_off - 1) 7) ++
             [Byte (2 * ((m_off - 1) mod 128) + Z.b2z (negb low))]) c.
Proof.
  apply decide_emit; intros _.
  - replace (negb (bool_decide (Z.b2z low = 0))) with low by (by destruct low).
    rewrite putbit_emit. apply (emit_bind [_] [_; _]). intros w. rewrite putbit_emit.
    apply (emit_bind [_] [_]). intros w1. apply putbit_emit.
  - replace (Z.lxor (Z.b2z low) 1) with (Z.b2z (negb low)) by (by destruct low). apply offset_de_emit.
Qed.
End match_emit.

Lemma code_one_match_emit f m_len m_off c :
  1 ≤ m_off ≤ SWD_N → 2 + Z.b2z (bool_decide (M2_MAX_OFFSET f < m_off)) ≤ m_len < 2 ^ 31 →
  code_one_match f m_len m_off c =
    (c' ← emit (Bit false :: match_items f (c_last_m_off c) m_len m_off) (count_match m_len m_off c);
     Ret (set_last_m_off m_off c')).
Proof.
  intros Hoff Hlen. unfold code_one_match.
  replace (c_last_m_off c) with (c_last_m_off (count_match m_len m_off c)).
  2:{ unfold count_match. by destruct (c_result c) as [[??]?]. }
  generalize (count_match m_len m_off c). clear c. intros c. rewrite putbit_emit.
  set (len := m_len - 1 - Z.b2z (bool_decide (M2_MAX_OFFSET f < m_off))).
  assert (Hb : 0 ≤ Z.b2z (bool_decide (M2_MAX_OFFSET f < m_off)) ≤ 1) by (by case_bool_decide).
  assert (E : u32 (u32 (m_len - 1) - Z.b2z (bool_decide (M2_MAX_OFFSET f < m_off))) = len).
  { rewrite !u32_pred by (rewrite ?u32_pred; lia). done. }
  cbv zeta. rewrite E. clear E. rewrite <-bind_assoc. f_equal.
  apply (emit_bind [_]). intros w. cbn [c_last_m_off set_bits].
  assert (Hlen' : 1 ≤ len < 2 ^ 31 - 1) by lia. unfold match_items. fold len.
  clearbody len. clear Hb Hlen. set (c1 := set_bits w c). change (c_last_m_off c) with (c_last_m_off c1).
  clearbody c1. clear c w. destruct f.
  - rewrite offset_b_emit by done. apply emit_bind. intros w. apply decide_emit; intros Hl.
    + rewrite putbit_emit. apply (emit_bind [_] (_ :: _)). intros w1. rewrite putbit_emit.
      apply (emit_bind [_]). intros w2. apply code_prefix_ss11_emit. lia.
    + rewrite putbit_emit. apply (emit_bind [_] [_]). intros w1. apply putbit_emit.
  - set (low := if decide (4 ≤ len) then 0 else len). rewrite offset_low_emit by done.
    apply emit_bind. intros w. apply decide_emit; intros Hl; [apply code_prefix_ss11_emit; lia|by rewrite emit_nil].
  - set (low := bool_decide (len ≤ 2)). rewrite offset_flag_emit by done. apply emit_bind. intros w.
    unfold low. destruct (decide (len ≤ 2)) as [H2|H2].
    + rewrite (bool_decide_true (len ≤ 2)), decide_True by done. rewrite u32_pred, putbit_emit by lia.
      do 3 f_equal. rewrite <-bool_decide_not. apply bool_decide_ext. lia.
    + rewrite (bool_decide_false (len ≤ 2)), (decide_False (P := Z.b2z false ≠ 0)) by auto.
      apply decide_emit; intros H4.
      * rewrite putbit_emit. apply (emit_bind [_] [_]). intros w1. rewrite u32_pred, putbit_emit by lia.
        do 3 f_equal. rewrite <-bool_decide_not. apply bool_decide_ext. lia.
      * rewrite putbit_emit. apply (emit_bind [_]). intros w1. apply code_prefix_ss11_emit. lia.
Qed.

Lemma put_literals_emit lits c : bytes_ok lits → put_literals lits c = emit (run_items lits) c.
Proof.
  intros Hl. revert c. induction Hl as [|x lits Hx Hl IH]; intros c; [by rewrite emit_nil|].
  cbn [put_literals run_items flat_map app]. rewrite putbit_emit. apply (emit_bind [_]). intros w. rewrite IH.
  change (Byte x :: _) with ([Byte x] ++ run_items lits).
  rewrite <-(emit_bind [Byte x] (run_items lits) (emit (run_items lits)) _ ltac:(done)).
  by rewrite <-(putbyte_emit x x) by (by apply Z.mod_small).
Qed.

(** What the encoder keeps beside the stream. *)
Definition same_limits (c c' : UCL_COMPRESS_T) : Prop :=
  c_max_match c' = c_max_match c ∧ c_max_offset c' = c_max_offset c.
Definition coded_bytes (c : UCL_COMPRESS_T) : Z := c_lit_bytes c + c_match_bytes c.

Lemma code_run_emit lits c w :
  bytes_ok lits → put_items (run_items lits) (c_bits c) = Ret w →
  ∃ c', code_run lits c = Ret c' ∧ c_bits c' = w ∧ same_limits c c' ∧ c_last_m_off c' = c_last_m_off c ∧
    coded_bytes c' = coded_bytes c + Z.of_nat (length lits).
Proof.
  intros Hl Hw. unfold code_run. destruct lits as [|x lits].
  - simpl in Hw. simplify_eq. exists c. split_and!; try done. simpl. lia.
  - rewrite decide_False by (simpl; lia). rewrite put_literals_emit by done.
    unfold count_run. destruct (c_result c) as [[r1 r3] r5]. unfold emit. cbn [c_bits]. rewrite Hw.
    eexists. split; [done|]. split_and!; try done. unfold coded_bytes. cbn. lia.
Qed.

Lemma code_match_emit n f m_len m_off c w :
  m_len ≤ c_max_match c → 1 ≤ m_off ≤ SWD_N →
  2 + Z.b2z (bool_decide (M2_MAX_OFFSET f < m_off)) ≤ m_len < 2 ^ 31 →
  put_items (Bit false :: match_items f (c_last_m_off c) m_len m_off) (c_bits c) = Ret w →
  ∃ c', code_match (S n) f m_len m_off c = Ret c' ∧ c_bits c' = w ∧ same_limits c c' ∧ c_last_m_off c' = m_off ∧
    coded_bytes c' = coded_bytes c + m_len.
Proof.
  intros Hm Hoff Hlen Hw. cbn [code_match]. rewrite decide_False by lia.
  rewrite code_one_match_emit by done. unfold count_match.
  destruct (c_result c) as [[r1 r3] r5]. unfold emit. cbn [c_bits c_last_m_off]. rewrite Hw.
  eexists. split; [done|]. split_and!; try done. unfold coded_bytes. cbn. lia.
Qed.

Lemma put_items_app_inv l1 l2 w w2 :
  put_items (l1 ++ l2) w = Ret w2 → ∃ w1, put_items l1 w = Ret w1 ∧ put_items l2 w1 = Ret w2.
Proof. rewrite put_items_app. apply bind_Ret. Qed.

(** The end mark, then the flush. *)
Lemma code_eof_emit f c w :
  put_items (Bit false :: eof_items f) (c_bits c) = Ret w →
  code_eof f c = (w' ← bbFlushBits false w; Ret (set_bits w' c)).
Proof.
  intros Hw. apply (put_items_app_inv [Bit false]) in Hw as (w2 & Hw2 & Hw).
  apply put_items_app_inv in Hw as (w3 & Hw3 & Hw).
  transitivity (c ← emit (match f with NRV2B => ss11_items 0x1000000 | _ => ss12_items 0x1000000 end)
      (set_bits w2 c); w ← bbFlushBits false (c_bits (putbyte 255 c)); Ret (set_bits w (putbyte 255 c))).
  { unfold code_eof. rewrite putbit_emit. unfold emit at 1. rewrite Hw2. cbn [mbind outcome_bind].
    destruct f; by rewrite ?code_prefix_ss11_emit, ?code_prefix_ss12_emit by lia. }
  unfold emit. cbn [c_bits set_bits]. rewrite Hw3. cbn [mbind outcome_bind].
  cbn [put_items] in Hw. simplify_eq. done.
Qed.

(** The encoder writes the stream of the division, then flushes. *)
Lemma nrv_compress_emit f ps final out c w :
  Forall (λ p, p_len p ≤ c_max_match c) ps → pieces_ok f out ps → bytes_ok final →
  put_items (stream f (c_last_m_off c) ps final) (c_bits c) = Ret w →
  ∃ c', nrv_compress f ps final c = (w' ← bbFlushBits false w; Ret (set_bits w' c')).
Proof.
  intros Hm Hps Hfin. revert out c Hm Hps. induction ps as [|p ps IH]; intros out c Hm Hps Hw.
  - cbn [stream] in Hw. apply put_items_app_inv in Hw as (w1 & Hw1 & Hw).
    destruct (code_run_emit final c w1 Hfin Hw1) as (c1 & E1 & <- & _ & _). unfold nrv_compress. cbn [code_pieces].
    cbn [mbind outcome_bind]. rewrite E1. exists c1. by apply code_eof_emit.
  - cbn [stream] in Hw. apply put_items_app_inv in Hw as (w1 & Hw1 & Hw).
    rewrite app_comm_cons in Hw. apply put_items_app_inv in Hw as (w2 & Hw2 & Hw).
    destruct Hps as (Hrun & (Hoff & Hoff' & Hlen) & Hps).
    apply Forall_cons in Hm as [Hm Hms].
    destruct (code_run_emit (p_run p) c w1 Hrun Hw1) as (c1 & E1 & <- & [Hm1 _] & Hl1 & _). rewrite <-Hl1 in Hw2.
    destruct (code_match_emit (Z.to_nat (p_len p)) f (p_len p) (p_off p) c1 w2) as (c2 & E2 & <- & [Hm2 _] & Hl2 & _);
      [by rewrite Hm1|lia|done|done|].
    destruct (IH _ c2 ltac:(by rewrite Hm2, Hm1) Hps) as (c' & Hc'); [by rewrite Hl2|].
    exists c'. rewrite <-Hc'. unfold nrv_compress. cbn [code_pieces]. rewrite E1. cbn [mbind outcome_bind].
    by rewrite E2.
Qed.

(** *** Divisions *)

Lemma lz_copy_length n off out : length (lz_copy n off out) = (length out + n)%nat.
Proof. revert out. induction n as [|n IH]; intros out; simpl; [lia|]. rewrite IH, length_app. simpl. lia. Qed.

Lemma expand_length out ps : (length out ≤ length (expand out ps))%nat.
Proof.
  revert out. induction ps as [|p ps IH]; intros out; simpl; [lia|].
  etrans; [|apply IH]. rewrite lz_copy_length, length_app. lia.
Qed.

Lemma b2z_range b : 0 ≤ Z.b2z b ≤ 1.
Proof. by destruct b. Qed.
