(* ===== verification/UclChecksum.v ===== *)
(** * The checksums of the packer's library (packers/exepak-1.5/ucl-1.02/src)

    [ucl_adler32] of ucl_util.c, which puts off the reduction of its two sums
    for as long as they fit, and [ucl_crc32] of ucl_crc.c, which takes a byte at
    a time through a table.  Both are compared with their definitions. *)

From S2P Require Import Prelude UclBits UclEncode.

(** ** The macros both files have: one byte, and sixteen *)

Section unrolled.
  Context {S : Type} (step : S → Z → S) (buf : list Z).

(** [UCL_DO1(buf,i)] *)
Definition UCL_DO1 (i : Z) (s : S) : outcome S := x ← src_get buf i; Ret (step s x).
Definition UCL_DO2 (i : Z) (s : S) : outcome S := s ← UCL_DO1 i s; UCL_DO1 (i + 1) s.
Definition UCL_DO4 (i : Z) (s : S) : outcome S := s ← UCL_DO2 i s; UCL_DO2 (i + 2) s.
Definition UCL_DO8 (i : Z) (s : S) : outcome S := s ← UCL_DO4 i s; UCL_DO4 (i + 4) s.
Definition UCL_DO16 (i : Z) (s : S) : outcome S := s ← UCL_DO8 i s; UCL_DO8 (i + 8) s.

(** [if (k >= 16) do { UCL_DO16(buf,0); buf += 16; k -= 16; } while (k >= 16);]
    and what is left of [k]; [p] is where [buf] has got to. *)
Fixpoint do16_loop (fuel : nat) (p k : Z) (s : S) : outcome (Z * Z * S) :=
  if decide (16 ≤ k) then
    match fuel with
    | O => Err OutOfFuel
    | Datatypes.S n => s ← UCL_DO16 p s; do16_loop n (p + 16) (k - 16) s
    end
  else Ret (p, k, s).

(** [if (k != 0) do { ... *buf++ ... } while (--k > 0);] *)
Fixpoint rest_loop (k : nat) (p : Z) (s : S) : outcome (Z * S) :=
  match k with
  | O => Ret (p, s)
  | Datatypes.S n => s ← UCL_DO1 p s; rest_loop n (p + 1) s
  end.

Definition do_bytes (p k : Z) (s : S) : outcome (Z * S) :=
  '(p, k, s) ← do16_loop (Z.to_nat k) p k s; rest_loop (Z.to_nat k) p s.
End unrolled.

(** ** ucl_util.c *)

Definition UCL_BASE : Z := 65521.
Definition UCL_NMAX : Z := 5552.

(** [s1 += buf[i]; s2 += s1;] *)
Definition adler_step (s : Z * Z) (x : Z) : Z * Z := let s1 := u32 (s.1 + x) in (s1, u32 (s.2 + s1)).

(** [while (len > 0) { ... s1 %= UCL_BASE; s2 %= UCL_BASE; }] *)
Fixpoint adler_loop (fuel : nat) (buf : list Z) (p len : Z) (s : Z * Z) : outcome (Z * Z) :=
  if decide (0 < len) then
    match fuel with
    | O => Err OutOfFuel
    | S n =>
        let k := if decide (len < UCL_NMAX) then len else UCL_NMAX in
        '(p, s) ← do_bytes adler_step buf p k s;
        adler_loop n buf p (len - k) (s.1 mod UCL_BASE, s.2 mod UCL_BASE)
    end
  else Ret s.

(** [buf] is [None] for a null pointer. *)
Definition ucl_adler32 (adler : Z) (buf : option (list Z)) (len : Z) : outcome Z :=
  let s1 := Z.land adler 0xffff in
  let s2 := Z.land (Z.shiftr adler 16) 0xffff in
  match buf with
  | None => Ret 1
  | Some buf => s ← adler_loop (Z.to_nat len) buf 0 len (s1, s2); Ret (Z.lor (u32 (Z.shiftl s.2 16)) s.1)
  end.

(** ** ucl_crc.c *)

Definition ucl_crc32_table : list Z := [
  0x00000000; 0x77073096; 0xee0e612c; 0x990951ba; 0x076dc419; 0x706af48f; 0xe963a535; 0x9e6495a3;
  0x0edb8832; 0x79dcb8a4; 0xe0d5e91e; 0x97d2d988; 0x09b64c2b; 0x7eb17cbd; 0xe7b82d07; 0x90bf1d91;
  0x1db71064; 0x6ab020f2; 0xf3b97148; 0x84be41de; 0x1adad47d; 0x6ddde4eb; 0xf4d4b551; 0x83d385c7;
  0x136c9856; 0x646ba8c0; 0xfd62f97a; 0x8a65c9ec; 0x14015c4f; 0x63066cd9; 0xfa0f3d63; 0x8d080df5;
  0x3b6e20c8; 0x4c69105e; 0xd56041e4; 0xa2677172; 0x3c03e4d1; 0x4b04d447; 0xd20d85fd; 0xa50ab56b;
  0x35b5a8fa; 0x42b2986c; 0xdbbbc9d6; 0xacbcf940; 0x32d86ce3; 0x45df5c75; 0xdcd60dcf; 0xabd13d59;
  0x26d930ac; 0x51de003a; 0xc8d75180; 0xbfd06116; 0x21b4f4b5; 0x56b3c423; 0xcfba9599; 0xb8bda50f;
  0x2802b89e; 0x5f058808; 0xc60cd9b2; 0xb10be924; 0x2f6f7c87; 0x58684c11; 0xc1611dab; 0xb6662d3d;
  0x76dc4190; 0x01db7106; 0x98d220bc; 0xefd5102a; 0x71b18589; 0x06b6b51f; 0x9fbfe4a5; 0xe8b8d433;
  0x7807c9a2; 0x0f00f934; 0x9609a88e; 0xe10e9818; 0x7f6a0dbb; 0x086d3d2d; 0x91646c97; 0xe6635c01;
  0x6b6b51f4; 0x1c6c6162; 0x856530d8; 0xf262004e; 0x6c0695ed; 0x1b01a57b; 0x8208f4c1; 0xf50fc457;
  0x65b0d9c6; 0x12b7e950; 0x8bbeb8ea; 0xfcb9887c; 0x62dd1ddf; 0x15da2d49; 0x8cd37cf3; 0xfbd44c65;
  0x4db26158; 0x3ab551ce; 0xa3bc0074; 0xd4bb30e2; 0x4adfa541; 0x3dd895d7; 0xa4d1c46d; 0xd3d6f4fb;
  0x4369e96a; 0x346ed9fc; 0xad678846; 0xda60b8d0; 0x44042d73; 0x33031de5; 0xaa0a4c5f; 0xdd0d7cc9;
  0x5005713c; 0x270241aa; 0xbe0b1010; 0xc90c2086; 0x5768b525; 0x206f85b3; 0xb966d409; 0xce61e49f;
  0x5edef90e; 0x29d9c998; 0xb0d09822; 0xc7d7a8b4; 0x59b33d17; 0x2eb40d81; 0xb7bd5c3b; 0xc0ba6cad;
  0xedb88320; 0x9abfb3b6; 0x03b6e20c; 0x74b1d29a; 0xead54739; 0x9dd277af; 0x04db2615; 0x73dc1683;
  0xe3630b12; 0x94643b84; 0x0d6d6a3e; 0x7a6a5aa8; 0xe40ecf0b; 0x9309ff9d; 0x0a00ae27; 0x7d079eb1;
  0xf00f9344; 0x8708a3d2; 0x1e01f268; 0x6906c2fe; 0xf762575d; 0x806567cb; 0x196c3671; 0x6e6b06e7;
  0xfed41b76; 0x89d32be0; 0x10da7a5a; 0x67dd4acc; 0xf9b9df6f; 0x8ebeeff9; 0x17b7be43; 0x60b08ed5;
  0xd6d6a3e8; 0xa1d1937e; 0x38d8c2c4; 0x4fdff252; 0xd1bb67f1; 0xa6bc5767; 0x3fb506dd; 0x48b2364b;
  0xd80d2bda; 0xaf0a1b4c; 0x36034af6; 0x41047a60; 0xdf60efc3; 0xa867df55; 0x316e8eef; 0x4669be79;
  0xcb61b38c; 0xbc66831a; 0x256fd2a0; 0x5268e236; 0xcc0c7795; 0xbb0b4703; 0x220216b9; 0x5505262f;
  0xc5ba3bbe; 0xb2bd0b28; 0x2bb45a92; 0x5cb36a04; 0xc2d7ffa7; 0xb5d0cf31; 0x2cd99e8b; 0x5bdeae1d;
  0x9b64c2b0; 0xec63f226; 0x756aa39c; 0x026d930a; 0x9c0906a9; 0xeb0e363f; 0x72076785; 0x05005713;
  0x95bf4a82; 0xe2b87a14; 0x7bb12bae; 0x0cb61b38; 0x92d28e9b; 0xe5d5be0d; 0x7cdcefb7; 0x0bdbdf21;
  0x86d3d2d4; 0xf1d4e242; 0x68ddb3f8; 0x1fda836e; 0x81be16cd; 0xf6b9265b; 0x6fb077e1; 0x18b74777;
  0x88085ae6; 0xff0f6a70; 0x66063bca; 0x11010b5c; 0x8f659eff; 0xf862ae69; 0x616bffd3; 0x166ccf45;
  0xa00ae278; 0xd70dd2ee; 0x4e048354; 0x3903b3c2; 0xa7672661; 0xd06016f7; 0x4969474d; 0x3e6e77db;
  0xaed16a4a; 0xd9d65adc; 0x40df0b66; 0x37d83bf0; 0xa9bcae53; 0xdebb9ec5; 0x47b2cf7f; 0x30b5ffe9;
  0xbdbdf21c; 0xcabac28a; 0x53b39330; 0x24b4a3a6; 0xbad03605; 0xcdd70693; 0x54de5729; 0x23d967bf;
  0xb3667a2e; 0xc4614ab8; 0x5d681b02; 0x2a6f2b94; 0xb40bbe37; 0xc30c8ea1; 0x5a05df1b; 0x2d02ef8d].

(** [crc = table[((int)crc ^ buf[i]) & 0xff] ^ (crc >> 8)] *)
Definition crc_step (crc x : Z) : Z :=
  Z.lxor (nth (Z.to_nat (Z.land (Z.lxor crc x) 0xff)) ucl_crc32_table 0) (Z.shiftr crc 8).

Definition ucl_crc32 (c : Z) (buf : option (list Z)) (len : Z) : outcome Z :=
  match buf with
  | None => Ret 0
  | Some buf =>
      let crc := Z.lxor (Z.land c 0xffffffff) 0xffffffff in
      '(_, crc) ← do_bytes crc_step buf 0 len crc;
      Ret (Z.lxor crc 0xffffffff)
  end.

(** ** The loops go through the bytes in order *)

Section run.
  Context {S : Type} (step : S → Z → S) (buf : list Z).

(** [s'] comes from [s] by the bytes from [p] to [p + n]. *)
Definition passed (p : Z) (n : nat) (s : S) : S := foldl step s (take n (drop (Z.to_nat p) buf)).

Lemma passed_more p q n m s : 0 ≤ p → q = p + Z.of_nat n → passed q m (passed p n s) = passed p (n + m) s.
Proof.
  intros Hp ->. unfold passed. rewrite <-foldl_app. f_equal.
  rewrite <-(take_drop n (take (n + m) (drop (Z.to_nat p) buf))), take_take, Nat.min_l by lia. f_equal.
  rewrite skipn_firstn_comm, drop_drop. f_equal; [lia|f_equal; lia].
Qed.

(** [f] is a block of [n] bytes. *)
Definition block (f : Z → S → outcome S) (n : nat) : Prop := ∀ p s,
  0 ≤ p → p + Z.of_nat n ≤ Z.of_nat (length buf) → f p s = Ret (passed p n s).

Lemma DO1_run : block (UCL_DO1 step buf) 1.
Proof.
  intros p s Hp Hl. unfold UCL_DO1, src_get, passed. rewrite decide_True by lia.
  destruct (lookup_lt_is_Some_2 buf (Z.to_nat p)) as [x Hx]; [lia|]. rewrite Hx, (drop_S _ _ _ Hx). by simpl.
Qed.

Lemma block_twice f n : block f n → block (λ p s, s ← f p s; f (p + Z.of_nat n) s) (n + n).
Proof. intros Hf p s Hp Hl. rewrite Hf by lia. simpl. rewrite Hf by lia. by rewrite (passed_more p). Qed.

Lemma DO16_run : block (UCL_DO16 step buf) 16.
Proof. exact (block_twice _ 8 (block_twice _ 4 (block_twice _ 2 (block_twice _ 1 DO1_run)))). Qed.

Lemma do16_run fuel p k s :
  (Z.to_nat k ≤ fuel)%nat → 0 ≤ p → 0 ≤ k → p + k ≤ Z.of_nat (length buf) →
  do16_loop step buf fuel p k s =
    Ret (p + k - k mod 16, k mod 16, passed p (Z.to_nat (k - k mod 16)) s).
Proof.
  revert p k s. induction fuel as [|fuel IH]; intros p k s Hf Hp Hk Hl; cbn [do16_loop]; destruct (decide (16 ≤ k)) as [H16|H16].
  - lia.
  - rewrite Z.mod_small, Z.sub_diag by lia. unfold passed. simpl. repeat f_equal. lia.
  - rewrite DO16_run by lia. simpl. rewrite IH by lia.
    assert (Em : (k - 16) mod 16 = k mod 16).
    { replace (k - 16) with (k + (-1) * 16) by lia. apply Z.mod_add. lia. }
    rewrite Em. pose proof (Z.mod_pos_bound k 16 ltac:(lia)). pose proof (Z.mod_le (k - 16) 16 ltac:(lia) ltac:(lia)).
    rewrite (passed_more p) by lia.
    replace (p + 16 + (k - 16) - k mod 16) with (p + k - k mod 16) by lia.
    by replace (16 + _)%nat with (Z.to_nat (k - k mod 16)) by lia.
  - rewrite Z.mod_small, Z.sub_diag by lia. unfold passed. simpl. repeat f_equal. lia.
Qed.

Lemma rest_run k p s : 0 ≤ p → p + Z.of_nat k ≤ Z.of_nat (length buf) →
  rest_loop step buf k p s = Ret (p + Z.of_nat k, passed p k s).
Proof.
  revert p s. induction k as [|k IH]; intros p s Hp Hl; cbn [rest_loop].
  - unfold passed. simpl. by rewrite Z.add_0_r.
  - rewrite DO1_run by lia. simpl. rewrite IH by lia. rewrite (passed_more p) by lia.
    by replace (p + 1 + Z.of_nat k) with (p + Z.of_nat (Datatypes.S k)) by lia.
Qed.

Lemma do_bytes_run p k s : 0 ≤ p → 0 ≤ k → p + k ≤ Z.of_nat (length buf) →
  do_bytes step buf p k s = Ret (p + k, passed p (Z.to_nat k) s).
Proof.
  intros Hp Hk Hl. unfold do_bytes. rewrite do16_run by lia. simpl.
  pose proof (Z.mod_pos_bound k 16 ltac:(lia)). pose proof (Z.mod_le k 16 Hk ltac:(lia)).
  rewrite rest_run by lia. rewrite (passed_more p) by lia.
  replace (_ + Z.of_nat (Z.to_nat (k mod 16))) with (p + k) by lia. by replace (_ + _)%nat with (Z.to_nat k) by lia.
Qed.
End run.

(** ** Adler's sums *)

(** What the file means to compute: each sum reduced at every byte. *)
Definition adler_sums (s : Z * Z) (bs : list Z) : Z * Z :=
  foldl (λ s x, let s1 := (s.1 + x) mod UCL_BASE in (s1, (s.2 + s1) mod UCL_BASE)) s bs.
Definition adler_of (s : Z * Z) : Z := s.2 * 65536 + s.1.
Definition sums_of (adler : Z) : Z * Z := (adler mod 65536, adler / 65536 mod 65536).
Definition adler_spec (adler : Z) (bs : list Z) : Z := adler_of (adler_sums (sums_of adler) bs).

(** As long as the sums fit, they may be reduced at the end. *)
Definition fits (n : Z) (s : Z * Z) : Prop :=
  0 ≤ s.1 ∧ 0 ≤ s.2 ∧ 2 * s.2 + 2 * n * s.1 + 255 * (n * (n + 1)) < 2 ^ 33 ∧ s.1 + 255 * n < 2 ^ 32.

(** Two sixteen-bit halves, as the checksum packs them *)
Definition halves (s : Z * Z) : Prop := is_u16 s.1 ∧ is_u16 s.2.

(** The comment on [UCL_NMAX], for any checksum to start from: the halves of a
    checksum need not be below [UCL_BASE] for it. *)
Lemma nmax_fits n s : 0 ≤ n ≤ UCL_NMAX → halves s → fits n s.
Proof. intros Hn [H1 H2]. unfold is_u16, fits, UCL_NMAX in *. split_and!; [lia|lia| |lia]. assert (n * s.1 ≤ 5552 * 65535 ∧ n * (n + 1) ≤ 5552 * 5553) by nia. lia. Qed.

Definition congr (s t : Z * Z) : Prop := s.1 mod UCL_BASE = t.1 mod UCL_BASE ∧ s.2 mod UCL_BASE = t.2 mod UCL_BASE.

Lemma sums_congr bs : ∀ s t, bytes_ok bs → fits (Z.of_nat (length bs)) s → congr s t →
  congr (foldl adler_step s bs) (adler_sums t bs).
Proof.
  induction bs as [|x bs IH]; intros s t Hb Hf [H1 H2]; [done|]. cbn [foldl adler_sums].
  apply Forall_cons in Hb as [Hx Hb]. destruct Hf as (Hs1 & Hs2 & Hf2 & Hf1). rewrite length_cons in Hf1, Hf2.
  set (n := Z.of_nat (length bs)) in *. replace (Z.of_nat (S (length bs))) with (n + 1) in * by lia.
  assert (E : adler_step s x = (s.1 + x, s.2 + (s.1 + x))).
  { unfold adler_step. rewrite (u32_small (s.1 + x)) by (unfold is_u32; lia). by rewrite u32_small by (unfold is_u32; nia). }
  rewrite E. apply IH; [done| |].
  - unfold fits. cbn [fst snd]. split_and!; [lia|lia|nia|lia].
  - split; cbn [fst snd]; rewrite ?Zmod_mod.
    + by rewrite <-Zplus_mod_idemp_l, H1, Zplus_mod_idemp_l.
    + rewrite Zplus_mod_idemp_r, <-Zplus_mod_idemp_l, H2, Zplus_mod_idemp_l.
      rewrite <-(Zplus_mod_idemp_r (s.1 + x)), <-(Zplus_mod_idemp_l s.1), H1, Zplus_mod_idemp_l. by rewrite Zplus_mod_idemp_r.
Qed.

(** After a byte the sums are reduced. *)
Lemma sums_reduced s bs : bs ≠ [] →
  let t := adler_sums s bs in 0 ≤ t.1 < UCL_BASE ∧ 0 ≤ t.2 < UCL_BASE.
Proof.
  intros Hne. destruct bs as [|x bs _] using rev_ind; [done|]. unfold adler_sums. rewrite foldl_app. cbn [foldl fst snd].
  split; by apply Z.mod_pos_bound.
Qed.

Lemma sums_halves s bs : halves s → halves (adler_sums s bs).
Proof.
  intros Hs. destruct bs as [|x bs]; [done|]. destruct (sums_reduced s (x :: bs)) as [H1 H2]; [done|].
  unfold halves, is_u16, UCL_BASE in *. lia.
Qed.

(** One round of the outer loop *)
Lemma reduce_run s bs : bs ≠ [] → bytes_ok bs → Z.of_nat (length bs) ≤ UCL_NMAX → halves s →
  let t := foldl adler_step s bs in (t.1 mod UCL_BASE, t.2 mod UCL_BASE) = adler_sums s bs.
Proof.
  intros Hne Hb Hn Hs t. assert (Hf : fits (Z.of_nat (length bs)) s) by (apply nmax_fits; [lia|done]).
  destruct (sums_congr bs s s Hb Hf) as [H1 H2]; [done|].
  destruct (sums_reduced s bs Hne) as [R1 R2]. fold t in H1, H2. rewrite H1, H2, !Z.mod_small by done.
  by destruct (adler_sums s bs).
Qed.

Lemma adler_loop_run buf fuel p len s :
  bytes_ok (take (Z.to_nat len) (drop (Z.to_nat p) buf)) →
  (Z.to_nat len ≤ fuel)%nat → 0 ≤ p → 0 ≤ len → p + len ≤ Z.of_nat (length buf) → halves s →
  adler_loop fuel buf p len s = Ret (adler_sums s (take (Z.to_nat len) (drop (Z.to_nat p) buf))).
Proof.
  revert p len s. induction fuel as [|fuel IH]; intros p len s Hb Hf Hp Hl Hpl Hs; cbn [adler_loop]; destruct (decide (0 < len)) as [Hlt|Hge].
  1: lia. 1,3: by replace (Z.to_nat len) with O by lia.
  set (k := if decide _ then _ else _). assert (Hk : 0 < k ≤ len ∧ k ≤ UCL_NMAX) by (unfold k, UCL_NMAX in *; case_decide; lia).
  clearbody k. rewrite do_bytes_run by lia. cbn. unfold passed.
  set (bs := take (Z.to_nat k) (drop (Z.to_nat p) buf)). set (l := take (Z.to_nat len) (drop (Z.to_nat p) buf)) in *.
  assert (Hbs : length bs = Z.to_nat k) by (unfold bs; rewrite length_take, length_drop; lia).
  assert (El : l = bs ++ take (Z.to_nat (len - k)) (drop (Z.to_nat (p + k)) buf)).
  { unfold l, bs. rewrite <-(take_drop (Z.to_nat k) (take (Z.to_nat len) _)), take_take, Nat.min_l, skipn_firstn_comm, drop_drop by lia.
    f_equal. f_equal; [lia|f_equal; lia]. }
  rewrite El in Hb. apply Forall_app in Hb as [Hb1 Hb2].
  rewrite (reduce_run s bs) by (done || lia || (intros ->; simpl in Hbs; lia)).
  rewrite IH by (done || lia || by apply sums_halves). f_equal. rewrite El. unfold adler_sums. by rewrite foldl_app.
Qed.

Lemma pack_halves s : halves s → Z.lor (u32 (Z.shiftl s.2 16)) s.1 = adler_of s.
Proof.
  intros [H1 H2]. unfold is_u16 in *. assert (E : Z.shiftl s.2 16 = s.2 * 65536) by (rewrite Z.shiftl_mul_pow2; lia).
  rewrite u32_small by (unfold is_u32; lia). pose proof (Z.add_lor_land (Z.shiftl s.2 16) s.1) as Ha.
  assert (E0 : Z.land (Z.shiftl s.2 16) s.1 = 0).
  { apply Z.bits_inj'. intros n Hn. rewrite Z.land_spec, Z.bits_0. destruct (decide (n < 16)).
    - by rewrite Z.shiftl_spec_low.
    - rewrite (high_bit s.1 16 n) by lia. apply andb_false_r. }
  unfold adler_of. lia.
Qed.

Lemma sums_of_adler s : halves s → sums_of (adler_of s) = s.
Proof.
  destruct s as [s1 s2]. intros [H1 H2]. unfold is_u16, sums_of, adler_of in *. cbn [fst snd] in *.
  rewrite Z.add_comm, Z.mod_add, Z.div_add, (Z.div_small s1), Z.add_0_l, !Z.mod_small by lia. done.
Qed.

Lemma halves_of a : halves (sums_of a).
Proof. split; unfold is_u16, sums_of; cbn [fst snd]; by apply Z.mod_pos_bound. Qed.

Lemma adler_spec_nil a : is_u32 a → adler_spec a [] = a.
Proof.
  intros Ha. unfold adler_spec, adler_of, sums_of, is_u32 in *. cbn [adler_sums foldl fst snd].
  rewrite (Z.mod_small (a / 65536)) by (Z.div_mod_to_equations; lia). Z.div_mod_to_equations. lia.
Qed.

(** A checksum may be computed piece by piece. *)
Lemma adler_spec_app a x y : adler_spec (adler_spec a x) y = adler_spec a (x ++ y).
Proof.
  unfold adler_spec at 2. unfold adler_spec at 1. rewrite sums_of_adler by apply sums_halves, halves_of.
  unfold adler_spec. f_equal. symmetry. apply foldl_app.
Qed.

Lemma adler_spec_range a x : is_u32 (adler_spec a x).
Proof.
  destruct (sums_halves _ x (halves_of a)) as [H1 H2]. unfold adler_spec, adler_of, is_u32, is_u16 in *. lia.
Qed.

Lemma adler32_run a buf len : is_u32 a → bytes_ok (take (Z.to_nat len) buf) → 0 ≤ len ≤ Z.of_nat (length buf) →
  ucl_adler32 a (Some buf) len = Ret (adler_spec a (take (Z.to_nat len) buf)).
Proof.
  intros Ha Hb Hl. unfold ucl_adler32. pose proof (halves_of a) as Hs.
  assert (E : (Z.land a 0xffff, Z.land (Z.shiftr a 16) 0xffff) = sums_of a).
  { unfold sums_of. change 0xffff with (Z.ones 16). rewrite !Z.land_ones, Z.shiftr_div_pow2 by lia. done. }
  rewrite E. rewrite adler_loop_run by (done || lia). simpl. by rewrite pack_halves by apply sums_halves, halves_of.
Qed.

(** ** The cyclic redundancy check *)

(** Division by the reflected polynomial 0xedb88320, a bit at a time. *)
Definition crc_bit (c : Z) : Z := Z.lxor (Z.div2 c) (if Z.odd c then 0xedb88320 else 0).
Definition crc_byte (c x : Z) : Z := Nat.iter 8 crc_bit (Z.lxor c x).
Definition crc_spec (c : Z) (bs : list Z) : Z :=
  Z.lxor (foldl crc_byte (Z.lxor c 0xffffffff) bs) 0xffffffff.

Lemma crc_bit_lxor x y : crc_bit (Z.lxor x y) = Z.lxor (crc_bit x) (crc_bit y).
Proof.
  unfold crc_bit. rewrite !Z.div2_spec, Z.shiftr_lxor, <-!Z.bit0_odd, Z.lxor_spec.
  rewrite !Z.lxor_assoc. f_equal. rewrite (Z.lxor_comm _ (Z.lxor (Z.shiftr y 1) _)), Z.lxor_assoc. f_equal.
  by destruct (Z.testbit x 0), (Z.testbit y 0).
Qed.

Lemma crc_bits_lxor n x y : Nat.iter n crc_bit (Z.lxor x y) = Z.lxor (Nat.iter n crc_bit x) (Nat.iter n crc_bit y).
Proof. induction n as [|n IH]; [done|]. by rewrite !Nat.iter_succ, IH, crc_bit_lxor. Qed.

Lemma crc_bits_shiftl n x : Nat.iter n crc_bit (Z.shiftl x (Z.of_nat n)) = x.
Proof.
  revert x. induction n as [|n IH]; intros x; [apply Z.shiftl_0_r|]. rewrite Nat.iter_succ_r.
  assert (E : crc_bit (Z.shiftl x (Z.of_nat (S n))) = Z.shiftl x (Z.of_nat n)).
  { unfold crc_bit. rewrite Z.div2_spec, <-Z.bit0_odd, Z.shiftl_spec_low by lia. rewrite Z.lxor_0_r.
    rewrite Z.shiftr_shiftl_l by lia. f_equal. lia. }
  by rewrite E.
Qed.

(** The table is the eight steps for every byte. *)
Lemma crc_table_entry b : 0 ≤ b < 256 → nth (Z.to_nat b) ucl_crc32_table 0 = Nat.iter 8 crc_bit b.
Proof.
  intros Hb. assert (H : Forall (λ b, nth (Z.to_nat b) ucl_crc32_table 0 = Nat.iter 8 crc_bit b) (seqZ 0 256)).
  { apply (bool_decide_unpack _). by vm_compute. }
  rewrite Forall_forall in H. apply H, elem_of_seqZ. lia.
Qed.

(** A step of the table is the eight steps on the whole register. *)
Lemma crc_step_byte c x : is_u32 c → 0 ≤ x < 256 → crc_step c x = crc_byte c x ∧ is_u32 (crc_step c x).
Proof.
  intros Hc Hx. unfold crc_step, crc_byte. set (y := Z.lxor c x).
  assert (Hy : Z.shiftr y 8 = Z.shiftr c 8).
  { unfold y. rewrite Z.shiftr_lxor, (Z.shiftr_div_pow2 x), (Z.div_small x) by lia. apply Z.lxor_0_r. }
  assert (Hlow : 0 ≤ Z.land y 0xff < 256) by (change 0xff with (Z.ones 8); rewrite Z.land_ones by lia; by apply Z.mod_pos_bound).
  assert (Ey : y = Z.lxor (Z.land y 0xff) (Z.shiftl (Z.shiftr c 8) (Z.of_nat 8))).
  { rewrite <-Hy. apply Z.bits_inj'. intros n Hn. change 0xff with (Z.ones 8). rewrite Z.lxor_spec, Z.land_spec, ones_bit by lia.
    destruct (n <? 8) eqn:E; to_prop.
    - rewrite Z.shiftl_spec_low by lia. by rewrite andb_true_r, xorb_false_r.
    - rewrite Z.shiftl_spec, Z.shiftr_spec by lia. rewrite andb_false_r, xorb_false_l. f_equal. lia. }
  rewrite crc_table_entry by done. split.
  - rewrite Ey at 2. rewrite crc_bits_lxor, crc_bits_shiftl. done.
  - assert (Ht : Forall is_u32 (Nat.iter 8 crc_bit <$> seqZ 0 256)) by (apply (bool_decide_unpack _); by vm_compute).
    rewrite Forall_fmap, Forall_forall in Ht. specialize (Ht (Z.land y 0xff)). rewrite elem_of_seqZ in Ht.
    specialize (Ht ltac:(lia)). unfold compose, is_u32 in *. set (t := Nat.iter 8 crc_bit _) in *.
    assert (0 ≤ Z.shiftr c 8) by (apply Z.shiftr_nonneg; lia).
    assert (Hn : 0 ≤ Z.lxor t (Z.shiftr c 8)) by (apply Z.lxor_nonneg; lia). split; [done|].
    apply bits_bound; [lia|done|]. intros n Hn'. rewrite Z.lxor_spec, Z.shiftr_spec by lia.
    rewrite (high_bit t 32), (high_bit c 32) by lia. done.
Qed.

Lemma crc_steps bs : ∀ c, is_u32 c → bytes_ok bs → foldl crc_step c bs = foldl crc_byte c bs.
Proof.
  induction bs as [|x bs IH]; intros c Hc Hb; [done|]. apply Forall_cons in Hb as [Hx Hb]. cbn [foldl].
  destruct (crc_step_byte c x Hc Hx) as [E Hr]. rewrite <-E. by apply IH.
Qed.

(** ** Theorems *)

(** C36: [ucl_adler32] computes Adler's checksum of [len] bytes, from any checksum
    to start from: although it reduces its 32-bit sums only once for every
    [UCL_NMAX] bytes, they never wrap; the unrolled blocks and the two inner
    loops take every byte once and in order, and nothing behind [len] is
    read.  And the checksum of a text in two pieces is that of the whole. *)
Theorem adler32_correct adler buf len buf' len' :
  is_u32 adler → bytes_ok buf → bytes_ok buf' →
  0 ≤ len ≤ Z.of_nat (length buf) → 0 ≤ len' ≤ Z.of_nat (length buf') →
  ucl_adler32 adler (Some buf) len = Ret (adler_spec adler (take (Z.to_nat len) buf)) ∧
  (ucl_adler32 adler (Some buf) len ≫= λ a, ucl_adler32 a (Some buf') len') =
    Ret (adler_spec adler (take (Z.to_nat len) buf ++ take (Z.to_nat len') buf')).
Proof.
  intros Ha Hb Hb' Hl Hl'. rewrite adler32_run by (done || by apply Forall_take). split; [done|]. rewrite <-adler_spec_app.
  apply adler32_run; [apply adler_spec_range|by apply Forall_take|done].
Qed.

(** [ucl_crc32] divides by the polynomial 0xedb88320 bit by bit: the
    256 entries of its table are right, and a step through the table is eight of
    the division. *)
Theorem crc32_correct c buf len :
  is_u32 c → bytes_ok buf → 0 ≤ len ≤ Z.of_nat (length buf) →
  ucl_crc32 c (Some buf) len = Ret (crc_spec c (take (Z.to_nat len) buf)).
Proof.
  intros Hc Hb Hl. unfold ucl_crc32. rewrite do_bytes_run by lia. cbn. unfold passed, crc_spec. f_equal. f_equal.
  rewrite drop_0. assert (E : Z.land c 0xffffffff = c).
  { change 0xffffffff with (Z.ones 32). rewrite Z.land_ones by lia. by apply Z.mod_small. }
  rewrite E. apply crc_steps; [|by apply Forall_take]. unfold is_u32 in *.
  assert (Hn : 0 ≤ Z.lxor c 0xffffffff) by (apply Z.lxor_nonneg; lia). split; [done|].
  apply bits_bound; [lia|done|]. intros n Hn'. rewrite Z.lxor_spec. change 0xffffffff with (Z.ones 32).
  rewrite ones_bit, (high_bit c 32) by lia. by rewrite (proj2 (Z.ltb_ge n 32)) by lia.
Qed.

(** "Wikipedia" and "123456789", the usual test words *)
Lemma adler32_correct_witness :
  ucl_adler32 1 (Some [87; 105; 107; 105; 112; 101; 100; 105; 97]) 9 = Ret 0x11e60398 ∧
  (ucl_adler32 1 (Some [87; 105; 107; 105]) 4 ≫= λ a, ucl_adler32 a (Some [112; 101; 100; 105; 97]) 5) = Ret 0x11e60398.
Proof.
  pose proof (adler32_correct 1 [87; 105; 107; 105; 112; 101; 100; 105; 97] 9 [] 0 ltac:(done)
    ltac:(by repeat constructor) ltac:(by constructor) ltac:(done) ltac:(done)) as [H1 _].
  pose proof (adler32_correct 1 [87; 105; 107; 105] 4 [112; 101; 100; 105; 97] 5 ltac:(done)
    ltac:(by repeat constructor) ltac:(by repeat constructor) ltac:(done) ltac:(done)) as [_ H2].
  rewrite H1, H2. by vm_compute.
Defined.

Lemma crc32_correct_witness :
  ucl_crc32 0 (Some [49; 50; 51; 52; 53; 54; 55; 56; 57; 0]) 9 = Ret 0xcbf43926.
Proof.
  rewrite (crc32_correct 0 [49; 50; 51; 52; 53; 54; 55; 56; 57; 0] 9 ltac:(done) ltac:(by repeat constructor) ltac:(done)).
  by vm_compute.
Defined.
