(* ===== verification/UclRoundtrip.v ===== *)
(** * Compression and decompression (packers/exepak-1.5/ucl-1.02/src)

    What the encoder of [UclEncode] writes, the decompressors of [UclDecode]
    read back: for every format, every bit buffer and every division of an
    input, with the checks of [SAFE] as without them. *)

From S2P Require Import Prelude UclBits UclDecode UclEncode.

(** The decompressor of a format. *)
Definition round_of `{BB : BitBuffer} (f : nrv) : mode → (list Z → list Z) → Z → Z → nat → dec bool :=
  match f with NRV2B => round_b | NRV2D => round_d | NRV2E => round_e end.

(** ** Reading a stream *)

Section reading.
  Context `{BB : BitBuffer} `{!BitBufferLaws}.
  Context (md : mode).
  Context (src rest : list Z) (src_len oend : Z).
  Context (Hsrc : src_len = Z.of_nat (length src) - Z.of_nat (length rest)).
  Context (Hbig : Z.of_nat (length src) < 2 ^ 32).

(** The decompressor is in front of the items [l], which fill the source. *)
Definition ready (s : dstate) (l : list item) : Prop :=
  ∃ p, holds (d_bb s) p ∧ p = group (length p) (bits_of l) ∧
    0 ≤ d_ilen s ≤ Z.of_nat (length src) ∧
    drop (Z.to_nat (d_ilen s)) src = layout bb_bytes (length p) l ++ rest.

(** What reading leaves alone. *)
Definition same (s s' : dstate) : Prop :=
  d_olen s' = d_olen s ∧ d_last s' = d_last s ∧ d_dst s' = d_dst s.

Lemma same_trans s1 s2 s3 : same s1 s2 → same s2 s3 → same s1 s3.
Proof. unfold same. intuition congruence. Qed.

Lemma group_cons n b bs : group (S n) (b :: bs) = b :: group n bs.
Proof.
  unfold group. cbn [app take]. f_equal. change (replicate (S n) false) with (false :: replicate n false).
  rewrite (replicate_cons_app n), (assoc_L (++)), take_app_le; [done|].
  rewrite length_app, length_replicate. lia.
Qed.

Lemma ready_bit s b l :
  ready s (Bit b :: l) → ∃ s', bit (apart src) s = Go (Z.b2z b) s' ∧ same s s' ∧ ready s' l.
Proof.
  intros (p & Hp & Hg & Hi & Hd). unfold bit, apart. destruct p as [|b' p].
  - cbn [layout length] in Hd. cbn [bits_of omap list_omap] in *.
    pose proof bb_bytes_pos as Hpos. set (bs := group (8 * bb_bytes) _) in *.
    assert (Hbs : bs = b :: group (8 * bb_bytes - 1) (bits_of l)).
    { unfold bs. change (bits_of (Bit b :: l)) with (b :: bits_of l).
      replace (8 * bb_bytes)%nat with (S (8 * bb_bytes - 1)) at 1 by lia. apply group_cons. }
    assert (Hlen : length bs = (8 * bb_bytes)%nat) by apply group_length.
    clearbody bs. subst bs. rewrite <-(assoc_L (++)) in Hd.
    pose proof (f_equal length Hd) as Hl. rewrite length_drop, !length_app, le_bytes_length in Hl.
    destruct (getbit_fetch src (d_ilen s) (d_bb s) b (group (8 * bb_bytes - 1) (bits_of l)))
      as (s' & E & Hs'); [done|lia|lia|done| |].
    { rewrite Hd. apply take_app_length'. by rewrite le_bytes_length. }
    rewrite E. eexists. split; [done|]. split; [done|]. eexists. split; [exact Hs'|]. cbn [d_bb d_ilen].
    rewrite group_length. split; [done|]. split; [lia|].
    replace (Z.to_nat (d_ilen s + Z.of_nat bb_bytes)) with (Z.to_nat (d_ilen s) + bb_bytes)%nat by lia.
    rewrite <-drop_drop, Hd. apply drop_app_length'. by rewrite le_bytes_length.
  - change (bits_of (Bit b :: l)) with (b :: bits_of l) in Hg. rewrite length_cons, group_cons in Hg.
    injection Hg as -> Hg. destruct (getbit_held src (d_ilen s) (d_bb s) b p Hp) as (s' & E & Hs').
    rewrite E. eexists. split; [done|]. split; [done|]. exists p. done.
Qed.

Lemma src_get_drop i x l : 0 ≤ i → drop (Z.to_nat i) src = x :: l → src_get src i = Ret x.
Proof.
  intros Hi Hd. unfold src_get. rewrite decide_True by done.
  pose proof (lookup_drop src (Z.to_nat i) 0) as Hl. rewrite Hd, Nat.add_0_r in Hl. by rewrite <-Hl.
Qed.

Lemma ready_byte s x l :
  ready s (Byte x :: l) → ∃ s', next_byte (apart src) s = Go x s' ∧ same s s' ∧ ready s' l.
Proof.
  intros (p & Hp & Hg & Hi & Hd). cbn [layout app] in Hd.
  pose proof (f_equal length Hd) as Hl. rewrite length_drop, length_cons in Hl.
  unfold next_byte, apart, dget, lift, dmod, mbind, dec_bind. rewrite (src_get_drop _ _ _ (proj1 Hi) Hd).
  eexists. split; [done|]. split; [done|]. exists p. cbn [d_bb d_ilen set_ilen].
  rewrite u32_small by (unfold is_u32; lia). split_and!; try done; try lia.
  replace (Z.to_nat (d_ilen s + 1)) with (Z.to_nat (d_ilen s) + 1)%nat by lia. by rewrite <-drop_drop, Hd.
Qed.

(** There is more to read as long as a byte is to come. *)
Definition more (l : list item) : Prop := ∃ x, Byte x ∈ l.

Lemma more_layout k l : more l → layout bb_bytes k l ≠ [].
Proof.
  intros [x Hx]. revert k. induction l as [|[b|y] l IH]; intros k; [by apply elem_of_nil in Hx| |done].
  apply elem_of_cons in Hx as [?|Hx]; [done|]. pose proof bb_bytes_pos. cbn [layout].
  destruct k; [|by apply IH]. destruct bb_bytes; [lia|done].
Qed.

Lemma ready_more s l : ready s l → more l → d_ilen s < src_len.
Proof.
  intros (p & _ & _ & Hi & Hd) Hm. apply (more_layout (length p)) in Hm.
  pose proof (f_equal length Hd) as Hl. rewrite length_drop, length_app in Hl.
  destruct (layout _ _ _); simpl in *; [done|lia].
Qed.

Lemma ready_end s : ready s [] → d_ilen s = src_len.
Proof.
  intros (p & _ & _ & Hi & Hd). pose proof (f_equal length Hd) as Hl. rewrite length_drop in Hl.
  simpl in Hl. lia.
Qed.

(** [reads m l a]: from the items [l], and at least one byte after them, [m]
    computes [a] and changes nothing but its place. *)
Definition reads {A} (m : dec A) (l : list item) (a : A) : Prop :=
  ∀ s l', ready s (l ++ l') → more l' → ∃ s', m s = Go a s' ∧ same s s' ∧ ready s' l'.

Lemma reads_ret {A} (a : A) : reads (mret a) [] a.
Proof. intros s l' Hr _. by exists s. Qed.

Lemma reads_bind {A B} (m : dec A) (k : A → dec B) l1 l2 a b :
  reads m l1 a → reads (k a) l2 b → reads (m ≫= k) (l1 ++ l2) b.
Proof.
  intros H1 H2 s l' Hr Hm. rewrite <-(assoc_L (++)) in Hr.
  destruct (H1 s _ Hr) as (s1 & E1 & Hs1 & Hr1). { destruct Hm as [x Hx]. exists x. set_solver. }
  destruct (H2 s1 _ Hr1 Hm) as (s2 & E2 & Hs2 & Hr2). exists s2.
  unfold mbind, dec_bind. rewrite E1. split_and!; [done|by eapply same_trans|done].
Qed.

Lemma reads_bit b : reads (bit (apart src)) [Bit b] (Z.b2z b).
Proof. intros s l' Hr _. by apply ready_bit. Qed.

Lemma reads_byte x : reads (next_byte (apart src)) [Byte x] x.
Proof. intros s l' Hr _. by apply ready_byte. Qed.

Lemma reads_bit_bind {B} b (k : Z → dec B) l c :
  reads (k (Z.b2z b)) l c → reads (bit (apart src) ≫= k) (Bit b :: l) c.
Proof. apply (reads_bind _ _ [Bit b]), reads_bit. Qed.

Lemma reads_skip {B} (m : dec unit) (k : unit → dec B) l c :
  reads m [] tt → reads (k tt) l c → reads (m ≫= k) l c.
Proof. apply (reads_bind _ _ []). Qed.

Lemma reads_input r : reads (fail md (input_over src_len) r) [] tt.
Proof.
  intros s l' Hr Hm. exists s. pose proof (ready_more s l' Hr Hm). unfold fail, input_over.
  rewrite bool_decide_false, andb_false_r by lia. done.
Qed.

Lemma reads_pass x r : (safe md = true → x = false) → reads (fail md (λ _, x) r) [] tt.
Proof.
  intros Hx s l' Hr Hm. exists s. unfold fail. destruct (safe md); [by rewrite Hx|done].
Qed.

(** *** Prefix codes *)

Lemma shiftr_digit j k : 0 ≤ k → 2 * Z.shiftr j (k + 1) + Z.b2z (Z.testbit j k) = Z.shiftr j k.
Proof.
  intros Hk. rewrite <-Z.shiftr_shiftr, <-Z.div2_spec by lia.
  rewrite (Z.div2_odd (Z.shiftr j k)) at 2. by rewrite <-Z.bit0_odd, Z.shiftr_spec, Z.add_0_l by lia.
Qed.

Lemma shiftr_le j k : 0 ≤ j → 0 ≤ k → 0 ≤ Z.shiftr j k ≤ j.
Proof.
  intros Hj Hk. rewrite Z.shiftr_div_pow2 by done. assert (0 < 2 ^ k) by (apply Z.pow_pos_nonneg; lia).
  pose proof (Z.div_le_compat_l j 1 (2 ^ k)). rewrite Z.div_1_r in *. pose proof (Z.div_pos j (2 ^ k)). lia.
Qed.

(** One digit of a loop of the decompressor. *)
Lemma next_digit j k : 0 ≤ j < 2 ^ 32 →
  u32 (u32 (Z.shiftr j (Z.of_nat (S k)) * 2) + Z.b2z (Z.testbit j (Z.of_nat k))) = Z.shiftr j (Z.of_nat k).
Proof.
  intros Hj. rewrite u32_add_l, Z.mul_comm, Nat2Z.inj_succ. unfold Z.succ. rewrite shiftr_digit by lia.
  pose proof (shiftr_le j (Z.of_nat k)). apply u32_small. unfold is_u32. lia.
Qed.

Lemma log2_top j : 0 < j → Z.shiftr j (Z.log2 j) = 1.
Proof.
  intros Hj. rewrite Z.shiftr_div_pow2 by apply Z.log2_nonneg. symmetry.
  pose proof (Z.log2_spec j Hj) as [H1 H2]. rewrite Z.pow_succ_r in H2 by apply Z.log2_nonneg.
  apply Z.div_unique with (j - 2 ^ Z.log2 j); lia.
Qed.

Lemma reads_offset_b fuel k j :
  (0 < k ≤ fuel)%nat → 0 ≤ j ≤ 0xffffff + 3 →
  reads (offset_b md (apart src) src_len fuel (Z.shiftr j (Z.of_nat k))) (digits11 k j) j.
Proof.
  revert k. induction fuel as [|fuel IH]; intros [|k] Hk Hj; try lia. cbn [offset_b digits11].
  apply reads_bit_bind. rewrite next_digit by lia. pose proof (shiftr_le j (Z.of_nat k)).
  apply reads_skip; [apply reads_input|]. apply reads_skip; [apply reads_pass; intros _; apply bool_decide_false; lia|].
  apply reads_bit_bind. destruct k as [|k].
  - rewrite decide_False by done. rewrite Z.shiftr_0_r. apply reads_ret.
  - rewrite bool_decide_false, decide_True by done. apply IH; lia.
Qed.

Lemma reads_length fuel k j :
  (0 < k ≤ fuel)%nat → 0 ≤ j < 2 ^ 32 → (safe md = true → j < oend) →
  reads (length_loop md (apart src) src_len oend fuel (Z.shiftr j (Z.of_nat k))) (digits11 k j) j.
Proof.
  revert k. induction fuel as [|fuel IH]; intros [|k] Hk Hj Ho; try lia. cbn [length_loop digits11].
  apply reads_bit_bind. rewrite next_digit by lia. pose proof (shiftr_le j (Z.of_nat k)).
  apply reads_skip; [apply reads_input|]. apply reads_skip.
  { apply reads_pass. intros Hs. apply bool_decide_false. specialize (Ho Hs). lia. }
  apply reads_bit_bind. destruct k as [|k].
  - rewrite decide_False by done. rewrite Z.shiftr_0_r. apply reads_ret.
  - rewrite bool_decide_false, decide_True by done. apply IH; [lia|done|done].
Qed.

Lemma ss11_start i fuel :
  0 ≤ i < 2 ^ 32 - 2 → (33 ≤ fuel)%nat →
  let k := Z.to_nat (Z.log2 (i + 2)) in
  (0 < k ≤ fuel)%nat ∧ Z.shiftr (i + 2) (Z.of_nat k) = 1.
Proof.
  intros Hi Hf k. assert (1 ≤ Z.log2 (i + 2)) by (apply Z.log2_le_pow2; lia).
  assert (Z.log2 (i + 2) < 32) by (apply Z.log2_lt_pow2; lia). unfold k. split; [lia|].
  rewrite Z2Nat.id by lia. apply log2_top. lia.
Qed.

Lemma reads_ss11_offset fuel i :
  (33 ≤ fuel)%nat → 0 ≤ i ≤ 0x1000000 → reads (offset_b md (apart src) src_len fuel 1) (ss11_items i) (i + 2).
Proof.
  intros Hf Hi. destruct (ss11_start i fuel) as [Hk E]; [lia|done|]. rewrite <-E at 1.
  apply reads_offset_b; lia.
Qed.

Lemma reads_ss11_length fuel i :
  (33 ≤ fuel)%nat → 0 ≤ i < 2 ^ 32 - 2 → (safe md = true → i + 2 < oend) →
  reads (length_loop md (apart src) src_len oend fuel 1) (ss11_items i) (i + 2).
Proof.
  intros Hf Hi Ho. destruct (ss11_start i fuel) as [Hk E]; [lia|done|]. rewrite <-E at 1.
  apply reads_length; [lia|lia|done].
Qed.

(** What the loop of n2d_d.c and n2e_d.c makes of the digits. *)
Fixpoint value12 (n : nat) (i m : Z) : Z :=
  match n with
  | O => 2 * m + Z.b2z (Z.testbit i 0)
  | S k => value12 k i (2 * (2 * m + Z.b2z (Z.testbit i (Z.of_nat (2 * S k))) - 1) +
                          Z.b2z (Z.testbit i (Z.of_nat (2 * k + 1))))
  end.

Lemma value12_ge n i m : 1 ≤ m → 2 * m + Z.b2z (Z.testbit i (Z.of_nat (2 * n))) ≤ value12 n i m.
Proof.
  revert m. induction n as [|n IH]; intros m Hm; [simpl; lia|]. cbn [value12].
  set (b1 := Z.b2z (Z.testbit i (Z.of_nat (2 * S n)))). set (b2 := Z.b2z (Z.testbit i (Z.of_nat (2 * n + 1)))).
  assert (0 ≤ b1 ∧ 0 ≤ b2 ∧ 0 ≤ Z.b2z (Z.testbit i (Z.of_nat (2 * n)))) by (split_and!; apply b2z_range).
  specialize (IH (2 * (2 * m + b1 - 1) + b2) ltac:(lia)). lia.
Qed.

Lemma reads_offset_de fuel n i m :
  (n < fuel)%nat → 1 ≤ m → value12 n i m ≤ 0xffffff + 3 →
  reads (offset_de md (apart src) src_len fuel m) (digits12 n i) (value12 n i m).
Proof.
  revert n m. induction fuel as [|fuel IH]; intros n m Hn Hm Hv; [lia|]. cbn [offset_de].
  assert (Hdig : ∀ b, 2 * m + Z.b2z b ≤ 0xffffff + 3 → u32 (u32 (m * 2) + Z.b2z b) = 2 * m + Z.b2z b).
  { intros b Hb. rewrite u32_add_l. rewrite u32_small; [lia|]. pose proof (b2z_range b). unfold is_u32. lia. }
  pose proof (value12_ge n i m Hm) as Hge. destruct n as [|n]; cbn [digits12 value12] in *; apply reads_bit_bind.
  - rewrite Hdig by done. apply reads_skip; [apply reads_input|].
    apply reads_skip; [apply reads_pass; intros _; apply bool_decide_false; lia|]. apply reads_bit_bind.
    rewrite decide_True by done. apply reads_ret.
  - set (b1 := Z.testbit i (Z.of_nat (2 * S n))) in *. set (b2 := Z.testbit i (Z.of_nat (2 * n + 1))) in *.
    pose proof (b2z_range b1). pose proof (b2z_range b2). rewrite Hdig by lia.
    apply reads_skip; [apply reads_input|].
    apply reads_skip; [apply reads_pass; intros _; apply bool_decide_false; lia|]. apply reads_bit_bind.
    rewrite decide_False by auto. apply reads_bit_bind.
    rewrite (u32_small (_ - 1)) by (unfold is_u32; lia). rewrite u32_add_l, (Z.mul_comm _ 2).
    rewrite u32_small by (unfold is_u32; lia). apply IH; lia.
Qed.

Lemma mod_pow2_succ i k : 0 ≤ k → i mod 2 ^ (k + 1) = i mod 2 ^ k + 2 ^ k * Z.b2z (Z.testbit i k).
Proof.
  intros Hk. rewrite Z.testbit_spec', Z.pow_add_r, Z.pow_1_r by lia. apply Z.rem_mul_r; [|lia].
  apply Z.pow_nonzero; lia.
Qed.

Lemma value12_eq n i m :
  3 * value12 n i m = 3 * (i mod 2 ^ (2 * Z.of_nat n + 1)) + 2 * 4 ^ Z.of_nat n * (3 * m - 2) + 4.
Proof.
  revert m. induction n as [|n IH]; intros m; cbn [value12].
  - change (2 * Z.of_nat 0 + 1) with (0 + 1). rewrite mod_pow2_succ by lia. simpl (2 ^ 0). rewrite Z.mod_1_r.
    change (4 ^ Z.of_nat 0) with 1. lia.
  - rewrite IH. replace (2 * Z.of_nat (S n) + 1) with (2 * Z.of_nat n + 1 + 1 + 1) by lia.
    rewrite (mod_pow2_succ _ (2 * Z.of_nat n + 1 + 1)), (mod_pow2_succ _ (2 * Z.of_nat n + 1)) by lia.
    replace (Z.of_nat (2 * S n)) with (2 * Z.of_nat n + 1 + 1) by lia.
    replace (Z.of_nat (2 * n + 1)) with (2 * Z.of_nat n + 1) by lia.
    rewrite (Z.pow_add_r 2 (2 * Z.of_nat n + 1) 1), (Z.pow_add_r 2 (2 * Z.of_nat n) 1), Z.pow_mul_r by lia.
    change (2 ^ 2) with 4. change (2 ^ 1) with 2. rewrite Nat2Z.inj_succ, Z.pow_succ_r by lia. lia.
Qed.

Lemma steps12_spec fuel n i :
  0 ≤ i < 2 * 4 ^ (Z.of_nat n + Z.of_nat fuel) →
  let '(n', i') := steps12 fuel n i in
  0 ≤ i' < 2 * 4 ^ Z.of_nat n' ∧ (n ≤ n' ≤ n + fuel)%nat ∧
  3 * i' + 2 * 4 ^ Z.of_nat n' = 3 * i + 2 * 4 ^ Z.of_nat n.
Proof.
  revert n i. induction fuel as [|fuel IH]; intros n i Hi; cbn [steps12].
  - rewrite Z.add_0_r in Hi. split_and!; [lia|lia|lia|lia|done].
  - destruct (decide _) as [Hle|Hlt]; [|split_and!; (lia || done)].
    specialize (IH (S n) (i - 2 * 4 ^ Z.of_nat n)). destruct (steps12 _ _ _) as [n' i'].
    rewrite (Nat2Z.inj_succ n), Z.pow_succ_r in IH by lia.
    replace (Z.succ (Z.of_nat n) + Z.of_nat fuel) with (Z.of_nat n + Z.of_nat (S fuel)) in IH by lia.
    destruct IH as (IH1 & IH2 & IH3); [|split_and!; lia].
    assert (0 < 4 ^ Z.of_nat n) by (apply Z.pow_pos_nonneg; lia). lia.
Qed.

Lemma reads_ss12_offset fuel i :
  (33 ≤ fuel)%nat → 0 ≤ i ≤ 0x1000000 → reads (offset_de md (apart src) src_len fuel 1) (ss12_items i) (i + 2).
Proof.
  intros Hf Hi. unfold ss12_items.
  assert (Hb : 0 ≤ i < 2 * 4 ^ (Z.of_nat 0 + Z.of_nat 32)).
  { change (4 ^ (Z.of_nat 0 + Z.of_nat 32)) with (2 ^ 64). lia. }
  pose proof (steps12_spec 32 0 i Hb) as H12.
  destruct (steps12 32 0 i) as [n i'] eqn:En. destruct H12 as (Hi' & Hn & E).
  change (2 * 4 ^ Z.of_nat 0) with 2 in E.
  assert (Ev : value12 n i' 1 = i + 2).
  { pose proof (value12_eq n i' 1) as Hv. rewrite Z.mod_small in Hv; [lia|].
    rewrite Z.pow_add_r, Z.pow_mul_r by lia. change (2 ^ 2) with 4. change (2 ^ 1) with 2. lia. }
  rewrite <-Ev. apply reads_offset_de; lia.
Qed.

(** *** Writing the destination *)

Definition stays (s s' : dstate) : Prop := d_bb s' = d_bb s ∧ d_ilen s' = d_ilen s.
Lemma stays_ready s s' l : stays s s' → ready s l → ready s' l.
Proof. unfold stays, ready. intros (-> & ->). done. Qed.
Lemma stays_trans s1 s2 s3 : stays s1 s2 → stays s2 s3 → stays s1 s3.
Proof. unfold stays. intuition congruence. Qed.

Lemma go_bind {A B} (m : dec A) (k : A → dec B) s a s' : m s = Go a s' → (m ≫= k) s = k a s'.
Proof. intros E. unfold mbind, dec_bind. by rewrite E. Qed.

Lemma fail_pass x r s : (safe md = true → x s = false) → fail md x r s = Go tt s.
Proof. intros Hx. unfold fail. destruct (safe md); [by rewrite Hx|done]. Qed.

(** What the rest of a body needs of its destination, which takes [N] bytes:
    [wrote s out last] says that [out] has been decompressed and that the last
    offset is [last]; [room out l], that the items [l] may follow. *)
Record destination (N : nat) : Type := {
  wrote : dstate → list Z → Z → Prop;
  room : list Z → list item → Prop;
  wrote_same : ∀ s s' out last, same s s' → wrote s out last → wrote s' out last;
  wrote_last : ∀ s out last, wrote s out last → d_last s = last;
  wrote_set_last : ∀ s out last m, wrote s out last → wrote (set_last m s) out m;
  wrote_literal : ∀ x s out last l,
    ready s (Byte x :: l) → wrote s out last → (length out < N)%nat → room out (Bit true :: Byte x :: l) →
    ∃ s', literal md (apart src) src_len oend s = Go tt s' ∧ ready s' l ∧ wrote s' (out ++ [x]) last ∧ room (out ++ [x]) l;
  wrote_match : ∀ off len s out last l,
    ready s l → wrote s out last → 1 ≤ off ≤ Z.of_nat (length out) → 2 ≤ len → Z.of_nat (length out) + len ≤ Z.of_nat N →
    room (lz_copy (Z.to_nat len) off out) l →
    ∃ s', copy_match md oend off (len - 1) s = Go tt s' ∧ ready s' l ∧ wrote s' (lz_copy (Z.to_nat len) off out) last
}.

(** A destination that is written *)
Section buffer.
  Context (Hmd : overlap md = false) (dst0 : list Z) (N : nat).
  Context (HN : (N ≤ length dst0)%nat) (HN32 : Z.of_nat N < 2 ^ 32) (Hend : safe md = true → Z.of_nat N ≤ oend).

Definition in_buffer (s : dstate) (out : list Z) (last : Z) : Prop :=
  d_olen s = Z.of_nat (length out) ∧ d_last s = last ∧ d_dst s = out ++ drop (length out) dst0.

Lemma put_run x s out last :
  in_buffer s out last → (length out < N)%nat →
  ∃ s', put x s = Go tt s' ∧ stays s s' ∧ in_buffer s' (out ++ [x]) last.
Proof.
  intros (Ho & Hl & Hd) Hn. unfold put. rewrite Ho, Hd, length_app, length_drop, decide_True by lia.
  eexists. split; [done|]. split; [done|]. split_and!; simpl.
  - rewrite u32_small by (unfold is_u32; lia). rewrite length_app. simpl. lia.
  - done.
  - rewrite Nat2Z.id, insert_app_r_alt, Nat.sub_diag, length_app by lia. simpl.
    rewrite <-(assoc_L (++)). f_equal. destruct (drop (length out) dst0) as [|y t] eqn:E.
    + apply (f_equal length) in E. rewrite length_drop in E. simpl in E. lia.
    + simpl. f_equal. by rewrite <-drop_drop, E.
Qed.

Lemma copy_run n off s out last :
  in_buffer s out last → 1 ≤ off ≤ Z.of_nat (length out) → (length out + n ≤ N)%nat →
  ∃ s', copy n (Z.of_nat (length out) - off) s = Go tt s' ∧ stays s s' ∧ in_buffer s' (lz_copy n off out) last.
Proof.
  revert s out. induction n as [|n IH]; intros s out Hw Ho Hn; cbn [copy lz_copy]; [by exists s|].
  pose proof Hw as (_ & _ & Hd). unfold mbind, dec_bind, dget, lift. rewrite Hd.
  set (x := nth (length out - Z.to_nat off) out 0).
  assert (Hx : src_get (out ++ drop (length out) dst0) (Z.of_nat (length out) - off) = Ret x).
  { unfold src_get. rewrite decide_True, lookup_app_l by lia.
    replace (Z.to_nat (Z.of_nat (length out) - off)) with (length out - Z.to_nat off)%nat by lia.
    destruct (nth_lookup_or_length out (length out - Z.to_nat off) 0) as [->|]; [done|lia]. }
  rewrite Hx. destruct (put_run x s out last Hw) as (s1 & E1 & Hs1 & Hw1); [lia|]. rewrite E1.
  destruct (IH s1 _ Hw1) as (s2 & E2 & Hs2 & Hw2); [rewrite length_app; simpl; lia..|].
  exists s2. split; [|split; [by eapply stays_trans|done]]. rewrite <-E2. f_equal. rewrite length_app. simpl. lia.
Qed.

Lemma copy_match_run off len s out last :
  in_buffer s out last → 1 ≤ off ≤ Z.of_nat (length out) → 2 ≤ len → Z.of_nat (length out) + len ≤ Z.of_nat N →
  ∃ s', copy_match md oend off (len - 1) s = Go tt s' ∧ stays s s' ∧ in_buffer s' (lz_copy (Z.to_nat len) off out) last.
Proof.
  intros Hw Ho Hl Hn. pose proof Hw as (Hlen & _). unfold copy_match.
  erewrite go_bind.
  2:{ apply fail_pass. intros Hs. rewrite Hlen, u32_small by (unfold is_u32; lia). apply bool_decide_false.
      specialize (Hend Hs). lia. }
  erewrite go_bind. 2:{ apply fail_pass. intros Hs. rewrite Hlen. apply bool_decide_false. lia. }
  rewrite Hmd. unfold mbind, dec_bind, dget. rewrite Hlen, u32_small by (unfold is_u32; lia).
  replace (S (Z.to_nat (len - 1 - 1 + 1))) with (Z.to_nat len) by lia. apply copy_run; [done|done|lia].
Qed.

Lemma literal_run x s out last l :
  ready s (Byte x :: l) → in_buffer s out last → (length out < N)%nat →
  ∃ s', literal md (apart src) src_len oend s = Go tt s' ∧ ready s' l ∧ in_buffer s' (out ++ [x]) last.
Proof.
  intros Hr Hw Hn. unfold literal.
  assert (Hi : d_ilen s < src_len). { apply (ready_more _ _ Hr). exists x. apply elem_of_cons. by left. }
  rewrite (go_bind _ _ s tt s), (go_bind _ _ s tt s).
  2:{ apply fail_pass. intros Hs. apply bool_decide_false. destruct Hw as (-> & _). specialize (Hend Hs). lia. }
  2:{ apply fail_pass. intros Hs. unfold input_over. apply bool_decide_false. lia. }
  rewrite Hmd. destruct (ready_byte _ _ _ Hr) as (s2 & E2 & Hs2 & Hr2).
  destruct (put_run x s2 out last) as (s3 & E3 & Hs3 & Hw3).
  { destruct Hs2 as (-> & -> & ->) || (unfold in_buffer in *; destruct Hs2 as (H1 & H2 & H3); rewrite H1, H2, H3; done). }
  { done. }
  rewrite (go_bind _ _ _ _ _ E2). exists s3. split; [done|]. split; [by eapply stays_ready|done].
Qed.

Definition buffer_destination : destination N.
Proof.
  refine {| wrote := in_buffer; room := λ _ _, True |}.
  - unfold same, in_buffer. intros s s' out last (-> & -> & ->). done.
  - by intros s out last (_ & -> & _).
  - by intros s out last m (? & ? & ?).
  - intros x s out last l Hr Hw Hn _. destruct (literal_run x s out last l Hr Hw Hn) as (s' & ? & ? & ?). by exists s'.
  - intros off len s out last l Hr Hw Ho Hl Hn _.
    destruct (copy_match_run off len s out last Hw Ho Hl Hn) as (s' & E & Hs & Hw'). exists s'.
    split_and!; [done|by eapply stays_ready|done].
Defined.
End buffer.

Section writing.
  Context (N : nat) (D : destination N) (Hend : safe md = true → Z.of_nat N ≤ oend).

#[local] Abbreviation wrote := (wrote N D).
#[local] Abbreviation room := (room N D).

Lemma same_wrote s s' out last : same s s' → wrote s out last → wrote s' out last.
Proof. apply wrote_same. Qed.

Lemma literals_run fuel lits s l out last :
  (length lits < fuel)%nat → ready s (run_items lits ++ Bit false :: l) → more l →
  wrote s out last → (length (out ++ lits) ≤ N)%nat → room out (run_items lits ++ Bit false :: l) →
  ∃ s', literals md (apart src) src_len oend fuel s = Go tt s' ∧ ready s' l ∧ wrote s' (out ++ lits) last.
Proof.
  revert fuel s out. induction lits as [|x lits IH]; intros fuel s out Hf Hr Hm Hw Hn Hroom;
    (destruct fuel as [|fuel]; [simpl in Hf; lia|]); cbn [literals run_items flat_map app] in *;
    destruct (ready_bit _ _ _ Hr) as (s1 & E1 & Hs1 & Hr1); rewrite (go_bind _ _ _ _ _ E1);
    assert (Hw1 : wrote s1 out last) by (by eapply same_wrote).
  - rewrite decide_False by auto. exists s1. by rewrite app_nil_r.
  - rewrite decide_True by done. rewrite length_app in Hn. simpl in Hn.
    destruct (wrote_literal N D x s1 out last _ Hr1 Hw1) as (s3 & E3 & Hr3 & Hw3 & Hroom3); [lia|done|].
    rewrite (go_bind _ _ s1 tt s3 E3), (cons_middle x out lits), (app_assoc out).
    apply IH; try done; [simpl in Hf; lia|]. rewrite !length_app. simpl. lia.
Qed.

(** *** Offsets and lengths *)

Lemma offset_byte_run m_off x s l :
  3 ≤ m_off ≤ 0xffffff + 3 → 0 ≤ x < 256 → ready s (Byte x :: l) →
  ∃ s', offset_byte md (apart src) src_len m_off s =
      Go (if decide ((m_off - 3) * 256 + x = 0xffffffff) then None else Some ((m_off - 3) * 256 + x)) s' ∧
    same s s' ∧ ready s' l.
Proof.
  intros Hm Hx Hr. unfold offset_byte.
  assert (Hi : d_ilen s < src_len). { apply (ready_more _ _ Hr). exists x. apply elem_of_cons. by left. }
  rewrite (go_bind _ _ s tt s). 2:{ apply fail_pass. intros _. unfold input_over. apply bool_decide_false. lia. }
  destruct (ready_byte _ _ _ Hr) as (s' & E & Hs & Hr'). exists s'. rewrite (go_bind _ _ _ _ _ E).
  rewrite (u32_small (m_off - 3)), u32_add_l by (unfold is_u32; lia). rewrite u32_small by (unfold is_u32; lia).
  done.
Qed.

Lemma offset_b_run fuel off s l out last :
  (33 ≤ fuel)%nat → 1 ≤ off ≤ SWD_N → wrote s out last → more l →
  ready s ((if decide (off = last) then [Bit false; Bit true]
            else ss11_items (1 + Z.shiftr (off - 1) 8) ++ [Byte ((off - 1) mod 256)]) ++ l) →
  ∃ s', match_offset_b md (apart src) src_len fuel s = Go (Some off) s' ∧ ready s' l ∧ wrote s' out off.
Proof.
  intros Hf Hoff Hw Hm Hr. unfold match_offset_b. unfold SWD_N in Hoff. destruct (decide (off = last)) as [->|Hne].
  - destruct (reads_offset_b fuel 1 2 ltac:(lia) ltac:(lia) s l) as (s1 & E1 & Hs1 & Hr1); [done|done|].
    rewrite (go_bind _ _ _ _ _ E1). pose proof (same_wrote _ _ _ _ Hs1 Hw) as Hw1.
    rewrite (go_bind _ _ s1 (d_last s1) s1) by done. rewrite decide_True by done.
    exists s1. split; [|done]. by rewrite (wrote_last N D _ _ _ Hw1).
  - rewrite <-(assoc_L (++)) in Hr. set (i := 1 + Z.shiftr (off - 1) 8) in *.
    assert (Ei : i = 1 + (off - 1) / 256) by (unfold i; by rewrite Z.shiftr_div_pow2).
    assert (Hi : 1 ≤ i ≤ 0x1000000) by (rewrite Ei; Z.div_mod_to_equations; lia).
    destruct (reads_ss11_offset fuel i Hf ltac:(lia) s _ Hr) as (s1 & E1 & Hs1 & Hr1).
    { exists ((off - 1) mod 256). set_solver. }
    rewrite (go_bind _ _ _ _ _ E1). pose proof (same_wrote _ _ _ _ Hs1 Hw) as Hw1.
    destruct (offset_byte_run (i + 2) ((off - 1) mod 256) s1 l) as (s2 & E2 & Hs2 & Hr2);
      [lia|by apply Z.mod_pos_bound|done|].
    rewrite (go_bind _ _ s1 (d_last s1) s1) by done. rewrite decide_False by lia.
    rewrite (go_bind _ _ _ _ _ E2).
    assert (Eo : (i + 2 - 3) * 256 + (off - 1) mod 256 = off - 1) by (rewrite Ei; Z.div_mod_to_equations; lia).
    rewrite Eo, decide_False by lia. exists (set_last off s2). rewrite u32_small by (unfold is_u32; lia).
    replace (off - 1 + 1) with off by lia. split_and!; [done|done|].
    eapply wrote_set_last, same_wrote; [done|done].
Qed.

Lemma complement_low_bit x (b : bool) : Z.land (Z.lxor (2 * x + Z.b2z b) 0xffffffff) 1 = Z.b2z (negb b).
Proof.
  apply Z.bits_inj'. intros n Hn. rewrite Z.land_spec, Z.lxor_spec.
  destruct (decide (n = 0)) as [->|Hn0].
  - rewrite (Z.add_comm (2 * x)), Z.add_b2z_double_bit0. by destruct b.
  - rewrite (Z.bits_above_log2 1) by (simpl; lia). rewrite andb_false_r.
    destruct b; [by rewrite Z.bits_0|]. by rewrite Z.bits_above_log2 by (simpl; lia).
Qed.

Lemma offset_de_run fuel off (low : bool) s l out last :
  (33 ≤ fuel)%nat → 1 ≤ off ≤ SWD_N → wrote s out last → more l →
  ready s ((if decide (off = last) then [Bit false; Bit true; Bit low]
            else ss12_items (1 + Z.shiftr (off - 1) 7) ++ [Byte (2 * ((off - 1) mod 128) + Z.b2z (negb low))]) ++ l) →
  ∃ s', match_offset_de md (apart src) src_len fuel s = Go (Some (off, Z.b2z low)) s' ∧ ready s' l ∧ wrote s' out off.
Proof.
  intros Hf Hoff Hw Hm Hr. unfold match_offset_de. unfold SWD_N in Hoff. destruct (decide (off = last)) as [->|Hne].
  - destruct (reads_ss12_offset fuel 0 ltac:(lia) ltac:(lia) s (Bit low :: l)) as (s1 & E1 & Hs1 & Hr1);
      [done|destruct Hm as [x Hx]; exists x; set_solver|].
    rewrite (go_bind _ _ _ _ _ E1). pose proof (same_wrote _ _ _ _ Hs1 Hw) as Hw1.
    rewrite (go_bind _ _ s1 (d_last s1) s1) by done. rewrite decide_True by done.
    destruct (ready_bit _ _ _ Hr1) as (s2 & E2 & Hs2 & Hr2). rewrite (go_bind _ _ _ _ _ E2).
    exists s2. split; [|split; [done|by eapply same_wrote]]. by rewrite (wrote_last N D _ _ _ Hw1).
  - rewrite <-(assoc_L (++)) in Hr. set (i := 1 + Z.shiftr (off - 1) 7) in *.
    assert (Ei : i = 1 + (off - 1) / 128) by (unfold i; by rewrite Z.shiftr_div_pow2).
    assert (Hi : 1 ≤ i ≤ 0x1000000) by (rewrite Ei; Z.div_mod_to_equations; lia).
    pose proof (Z.mod_pos_bound (off - 1) 128 ltac:(lia)) as Hmod. pose proof (b2z_range (negb low)) as Hb.
    set (x := 2 * ((off - 1) mod 128) + Z.b2z (negb low)) in *.
    destruct (reads_ss12_offset fuel i Hf ltac:(lia) s _ Hr) as (s1 & E1 & Hs1 & Hr1).
    { exists x. set_solver. }
    rewrite (go_bind _ _ _ _ _ E1). pose proof (same_wrote _ _ _ _ Hs1 Hw) as Hw1.
    destruct (offset_byte_run (i + 2) x s1 l) as (s2 & E2 & Hs2 & Hr2); [lia|lia|done|].
    rewrite (go_bind _ _ s1 (d_last s1) s1) by done. rewrite decide_False by lia.
    rewrite (go_bind _ _ _ _ _ E2).
    assert (Eo : (i + 2 - 3) * 256 + x = 2 * (off - 1) + Z.b2z (negb low)).
    { unfold x. rewrite Ei. Z.div_mod_to_equations. lia. }
    rewrite Eo, decide_False by lia. cbv zeta. rewrite complement_low_bit, negb_involutive.
    replace (Z.shiftr (2 * (off - 1) + Z.b2z (negb low)) 1) with (off - 1).
    2:{ rewrite Z.shiftr_div_pow2 by lia. change (2 ^ 1) with 2. destruct low; simpl; Z.div_mod_to_equations; lia. }
    exists (set_last off s2). rewrite u32_small by (unfold is_u32; lia).
    replace (off - 1 + 1) with off by lia. split_and!; [done|done|].
    eapply wrote_set_last, same_wrote; [done|done].
Qed.

(** Lengths: the decoder counts one byte less, and one less again when far. *)
Lemma reads_len_bd fuel len :
  (33 ≤ fuel)%nat → 1 ≤ len < 2 ^ 31 → (safe md = true → len ≤ oend) →
  reads (match_len_bd md (apart src) src_len oend fuel (Z.b2z (bool_decide (1 < if decide (4 ≤ len) then 0 else len))))
    (if decide (4 ≤ len) then Bit false :: ss11_items (len - 4) else [Bit (odd len)]) len.
Proof.
  intros Hf Hl Ho. unfold match_len_bd. destruct (decide (4 ≤ len)) as [H4|H4]; apply reads_bit_bind.
  - rewrite bool_decide_false, decide_True by done. change (0 + 1) with 1.
    rewrite <-(app_nil_r (ss11_items _)). eapply reads_bind.
    { apply reads_ss11_length; [done|lia|]. intros Hs. specialize (Ho Hs). lia. }
    replace len with (u32 (len - 4 + 2 + 2)) at 2 by (rewrite u32_small; [lia|unfold is_u32; lia]). apply reads_ret.
  - assert (len = 1 ∨ len = 2 ∨ len = 3) as [-> |[-> | ->]] by lia; apply reads_ret.
Qed.

Lemma reads_len_e fuel len :
  (33 ≤ fuel)%nat → 1 ≤ len < 2 ^ 31 → (safe md = true → len ≤ oend) →
  reads (match_len_e md (apart src) src_len oend fuel (Z.b2z (bool_decide (len ≤ 2))))
    (if decide (len ≤ 2) then [Bit (bool_decide (len ≠ 1))]
     else if decide (len ≤ 4) then [Bit true; Bit (bool_decide (len ≠ 3))]
     else Bit false :: ss11_items (len - 5)) len.
Proof.
  intros Hf Hl Ho. unfold match_len_e. destruct (decide (len ≤ 2)) as [H2|H2].
  - rewrite bool_decide_true, decide_True by done. apply reads_bit_bind.
    assert (len = 1 ∨ len = 2) as [-> | ->] by lia; apply reads_ret.
  - rewrite bool_decide_false, decide_False by auto. destruct (decide (len ≤ 4)) as [H4|H4]; apply reads_bit_bind.
    + rewrite decide_True by done. apply reads_bit_bind.
      assert (len = 3 ∨ len = 4) as [-> | ->] by lia; apply reads_ret.
    + rewrite decide_False by auto. rewrite <-(app_nil_r (ss11_items _)). eapply reads_bind.
      { apply reads_ss11_length; [done|lia|]. intros Hs. specialize (Ho Hs). lia. }
      replace len with (u32 (len - 5 + 2 + 3)) at 2 by (rewrite u32_small; [lia|unfold is_u32; lia]). apply reads_ret.
Qed.

(** *** Rounds *)

Lemma finish_round f off len' len s l out :
  match_ok f out len off → Z.of_nat (length out) + len ≤ Z.of_nat N → room (lz_copy (Z.to_nat len) off out) l →
  len' = len - 1 - Z.b2z (bool_decide (M2_MAX_OFFSET f < off)) → ready s l → wrote s out off →
  ∃ s', (copy_match md oend off (u32 (len' + Z.b2z (bool_decide (M2_MAX_OFFSET f < off))));; mret true) s = Go true s' ∧
    ready s' l ∧ wrote s' (lz_copy (Z.to_nat len) off out) off.
Proof.
  intros (Hoff & Hoff2 & Hlen) Hn Hroom -> Hr Hw. pose proof (b2z_range (bool_decide (M2_MAX_OFFSET f < off))) as Hb.
  replace (len - 1 - _ + _) with (len - 1) by lia. rewrite u32_small by (unfold is_u32; lia).
  destruct (wrote_match N D off len s out off l) as (s1 & E1 & Hr1 & Hw1); [done|done|done|lia|done|done|].
  rewrite (go_bind _ _ _ _ _ E1). by exists s1.
Qed.

Lemma reads_wrote {A} (m : dec A) li a s l out last :
  reads m li a → ready s (li ++ l) → more l → wrote s out last →
  ∃ s', m s = Go a s' ∧ ready s' l ∧ wrote s' out last.
Proof.
  intros Hm Hr Hl Hw. destruct (Hm s l Hr Hl) as (s' & E & Hs & Hr'). exists s'.
  split_and!; [done|done|by eapply same_wrote].
Qed.

Lemma round_run f fuel s l out last len off :
  (33 ≤ fuel)%nat → match_ok f out len off → Z.of_nat (length out) + len ≤ Z.of_nat N →
  room (lz_copy (Z.to_nat len) off out) l → ready s (match_items f last len off ++ l) → more l → wrote s out last →
  ∃ s', round_of f md (apart src) src_len oend fuel s = Go true s' ∧ ready s' l ∧
    wrote s' (lz_copy (Z.to_nat len) off out) off.
Proof.
  intros Hf Hok Hn Hroom Hr Hm Hw. pose proof Hok as (Hoff & Hoff2 & Hlen).
  pose proof (b2z_range (bool_decide (M2_MAX_OFFSET f < off))) as Hb. unfold match_items in Hr.
  set (len' := len - 1 - Z.b2z (bool_decide (M2_MAX_OFFSET f < off))) in *.
  assert (Hlen' : 1 ≤ len' < 2 ^ 31) by lia.
  assert (Ho : safe md = true → len' ≤ oend) by (intros Hs; specialize (Hend Hs); lia).
  assert (Hmore : ∀ l', more (l' ++ l)) by (intros l'; destruct Hm as [x Hx]; exists x; set_solver).
  destruct f; cbn [round_of] in *.
  - rewrite <-(assoc_L (++)) in Hr.
    destruct (offset_b_run fuel off s _ out last Hf ltac:(lia) Hw (Hmore _) Hr) as (s1 & E1 & Hr1 & Hw1).
    unfold round_b. rewrite (go_bind _ _ _ _ _ E1). cbv iota beta.
    assert (Hr1' : ready s1 (Bit (bool_decide (1 < if decide (4 ≤ len') then 0 else len')) ::
      (if decide (4 ≤ len') then Bit false :: ss11_items (len' - 4) else [Bit (odd len')]) ++ l)).
    { by destruct (decide (4 ≤ len')). }
    destruct (ready_bit _ _ _ Hr1') as (s2 & E2 & Hs2 & Hr2). rewrite (go_bind _ _ _ _ _ E2).
    destruct (reads_wrote _ _ _ _ _ _ _ (reads_len_bd fuel len' Hf Hlen' Ho) Hr2 Hm (same_wrote _ _ _ _ Hs2 Hw1))
      as (s3 & E3 & Hr3 & Hw3).
    rewrite (go_bind _ _ _ _ _ E3). by apply (finish_round NRV2B).
  - set (low := if decide (4 ≤ len') then 0 else len') in *.
    assert (Hr' : ready s ((if decide (off = last) then [Bit false; Bit true; Bit (bool_decide (1 < low))]
      else ss12_items (1 + Z.shiftr (off - 1) 7) ++
        [Byte (2 * ((off - 1) mod 128) + Z.b2z (negb (bool_decide (1 < low))))]) ++
      (if decide (4 ≤ len') then Bit false :: ss11_items (len' - 4) else [Bit (odd len')]) ++ l)).
    { unfold low in *. clear -Hr. destruct (decide (4 ≤ len')), (decide (off = last));
        rewrite <-?(assoc_L (++)) in *; exact Hr. }
    destruct (offset_de_run fuel off _ s _ out last Hf ltac:(lia) Hw (Hmore _) Hr') as (s1 & E1 & Hr1 & Hw1).
    unfold round_d. rewrite (go_bind _ _ _ _ _ E1). cbv iota beta.
    destruct (reads_wrote _ _ _ _ _ _ _ (reads_len_bd fuel len' Hf Hlen' Ho) Hr1 Hm Hw1) as (s3 & E3 & Hr3 & Hw3).
    rewrite (go_bind _ _ _ _ _ E3). by apply (finish_round NRV2D).
  - rewrite <-(assoc_L (++)) in Hr.
    destruct (offset_de_run fuel off _ s _ out last Hf ltac:(lia) Hw (Hmore _) Hr) as (s1 & E1 & Hr1 & Hw1).
    unfold round_e. rewrite (go_bind _ _ _ _ _ E1). cbv iota beta.
    destruct (reads_wrote _ _ _ _ _ _ _ (reads_len_e fuel len' Hf Hlen' Ho) Hr1 Hm Hw1) as (s3 & E3 & Hr3 & Hw3).
    rewrite (go_bind _ _ _ _ _ E3). by apply (finish_round NRV2E).
Qed.

(** The end of the stream stops the decompressor. *)
Lemma offset_de_eof fuel s out last :
  (33 ≤ fuel)%nat → ready s (ss12_items 0x1000000 ++ [Byte 0xff]) → wrote s out last →
  ∃ s', match_offset_de md (apart src) src_len fuel s = Go None s' ∧ ready s' [] ∧ wrote s' out last.
Proof.
  intros Hf Hr Hw. assert (Hm : more [Byte 0xff]) by (exists 0xff; set_solver).
  destruct (reads_ss12_offset fuel 0x1000000 Hf ltac:(lia) s _ Hr Hm) as (s1 & E1 & Hs1 & Hr1).
  destruct (offset_byte_run (0x1000000 + 2) 0xff s1 [] ltac:(lia) ltac:(lia) Hr1) as (s2 & E2 & Hs2 & Hr2).
  unfold match_offset_de. rewrite (go_bind _ _ _ _ _ E1), (go_bind _ _ s1 (d_last s1) s1) by done.
  rewrite decide_False by done. rewrite (go_bind _ _ _ _ _ E2). exists s2.
  split_and!; [done|done|by eapply same_wrote, same_wrote].
Qed.

Lemma offset_b_eof fuel s out last :
  (33 ≤ fuel)%nat → ready s (ss11_items 0x1000000 ++ [Byte 0xff]) → wrote s out last →
  ∃ s', match_offset_b md (apart src) src_len fuel s = Go None s' ∧ ready s' [] ∧ wrote s' out last.
Proof.
  intros Hf Hr Hw. assert (Hm : more [Byte 0xff]) by (exists 0xff; set_solver).
  destruct (reads_ss11_offset fuel 0x1000000 Hf ltac:(lia) s _ Hr Hm) as (s1 & E1 & Hs1 & Hr1).
  destruct (offset_byte_run (0x1000000 + 2) 0xff s1 [] ltac:(lia) ltac:(lia) Hr1) as (s2 & E2 & Hs2 & Hr2).
  unfold match_offset_b. rewrite (go_bind _ _ _ _ _ E1), (go_bind _ _ s1 (d_last s1) s1) by done.
  rewrite decide_False by done. rewrite (go_bind _ _ _ _ _ E2). exists s2.
  split_and!; [done|done|by eapply same_wrote, same_wrote].
Qed.

Lemma round_eof f fuel s out last :
  (33 ≤ fuel)%nat → ready s (eof_items f) → wrote s out last →
  ∃ s', round_of f md (apart src) src_len oend fuel s = Go false s' ∧ ready s' [] ∧ wrote s' out last.
Proof.
  intros Hf Hr Hw. destruct f; cbn [round_of eof_items] in *.
  - destruct (offset_b_eof fuel s out last Hf Hr Hw) as (s' & E & H').
    exists s'. unfold round_b. by rewrite (go_bind _ _ _ _ _ E).
  - destruct (offset_de_eof fuel s out last Hf Hr Hw) as (s' & E & H').
    exists s'. unfold round_d. by rewrite (go_bind _ _ _ _ _ E).
  - destruct (offset_de_eof fuel s out last Hf Hr Hw) as (s' & E & H').
    exists s'. unfold round_e. by rewrite (go_bind _ _ _ _ _ E).
Qed.

Lemma more_stream f last ps final l : more (l ++ stream f last ps final).
Proof.
  exists 0xff. apply elem_of_app. right. revert last. induction ps as [|p ps IH]; intros last; cbn [stream].
  - unfold eof_items. set_solver.
  - specialize (IH (p_off p)). set_solver.
Qed.

Lemma rounds_run f fuel inner ps : ∀ n s out last final,
  (33 ≤ fuel)%nat → (length ps < n)%nat → (N < inner)%nat →
  pieces_ok f out ps → (length (expand out ps ++ final) ≤ N)%nat →
  (∀ out' ps' last', pieces_ok f out' ps' → expand out' ps' = expand out ps → room out' (stream f last' ps' final)) →
  ready s (stream f last ps final) → wrote s out last →
  ∃ s' last', rounds md (apart src) src_len oend (round_of f md (apart src) src_len oend fuel) n inner s = Go tt s' ∧
    ready s' [] ∧ wrote s' (expand out ps ++ final) last'.
Proof.
  induction ps as [|p ps IH]; intros n s out last final Hf Hn Hin Hok HN' Hroom Hr Hw;
    pose proof (Hroom out _ last Hok eq_refl) as Hroom0;
    (destruct n as [|n]; [simpl in Hn; lia|]); cbn [rounds stream expand pieces_ok] in *.
  - destruct (literals_run inner final s (eof_items f) out last) as (s1 & E1 & Hr1 & Hw1); [|done| |done|done|done|].
    { rewrite length_app in HN'. lia. }
    { exists 0xff. unfold eof_items. set_solver. }
    rewrite (go_bind _ _ _ _ _ E1).
    destruct (round_eof f fuel s1 _ last Hf Hr1 Hw1) as (s2 & E2 & Hr2 & Hw2).
    rewrite (go_bind _ _ _ _ _ E2). by exists s2, last.
  - pose proof Hok as (_ & Hok' & Hps). clear Hok. rename Hok' into Hok. set (out1 := out ++ p_run p) in *.
    pose proof (expand_length (lz_copy (Z.to_nat (p_len p)) (p_off p) out1) ps) as He.
    rewrite lz_copy_length in He. rewrite length_app in HN'.
    destruct (literals_run inner (p_run p) s (match_items f last (p_len p) (p_off p) ++
      stream f (p_off p) ps final) out last) as (s1 & E1 & Hr1 & Hw1);
      [|exact Hr|by apply more_stream|done| |done|].
    { assert (length out1 = length out + length (p_run p))%nat by apply length_app. lia. }
    { fold out1. lia. }
    rewrite (go_bind _ _ _ _ _ E1). fold out1 in Hw1.
    destruct (round_run f fuel s1 (stream f (p_off p) ps final) out1 last (p_len p) (p_off p) Hf Hok) as (s2 & E2 & Hr2 & Hw2);
      [destruct Hok as (_ & _ & Hl); lia|by apply Hroom|exact Hr1|by apply (more_stream _ _ _ _ [])|done|].
    rewrite (go_bind _ _ _ _ _ E2). cbv iota.
    eapply IH; try done; [simpl in Hn; lia|]. rewrite length_app. lia.
Qed.

End writing.
End reading.

(** ** Round trip *)

Lemma items_ok_app l1 l2 : items_ok (l1 ++ l2) ↔ items_ok l1 ∧ items_ok l2.
Proof. apply Forall_app. Qed.

Lemma ss11_ok i : items_ok (ss11_items i).
Proof.
  unfold ss11_items. generalize (i + 2). intros j. generalize (Z.to_nat (Z.log2 j)). intros n.
  induction n as [|n IH]; [constructor|]. by do 2 (constructor; [done|]).
Qed.

Lemma ss12_ok i : items_ok (ss12_items i).
Proof.
  unfold ss12_items. destruct (steps12 _ _ _) as [n i']. induction n as [|n IH]; cbn [digits12];
    repeat (constructor; [done|]); try apply Forall_nil; done.
Qed.

Lemma run_items_ok lits : bytes_ok lits → items_ok (run_items lits).
Proof. induction 1; simpl; [constructor|]. by do 2 (constructor; [done|]). Qed.

Lemma match_items_ok f last len off : 1 ≤ off → items_ok (match_items f last len off).
Proof.
  intros Ho. pose proof (Z.mod_pos_bound (off - 1) 256 ltac:(lia)).
  pose proof (Z.mod_pos_bound (off - 1) 128 ltac:(lia)).
  assert (Hx : ∀ b, 0 ≤ 2 * ((off - 1) mod 128) + Z.b2z b < 256).
  { intros b. pose proof (b2z_range b). lia. }
  unfold match_items. destruct f; repeat case_decide; rewrite ?items_ok_app; split_and?;
    repeat first [apply Forall_nil; done|apply ss11_ok|apply ss12_ok|apply Forall_cons; split; [first [done|apply Hx]|]].
Qed.

Lemma stream_ok f last ps final out :
  pieces_ok f out ps → bytes_ok final → items_ok (stream f last ps final).
Proof.
  intros Hp Hf. revert last out Hp. induction ps as [|p ps IH]; intros last out Hp; cbn [stream].
  - apply items_ok_app. split; [by apply run_items_ok|]. constructor; [done|]. unfold eof_items.
    apply items_ok_app. split; [destruct f; [apply ss11_ok|apply ss12_ok|apply ss12_ok]|].
    by apply Forall_singleton.
  - destruct Hp as (Hr & (Hoff & _) & Hp). apply items_ok_app. split; [by apply run_items_ok|].
    constructor; [done|]. apply items_ok_app. split; [apply match_items_ok; lia|]. by eapply IH.
Qed.

(** Every match takes two bytes of the output or more. *)
Lemma pieces_count f out ps : pieces_ok f out ps → (length out + length ps ≤ length (expand out ps))%nat.
Proof.
  revert out. induction ps as [|p ps IH]; intros out; cbn [pieces_ok expand length]; [lia|].
  intros (_ & (_ & _ & Hl) & Hp). specialize (IH _ Hp). rewrite lz_copy_length, length_app in IH.
  pose proof (b2z_range (bool_decide (M2_MAX_OFFSET f < p_off p))). lia.
Qed.

(** A configured writer has written nothing. *)
Lemma config_fresh g w : bbConfig (8 * Z.of_nat g) = Some w → fresh g w [].
Proof.
  unfold bbConfig. destruct (decide _); [done|]. intros [= <-].
  replace (8 * Z.of_nat g / 8) with (Z.of_nat g) by (rewrite Z.mul_comm, Z.div_mul; lia).
  split_and!; simpl; try done. by rewrite Nat2Z.id.
Qed.

(** The encoder returns, and what it writes is the layout of its stream. *)
Lemma nrv_compress_run g f ps final c :
  (0 < g ≤ 4)%nat → bbConfig (8 * Z.of_nat g) = Some (c_bits c) → c_last_m_off c = 1 →
  Forall (λ p, p_len p ≤ c_max_match c) ps → pieces_ok f [] ps → bytes_ok final →
  ∃ c', nrv_compress f ps final c = Ret c' ∧
    bb_out (c_bits c') = layout g 0 (stream f 1 ps final).
Proof.
  intros Hg Hc Hlast Hm Hp Hf.
  destruct (put_items_run g Hg (stream f 1 ps final) (c_bits c) [])
    as (w & w' & E & E' & _ & Ho); [by eapply stream_ok|by apply config_fresh|].
  rewrite <-Hlast in E at 1. destruct (nrv_compress_emit f ps final [] c w Hm Hp Hf E) as (c' & E2).
  rewrite E2, E'. eexists. split; [done|]. done.
Qed.

Lemma pieces_short f out ps : pieces_ok f out ps → Forall (λ p, p_len p ≤ 2 ^ 32 - 1) ps.
Proof.
  revert out. induction ps as [|p ps IH]; intros out; [constructor|].
  intros (_ & (_ & _ & Hl) & Hp). constructor; [lia|]. by eapply IH.
Qed.

Section roundtrip.
  Context `{BB : BitBuffer} `{!BitBufferLaws}.

(** What a body makes of it *)
Lemma body_stream f ps final md fuel src rest src_len oend (D : destination md src rest src_len oend (length (expand [] ps ++ final))) s :
  let data := expand [] ps ++ final in
  src_len = Z.of_nat (length src) - Z.of_nat (length rest) → Z.of_nat (length src) < 2 ^ 32 →
  (overlap md = true → oend < src_len) → (safe md = true → Z.of_nat (length data) ≤ oend) →
  (length data + 33 ≤ fuel)%nat → pieces_ok f [] ps →
  (∀ out ps' last, pieces_ok f out ps' → expand out ps' = expand [] ps →
    room md src rest src_len oend _ D out (stream f last ps' final)) →
  ready src rest s (stream f 1 ps final) → wrote md src rest src_len oend _ D s [] 1 →
  ∃ s' last, body md (apart src) src_len oend (round_of f md (apart src) src_len oend) fuel s = Go UCL_E_OK s' ∧
    wrote md src rest src_len oend _ D s' data last.
Proof.
  intros data Hlen Hbig Hov Hend Hfuel Hp Hroom Hr Hw. unfold body.
  assert (E0 : (if overlap md then fail md (λ _, bool_decide (src_len ≤ oend)) UCL_E_OVERLAP_OVERRUN else mret tt) s = Go tt s).
  { destruct (overlap md); [|done]. apply fail_pass. intros _. apply bool_decide_false. specialize (Hov eq_refl). lia. }
  rewrite (go_bind _ _ _ _ _ E0).
  pose proof (pieces_count f [] ps Hp) as Hcount. simpl in Hcount.
  assert (Hexp : (length (expand [] ps) ≤ length data)%nat) by (unfold data; rewrite length_app; lia).
  destruct (rounds_run md src rest src_len oend Hlen Hbig (length data) D Hend f fuel fuel ps fuel s [] 1 final)
    as (s1 & last & E1 & Hr1 & Hw1); try done; try lia.
  rewrite (go_bind _ _ _ _ _ E1). exists s1, last. split; [|done]. unfold dget, finish.
  rewrite (ready_end src rest src_len Hlen s1 Hr1). by rewrite decide_True.
Qed.

(** What the decompressor makes of it. *)
Lemma decompress_stream f ps final md fuel rest oend dst :
  let data := expand [] ps ++ final in
  let out := layout bb_bytes 0 (stream f 1 ps final) in
  overlap md = false → pieces_ok f [] ps →
  Z.of_nat (length (out ++ rest)) < 2 ^ 32 → Z.of_nat (length data) < 2 ^ 32 →
  (length data ≤ length dst)%nat → (safe md = true → Z.of_nat (length data) ≤ oend) →
  (length data + 33 ≤ fuel)%nat →
  decompress (round_of f) md fuel (out ++ rest) (Z.of_nat (length out)) oend dst =
    Ret (UCL_E_OK, Z.of_nat (length data), data ++ drop (length data) dst).
Proof.
  intros data out Hmd Hp Hbig Hdata Hdst Hend Hfuel. unfold decompress, decompress_from.
  assert (E : (match md with Overlap o => o | _ => 0 end) = 0) by (by destruct md). rewrite E. clear E.
  rewrite length_app in Hbig. rewrite u32_small by (unfold is_u32; lia). rewrite Z.add_0_r.
  set (s0 := mk_dstate bb_init 0 0 1 dst).
  assert (Hlen : Z.of_nat (length out) = Z.of_nat (length (out ++ rest)) - Z.of_nat (length rest)).
  { rewrite length_app. lia. }
  destruct (body_stream f ps final md fuel (out ++ rest) rest (Z.of_nat (length out)) oend
    (buffer_destination md (out ++ rest) rest (Z.of_nat (length out)) oend Hlen
      ltac:(rewrite length_app; lia) Hmd dst (length data) Hdst Hdata Hend) s0) as (s1 & last & E1 & Ho & _ & Hd); try done.
  { rewrite length_app. lia. }
  { by rewrite Hmd. }
  { exists []. split; [apply holds_init|]. split; [done|]. split; [rewrite length_app; simpl; lia|]. done. }
  unfold run. rewrite E1. fold data in Ho, Hd. by rewrite Ho, Hd.
Qed.

End roundtrip.

(** Decompression undoes compression.  However the input is divided into
    runs of literals and repetitions the encoder accepts, the encoder returns,
    and the decompressor of the same format, reading the same bit buffer,
    returns [UCL_E_OK], the length of the input and its bytes, leaves the rest
    of the destination alone and does not read what follows the stream; with
    the checks of [SAFE] it needs no more room than the input has. *)
Theorem nrv_roundtrip `{BB : BitBuffer} `{!BitBufferLaws} f ps final c :
  let data := expand [] ps ++ final in
  (bb_bytes ≤ 4)%nat → compress_start (8 * Z.of_nat bb_bytes) = Some c →
  pieces_ok f [] ps → bytes_ok final → Z.of_nat (length data) < 2 ^ 32 →
  ∃ c', nrv_compress f ps final c = Ret c' ∧
    ∀ md fuel rest oend dst,
      md = Fast ∨ md = Safe ∧ Z.of_nat (length data) ≤ oend →
      Z.of_nat (length (bb_out (c_bits c') ++ rest)) < 2 ^ 32 →
      (length data ≤ length dst)%nat → (length data + 33 ≤ fuel)%nat →
      decompress (round_of f) md fuel (bb_out (c_bits c') ++ rest)
        (Z.of_nat (length (bb_out (c_bits c')))) oend dst =
      Ret (UCL_E_OK, Z.of_nat (length data), data ++ drop (length data) dst).
Proof.
  intros data Hg Hc Hp Hf Hd. unfold compress_start in Hc. destruct (bbConfig _) as [w|] eqn:Ew; [|done]. injection Hc as <-.
  destruct (nrv_compress_run bb_bytes f ps final (mk_compress w 1 0 0 (0, 0, 0) (2 ^ 32 - 1) (2 ^ 32 - 1)))
    as (c' & E & Ho); [pose proof bb_bytes_pos; lia|done|done|by eapply pieces_short|done..|].
  exists c'. split; [done|]. intros md fuel rest oend dst Hmd Hbig Hdst Hfuel. rewrite Ho in *.
  apply decompress_stream; try done; destruct Hmd as [->|[-> ?]]; done.
Qed.

(** [abcabcabcabc...] and a far match, in two formats and buffers. *)
Definition sample_pieces : list piece := [mk_piece [97; 98; 99] 20 3; mk_piece [100] 2 1; mk_piece [] 5 3].

Lemma nrv_roundtrip_witness :
  (∃ c c', compress_start 32 = Some c ∧ nrv_compress NRV2B sample_pieces [33] c = Ret c' ∧
    decompress (BB := buffer_le32) (round_of (BB := buffer_le32) NRV2B) Safe 100 (bb_out (c_bits c') ++ [7])
      (Z.of_nat (length (bb_out (c_bits c')))) 32 (replicate 33 0) =
    Ret (UCL_E_OK, 32, (expand [] sample_pieces ++ [33]) ++ [0])) ∧
  ∃ c c', compress_start 8 = Some c ∧ nrv_compress NRV2E sample_pieces [] c = Ret c' ∧
    decompress (BB := buffer_8) (round_of (BB := buffer_8) NRV2E) Fast 100 (bb_out (c_bits c') ++ [])
      (Z.of_nat (length (bb_out (c_bits c')))) 0 (replicate 31 0) =
    Ret (UCL_E_OK, 31, expand [] sample_pieces ++ []).
Proof.
  assert (Hok : ∀ f, pieces_ok f [] sample_pieces).
  { intros f. cbn [pieces_ok sample_pieces]. unfold match_ok, SWD_N, bytes_ok.
    destruct f; split_and!; repeat constructor; vm_compute; (done || lia). }
  split.
  - destruct (compress_start 32) as [c|] eqn:E; [|by vm_compute in E].
    destruct (nrv_roundtrip (BB := buffer_le32) NRV2B sample_pieces [33] c) as (c' & E1 & H1);
      [simpl; lia|exact E|apply Hok|by repeat constructor|by vm_compute|].
    exists c, c'. split; [reflexivity|]. split; [exact E1|]. vm_compute in E. injection E as <-.
    assert (Ec := E1). vm_compute in Ec. injection Ec as <-.
    etransitivity; [apply (H1 Safe 100%nat [7] 32 (replicate 33 0))|by vm_compute].
    + right. split; [done|by vm_compute].
    + by vm_compute.
    + apply Nat.leb_le. by vm_compute.
    + apply Nat.leb_le. by vm_compute.
  - destruct (compress_start 8) as [c|] eqn:E; [|by vm_compute in E].
    destruct (nrv_roundtrip (BB := buffer_8) NRV2E sample_pieces [] c) as (c' & E1 & H1);
      [simpl; lia|exact E|apply Hok|by repeat constructor|by vm_compute|].
    exists c, c'. split; [reflexivity|]. split; [exact E1|]. vm_compute in E. injection E as <-.
    assert (Ec := E1). vm_compute in Ec. injection Ec as <-.
    etransitivity; [apply (H1 Fast 100%nat [] 0 (replicate 31 0))|by vm_compute].
    + by left.
    + by vm_compute.
    + apply Nat.leb_le. by vm_compute.
    + apply Nat.leb_le. by vm_compute.
Defined.
