(* ===== verification/UclSafe.v ===== *)
(** * The decompressors on arbitrary input (packers/exepak-1.5/ucl-1.02/src)

    What the checks of [SAFE] achieve: on any bytes at all a decompressor stops
    with a code and stays within its buffers, if these have the room the checks
    forget - one byte behind the destination, one group of bits behind the
    source.  And what they cost: nothing but the early codes. *)

From S2P Require Import Prelude UclBits UclDecode UclEncode UclRoundtrip.

(** ** Triples *)

Section safety.
  Context `{BB : BitBuffer} `{!BitBufferLaws}.
  Context (src : list Z) (src_len oend L : Z).
  Context (Hbytes : bytes_ok src) (Hpos : 0 ≤ src_len) (Hsrc : src_len + Z.of_nat bb_bytes ≤ Z.of_nat (length src))
    (Hbig : Z.of_nat (length src) < 2 ^ 32) (Hoend : 0 ≤ oend < 2 ^ 31 - 4) (HL : oend + 1 ≤ L).

Definition bounded (s : dstate) : Prop :=
  0 ≤ d_olen s ≤ oend + 1 ∧ Z.of_nat (length (d_dst s)) = L ∧ 1 ≤ d_last s.

(** [k] bits may be read without another check; [n] bits are left at most. *)
Definition fuelled (k : nat) (n : Z) (s : dstate) : Prop :=
  ∃ p, holds (d_bb s) p ∧ 0 ≤ d_ilen s ∧
    (d_ilen s ≤ src_len ∨ d_ilen s ≤ src_len + Z.of_nat bb_bytes ∧ (k ≤ length p)%nat) ∧
    8 * (src_len + Z.of_nat bb_bytes - d_ilen s) + Z.of_nat (length p) ≤ n.

Definition inv (k : nat) (n : Z) (s : dstate) : Prop := fuelled k n s ∧ bounded s.

Definition check_code (c : Z) : Prop :=
  c = UCL_E_INPUT_OVERRUN ∨ c = UCL_E_OUTPUT_OVERRUN ∨ c = UCL_E_LOOKBEHIND_OVERRUN.

(** [m] does not crash from [s]; it goes on with [Q], or returns early. *)
Definition wp {A} (m : dec A) (Q : A → dstate → Prop) (s : dstate) : Prop :=
  match m s with
  | Go a s' => Q a s'
  | Done c s' => check_code c ∧ bounded s'
  | Crash _ => False
  end.

Lemma wp_bind {A B} (m : dec A) (k : A → dec B) Q s :
  wp m (λ a s', wp (k a) Q s') s → wp (m ≫= k) Q s.
Proof. unfold wp, mbind, dec_bind. by destruct (m s). Qed.

Lemma wp_ret {A} (a : A) (Q : A → dstate → Prop) s : Q a s → wp (mret a) Q s.
Proof. done. Qed.

Lemma wp_mono {A} (m : dec A) (P Q : A → dstate → Prop) s :
  wp m P s → (∀ a s', P a s' → Q a s') → wp m Q s.
Proof. unfold wp. destruct (m s); naive_solver. Qed.

Lemma inv_weaken k k' n n' s : inv k n s → (k' ≤ k)%nat → n ≤ n' → inv k' n' s.
Proof.
  intros [(p & Hp & Hi & Hs & Hn) Hb] Hk Hn'. split; [|done]. exists p. split_and!; [done|done| |lia].
  destruct Hs as [?|[??]]; [by left|right; lia].
Qed.

Lemma inv_pos k n s : inv k n s → 0 ≤ n.
Proof. intros [(p & _ & Hi & Hs & Hn) _]. destruct Hs as [?|[??]]; lia. Qed.

Lemma wp_bit k n s (Q : Z → dstate → Prop) :
  inv (S k) n s → (k < 8)%nat → (∀ b s', b = 0 ∨ b = 1 → inv k (n - 1) s' → Q b s') → wp (bit (apart src)) Q s.
Proof.
  intros [(p & Hp & Hi & Hs & Hn) Hb] Hk HQ. pose proof bb_bytes_pos as Hg. unfold wp, bit, apart. destruct p as [|b p].
  - assert (Hle : d_ilen s ≤ src_len) by (destruct Hs as [?|[? Hl]]; [done|simpl in Hl; lia]).
    set (grp := take bb_bytes (drop (Z.to_nat (d_ilen s)) src)).
    assert (Hlg : length grp = bb_bytes) by (unfold grp; rewrite length_take, length_drop; lia).
    destruct (bits_of_bytes grp) as (bs & Hlen & Hbs). { apply Forall_take, Forall_drop, Hbytes. }
    rewrite Hlg in *. destruct bs as [|b bs]; [simpl in Hlen; lia|].
    destruct (getbit_fetch src (d_ilen s) (d_bb s) b bs) as (s' & E & Hs'); [done|lia|lia|done|done|].
    rewrite E. apply HQ; [destruct b; auto|]. split; [|done]. exists bs. cbn [d_bb d_ilen].
    simpl in Hlen, Hn. split_and!; [done|lia|right; lia|lia].
  - destruct (getbit_held src (d_ilen s) (d_bb s) b p Hp) as (s' & E & Hs'). rewrite E.
    apply HQ; [destruct b; auto|]. split; [|done]. exists p. cbn [d_bb d_ilen]. simpl in Hs, Hn.
    split_and!; [done|lia| |lia]. destruct Hs as [?|[??]]; [by left|right; lia].
Qed.

Lemma wp_fail x r s (Q : unit → dstate → Prop) :
  check_code r → bounded s → (x s = false → Q tt s) → wp (fail Safe x r) Q s.
Proof. intros Hr Hb HQ. unfold wp, fail. simpl. destruct (x s); [done|by apply HQ]. Qed.

(** After the check of the input any few bits may be read, and a byte. *)
Lemma wp_input k n s (Q : unit → dstate → Prop) :
  inv k n s → (d_ilen s < src_len → inv 8 n s → Q tt s) → wp (fail Safe (input_over src_len) UCL_E_INPUT_OVERRUN) Q s.
Proof.
  intros Hinv HQ. apply wp_fail; [by left|by apply Hinv|]. unfold input_over. intros Hx. to_prop.
  apply HQ; [lia|]. destruct Hinv as [(p & Hp & Hi & _ & Hn) Hb]. split; [|done]. exists p.
  split_and!; [done|done|left; lia|done].
Qed.

Lemma wp_byte n s (Q : Z → dstate → Prop) :
  d_ilen s < src_len → inv 8 n s →
  (∀ x s', 0 ≤ x < 256 → d_olen s' = d_olen s → inv 8 (n - 8) s' → Q x s') → wp (next_byte (apart src)) Q s.
Proof.
  intros Hlt [(p & Hp & Hi & _ & Hn) Hb] HQ.
  destruct (lookup_lt_is_Some_2 src (Z.to_nat (d_ilen s))) as [x Hx]; [lia|].
  assert (E : src_get src (d_ilen s) = Ret x) by (unfold src_get; by rewrite decide_True, Hx by done).
  unfold wp, next_byte, apart, dget, lift, dmod, mbind, dec_bind. rewrite E.
  apply HQ; [by apply (proj1 (Forall_lookup _ src) Hbytes _ _ Hx)|done|]. split; [|done]. exists p.
  cbn [d_bb d_ilen set_ilen]. rewrite u32_small by (unfold is_u32; lia). split_and!; [done|lia|left; lia|lia].
Qed.

Lemma wp_put x k n s (Q : unit → dstate → Prop) :
  inv k n s → d_olen s < oend + 1 →
  (∀ s', inv k n s' → d_olen s' = d_olen s + 1 → Q tt s') → wp (put x) Q s.
Proof.
  intros [(p & Hp & Hi & Hs & Hn) (Ho & Hl & Hm)] Hlt HQ. unfold wp, put. rewrite decide_True by lia.
  apply HQ; cbn [d_olen]; [|by rewrite u32_small by (unfold is_u32; lia)].
  split; [by exists p|]. split_and!; cbn [d_olen d_dst d_last]; try (rewrite u32_small by (unfold is_u32; lia); lia).
  - by rewrite length_insert.
  - done.
Qed.

Lemma wp_literals fuel n s :
  inv 2 n s → n < Z.of_nat fuel →
  wp (literals Safe (apart src) src_len oend fuel) (λ _ s', ∃ n', inv 1 n' s' ∧ n' < n) s.
Proof.
  revert n s. induction fuel as [|fuel IH]; intros n s Hinv Hf; [apply inv_pos in Hinv; lia|].
  cbn [literals]. apply wp_bind, (wp_bit 1 n); [done|lia|]. intros b s1 Hb Hinv1. destruct (decide (b ≠ 0)).
  - apply wp_bind. unfold literal. apply wp_bind, (wp_input 1 (n - 1)); [done|]. intros Hlt Hinv2.
    apply wp_bind, wp_fail; [by right; left|by apply Hinv2|]. intros Ho. to_prop.
    cbn [overlap]. apply wp_bind, (wp_byte (n - 1)); [done|done|]. intros x s2 Hx Eo Hinv3.
    apply (wp_put x 8 (n - 1 - 8)); [done|lia|]. intros s3 Hinv4 _.
    eapply wp_mono; [apply (IH (n - 1 - 8)); [by eapply inv_weaken; [done|lia|lia]|lia]|].
    intros _ s4 (n' & Hi' & Hn'). exists n'. split; [done|lia].
  - apply wp_ret. exists (n - 1). split; [done|lia].
Qed.

Lemma u32_range_lt x : 0 ≤ u32 x < 2 ^ 32.
Proof. apply Z.mod_pos_bound. lia. Qed.

(** The offset is at least two and small, a bit was read. *)
Definition offset_post (n m : Z) (s : dstate) : Prop := 2 ≤ m ≤ 0xffffff + 3 ∧ inv 7 (n - 1) s.

Lemma wp_offset_b fuel n m s :
  inv 1 n s → n < Z.of_nat fuel → 1 ≤ m ≤ 0xffffff + 3 →
  wp (offset_b Safe (apart src) src_len fuel m) (offset_post n) s.
Proof.
  revert n m s. induction fuel as [|fuel IH]; intros n m s Hinv Hf Hm; [apply inv_pos in Hinv; lia|].
  cbn [offset_b]. apply wp_bind, (wp_bit 0 n); [done|lia|]. intros b s1 Hb Hinv1.
  rewrite u32_add_l, u32_small by (unfold is_u32; lia).
  apply wp_bind, (wp_input 0 (n - 1)); [done|]. intros Hlt Hinv2.
  apply wp_bind, wp_fail; [by do 2 right|by apply Hinv2|]. intros Ho. to_prop.
  apply wp_bind, (wp_bit 7 (n - 1)); [done|lia|]. intros stop s2 Hstop Hinv3. destruct (decide (stop = 0)).
  - eapply wp_mono; [apply (IH (n - 1 - 1)); [by eapply inv_weaken; [done|lia|lia]|lia|lia]|].
    intros m' s' [Hm' Hi']. split; [done|]. by eapply inv_weaken; [done|lia|lia].
  - apply wp_ret. split; [lia|]. by eapply inv_weaken; [done|lia|lia].
Qed.

Lemma wp_offset_de fuel n m s :
  inv 1 n s → n < Z.of_nat fuel → 1 ≤ m ≤ 2 * (0xffffff + 3) →
  wp (offset_de Safe (apart src) src_len fuel m) (offset_post n) s.
Proof.
  revert n m s. induction fuel as [|fuel IH]; intros n m s Hinv Hf Hm; [apply inv_pos in Hinv; lia|].
  cbn [offset_de]. apply wp_bind, (wp_bit 0 n); [done|lia|]. intros b s1 Hb Hinv1.
  rewrite u32_add_l, u32_small by (unfold is_u32; lia).
  apply wp_bind, (wp_input 0 (n - 1)); [done|]. intros Hlt Hinv2.
  apply wp_bind, wp_fail; [by do 2 right|by apply Hinv2|]. intros Ho. to_prop.
  apply wp_bind, (wp_bit 7 (n - 1)); [done|lia|]. intros stop s2 Hstop Hinv3. destruct (decide (stop ≠ 0)).
  - apply wp_ret. split; [lia|]. by eapply inv_weaken; [done|lia|lia].
  - apply wp_bind, (wp_bit 6 (n - 1 - 1)); [done|lia|]. intros b2 s3 Hb2 Hinv4.
    rewrite (u32_small (_ - 1)) by (unfold is_u32; lia). rewrite u32_add_l, u32_small by (unfold is_u32; lia).
    eapply wp_mono; [apply (IH (n - 1 - 1 - 1)); [by eapply inv_weaken; [done|lia|lia]|lia|lia]|].
    intros m' s' [Hm' Hi']. split; [done|]. by eapply inv_weaken; [done|lia|lia].
Qed.

(** Lengths stay below the size of the destination while they are read. *)
Lemma wp_length fuel n m s :
  inv 1 n s → n < Z.of_nat fuel → 1 ≤ m < 2 ^ 31 - 4 →
  wp (length_loop Safe (apart src) src_len oend fuel m) (λ m' s', 2 ≤ m' < 2 ^ 31 - 4 ∧ inv 7 (n - 1) s') s.
Proof.
  revert n m s. induction fuel as [|fuel IH]; intros n m s Hinv Hf Hm; [apply inv_pos in Hinv; lia|].
  cbn [length_loop]. apply wp_bind, (wp_bit 0 n); [done|lia|]. intros b s1 Hb Hinv1.
  rewrite u32_add_l, u32_small by (unfold is_u32; lia).
  apply wp_bind, (wp_input 0 (n - 1)); [done|]. intros Hlt Hinv2.
  apply wp_bind, wp_fail; [by right; left|by apply Hinv2|]. intros Ho. to_prop.
  apply wp_bind, (wp_bit 7 (n - 1)); [done|lia|]. intros stop s2 Hstop Hinv3. destruct (decide (stop = 0)).
  - eapply wp_mono; [apply (IH (n - 1 - 1)); [by eapply inv_weaken; [done|lia|lia]|lia|lia]|].
    intros m' s' [Hm' Hi']. split; [done|]. by eapply inv_weaken; [done|lia|lia].
  - apply wp_ret. split; [lia|]. by eapply inv_weaken; [done|lia|lia].
Qed.

Lemma wp_copy cnt pos k n s :
  inv k n s → 0 ≤ pos < d_olen s → d_olen s + Z.of_nat cnt ≤ oend + 1 →
  wp (copy cnt pos) (λ _ s', inv k n s') s.
Proof.
  revert pos s. induction cnt as [|cnt IH]; intros pos s Hinv Hp Ho; cbn [copy]; [done|].
  destruct (lookup_lt_is_Some_2 (d_dst s) (Z.to_nat pos)) as [x Hx].
  { destruct Hinv as [_ (Hb & Hl & _)]. lia. }
  assert (E : src_get (d_dst s) pos = Ret x) by (unfold src_get; rewrite decide_True, Hx by lia; done).
  apply wp_bind. unfold dget, wp at 1. apply wp_bind. unfold lift, wp at 1. rewrite E.
  apply wp_bind, (wp_put x k n); [done|lia|]. intros s' Hinv' Eo. apply IH; [done|lia|lia].
Qed.

(** A match is copied when the checks allow; it ends one byte behind them at most. *)
Lemma wp_copy_match m_off m_len k n s :
  inv k n s → 1 ≤ m_off → 1 ≤ m_len < 2 ^ 31 + 4 →
  wp (copy_match Safe oend m_off m_len) (λ _ s', inv k n s') s.
Proof.
  intros Hinv Hoff Hlen. pose proof Hinv as [_ (Ho & Hl & _)]. unfold copy_match.
  apply wp_bind, wp_fail; [by right; left|by apply Hinv|]. rewrite u32_small by (unfold is_u32; lia).
  intros H1. apply wp_bind, wp_fail; [by do 2 right|by apply Hinv|]. intros H2. to_prop.
  cbn [overlap]. apply wp_bind. unfold dget, wp at 1. rewrite u32_small by (unfold is_u32; lia).
  apply wp_copy; [done|lia|lia].
Qed.

Lemma wp_offset_byte n m s (Q : option Z → dstate → Prop) :
  inv 7 n s → 3 ≤ m ≤ 0xffffff + 3 →
  (∀ o s', inv 8 (n - 8) s' → (∀ x, o = Some x → 0 ≤ x < 0xffffffff) → Q o s') →
  wp (offset_byte Safe (apart src) src_len m) Q s.
Proof.
  intros Hinv Hm HQ. unfold offset_byte. apply wp_bind, (wp_input 7 n); [done|]. intros Hlt Hinv1.
  apply wp_bind, (wp_byte n); [done|done|]. intros x s2 Hx _ Hinv2.
  rewrite (u32_small (m - 3)), u32_add_l by (unfold is_u32; lia). rewrite u32_small by (unfold is_u32; lia).
  apply wp_ret, HQ; [done|]. intros y. destruct (decide _); [done|]. intros ?; simplify_eq. lia.
Qed.

Lemma inv_set_last k n m s : inv k n s → 1 ≤ m → inv k n (set_last m s).
Proof. intros [Hf (? & ? & _)] Hm. by split. Qed.

Lemma wp_match_offset_b fuel n s :
  inv 1 n s → n < Z.of_nat fuel →
  wp (match_offset_b Safe (apart src) src_len fuel)
    (λ o s', inv 7 (n - 1) s' ∧ ∀ m, o = Some m → 1 ≤ m) s.
Proof.
  intros Hinv Hf. unfold match_offset_b. apply wp_bind. eapply wp_mono; [apply (wp_offset_b fuel n); [done|done|lia]|].
  intros m s1 [Hm Hinv1]. apply wp_bind. unfold dget, wp at 1. destruct (decide (m = 2)).
  - apply wp_ret. split; [done|]. intros ? ?. simplify_eq. apply Hinv1.
  - apply wp_bind, (wp_offset_byte (n - 1)); [done|lia|]. intros o s2 Hinv2 Ho. destruct o as [x|].
    + specialize (Ho x eq_refl). apply wp_bind. unfold dmod, wp at 1. apply wp_ret.
      rewrite u32_small by (unfold is_u32; lia). split.
      * apply inv_set_last; [by eapply inv_weaken; [done|lia|lia]|lia].
      * intros ? ?. simplify_eq. lia.
    + apply wp_ret. split; [by eapply inv_weaken; [done|lia|lia]|done].
Qed.

Lemma wp_match_offset_de fuel n s :
  inv 1 n s → n < Z.of_nat fuel →
  wp (match_offset_de Safe (apart src) src_len fuel)
    (λ o s', inv 6 (n - 1) s' ∧ ∀ m l, o = Some (m, l) → 1 ≤ m ∧ (l = 0 ∨ l = 1)) s.
Proof.
  intros Hinv Hf. unfold match_offset_de. apply wp_bind. eapply wp_mono; [apply (wp_offset_de fuel n); [done|done|lia]|].
  intros m s1 [Hm Hinv1]. apply wp_bind. unfold dget, wp at 1. destruct (decide (m = 2)).
  - apply wp_bind, (wp_bit 6 (n - 1)); [done|lia|]. intros b s2 Hb Hinv2. apply wp_ret.
    split; [by eapply inv_weaken; [done|lia|lia]|]. intros ? ? ?. simplify_eq. split; [apply Hinv1|done].
  - apply wp_bind, (wp_offset_byte (n - 1)); [done|lia|]. intros o s2 Hinv2 Ho. destruct o as [x|].
    + specialize (Ho x eq_refl). apply wp_bind. unfold dmod, wp at 1. apply wp_ret.
      assert (Hh : 0 ≤ Z.shiftr x 1 < 2 ^ 31).
      { rewrite Z.shiftr_div_pow2 by lia. change (2 ^ 1) with 2. Z.div_mod_to_equations. lia. }
      rewrite u32_small by (unfold is_u32; lia). split.
      * apply inv_set_last; [by eapply inv_weaken; [done|lia|lia]|lia].
      * intros ? ? ?. simplify_eq. split; [lia|]. pose proof (Z.land_ones (Z.lxor x 0xffffffff) 1 ltac:(lia)) as El.
        change (Z.ones 1) with 1 in El. change (2 ^ 1) with 2 in El. rewrite El. pose proof (Z.mod_pos_bound (Z.lxor x 0xffffffff) 2). lia.
    + apply wp_ret. split; [by eapply inv_weaken; [done|lia|lia]|done].
Qed.

(** What is left to a round after a match: a length, then the copy. *)
Lemma wp_len_bd fuel n s l :
  inv 4 n s → n < Z.of_nat fuel → l = 0 ∨ l = 1 →
  wp (match_len_bd Safe (apart src) src_len oend fuel l) (λ m s', 1 ≤ m < 2 ^ 31 ∧ inv 2 (n - 1) s') s.
Proof.
  intros Hinv Hf Hl. unfold match_len_bd. apply wp_bind, (wp_bit 3 n); [done|lia|]. intros b s1 Hb Hinv1.
  rewrite u32_small by (unfold is_u32; lia). destruct (decide _).
  - apply wp_bind. eapply wp_mono; [apply (wp_length fuel (n - 1)); [by eapply inv_weaken; [done|lia|lia]|lia|lia]|].
    intros m s2 [Hm Hinv2]. apply wp_ret. rewrite u32_small by (unfold is_u32; lia).
    split; [lia|]. by eapply inv_weaken; [done|lia|lia].
  - apply wp_ret. split; [lia|]. by eapply inv_weaken; [done|lia|lia].
Qed.

Lemma wp_len_e fuel n s l :
  inv 4 n s → n < Z.of_nat fuel → l = 0 ∨ l = 1 →
  wp (match_len_e Safe (apart src) src_len oend fuel l) (λ m s', 1 ≤ m < 2 ^ 31 ∧ inv 2 (n - 1) s') s.
Proof.
  intros Hinv Hf Hl. unfold match_len_e. destruct (decide (l ≠ 0)).
  - apply wp_bind, (wp_bit 3 n); [done|lia|]. intros b s1 Hb Hinv1. apply wp_ret.
    split; [lia|]. by eapply inv_weaken; [done|lia|lia].
  - apply wp_bind, (wp_bit 3 n); [done|lia|]. intros c s1 Hc Hinv1. destruct (decide (c ≠ 0)).
    + apply wp_bind, (wp_bit 2 (n - 1)); [done|lia|]. intros b s2 Hb Hinv2. apply wp_ret.
      split; [lia|]. by eapply inv_weaken; [done|lia|lia].
    + apply wp_bind. eapply wp_mono; [apply (wp_length fuel (n - 1)); [by eapply inv_weaken; [done|lia|lia]|lia|lia]|].
      intros m s2 [Hm Hinv2]. apply wp_ret. rewrite u32_small by (unfold is_u32; lia).
      split; [lia|]. by eapply inv_weaken; [done|lia|lia].
Qed.

Definition round_post (n : Z) (go : bool) (s : dstate) : Prop := if go then inv 2 (n - 1) s else inv 0 n s.

Lemma wp_finish_round m_off m_len (far : Prop) `{Decision far} n s :
  inv 2 (n - 1) s → 1 ≤ m_off → 1 ≤ m_len < 2 ^ 31 →
  wp (copy_match Safe oend m_off (u32 (m_len + Z.b2z (bool_decide far)));; mret true) (round_post n) s.
Proof.
  intros Hinv Hoff Hlen. pose proof (b2z_range (bool_decide far)).
  rewrite u32_small by (unfold is_u32; lia). apply wp_bind. eapply wp_mono.
  { apply (wp_copy_match m_off _ 2 (n - 1)); [done|done|lia]. }
  intros [] s' Hinv'. by apply wp_ret.
Qed.

Lemma wp_round f fuel n s :
  inv 1 n s → n < Z.of_nat fuel → wp (round_of f Safe (apart src) src_len oend fuel) (round_post n) s.
Proof.
  intros Hinv Hf. destruct f; cbn [round_of]; apply wp_bind;
    (eapply wp_mono; [first [by apply (wp_match_offset_b fuel n)|by apply (wp_match_offset_de fuel n)]|]);
    [intros [m|] s1 [Hinv1 Hm]|intros [[m l]|] s1 [Hinv1 Hm]..];
    try (apply wp_ret; by eapply inv_weaken; [done|lia|lia]).
  - apply wp_bind, (wp_bit 6 (n - 1)); [done|lia|]. intros b s2 Hb Hinv2. apply wp_bind.
    eapply wp_mono; [apply (wp_len_bd fuel (n - 1 - 1)); [by eapply inv_weaken; [done|lia|lia]|lia|done]|].
    intros len s3 [Hlen Hinv3]. apply (wp_finish_round _ _ (0xd00 < m)); [|by apply Hm|done].
    by eapply inv_weaken; [done|lia|lia].
  - destruct (Hm m l eq_refl) as [Hm1 Hl]. apply wp_bind.
    eapply wp_mono; [apply (wp_len_bd fuel (n - 1)); [by eapply inv_weaken; [done|lia|lia]|lia|done]|].
    intros len s3 [Hlen Hinv3]. apply (wp_finish_round _ _ (0x500 < m)); [|done|done].
    by eapply inv_weaken; [done|lia|lia].
  - destruct (Hm m l eq_refl) as [Hm1 Hl]. apply wp_bind.
    eapply wp_mono; [apply (wp_len_e fuel (n - 1)); [by eapply inv_weaken; [done|lia|lia]|lia|done]|].
    intros len s3 [Hlen Hinv3]. apply (wp_finish_round _ _ (0x500 < m)); [|done|done].
    by eapply inv_weaken; [done|lia|lia].
Qed.

Lemma wp_rounds f fuel inner k n s :
  inv 2 n s → n < Z.of_nat fuel → n < Z.of_nat inner → n < Z.of_nat k →
  wp (rounds Safe (apart src) src_len oend (round_of f Safe (apart src) src_len oend fuel) k inner) (λ _ s', bounded s') s.
Proof.
  revert n s. induction k as [|k IH]; intros n s Hinv Hf Hi Hk; [apply inv_pos in Hinv; lia|].
  cbn [rounds]. apply wp_bind. eapply wp_mono; [by apply (wp_literals inner n)|].
  intros _ s1 (n1 & Hinv1 & Hn1). apply wp_bind. eapply wp_mono; [apply (wp_round f fuel n1); [done|lia]|].
  intros [|] s2 H2; [|apply wp_ret, H2]. apply (IH (n1 - 1)); [done|lia..].
Qed.

Lemma safe_run f fuel dst :
  Z.of_nat (length dst) = L → 8 * (src_len + Z.of_nat bb_bytes) < Z.of_nat fuel →
  ∃ code olen dst', decompress (round_of f) Safe fuel src src_len oend dst = Ret (code, olen, dst') ∧
    (check_code code ∨ code = UCL_E_OK ∨ code = UCL_E_INPUT_NOT_CONSUMED) ∧
    0 ≤ olen ≤ oend + 1 ∧ length dst' = length dst.
Proof.
  intros Hd Hf. unfold decompress, decompress_from. rewrite u32_small by (unfold is_u32; lia). rewrite Z.add_0_r.
  set (s0 := mk_dstate bb_init 0 0 1 dst). unfold run, body. cbn [overlap].
  assert (Hinv : inv 2 (8 * (src_len + Z.of_nat bb_bytes)) s0).
  { split; [exists []; split_and!; simpl; [apply holds_init|lia|left; lia|lia]|]. split_and!; simpl; lia. }
  pose proof (wp_rounds f fuel fuel fuel _ s0 Hinv ltac:(lia) ltac:(lia) ltac:(lia)) as Hw.
  unfold wp in Hw. rewrite (go_bind _ _ s0 tt s0) by done.
  destruct (rounds _ _ _ _ _ _ _ s0) as [[] s1|code s1|] eqn:E; [| |done].
  - rewrite (go_bind _ _ _ _ _ E). unfold dget. destruct Hw as (Ho & Hl & _).
    do 3 eexists. split; [done|]. split; [|split; [done|lia]].
    unfold finish, check_code. destruct (decide _); [auto|]. destruct (decide _); auto.
  - unfold mbind, dec_bind. rewrite E. destruct Hw as [Hc (Ho & Hl & _)]. do 3 eexists.
    split; [done|]. split; [by left|]. split; [done|lia].
Qed.

End safety.

(** ** With the checks and without *)

Section agreement.
  Context `{BB : BitBuffer}.
  Context (src : list Z) (src_len oend oend' : Z).

(** Where [m1] goes on, so does [m2], the same way; and [m1] returns early with
    the code of a check only. *)
Definition agree {A} (m1 m2 : dec A) : Prop :=
  ∀ s, match m1 s with Go a s' => m2 s = Go a s' | Done c _ => check_code c | Crash _ => True end.

Lemma agree_bind {A B} (m1 m2 : dec A) (k1 k2 : A → dec B) :
  agree m1 m2 → (∀ a, agree (k1 a) (k2 a)) → agree (m1 ≫= k1) (m2 ≫= k2).
Proof.
  intros Hm Hk s. unfold mbind, dec_bind. specialize (Hm s).
  destruct (m1 s) as [a s'|c s'|f]; [|done|done]. rewrite Hm. apply Hk.
Qed.

Lemma agree_same {A} (m : dec A) : (∀ s c s', m s ≠ Done c s') → agree m m.
Proof. intros Hm s. destruct (m s) eqn:E; [done|by destruct (Hm s code s0)|done]. Qed.

Lemma agree_fail x y r : check_code r → agree (fail Safe x r) (fail Fast y r).
Proof. intros Hr s. unfold fail. simpl. by destruct (x s). Qed.

Lemma agree_ret {A} (a : A) : agree (mret a) (mret a).
Proof. by apply agree_same. Qed.
Lemma agree_bit : agree (bit (apart src)) (bit (apart src)).
Proof. apply agree_same. intros s c s'. unfold bit. by repeat case_match. Qed.
Lemma agree_lift {A} (m : outcome A) : agree (lift m) (lift m).
Proof. apply agree_same. intros s c s'. unfold lift. by case_match. Qed.
Lemma agree_put x : agree (put x) (put x).
Proof. apply agree_same. intros s c s'. unfold put. by case_decide. Qed.
Lemma agree_dget {A} (f : dstate → A) : agree (dget f) (dget f).
Proof. by apply agree_same. Qed.
Lemma agree_dmod f : agree (dmod f) (dmod f).
Proof. by apply agree_same. Qed.
Lemma agree_if {A} (P : Prop) `{Decision P} (a b c d : dec A) :
  agree a c → agree b d → agree (if decide P then a else b) (if decide P then c else d).
Proof. by destruct (decide P). Qed.

Lemma agree_next_byte : agree (next_byte (apart src)) (next_byte (apart src)).
Proof.
  unfold next_byte. apply agree_bind; [apply agree_dget|intros dst]. apply agree_bind; [apply agree_dget|intros i].
  apply agree_bind; [apply agree_lift|intros x]. apply agree_bind; [apply agree_dmod|intros _]. apply agree_ret.
Qed.

Create HintDb agree.
#[local] Hint Resolve agree_ret agree_bit agree_put agree_dget agree_dmod agree_next_byte : agree.
#[local] Hint Extern 2 (check_code _) => (by left) || (by right; left) || (by right; right) : agree.

(** Descend through a body. *)
Ltac agree_step :=
  first [ done | solve [auto with agree]
        | apply agree_lift
        | apply agree_fail; auto with agree
        | apply agree_bind; [|intros ?] | apply agree_if
        | match goal with |- agree (match ?o with _ => _ end) _ => destruct o as [?|] || destruct o end ].

Lemma agree_literals fuel : agree (literals Safe (apart src) src_len oend fuel) (literals Fast (apart src) src_len oend' fuel).
Proof. induction fuel as [|n IH]; cbn [literals]; unfold literal; cbn [overlap]; repeat agree_step. Qed.
Lemma agree_offset_b fuel m : agree (offset_b Safe (apart src) src_len fuel m) (offset_b Fast (apart src) src_len fuel m).
Proof. revert m. induction fuel as [|n IH]; intros m; cbn [offset_b]; repeat agree_step. Qed.
Lemma agree_offset_de fuel m : agree (offset_de Safe (apart src) src_len fuel m) (offset_de Fast (apart src) src_len fuel m).
Proof. revert m. induction fuel as [|n IH]; intros m; cbn [offset_de]; repeat agree_step. Qed.
Lemma agree_length fuel m :
  agree (length_loop Safe (apart src) src_len oend fuel m) (length_loop Fast (apart src) src_len oend' fuel m).
Proof. revert m. induction fuel as [|n IH]; intros m; cbn [length_loop]; repeat agree_step. Qed.
Lemma agree_copy n pos : agree (copy n pos) (copy n pos).
Proof. revert pos. induction n as [|n IH]; intros pos; cbn [copy]; repeat agree_step. Qed.
#[local] Hint Resolve agree_literals agree_offset_b agree_offset_de agree_length agree_copy : agree.

Lemma agree_offset_byte m : agree (offset_byte Safe (apart src) src_len m) (offset_byte Fast (apart src) src_len m).
Proof. unfold offset_byte. repeat agree_step. Qed.
Lemma agree_copy_match m l : agree (copy_match Safe oend m l) (copy_match Fast oend' m l).
Proof. unfold copy_match. cbn [overlap]. repeat agree_step. Qed.
#[local] Hint Resolve agree_offset_byte agree_copy_match : agree.

Lemma agree_round f fuel :
  agree (round_of f Safe (apart src) src_len oend fuel) (round_of f Fast (apart src) src_len oend' fuel).
Proof.
  destruct f; cbn [round_of];
    unfold round_b, round_d, round_e, match_offset_b, match_offset_de, match_len_bd, match_len_e;
    repeat agree_step.
Qed.

Lemma agree_rounds f fuel inner k :
  agree (rounds Safe (apart src) src_len oend (round_of f Safe (apart src) src_len oend fuel) k inner)
    (rounds Fast (apart src) src_len oend' (round_of f Fast (apart src) src_len oend' fuel) k inner).
Proof.
  induction k as [|k IH]; cbn [rounds]; [done|].
  apply agree_bind; [apply agree_literals|intros _]. apply agree_bind; [apply agree_round|intros [|]]; [done|apply agree_ret].
Qed.

Lemma agree_body f fuel :
  agree (body Safe (apart src) src_len oend (round_of f Safe (apart src) src_len oend) fuel)
    (body Fast (apart src) src_len oend' (round_of f Fast (apart src) src_len oend') fuel).
Proof.
  unfold body. cbn [overlap]. apply agree_bind; [apply agree_ret|intros _].
  apply agree_bind; [apply agree_rounds|intros _; apply agree_dget].
Qed.

End agreement.

(** ** Theorems *)

(** C11: on arbitrary bytes the decompressors compiled with [SAFE] stop, with
    the code of a check or of the end of the stream, and touch nothing outside
    their buffers, when the source has one group of bits behind [src_len] and
    the destination one byte behind [*dst_len]; [*dst_len] exceeds what was
    given by one at most. *)
Theorem safe_decompress_total `{BB : BitBuffer} `{!BitBufferLaws} f fuel src src_len oend dst :
  bytes_ok src → 0 ≤ src_len → src_len + Z.of_nat bb_bytes ≤ Z.of_nat (length src) → Z.of_nat (length src) < 2 ^ 32 →
  0 ≤ oend < 2 ^ 31 - 4 → oend + 1 ≤ Z.of_nat (length dst) → 8 * (src_len + Z.of_nat bb_bytes) < Z.of_nat fuel →
  ∃ code olen dst', decompress (round_of f) Safe fuel src src_len oend dst = Ret (code, olen, dst') ∧
    code ∈ [UCL_E_OK; UCL_E_INPUT_NOT_CONSUMED; UCL_E_INPUT_OVERRUN; UCL_E_OUTPUT_OVERRUN; UCL_E_LOOKBEHIND_OVERRUN] ∧
    0 ≤ olen ≤ oend + 1 ∧ length dst' = length dst.
Proof.
  intros Hb Hs Hl H32 Ho Hd Hf.
  destruct (safe_run src src_len oend (Z.of_nat (length dst)) Hb Hs Hl H32 Ho Hd f fuel dst eq_refl Hf)
    as (code & olen & dst' & E & Hc & Hr & Hl').
  exists code, olen, dst'. split; [done|]. split; [|done]. unfold check_code in Hc. set_solver.
Qed.

Lemma safe_decompress_total_witness :
  ∃ code olen dst', decompress (BB := buffer_le16) (round_of (BB := buffer_le16) NRV2D) Safe 100
      [0xff; 0x13; 7; 255; 0; 9; 9; 1] 6 5 [1; 2; 3; 4; 5; 6] = Ret (code, olen, dst') ∧
    code ∈ [UCL_E_OK; UCL_E_INPUT_NOT_CONSUMED; UCL_E_INPUT_OVERRUN; UCL_E_OUTPUT_OVERRUN; UCL_E_LOOKBEHIND_OVERRUN] ∧
    0 ≤ olen ≤ 5 + 1 ∧ length dst' = length [1; 2; 3; 4; 5; 6].
Proof.
  apply (safe_decompress_total (BB := buffer_le16) NRV2D); simpl; try lia.
  repeat constructor; done.
Defined.

(** The room of [safe_decompress_total] is needed.  A stream for four
    bytes, given three: the check [olen + m_len > oend] lets a match of
    [m_len + 1] bytes pass, so the fourth byte is stored behind the
    destination, and the code is [UCL_E_OK] with [*dst_len] larger than it was.
    And an empty source is read before any check. *)
Theorem safe_overruns_by_one f a b c d :
  let src := match f with
             | NRV2B => [152; 97; 0; 0; 0; 0; 0; 18; 255]
             | NRV2D => [152; 97; 36; 146; 73; 36; 168; 255]
             | NRV2E => [156; 97; 36; 146; 73; 36; 168; 255]
             end in
  decompress (BB := buffer_8) (round_of (BB := buffer_8) f) Safe 100 src (Z.of_nat (length src)) 3 [a; b; c; d] =
    Ret (UCL_E_OK, 4, [97; 97; 97; 97]) ∧
  decompress (BB := buffer_8) (round_of (BB := buffer_8) f) Safe 100 src (Z.of_nat (length src)) 3 [a; b; c] = Err OutOfBounds ∧
  decompress (BB := buffer_8) (round_of (BB := buffer_8) f) Safe 100 [] 0 3 [a; b; c; d] = Err OutOfBounds.
Proof. destruct f; split_and!; vm_compute; reflexivity. Qed.

(** On a stream the checks let pass, the decompressor compiled without them
    does the same, whatever [*dst_len] says. *)
Theorem safe_fast_agree `{BB : BitBuffer} f fuel src src_len oend oend' dst olen dst' :
  decompress (round_of f) Safe fuel src src_len oend dst = Ret (UCL_E_OK, olen, dst') →
  decompress (round_of f) Fast fuel src src_len oend' dst = Ret (UCL_E_OK, olen, dst').
Proof.
  unfold decompress, decompress_from, run. set (n := u32 (src_len + 0)). set (s0 := mk_dstate bb_init 0 0 1 dst).
  pose proof (agree_body src n oend oend' f fuel s0) as Ha.
  destruct (body Safe _ _ _ _ _ s0) as [c s1|c s1|e]; [by rewrite Ha| |done].
  intros E. injection E as -> _ _. unfold check_code in Ha. naive_solver.
Qed.

Lemma safe_fast_agree_witness :
  let src := [152; 97; 0; 0; 0; 0; 0; 18; 255] in
  decompress (BB := buffer_8) (round_of (BB := buffer_8) NRV2B) Fast 100 src 9 0 [1; 2; 3; 4; 5] =
    Ret (UCL_E_OK, 4, [97; 97; 97; 97; 5]).
Proof. apply (safe_fast_agree (BB := buffer_8) NRV2B 100 _ 9 4 0). by vm_compute. Defined.
