(* ===== verification/UclSwd.v ===== *)
(** * The sliding window of the packer (packers/exepak-1.5/ucl-1.02/src/ucl_swd.ch)

    The ring buffer with the last [n] bytes of the input and the look-ahead, the
    hash chains that find where three or two bytes occurred before, and the
    search for the longest repetition.  Arrays have their sizes and start with
    what the allocator left in them; the assertions of the source are checked, as in
    a build with [UCL_DEBUG]. *)

From S2P Require Import Prelude UclDecode UclEncode.

(** ** Arrays on the heap *)

(** [malloc] leaves [m_init] in the cells that were not written. *)
Record mem : Type := mk_mem { m_size : Z; m_init : Z → Z; m_cells : gmap Z Z }.

Definition cell (m : mem) (i : Z) : Z := default (m_init m i) (m_cells m !! i).
Definition set_cell (i v : Z) (m : mem) : mem := mk_mem (m_size m) (m_init m) (<[i := v]> (m_cells m)).

Definition mem_get (m : option mem) (i : Z) : outcome Z :=
  m ← of_option NullDeref m;
  if decide (0 ≤ i < m_size m) then Ret (cell m i) else Err OutOfBounds.
Definition mem_set (m : option mem) (i v : Z) : outcome (option mem) :=
  m ← of_option NullDeref m;
  if decide (0 ≤ i < m_size m) then Ret (Some (set_cell i v m)) else Err OutOfBounds.

(** [memcpy(m + i, l, ...)] and [memset(m, v, ...)] of the whole array *)
Fixpoint mem_copy (m : option mem) (i : Z) (l : list Z) : outcome (option mem) :=
  match l with [] => Ret m | x :: l' => m ← mem_set m i x; mem_copy m (i + 1) l' end.
Definition mem_fill (m : option mem) (v : Z) : outcome (option mem) :=
  m ← of_option NullDeref m; Ret (Some (mk_mem (m_size m) (λ _, v) ∅)).

Definition assert (b : bool) : outcome unit := if b then Ret tt else Err BugOn.

(** ** Constants and hashes *)

Definition SWD_F : Z := 2048.
Definition SWD_THRESHOLD : Z := 1.
Definition SWD_HSIZE : Z := 65536.
Definition SWD_MAX_CHAIN : Z := 2048.
Definition UCL_UINT_MAX : Z := 2 ^ 32 - 1.
Definition SWD_UINT_MAX : Z := UCL_UINT_MAX.
Definition NIL2 : Z := SWD_UINT_MAX.

(** [#define HEAD3(b,p)]: [x], [y] and [z] are the bytes at [p]. *)
Definition key3 (x y z : Z) : Z :=
  Z.land (Z.shiftr (u32 (0x9f5f * Z.lxor (u32 (Z.shiftl (Z.lxor (u32 (Z.shiftl x 5)) y) 5)) z)) 5) 65535.
Definition HEAD3 (b : option mem) (p : Z) : outcome Z :=
  x ← mem_get b p; y ← mem_get b (p + 1); z ← mem_get b (p + 2); Ret (key3 x y z).

(** [#define HEAD2(b,p)], either way *)
Definition key2 (x y : Z) : Z := Z.lxor x (Z.shiftl y 8).
Definition HEAD2 (b : option mem) (p : Z) : outcome Z :=
  x ← mem_get b p; y ← mem_get b (p + 1); Ret (key2 x y).

(** ** [ucl_swd_t] *)

(** Configuration.  [threshold], [hmask] and [lazy_insert] are constants. *)
Record swd_conf : Type := mk_swd_conf {
  w_n : Z; w_f : Z; w_max_chain : Z; w_nice_length : Z; w_use_best_off : bool; w_b_size : Z;
  w_dict : list Z                (** [dict], [dict_end], [dict_len]; empty for [NULL] *)
}.
(** Positions; [w_c_ip] is [c->ip - c->in]. *)
Record swd_cursor : Type := mk_swd_cursor {
  w_c_ip : Z; w_ip : Z; w_bp : Z; w_rp : Z; w_look : Z; w_node_count : Z; w_first_rp : Z
}.
(** What a search answers. *)
Record swd_found : Type := mk_swd_found { w_m_len : Z; w_m_off : Z; w_m_pos : Z; w_b_char : Z }.
(** The arrays, [None] once they are freed. *)
Record swd_tables : Type := mk_swd_tables {
  w_b : option mem; w_head3 : option mem; w_succ3 : option mem; w_best3 : option mem;
  w_llen3 : option mem; w_head2 : option mem
}.
Record ucl_swd_t : Type := mk_swd {
  w_conf : swd_conf; w_cursor : swd_cursor; w_found : swd_found; w_tables : swd_tables
}.

Definition set_cursor (k : swd_cursor) (s : ucl_swd_t) : ucl_swd_t := mk_swd (w_conf s) k (w_found s) (w_tables s).
Definition set_found (r : swd_found) (s : ucl_swd_t) : ucl_swd_t := mk_swd (w_conf s) (w_cursor s) r (w_tables s).
Definition set_tables (t : swd_tables) (s : ucl_swd_t) : ucl_swd_t := mk_swd (w_conf s) (w_cursor s) (w_found s) t.
Definition set_max_chain (x : Z) (s : ucl_swd_t) : ucl_swd_t :=
  let c := w_conf s in
  mk_swd (mk_swd_conf (w_n c) (w_f c) x (w_nice_length c) (w_use_best_off c) (w_b_size c) (w_dict c))
    (w_cursor s) (w_found s) (w_tables s).

Definition b_of (s : ucl_swd_t) := w_b (w_tables s).
Definition bp_of (s : ucl_swd_t) := w_bp (w_cursor s).
Definition look_of (s : ucl_swd_t) := w_look (w_cursor s).
Definition m_len_of (s : ucl_swd_t) := w_m_len (w_found s).

Definition set_m_len (x : Z) (s : ucl_swd_t) : ucl_swd_t :=
  let r := w_found s in set_found (mk_swd_found x (w_m_off r) (w_m_pos r) (w_b_char r)) s.
Definition set_m_off (x : Z) (s : ucl_swd_t) : ucl_swd_t :=
  let r := w_found s in set_found (mk_swd_found (w_m_len r) x (w_m_pos r) (w_b_char r)) s.
Definition set_m_pos (x : Z) (s : ucl_swd_t) : ucl_swd_t :=
  let r := w_found s in set_found (mk_swd_found (w_m_len r) (w_m_off r) x (w_b_char r)) s.
Definition set_b_char (x : Z) (s : ucl_swd_t) : ucl_swd_t :=
  let r := w_found s in set_found (mk_swd_found (w_m_len r) (w_m_off r) (w_m_pos r) x) s.
Definition set_b (m : option mem) (s : ucl_swd_t) : ucl_swd_t :=
  let t := w_tables s in
  set_tables (mk_swd_tables m (w_head3 t) (w_succ3 t) (w_best3 t) (w_llen3 t) (w_head2 t)) s.
Definition set_llen3 (m : option mem) (s : ucl_swd_t) : ucl_swd_t :=
  let t := w_tables s in
  set_tables (mk_swd_tables (w_b t) (w_head3 t) (w_succ3 t) (w_best3 t) m (w_head2 t)) s.
Definition set_best3 (m : option mem) (s : ucl_swd_t) : ucl_swd_t :=
  let t := w_tables s in
  set_tables (mk_swd_tables (w_b t) (w_head3 t) (w_succ3 t) m (w_llen3 t) (w_head2 t)) s.
Definition set_head2 (m : option mem) (s : ucl_swd_t) : ucl_swd_t :=
  let t := w_tables s in
  set_tables (mk_swd_tables (w_b t) (w_head3 t) (w_succ3 t) (w_best3 t) (w_llen3 t) m) s.
Definition set_heads (head3 succ3 : option mem) (s : ucl_swd_t) : ucl_swd_t :=
  let t := w_tables s in
  set_tables (mk_swd_tables (w_b t) head3 succ3 (w_best3 t) (w_llen3 t) (w_head2 t)) s.

(** ** Operations *)

Section swd.
  (** the input [c->in .. c->in_end] *)
  Context (input : list Z).

Let in_len : Z := Z.of_nat (length input).

(** [key = HEAD3(..); succ3[node] = head3[key]; head3[key] = node;
    best3[node] = f + 1; llen3[key]++; assert(llen3[key] <= n);], and [HEAD2] *)
Definition add_node (node : Z) (s : ucl_swd_t) : outcome ucl_swd_t :=
  let t := w_tables s in
  key ← HEAD3 (b_of s) node;
  h ← mem_get (w_head3 t) key;
  succ3 ← mem_set (w_succ3 t) node h;
  head3 ← mem_set (w_head3 t) key node;
  best3 ← mem_set (w_best3 t) node (u32 (w_f (w_conf s) + 1));
  l ← mem_get (w_llen3 t) key;
  llen3 ← mem_set (w_llen3 t) key (u32 (l + 1));
  assert (bool_decide (u32 (l + 1) ≤ w_n (w_conf s)));;
  key2 ← HEAD2 (b_of s) node;
  head2 ← mem_set (w_head2 t) key2 node;
  Ret (set_tables (mk_swd_tables (w_b t) head3 succ3 best3 llen3 head2) s).

(** [static void swd_initdict(s, dict, dict_len)] *)
Definition swd_initdict (dict : list Z) (s : ucl_swd_t) : outcome ucl_swd_t :=
  let c := w_conf s in
  let k := w_cursor s in
  let dict_len := Z.of_nat (length dict) in
  let set_dict d := mk_swd (mk_swd_conf (w_n c) (w_f c) (w_max_chain c) (w_nice_length c) (w_use_best_off c)
    (w_b_size c) d) (w_cursor s) (w_found s) (w_tables s) in
  if decide (dict_len ≤ 0) then Ret (set_dict [])
  else
    let d := if decide (w_n c < dict_len) then drop (Z.to_nat (dict_len - w_n c)) dict else dict in
    b ← mem_copy (b_of s) 0 d;
    let s := set_b b (set_dict d) in
    Ret (set_cursor (mk_swd_cursor (w_c_ip k) (Z.of_nat (length d)) (w_bp k) (w_rp k) (w_look k)
           (w_node_count k) (w_first_rp k)) s).

(** [static void swd_insertdict(s, node, len)] *)
Fixpoint insertdict_loop (len : nat) (node : Z) (s : ucl_swd_t) : outcome ucl_swd_t :=
  match len with
  | O => Ret s
  | S len' => s ← add_node node s; insertdict_loop len' (node + 1) s
  end.
Definition swd_insertdict (node len : Z) (s : ucl_swd_t) : outcome ucl_swd_t :=
  let k := w_cursor s in
  insertdict_loop (Z.to_nat len) node
    (set_cursor (mk_swd_cursor (w_c_ip k) (w_ip k) (w_bp k) (w_rp k) (w_look k)
       (u32 (w_n (w_conf s) - len)) node) s).

(** [static int swd_init(s, dict, dict_len)]: [n] and [f] as the caller set
    them, [heap] the answers of the allocations ([None] when out of memory,
    otherwise what the cells hold), [m_off] what [s->m_off] holds before. *)
Definition new_array (heap : nat → option (Z → Z)) (k : nat) (size : Z) : option mem :=
  g ← heap k; Some (mk_mem size g ∅).
Definition byte_array (heap : nat → option (Z → Z)) (k : nat) (size : Z) : option mem :=
  g ← heap k; Some (mk_mem size (λ i, g i mod 256) ∅).

Definition init_tables (heap : nat → option (Z → Z)) (n f : Z) : swd_tables :=
  let b := byte_array heap 0 (n + f + f) in
  let head3 := new_array heap 1 SWD_HSIZE in
  let succ3 := new_array heap 2 (n + f) in
  let best3 := new_array heap 3 (n + f) in
  let llen3 := new_array heap 4 SWD_HSIZE in
  let head2 := (_ ← b; _ ← head3; _ ← succ3; _ ← best3; _ ← llen3; new_array heap 5 65536) in
  mk_swd_tables b head3 succ3 best3 llen3 head2.
Definition no_tables : swd_tables := mk_swd_tables None None None None None None.

(** What follows the allocations. *)
Definition init_cursor (c_ip : Z) (dict : list Z) (s : ucl_swd_t) : outcome ucl_swd_t :=
  s ← swd_initdict dict s;
  let f := w_f (w_conf s) in
  let ip := w_ip (w_cursor s) in
  let bp := ip in
  let first_rp := ip in
  assert (bool_decide (ip + f ≤ w_b_size (w_conf s)));;
  let look := u32 (in_len - c_ip) in
  let look := if decide (f < look) then f else look in
  b ← mem_copy (b_of s) ip (take (Z.to_nat look) (drop (Z.to_nat c_ip) input));
  let c_ip := c_ip + look in
  let ip := ip + look in
  let ip := if decide (ip = w_b_size (w_conf s)) then 0 else ip in
  let s := set_cursor (mk_swd_cursor c_ip ip bp (w_rp (w_cursor s)) look (w_node_count (w_cursor s)) first_rp)
             (set_b b s) in
  let dict_len := Z.of_nat (length (w_dict (w_conf s))) in
  s ← (if decide (2 ≤ look ∧ 0 < dict_len) then swd_insertdict 0 dict_len s else Ret s);
  let k := w_cursor s in
  let rp := w_first_rp k in
  let rp := if decide (w_node_count k ≤ rp) then rp - w_node_count k
            else u32 (rp + u32 (w_b_size (w_conf s) - w_node_count k)) in
  Ret (set_cursor (mk_swd_cursor (w_c_ip k) (w_ip k) (w_bp k) rp (w_look k) (w_node_count k) (w_first_rp k)) s).

Definition swd_init (heap : nat → option (Z → Z)) (n f c_ip m_off : Z) (dict : list Z)
    : outcome (Z * ucl_swd_t) :=
  let n := if decide (n = 0) then SWD_N else n in
  let f := if decide (f = 0) then SWD_F else f in
  let start t := mk_swd (mk_swd_conf n f SWD_MAX_CHAIN f false (n + f) [])
                   (mk_swd_cursor c_ip 0 0 0 0 n 0) (mk_swd_found 0 m_off 0 0) t in
  if decide (SWD_N < n ∨ SWD_F < f) then Ret (UCL_E_INVALID_ARGUMENT, start no_tables)
  else
    let t := init_tables heap n f in
    if bool_decide (w_head2 t = None) then Ret (UCL_E_OUT_OF_MEMORY, start t)
    else if decide (SWD_UINT_MAX ≤ n + f + f) then Ret (UCL_E_ERROR, start t)
    else
      llen3 ← mem_fill (w_llen3 t) 0;
      head2 ← mem_fill (w_head2 t) NIL2;
      s ← init_cursor c_ip dict
            (start (mk_swd_tables (w_b t) (w_head3 t) (w_succ3 t) (w_best3 t) llen3 head2));
      Ret (UCL_E_OK, s).

(** [static void swd_exit(ucl_swd_t *s)] *)
Definition swd_exit (s : ucl_swd_t) : ucl_swd_t := set_tables no_tables s.

(** [#define swd_pos2off(s,pos)] *)
Definition swd_pos2off (s : ucl_swd_t) (pos : Z) : Z :=
  if decide (pos < bp_of s) then bp_of s - pos else u32 (w_b_size (w_conf s) - (pos - bp_of s)).

(** [static void swd_getbyte(ucl_swd_t *s)] *)
Definition step_index (b_size x : Z) : Z := let x := u32 (x + 1) in if decide (x = b_size) then 0 else x.
Definition swd_getbyte (s : ucl_swd_t) : outcome ucl_swd_t :=
  let k := w_cursor s in
  let size := w_b_size (w_conf s) in
  '(b, c_ip, look) ←
    match (if decide (w_c_ip k < in_len) then input !! Z.to_nat (w_c_ip k) else None) with
    | None => Ret (b_of s, w_c_ip k, if decide (0 < w_look k) then w_look k - 1 else w_look k)
    | Some x =>
        b ← mem_set (b_of s) (w_ip k) x;
        b ← (if decide (w_ip k < w_f (w_conf s)) then mem_set b (size + w_ip k) x else Ret b);
        Ret (b, w_c_ip k + 1, w_look k)
    end;
  Ret (set_cursor (mk_swd_cursor c_ip (step_index size (w_ip k)) (step_index size (w_bp k))
         (step_index size (w_rp k)) look (w_node_count k) (w_first_rp k)) (set_b b s)).

(** [static void swd_remove_node(s, node)] *)
Definition swd_remove_node (node : Z) (s : ucl_swd_t) : outcome ucl_swd_t :=
  let k := w_cursor s in
  let t := w_tables s in
  if decide (w_node_count k = 0) then
    assert (bool_decide (w_first_rp k = UCL_UINT_MAX ∨ node = w_first_rp k));;
    key ← HEAD3 (b_of s) node;
    l ← mem_get (w_llen3 t) key;
    assert (bool_decide (0 < l));;
    llen3 ← mem_set (w_llen3 t) key (l - 1);
    key2 ← HEAD2 (b_of s) node;
    h ← mem_get (w_head2 t) key2;
    assert (bool_decide (h ≠ NIL2));;
    head2 ← (if decide (h = node) then mem_set (w_head2 t) key2 NIL2 else Ret (w_head2 t));
    Ret (set_cursor (mk_swd_cursor (w_c_ip k) (w_ip k) (w_bp k) (w_rp k) (w_look k) (w_node_count k) UCL_UINT_MAX)
           (set_head2 head2 (set_llen3 llen3 s)))
  else
    Ret (set_cursor (mk_swd_cursor (w_c_ip k) (w_ip k) (w_bp k) (w_rp k) (w_look k)
           (w_node_count k - 1) (w_first_rp k)) s).

(** [static void swd_accept(s, n)] *)
Fixpoint accept_loop (n : nat) (s : ucl_swd_t) : outcome ucl_swd_t :=
  match n with
  | O => Ret s
  | S n' =>
      s ← swd_remove_node (w_rp (w_cursor s)) s;
      s ← add_node (bp_of s) s;
      s ← swd_getbyte s;
      accept_loop n' s
  end.
Definition swd_accept (n : Z) (s : ucl_swd_t) : outcome ucl_swd_t :=
  assert (bool_decide (n ≤ look_of s));; accept_loop (Z.to_nat n) s.

(** [do {} while (++p1 < px && *p1 == *++p2);]: [i] is [p1 - bp]. *)
Fixpoint scan_match (fuel : nat) (b : option mem) (bp node look i : Z) : outcome Z :=
  match fuel with
  | O => Err OutOfFuel
  | S fuel' =>
      let i := i + 1 in
      if decide (i < look) then
        x ← mem_get b (bp + i); y ← mem_get b (node + i);
        if decide (x = y) then scan_match fuel' b bp node look i else Ret i
      else Ret i
  end.

(** [ucl_memcmp(bp, &b[node], i) == 0], of the assertions *)
Fixpoint same_bytes (b : option mem) (p q : Z) (i : nat) : outcome bool :=
  match i with
  | O => Ret true
  | S i' => x ← mem_get b p; y ← mem_get b q;
            if decide (x = y) then same_bytes b (p + 1) (q + 1) i' else Ret false
  end.

(** One [node] of [swd_search]: [None] when it does not match, else its length. *)
Definition search_node (s : ucl_swd_t) (node m_len scan_end1 : Z) : outcome (option Z) :=
  let b := b_of s in
  let bp := bp_of s in
  let look := look_of s in
  assert (bool_decide (m_len < look));;
  e1 ← mem_get b (node + m_len - 1);
  if decide (e1 ≠ scan_end1) then Ret None
  else
    e ← mem_get b (node + m_len); x ← mem_get b (bp + m_len);
    if decide (e ≠ x) then Ret None
    else
      y0 ← mem_get b node; x0 ← mem_get b bp;
      if decide (y0 ≠ x0) then Ret None
      else
        y1 ← mem_get b (node + 1); x1 ← mem_get b (bp + 1);
        if decide (y1 ≠ x1) then Ret None
        else
          same ← same_bytes b bp node 3; assert same;;
          i ← scan_match (Z.to_nat look) b bp node look 2;
          same ← same_bytes b bp node (Z.to_nat i); assert same;;
          Ret (Some i).

(** [static void swd_search(s, node, cnt)] *)
Fixpoint search_loop (cnt : nat) (node m_len scan_end1 : Z) (s : ucl_swd_t) : outcome ucl_swd_t :=
  match cnt with
  | O => Ret s
  | S cnt' =>
      let next m_len scan_end1 s :=
        node ← mem_get (w_succ3 (w_tables s)) node; search_loop cnt' node m_len scan_end1 s in
      found ← search_node s node m_len scan_end1;
      match found with
      | Some i =>
          if decide (m_len < i) then
            let m_len := i in
            let s := set_m_pos node (set_m_len i s) in
            if decide (m_len = look_of s) then Ret s
            else if decide (w_nice_length (w_conf s) ≤ m_len) then Ret s
            else
              best ← mem_get (w_best3 (w_tables s)) node;
              if decide (best < m_len) then Ret s
              else
                scan_end1 ← mem_get (b_of s) (bp_of s + m_len - 1);
                next m_len scan_end1 s
          else next m_len scan_end1 s
      | None => next m_len scan_end1 s
      end
  end.
Definition swd_search (node cnt : Z) (s : ucl_swd_t) : outcome ucl_swd_t :=
  let m_len := m_len_of s in
  assert (bool_decide (0 < m_len));;
  scan_end1 ← mem_get (b_of s) (bp_of s + m_len - 1);
  search_loop (Z.to_nat cnt) node m_len scan_end1 s.

(** [static ucl_bool swd_search2(ucl_swd_t *s)] *)
Definition swd_search2 (s : ucl_swd_t) : outcome (bool * ucl_swd_t) :=
  assert (bool_decide (2 ≤ look_of s));;
  assert (bool_decide (0 < m_len_of s));;
  k ← HEAD2 (b_of s) (bp_of s);
  key ← mem_get (w_head2 (w_tables s)) k;
  if decide (key = NIL2) then Ret (false, s)
  else
    same ← same_bytes (b_of s) (bp_of s) key 2; assert same;;
    Ret (true, if decide (m_len_of s < 2) then set_m_pos key (set_m_len 2 s) else s).

(** [static void swd_findbest(ucl_swd_t *s)]: the node of [bp] enters its chain, *)
Definition enter_chain (s : ucl_swd_t) : outcome (Z * Z * ucl_swd_t) :=
  let t := w_tables s in
  let c := w_conf s in
  assert (bool_decide (0 < m_len_of s));;
  key ← HEAD3 (b_of s) (bp_of s);
  node ← mem_get (w_head3 t) key;
  succ3 ← mem_set (w_succ3 t) (bp_of s) node;
  cnt ← mem_get (w_llen3 t) key;
  llen3 ← mem_set (w_llen3 t) key (u32 (cnt + 1));
  assert (bool_decide (u32 (cnt + 1) ≤ w_n c + w_f c));;
  let cnt := if decide (w_max_chain c < cnt ∧ 0 < w_max_chain c) then w_max_chain c else cnt in
  head3 ← mem_set (w_head3 t) key (bp_of s);
  Ret (node, cnt, set_llen3 llen3 (set_heads head3 succ3 s)).

(** the chain is searched, *)
Definition search_chain (node cnt : Z) (s : ucl_swd_t) : outcome ucl_swd_t :=
  x ← mem_get (b_of s) (bp_of s);
  let s := set_b_char x s in
  let len := m_len_of s in
  if decide (look_of s ≤ m_len_of s) then
    let s := if decide (look_of s = 0) then set_b_char (-1) s else s in
    let s := set_m_off 0 s in
    best3 ← mem_set (w_best3 (w_tables s)) (bp_of s) (u32 (w_f (w_conf s) + 1));
    Ret (set_best3 best3 s)
  else
    '(found, s) ← swd_search2 s;
    s ← (if found && bool_decide (3 ≤ look_of s) then swd_search node cnt s else Ret s);
    let s := if decide (len < m_len_of s) then set_m_off (swd_pos2off s (w_m_pos (w_found s))) s else s in
    best3 ← mem_set (w_best3 (w_tables s)) (bp_of s) (m_len_of s);
    Ret (set_best3 best3 s).

(** and the oldest node makes room. *)
Definition swd_findbest (s : ucl_swd_t) : outcome ucl_swd_t :=
  '(node, cnt, s) ← enter_chain s;
  s ← search_chain node cnt s;
  s ← swd_remove_node (w_rp (w_cursor s)) s;
  key ← HEAD2 (b_of s) (bp_of s);
  head2 ← mem_set (w_head2 (w_tables s)) key (bp_of s);
  Ret (set_head2 head2 s).

End swd.
