(* ===== verification/UclWindow.v ===== *)
(** * The sliding window is what it stands for (ucl_swd.ch)

    Seen from a position [p] of the input, the ring buffer shows the input
    around [p], every hash chain lists the positions of the window with its key,
    newest first, and a search answers a true repetition.  The operations of
    UclSwd keep this, stay inside their arrays and never fail an assertion. *)

From S2P Require Import Prelude UclDecode UclEncode UclSwd.

(** ** Arrays *)

Lemma cell_set i j v m : cell (set_cell i v m) j = if decide (j = i) then v else cell m j.
Proof.
  unfold cell, set_cell. simpl. destruct (decide (j = i)) as [->|Hne].
  - by rewrite lookup_insert_eq.
  - by rewrite lookup_insert_ne by congruence.
Qed.

Lemma mem_get_run m i : 0 ≤ i < m_size m → mem_get (Some m) i = Ret (cell m i).
Proof. intros Hi. unfold mem_get. simpl. by rewrite decide_True. Qed.

Lemma mem_set_run m i v : 0 ≤ i < m_size m → mem_set (Some m) i v = Ret (Some (set_cell i v m)).
Proof. intros Hi. unfold mem_set. simpl. by rewrite decide_True. Qed.

Lemma assert_run b : b = true → assert b = Ret tt.
Proof. by intros ->. Qed.

(** Loads and stores inside their arrays, and assertions that hold. *)
Ltac mem_steps :=
  cbn [mbind outcome_bind];
  repeat (first [rewrite mem_get_run by lia|rewrite mem_set_run by lia
                |rewrite assert_run by (done || (apply bool_decide_eq_true; lia))]; cbn [mbind outcome_bind]).

(** ** The hashes *)

Definition is_byte (x : Z) : Prop := 0 ≤ x < 256.

Lemma key3_range x y z : 0 ≤ key3 x y z < 65536.
Proof.
  unfold key3. change 65535 with (Z.ones 16). rewrite Z.land_ones by lia.
  apply Z.mod_pos_bound. lia.
Qed.

Lemma lxor_bound x y k : 0 ≤ k → 0 ≤ x < 2 ^ k → 0 ≤ y < 2 ^ k → 0 ≤ Z.lxor x y < 2 ^ k.
Proof.
  intros Hk Hx Hy. assert (0 ≤ Z.lxor x y) by (apply Z.lxor_nonneg; lia). split; [done|].
  apply bits_bound; [done..|]. intros i Hi. by rewrite Z.lxor_spec, !(high_bit _ k) by done.
Qed.

Lemma key2_range x y : is_byte x → is_byte y → 0 ≤ key2 x y < 65536.
Proof.
  unfold is_byte, key2. intros Hx Hy. apply (lxor_bound _ _ 16); [lia|lia|].
  rewrite Z.shiftl_mul_pow2 by lia. lia.
Qed.

Lemma key2_inj x y x' y' : is_byte x → is_byte y → is_byte x' → is_byte y' →
  key2 x y = key2 x' y' → x = x' ∧ y = y'.
Proof.
  unfold is_byte, key2. intros Hx Hy Hx' Hy' E.
  assert (Hlow : ∀ a b, 0 ≤ a < 256 → 0 ≤ b < 256 → Z.lxor a (Z.shiftl b 8) = a + b * 256).
  { intros a b Ha Hb. rewrite Z.shiftl_mul_pow2 by lia. change (2 ^ 8) with 256.
    rewrite <-Z.add_nocarry_lxor; [done|].
    apply Z.bits_inj'. intros i Hi. rewrite Z.land_spec, Z.bits_0. change 256 with (2 ^ 8).
    destruct (decide (i < 8)); [by rewrite Z.mul_pow2_bits_low, andb_false_r by lia|].
    by rewrite (high_bit a 8) by lia. }
  rewrite !Hlow in E by lia. lia.
Qed.

(** The bits of a product that the hash keeps differ for nearby factors. *)
Lemma hash_steps d : 0 < d < 256 → 32 ≤ (40799 * d) mod 2097152 ≤ 2097152 - 32.
Proof.
  intros Hd. assert (Hall : forallb (λ k, let r := (40799 * Z.of_nat k) mod 2097152 in
    (32 <=? r) && (r <=? 2097152 - 32)) (seq 1 255) = true) by (by vm_compute).
  rewrite forallb_forall in Hall. specialize (Hall (Z.to_nat d)). rewrite Z2Nat.id in Hall by lia.
  specialize (Hall ltac:(apply in_seq; lia)). cbv zeta in Hall. to_prop. lia.
Qed.

Lemma hash_bits x : (u32 x / 32) mod 65536 = x mod 2097152 / 32.
Proof.
  unfold u32. change 2097152 with (32 * 65536). change (2 ^ 32) with (32 * 65536 * 2048).
  rewrite (Z.rem_mul_r x (32 * 65536)), (Z.rem_mul_r x 32) by lia.
  replace (x mod 32 + 32 * ((x / 32) mod 65536) + 32 * 65536 * ((x / (32 * 65536)) mod 2048))
    with (x mod 32 + ((x / 32) mod 65536 + (x / (32 * 65536)) mod 2048 * 65536) * 32) by lia.
  rewrite Z.div_add, Z.add_mod, Z.mod_add, Z.mod_mod by lia.
  replace (x mod 32 + 32 * ((x / 32) mod 65536)) with (x mod 32 + ((x / 32) mod 65536) * 32) by lia.
  rewrite Z.div_add, (Z.div_small (x mod 32)) by (try lia; apply Z.mod_pos_bound; lia).
  by rewrite Z.mod_0_l, !Z.add_0_l, !Z.mod_mod by lia.
Qed.

Lemma hash_inj a t t' : 0 ≤ t < 256 → 0 ≤ t' < 256 →
  Z.land (Z.shiftr (u32 (0x9f5f * (256 * a + t))) 5) 65535 =
  Z.land (Z.shiftr (u32 (0x9f5f * (256 * a + t'))) 5) 65535 → t = t'.
Proof.
  change 65535 with (Z.ones 16). rewrite !Z.land_ones, !Z.shiftr_div_pow2 by lia.
  change (2 ^ 5) with 32. change (2 ^ 16) with 65536. change 0x9f5f with 40799. intros Ht Ht' E.
  destruct (decide (t = t')) as [|Hne]; [done|exfalso].
  rewrite !hash_bits in E.
  assert (Hgen : ∀ u v, 0 ≤ u < v → v < 256 →
    (40799 * (256 * a + u)) mod 2097152 / 32 = (40799 * (256 * a + v)) mod 2097152 / 32 → False).
  { clear. intros u v Hu Hv. pose proof (hash_steps (v - u) ltac:(lia)) as Hs.
    replace (40799 * (256 * a + v)) with (40799 * (256 * a + u) + 40799 * (v - u)) by lia.
    rewrite Zplus_mod. set (s := (40799 * (v - u)) mod 2097152) in *. clearbody s.
    pose proof (Z.mod_pos_bound (40799 * (256 * a + u)) 2097152 ltac:(lia)).
    set (r := (40799 * (256 * a + u)) mod 2097152) in *. clearbody r.
    Z.div_mod_to_equations. lia. }
  destruct (decide (t < t')); [apply (Hgen t t'); [lia..|done]|apply (Hgen t' t); [lia..|done]].
Qed.

(** The third byte follows from the key and the first two: [swd_search] does not compare it. *)
Lemma key3_third x y z z' : is_byte x → is_byte y → is_byte z → is_byte z' → key3 x y z = key3 x y z' → z = z'.
Proof.
  unfold is_byte, key3. intros Hx Hy Hz Hz'.
  set (A := u32 (Z.shiftl (Z.lxor (u32 (Z.shiftl x 5)) y) 5)). assert (HA : 0 ≤ A) by apply u32_range.
  assert (Hsplit : ∀ w, 0 ≤ w < 256 → Z.lxor A w = 256 * (A / 256) + Z.lxor (A mod 256) w).
  { intros w Hw. apply Z.bits_inj'. intros i Hi.
    rewrite Z.add_nocarry_lxor.
    - rewrite !Z.lxor_spec. change 256 with (2 ^ 8). rewrite Z.mul_comm.
      destruct (decide (i < 8)).
      + by rewrite Z.mul_pow2_bits_low, Z.mod_pow2_bits_low, xorb_false_l by lia.
      + rewrite Z.mul_pow2_bits, Z.div_pow2_bits, Z.mod_pow2_bits_high, (high_bit w 8) by lia.
        rewrite !xorb_false_r. f_equal. lia.
    - apply Z.bits_inj'. clear i Hi. intros i Hi. rewrite Z.land_spec, Z.bits_0. change 256 with (2 ^ 8).
      rewrite Z.mul_comm. destruct (decide (i < 8)); [by rewrite Z.mul_pow2_bits_low by lia|].
      rewrite (high_bit (Z.lxor _ _) 8), andb_false_r; [done| |lia].
      apply lxor_bound; [lia| |lia]. apply Z.mod_pos_bound. lia. }
  rewrite !Hsplit by lia. intros E.
  assert (Hm : 0 ≤ A mod 256 < 256) by (apply Z.mod_pos_bound; lia).
  apply hash_inj in E; [|by apply (lxor_bound _ _ 8); lia..].
  apply (f_equal (Z.lxor (A mod 256))) in E. by rewrite <-!Z.lxor_assoc, !Z.lxor_nilpotent, !Z.lxor_0_l in E.
Qed.

(** ** What the tables stand for *)

(** Nodes and keys of a window, the newest first. *)
Abbreviation nodes := (list (Z * Z)).
Definition with_key (k : Z) (W : nodes) : list Z := (filter (λ e, e.2 = k) W).*1.

Lemma with_key_cons_eq q k W : with_key k ((q, k) :: W) = q :: with_key k W.
Proof. unfold with_key. by rewrite filter_cons, decide_True. Qed.
Lemma with_key_cons_ne q k k' W : k' ≠ k → with_key k ((q, k') :: W) = with_key k W.
Proof. intros Hk. unfold with_key. by rewrite filter_cons, decide_False. Qed.
Lemma with_key_app k W1 W2 : with_key k (W1 ++ W2) = with_key k W1 ++ with_key k W2.
Proof. unfold with_key. by rewrite filter_app, fmap_app. Qed.
Lemma with_key_elem k W q : q ∈ with_key k W ↔ (q, k) ∈ W.
Proof.
  unfold with_key. rewrite list_elem_of_fmap. split.
  - intros ([q' k'] & -> & H). apply list_elem_of_filter in H as [<- H]. done.
  - intros H. exists (q, k). split; [done|]. by apply list_elem_of_filter.
Qed.
Lemma with_key_length k W : (length (with_key k W) ≤ length W)%nat.
Proof. unfold with_key. rewrite length_fmap. apply length_filter. Qed.

Section tables.
  Context (slot : Z → Z).

(** From [node], [succ3] leads through the slots of [ps]. *)
Fixpoint linked (succ3 : mem) (node : Z) (ps : list Z) : Prop :=
  match ps with
  | [] => True
  | q :: ps' => node = slot q ∧ linked succ3 (cell succ3 (slot q)) ps'
  end.

Lemma linked_app succ3 node ps ps' : linked succ3 node (ps ++ ps') → linked succ3 node ps.
Proof. revert node. induction ps as [|q ps IH]; intros node; simpl; naive_solver. Qed.

Lemma linked_set succ3 node ps i v :
  (∀ q, q ∈ ps → slot q ≠ i) → linked succ3 node ps → linked (set_cell i v succ3) node ps.
Proof.
  revert node. induction ps as [|q ps IH]; intros node Hi; [done|]. intros [-> H]. split; [done|].
  rewrite cell_set, decide_False by (apply Hi; set_solver). apply IH; [|done]. set_solver.
Qed.

Definition chains (head3 succ3 llen3 : mem) (W : nodes) : Prop :=
  ∀ k, 0 ≤ k < 65536 →
    cell llen3 k = Z.of_nat (length (with_key k W)) ∧ linked succ3 (cell head3 k) (with_key k W).

Definition heads (head2 : mem) (V : nodes) : Prop :=
  ∀ k, 0 ≤ k < 65536 → cell head2 k = match with_key k V with [] => NIL2 | q :: _ => slot q end.

Lemma chains_add head3 succ3 llen3 W q k :
  (∀ e, e ∈ W → slot e.1 ≠ slot q) → chains head3 succ3 llen3 W → 0 ≤ k < 65536 →
  chains (set_cell k (slot q) head3) (set_cell (slot q) (cell head3 k) succ3)
    (set_cell k (cell llen3 k + 1) llen3) ((q, k) :: W).
Proof.
  intros Hq H Hk k' Hk'. rewrite !cell_set.
  assert (Hfar : ∀ q', q' ∈ with_key k' W → slot q' ≠ slot q).
  { intros q' Hq'. apply with_key_elem in Hq'. by apply (Hq (q', k')). }
  destruct (H k' Hk') as [Hl Hc]. destruct (decide (k' = k)) as [->|Hne].
  - rewrite with_key_cons_eq. simpl. rewrite cell_set, decide_True by done.
    split; [lia|]. split; [done|]. by apply linked_set.
  - rewrite with_key_cons_ne by done. split; [done|]. by apply linked_set.
Qed.

Lemma chains_remove head3 succ3 llen3 W q k :
  chains head3 succ3 llen3 (W ++ [(q, k)]) → 0 ≤ k < 65536 →
  0 < cell llen3 k ∧ chains head3 succ3 (set_cell k (cell llen3 k - 1) llen3) W.
Proof.
  intros H Hk. split.
  - destruct (H k Hk) as [-> _]. rewrite with_key_app, with_key_cons_eq, length_app. simpl. lia.
  - intros k' Hk'. rewrite cell_set. destruct (H k' Hk') as [Hl Hc]. rewrite with_key_app in Hl, Hc.
    apply linked_app in Hc. split; [|done]. rewrite length_app in Hl. destruct (decide (k' = k)) as [->|Hne].
    + rewrite with_key_cons_eq in Hl. simpl in Hl. lia.
    + rewrite with_key_cons_ne in Hl by done. simpl in Hl. lia.
Qed.

Lemma heads_add head2 V q k :
  heads head2 V → heads (set_cell k (slot q) head2) ((q, k) :: V).
Proof.
  intros H k' Hk'. rewrite cell_set. destruct (decide (k' = k)) as [->|Hne].
  - by rewrite with_key_cons_eq.
  - rewrite with_key_cons_ne by done. by apply H.
Qed.

Lemma heads_remove head2 V q k :
  (∀ e, e ∈ V → slot e.1 ≠ slot q) → (∀ e, e ∈ V ++ [(q, k)] → slot e.1 ≠ NIL2) →
  heads head2 (V ++ [(q, k)]) → 0 ≤ k < 65536 →
  cell head2 k ≠ NIL2 ∧
  heads (if decide (cell head2 k = slot q) then set_cell k NIL2 head2 else head2) V.
Proof.
  intros Hq Hnil H Hk. pose proof (H k Hk) as Ek. rewrite with_key_app, with_key_cons_eq in Ek.
  assert (Hother : ∀ k', 0 ≤ k' < 65536 → k' ≠ k →
    cell head2 k' = match with_key k' V with [] => NIL2 | q :: _ => slot q end).
  { intros k' Hk' Hne. rewrite (H k' Hk'), with_key_app, (with_key_cons_ne q) by done. by destruct (with_key k' V). }
  destruct (with_key k V) as [|q' ps] eqn:E; simpl in Ek.
  - split. { rewrite Ek. apply (Hnil (q, k)). set_solver. }
    rewrite decide_True by done. intros k' Hk'. rewrite cell_set.
    destruct (decide (k' = k)) as [->|Hne]; [by rewrite E|by apply Hother].
  - assert (Hin : (q', k) ∈ V) by (apply with_key_elem; rewrite E; set_solver).
    split. { rewrite Ek. apply (Hnil (q', k)). set_solver. }
    rewrite decide_False by (rewrite Ek; by apply (Hq (q', k))).
    intros k' Hk'. destruct (decide (k' = k)) as [->|Hne]; [by rewrite E|by apply Hother].
Qed.
End tables.

(** ** The invariant *)

(** [len] bytes at [p] are a repetition of those [off] back. *)
Definition byte_at (input : list Z) (q : Z) : Z := nth (Z.to_nat q) input 0.
Definition repeats (input : list Z) (p off len : Z) : Prop :=
  1 ≤ off ≤ p ∧ ∀ i, 0 ≤ i < len → byte_at input (p + i) = byte_at input (p - off + i).

Section window.
  Context (input : list Z) (n f : Z).
  Context (Hinput : Forall is_byte input).
  Context (Hlen : Z.of_nat (length input) < 2 ^ 32).
  Context (Hn : 256 ≤ n ≤ SWD_N) (Hf : 8 ≤ f ≤ SWD_F).

Let L : Z := Z.of_nat (length input).
Let B : Z := n + f.
Let ip0 : Z := Z.min f L.

(** The place of a position in the ring, how far the input is read and how far
    one may look ahead at [p]; after [r] calls of [swd_remove_node], how many
    nodes may still come for free, and [first_rp]. *)
Definition slot (q : Z) : Z := q mod B.
Definition read_at (p : Z) : Z := Z.min L (ip0 + p).
Definition look_at (p : Z) : Z := Z.max 0 (Z.min f (L - p)).
Definition free_at (r : Z) : Z := Z.max 0 (n - r).
Definition first_at (r : Z) : Z := if decide (r ≤ n) then 0 else UCL_UINT_MAX.

(** The positions in the tables at [p], newest first; the oldest leaves before
    [p + 1]. *)
Definition young (p : Z) : list Z := reverse (seqZ (Z.max 0 (p + 1 - n)) (p - Z.max 0 (p + 1 - n))).
Definition oldest (p : Z) : list Z := if decide (p < n) then [] else [p - n].
Definition window (p : Z) : list Z := young p ++ oldest p.

Definition shows (b : mem) (d : Z) : Prop :=
  m_size b = n + f + f ∧ (∀ i, is_byte (cell b i)) ∧
  ∀ q, 0 ≤ q → d - B ≤ q < d →
    cell b (slot q) = byte_at input q ∧
    (B ≤ q → slot q < f → cell b (B + slot q) = byte_at input q).

(** The keys are those of the input, except of nodes at its very end. *)
Definition keys3_ok (W : nodes) : Prop := ∀ q k, (q, k) ∈ W →
  0 ≤ k < 65536 ∧ (q + 2 < L → k = key3 (byte_at input q) (byte_at input (q + 1)) (byte_at input (q + 2))).
Definition keys2_ok (V : nodes) : Prop := ∀ q k, (q, k) ∈ V →
  0 ≤ k < 65536 ∧ (q + 1 < L → k = key2 (byte_at input q) (byte_at input (q + 1))).

Definition tables_ok (d : Z) (W V : nodes) (t : swd_tables) : Prop :=
  ∃ b head3 succ3 best3 llen3 head2,
    t = mk_swd_tables (Some b) (Some head3) (Some succ3) (Some best3) (Some llen3) (Some head2) ∧
    shows b d ∧
    (m_size head3 = 65536 ∧ m_size succ3 = B ∧ m_size best3 = B ∧ m_size llen3 = 65536 ∧ m_size head2 = 65536) ∧
    chains slot head3 succ3 llen3 W ∧ keys3_ok W ∧ heads slot head2 V ∧ keys2_ok V.

Definition conf_ok (c : swd_conf) : Prop :=
  w_n c = n ∧ w_f c = f ∧ w_b_size c = B ∧ w_dict c = [].

(** The window at [p], after [r] calls of [swd_remove_node]. *)
Definition swd_at (p r : Z) (W V : nodes) (s : ucl_swd_t) : Prop :=
  conf_ok (w_conf s) ∧
  w_cursor s = mk_swd_cursor (read_at p) (slot (ip0 + p)) (slot p) (slot (p + f)) (look_at p) (free_at r) (first_at r) ∧
  tables_ok (read_at p) W V (w_tables s).

(** *** Positions *)

Lemma slot_range q : 0 ≤ slot q < B.
Proof. apply Z.mod_pos_bound. unfold B. lia. Qed.

Lemma B_big : f < n + f ∧ 0 < B ∧ n < B ∧ f < B ∧ B + f < 2 ^ 31.
Proof. unfold B, SWD_N, SWD_F in *. lia. Qed.

Lemma slot_inj q q' : slot q = slot q' → - B < q - q' < B → q = q'.
Proof.
  unfold slot. intros E Hd. pose proof B_big.
  pose proof (Z.div_mod q B ltac:(lia)). pose proof (Z.div_mod q' B ltac:(lia)).
  assert (q - q' = B * (q / B - q' / B)) by lia. assert (q / B - q' / B = 0) by nia. lia.
Qed.

Lemma slot_add q : slot (q + B) = slot q.
Proof. unfold slot. pose proof B_big. by rewrite <-(Z.mul_1_l B) at 1; rewrite Z.mod_add by lia. Qed.

(** A few bytes on, the ring may have wrapped. *)
Lemma slot_ahead q i : 0 ≤ q → 0 ≤ i ≤ f →
  (slot q + i < B ∧ slot (q + i) = slot q + i) ∨
  (B ≤ slot q + i ∧ slot (q + i) = slot q + i - B ∧ slot (q + i) < f ∧ B ≤ q + i).
Proof.
  intros Hq Hi. pose proof (slot_range q) as Hr. pose proof B_big as HB. unfold slot in *.
  pose proof (Z.div_mod q B ltac:(lia)) as E. assert (0 ≤ q / B) by (apply Z.div_pos; lia).
  destruct (decide (q mod B + i < B)).
  - left. split; [done|]. symmetry. apply (Z.mod_unique_pos _ _ (q / B)); lia.
  - right. assert (E2 : (q + i) mod B = q mod B + i - B).
    { symmetry. apply (Z.mod_unique_pos _ _ (q / B + 1)); lia. }
    rewrite E2. split_and!; [lia|done|lia|nia].
Qed.

Lemma slot_next q : 0 ≤ q → step_index B (slot q) = slot (q + 1).
Proof.
  intros Hq. pose proof (slot_range q) as Hr. pose proof B_big as HB. unfold step_index.
  rewrite u32_small by (unfold is_u32; lia).
  destruct (slot_ahead q 1 Hq ltac:(lia)) as [[? ->]|(? & -> & ? & ?)]; destruct (decide _); lia.
Qed.

Lemma slot_oldest p : slot (p + f) = slot (p - n).
Proof. replace (p + f) with (p - n + B) by (unfold B; lia). apply slot_add. Qed.

Lemma look_read p : 0 ≤ p ≤ L → read_at p = p + look_at p.
Proof. unfold read_at, look_at, ip0. lia. Qed.

Lemma read_next p : read_at (p + 1) = if decide (read_at p < L) then read_at p + 1 else read_at p.
Proof. unfold read_at. destruct (decide _); lia. Qed.

Lemma elem_of_young p q : q ∈ young p ↔ Z.max 0 (p + 1 - n) ≤ q < p.
Proof. unfold young. rewrite elem_of_reverse, elem_of_seqZ. lia. Qed.

Lemma elem_of_window p q : 0 ≤ p → q ∈ window p ↔ Z.max 0 (p - n) ≤ q < p.
Proof.
  intros Hp. unfold window. rewrite elem_of_app, elem_of_young. unfold oldest.
  destruct (decide _); [rewrite elem_of_nil|rewrite list_elem_of_singleton]; lia.
Qed.

Lemma young_length p : 0 ≤ p → Z.of_nat (length (young p)) ≤ n - 1.
Proof. intros Hp. unfold young. rewrite length_reverse, length_seqZ. lia. Qed.

Lemma window_length p : 0 ≤ p → Z.of_nat (length (window p)) ≤ n.
Proof.
  intros Hp. pose proof (young_length p Hp). unfold window, oldest. rewrite length_app.
  destruct (decide _); simpl; lia.
Qed.

Lemma window_0 : window 0 = [].
Proof. unfold window, young, oldest. rewrite decide_True by lia. replace (Z.max 0 (0 + 1 - n)) with 0 by lia. done. Qed.

Lemma seqZ_snoc m l : 0 ≤ l → seqZ m (l + 1) = seqZ m l ++ [m + l].
Proof.
  intros Hl. rewrite <-(Z2Nat.id l) by done. replace (Z.of_nat (Z.to_nat l) + 1) with (Z.of_nat (S (Z.to_nat l))) by lia.
  apply seqZ_S.
Qed.

Lemma window_next p : 0 ≤ p → window (p + 1) = p :: young p.
Proof.
  intros Hp. unfold window, young, oldest. destruct (decide (p + 1 < n)).
  - rewrite app_nil_r, !Z.max_l, !Z.sub_0_r, seqZ_snoc, reverse_app by lia. done.
  - replace (Z.max 0 (p + 1 - n)) with (p + 1 - n) by lia.
    replace (Z.max 0 (p + 1 + 1 - n)) with (Z.succ (p + 1 - n)) by lia.
    replace (p + 1 - Z.succ (p + 1 - n)) with (Z.pred (n - 1 + 1)) by lia.
    replace (p - (p + 1 - n)) with (n - 1) by lia.
    transitivity (reverse (seqZ (p + 1 - n) (n - 1 + 1))).
    + rewrite (seqZ_cons (p + 1 - n)), reverse_cons by lia. done.
    + rewrite seqZ_snoc, reverse_app by lia. simpl. do 2 f_equal. lia.
Qed.

(** *** Reading the ring *)

Lemma get_text b d q i : shows b d → 0 ≤ q → 0 ≤ i ≤ f → d - B ≤ q + i < d →
  mem_get (Some b) (slot q + i) = Ret (byte_at input (q + i)).
Proof.
  intros (Hs & _ & Ht) Hq Hi Hd. pose proof (slot_range q). pose proof B_big as HB.
  rewrite mem_get_run by (rewrite Hs; unfold B in *; lia). f_equal.
  destruct (Ht (q + i) ltac:(lia) Hd) as [E1 E2].
  destruct (slot_ahead q i Hq Hi) as [[? E]|(? & E & Hlt & HBq)].
  - by rewrite <-E.
  - rewrite <-E2 by done. f_equal. lia.
Qed.

Lemma get_any b d q i : shows b d → 0 ≤ q → 0 ≤ i ≤ f →
  ∃ x, mem_get (Some b) (slot q + i) = Ret x ∧ is_byte x ∧ (d - B ≤ q + i < d → x = byte_at input (q + i)).
Proof.
  intros Hb Hq Hi. pose proof (slot_range q). pose proof B_big as HB. exists (cell b (slot q + i)).
  assert (E : mem_get (Some b) (slot q + i) = Ret (cell b (slot q + i))).
  { destruct Hb as (Hs & _). apply mem_get_run. rewrite Hs. unfold B in *; lia. }
  split_and!; [done|by destruct Hb as (_ & Hx & _)|].
  intros Hd. rewrite (get_text b d) in E by done. by simplify_eq.
Qed.

Lemma HEAD3_run b d q : shows b d → 0 ≤ q → d - B ≤ q →
  ∃ k, HEAD3 (Some b) (slot q) = Ret k ∧ 0 ≤ k < 65536 ∧
    (q + 2 < d → k = key3 (byte_at input q) (byte_at input (q + 1)) (byte_at input (q + 2))).
Proof.
  intros Hb Hq Hd. unfold HEAD3.
  destruct (get_any b d q 0 Hb Hq ltac:(lia)) as (x & E0 & _ & H0). rewrite !Z.add_0_r in *.
  destruct (get_any b d q 1 Hb Hq ltac:(lia)) as (y & E1 & _ & H1).
  destruct (get_any b d q 2 Hb Hq ltac:(lia)) as (z & E2 & _ & H2).
  rewrite E0, E1, E2. cbn [mbind outcome_bind]. eexists. split; [done|]. split; [apply key3_range|].
  intros Hlt. by rewrite H0, H1, H2 by lia.
Qed.

Lemma HEAD2_run b d q : shows b d → 0 ≤ q → d - B ≤ q →
  ∃ k, HEAD2 (Some b) (slot q) = Ret k ∧ 0 ≤ k < 65536 ∧
    (q + 1 < d → k = key2 (byte_at input q) (byte_at input (q + 1))).
Proof.
  intros Hb Hq Hd. unfold HEAD2.
  destruct (get_any b d q 0 Hb Hq ltac:(lia)) as (x & E0 & Hx & H0). rewrite !Z.add_0_r in *.
  destruct (get_any b d q 1 Hb Hq ltac:(lia)) as (y & E1 & Hy & H1).
  rewrite E0, E1. cbn [mbind outcome_bind]. eexists. split; [done|]. split; [by apply key2_range|].
  intros Hlt. by rewrite H0, H1 by lia.
Qed.

Lemma text_byte q : is_byte (byte_at input q).
Proof.
  unfold byte_at. destruct (nth_in_or_default (Z.to_nat q) input 0) as [H| ->]; [|done].
  rewrite Forall_forall in Hinput. apply Hinput. by apply list_elem_of_In.
Qed.

(** *** Entering and leaving the tables *)

Lemma reach_at p : 0 ≤ p ≤ L → p ≤ read_at p ≤ p + f ∧ read_at p ≤ L ∧
  (p + 1 < L → p + 1 < read_at p) ∧ (p + 2 < L → p + 2 < read_at p).
Proof. unfold read_at, ip0. lia. Qed.

Lemma young_slot p (W : nodes) e : W.*1 = young p → e ∈ W → slot e.1 ≠ slot p.
Proof.
  intros HW He E. assert (Hin : e.1 ∈ W.*1) by (apply list_elem_of_fmap; eauto).
  rewrite HW, elem_of_young in Hin.
  pose proof B_big. apply slot_inj in E; lia.
Qed.

Lemma keys3_add W p k : keys3_ok W → 0 ≤ k < 65536 →
  (p + 2 < L → k = key3 (byte_at input p) (byte_at input (p + 1)) (byte_at input (p + 2))) → keys3_ok ((p, k) :: W).
Proof. intros HW Hk Hp q k' [Heq|He]%elem_of_cons; [by simplify_eq|by apply HW]. Qed.

Lemma keys2_add V p k : keys2_ok V → 0 ≤ k < 65536 →
  (p + 1 < L → k = key2 (byte_at input p) (byte_at input (p + 1))) → keys2_ok ((p, k) :: V).
Proof. intros HV Hk Hp q k' [Heq|He]%elem_of_cons; [by simplify_eq|by apply HV]. Qed.

Lemma add_node_run p r W V s :
  0 ≤ p ≤ L → W.*1 = young p → V.*1 = young p → swd_at p r W V s →
  ∃ k3 k2 s', add_node (slot p) s = Ret s' ∧ swd_at p r ((p, k3) :: W) ((p, k2) :: V) s' ∧
    w_found s' = w_found s ∧ w_conf s' = w_conf s.
Proof.
  intros Hp HW HV (Hc & Hk & b & head3 & succ3 & best3 & llen3 & head2 & Et & Hb & (S1 & S2 & S3 & S4 & S5) & Hch & HK3 & Hhd & HK2).
  destruct (reach_at p Hp) as (Hr1 & Hr2 & Hr3 & Hr4). pose proof (slot_range p) as Hs. pose proof B_big as HB.
  destruct (HEAD3_run b (read_at p) p Hb ltac:(lia) ltac:(unfold B; lia)) as (k3 & E3 & Hk3 & Hkey3).
  destruct (HEAD2_run b (read_at p) p Hb ltac:(lia) ltac:(unfold B; lia)) as (k2 & E2 & Hk2 & Hkey2).
  destruct (Hch k3 Hk3) as [Hl _]. pose proof (with_key_length k3 W) as Hl2.
  assert (HlW : length W = length (young p)) by (by rewrite <-HW, length_fmap).
  pose proof (young_length p ltac:(lia)).
  exists k3, k2. unfold add_node, b_of. rewrite Et. cbn [w_b w_head3 w_succ3 w_best3 w_llen3 w_head2].
  destruct Hc as (Ec1 & Ec2 & Ec3 & Ec4).
  rewrite E3. mem_steps. rewrite (u32_small (cell llen3 k3 + 1)) by (unfold is_u32; lia).
  mem_steps. rewrite E2. mem_steps. eexists. split; [done|].
  split; [|done]. split; [done|]. split; [done|]. do 6 eexists. split; [done|]. split; [done|].
  split; [done|]. split_and!.
  - apply chains_add; [|done|done]. intros e. by apply young_slot.
  - by apply keys3_add; auto.
  - by apply heads_add.
  - by apply keys2_add; auto.
Qed.

Lemma oldest_split p (W : nodes) w : n ≤ p → W.*1 = w ++ oldest p →
  ∃ W' k, W = W' ++ [(p - n, k)] ∧ W'.*1 = w.
Proof.
  intros Hp HW. unfold oldest in HW. rewrite decide_False in HW by lia.
  apply fmap_app_inv in HW as (W' & W2 & -> & E & ->).
  destruct W2 as [|[q k] [|]]; simplify_eq/=. by exists W', k.
Qed.

Lemma remove_run p W V w v s :
  0 ≤ p ≤ L → swd_at p p W V s → W.*1 = w ++ oldest p → V.*1 = v ++ oldest p →
  (∀ q, q ∈ v → p - n < q ≤ p) →
  ∃ W' V' s', swd_remove_node (slot (p + f)) s = Ret s' ∧ swd_at p (p + 1) W' V' s' ∧
    W'.*1 = w ∧ V'.*1 = v ∧ w_found s' = w_found s ∧ w_conf s' = w_conf s.
Proof.
  intros Hp (Hc & Hk & Ht) HW HV Hv. unfold swd_remove_node. rewrite Hk. cbn [w_node_count w_first_rp].
  destruct (decide (free_at p = 0)) as [E0|E0]; unfold free_at in E0.
  2:{ unfold oldest in HW, HV. rewrite decide_True, app_nil_r in HW, HV by lia.
      exists W, V. eexists. split; [done|]. split; [|done]. split; [done|]. split; [|done].
      cbn. unfold free_at, first_at. rewrite !decide_True by lia. f_equal. lia. }
  apply oldest_split in HW as (W' & k3 & -> & HW'); [|lia]. apply oldest_split in HV as (V' & k2 & -> & HV'); [|lia].
  destruct Ht as (b & head3 & succ3 & best3 & llen3 & head2 & Et & Hb & (S1 & S2 & S3 & S4 & S5) & Hch & HK3 & Hhd & HK2).
  destruct (reach_at p Hp) as (Hr1 & Hr2 & _). rewrite slot_oldest. pose proof B_big as HB.
  destruct (HEAD3_run b (read_at p) (p - n) Hb ltac:(lia) ltac:(unfold B; lia)) as (k3' & E3 & Hk3 & Hkey3).
  destruct (HEAD2_run b (read_at p) (p - n) Hb ltac:(lia) ltac:(unfold B; lia)) as (k2' & E2 & Hk2 & Hkey2).
  destruct (HK3 (p - n) k3 ltac:(set_solver)) as [_ Ek3]. destruct (HK2 (p - n) k2 ltac:(set_solver)) as [_ Ek2].
  rewrite <-Ek3 in Hkey3 by lia. rewrite <-Ek2 in Hkey2 by lia.
  rewrite Hkey3 in * by lia. rewrite Hkey2 in * by lia.
  destruct (chains_remove _ _ _ _ _ _ _ Hch Hk3) as [Hpos Hch'].
  destruct (heads_remove slot head2 V' (p - n) k2) as [Hnil Hhd']; [|  |done|done|].
  { intros e He Es. assert (Hin : e.1 ∈ V'.*1) by (apply list_elem_of_fmap; eauto).
    rewrite HV' in Hin. apply Hv in Hin. apply slot_inj in Es; lia. }
  { intros e _ Es. pose proof (slot_range e.1). unfold NIL2, SWD_UINT_MAX, UCL_UINT_MAX in Es. lia. }
  assert (Hfirst : first_at p = UCL_UINT_MAX ∨ slot (p - n) = first_at p).
  { unfold first_at. destruct (decide (p ≤ n)); [right|by left]. replace (p - n) with 0 by lia. apply Z.mod_0_l. lia. }
  unfold b_of. rewrite Et. cbn [w_b w_head3 w_succ3 w_best3 w_llen3 w_head2 w_c_ip w_ip w_bp w_rp w_look].
  rewrite (bool_decide_true _ Hfirst). mem_steps. rewrite E3. mem_steps. rewrite E2. mem_steps.
  assert (Hstore : (if decide (cell head2 k2 = slot (p - n)) then Ret (Some (set_cell k2 NIL2 head2)) else Ret (Some head2)) =
    Ret (Some (if decide (cell head2 k2 = slot (p - n)) then set_cell k2 NIL2 head2 else head2))).
  { by destruct (decide _). }
  rewrite Hstore. exists W', V'. eexists. split; [done|].
  split; [|done]. split; [done|]. split.
  { cbn. unfold free_at, first_at. rewrite slot_oldest, (decide_False (P := p + 1 ≤ n)) by lia. f_equal. lia. }
  do 6 eexists. cbn. rewrite Et. split; [done|]. split; [done|].
  split; [by destruct (decide _)|]. split; [done|]. split; [|split; [done|]].
  - intros q k Hq. apply HK3. set_solver.
  - intros q k Hq. apply HK2. set_solver.
Qed.

(** *** The next byte *)

Lemma shows_next b d : 0 ≤ d → shows b d →
  let b' := set_cell (slot d) (byte_at input d) b in
  shows (if decide (slot d < f) then set_cell (B + slot d) (byte_at input d) b' else b') (d + 1).
Proof.
  intros Hd (Hs & Hbytes & Ht) b'. pose proof (slot_range d) as Hsd. pose proof (text_byte d) as Hx.
  assert (Hcell : ∀ i, cell (if decide (slot d < f) then set_cell (B + slot d) (byte_at input d) b' else b') i =
    if decide (i = slot d ∨ i = B + slot d ∧ slot d < f) then byte_at input d else cell b i).
  { intros i. unfold b'. destruct (decide (slot d < f)); rewrite !cell_set; repeat case_decide; lia || done. }
  split; [by destruct (decide _)|]. split.
  { intros i. rewrite Hcell. destruct (decide (_ ∨ _)); auto. }
  intros q Hq Hd'. rewrite !Hcell. pose proof (slot_range q) as Hsq.
  destruct (decide (q = d)) as [->|Hne].
  - split; [|intros HB Hf']; by rewrite decide_True by auto.
  - destruct (Ht q Hq ltac:(lia)) as [E1 E2].
    assert (slot q ≠ slot d) by (intros E; apply slot_inj in E; lia).
    split; [|intros HB Hf']; rewrite decide_False by lia; auto.
Qed.

Lemma getbyte_run p r W V s :
  0 ≤ p ≤ L → swd_at p r W V s →
  ∃ s', swd_getbyte input s = Ret s' ∧ swd_at (p + 1) r W V s' ∧ w_found s' = w_found s ∧ w_conf s' = w_conf s.
Proof.
  intros Hp (Hc & Hk & b & head3 & succ3 & best3 & llen3 & head2 & Et & Hb & Hs & Hrest).
  pose proof (slot_range (ip0 + p)) as Hip. pose proof B_big as HB. assert (Hip0 : 0 ≤ ip0) by (unfold ip0; lia).
  unfold swd_getbyte, b_of. rewrite Hk, Et. destruct Hc as (Ec1 & Ec2 & Ec3 & Ec4). rewrite Ec2, Ec3.
  cbn [w_c_ip w_ip w_bp w_rp w_look w_node_count w_first_rp w_b]. rewrite !slot_next by lia.
  pose proof (read_next p) as Hnext. destruct (decide (read_at p < L)) as [Hlt|Hge].
  - assert (Er : read_at p = ip0 + p) by (unfold read_at in *; lia).
    fold L. rewrite decide_True by done.
    destruct (lookup_lt_is_Some_2 input (Z.to_nat (read_at p)) ltac:(unfold L in *; lia)) as [x Hx]. rewrite Hx.
    assert (Ex : x = byte_at input (ip0 + p)).
    { unfold byte_at. rewrite <-Er. symmetry. by apply nth_lookup_Some with (d := 0) in Hx. }
    assert (Hsz : m_size b = n + f + f) by apply Hb.
    mem_steps. pose proof (shows_next b (read_at p) ltac:(lia) Hb) as Hb'. rewrite Er, <-Ex in Hb'.
    destruct (decide (slot (ip0 + p) < f)) as [Hm|Hm].
    + rewrite mem_set_run by (cbn; unfold B in *; lia). mem_steps. eexists. split; [done|]. split; [|done].
      split; [done|]. split; [|do 6 eexists; split; [by cbn; rewrite Et|]; rewrite Hnext, Er; done].
      cbn. rewrite Hnext, Er. f_equal; [f_equal; lia..|unfold look_at; unfold read_at in *; lia].
    + mem_steps. eexists. split; [done|]. split; [|done].
      split; [done|]. split; [|do 6 eexists; split; [by cbn; rewrite Et|]; rewrite Hnext, Er; done].
      cbn. rewrite Hnext, Er. f_equal; [f_equal; lia..|unfold look_at; unfold read_at in *; lia].
  - fold L. rewrite decide_False by done. cbn [mbind outcome_bind]. eexists. split; [done|]. split; [|done].
    split; [done|]. split; [|do 6 eexists; split; [by cbn; rewrite Et|]; rewrite Hnext; done].
    cbn. rewrite Hnext. f_equal; [f_equal; lia..|].
    unfold look_at, read_at, ip0 in *. destruct (decide _); lia.
Qed.

(** *** Accepting *)

(** Between two operations the tables hold the window. *)
Definition window_at (p : Z) (s : ucl_swd_t) : Prop :=
  ∃ W V, swd_at p p W V s ∧ W.*1 = window p ∧ V.*1 = window p.

Lemma in_young p q : q ∈ young p → p - n < q ≤ p.
Proof. rewrite elem_of_young. lia. Qed.

Lemma accept_loop_run k p s :
  0 ≤ p → p + Z.of_nat k ≤ L → window_at p s →
  ∃ s', accept_loop input k s = Ret s' ∧ window_at (p + Z.of_nat k) s' ∧ w_found s' = w_found s ∧ w_conf s' = w_conf s.
Proof.
  revert p s. induction k as [|k IH]; intros p s Hp Hk Hw.
  - exists s. by rewrite Z.add_0_r.
  - destruct Hw as (W & V & Hs & HW & HV). cbn [accept_loop].
    assert (Hrp : w_rp (w_cursor s) = slot (p + f)) by (destruct Hs as (_ & -> & _); done). rewrite Hrp.
    destruct (remove_run p W V (young p) (young p) s) as (W1 & V1 & s1 & E1 & Hs1 & HW1 & HV1 & Hf1 & Hc1);
      [lia|done|done|done|apply in_young|].
    rewrite E1. cbn [mbind outcome_bind].
    assert (Hbp : bp_of s1 = slot p) by (destruct Hs1 as (_ & Hk1 & _); unfold bp_of; by rewrite Hk1). rewrite Hbp.
    destruct (add_node_run p (p + 1) W1 V1 s1) as (k3 & k2 & s2 & E2 & Hs2 & Hf2 & Hc2); [lia|done..|].
    rewrite E2. cbn [mbind outcome_bind].
    destruct (getbyte_run p _ _ _ s2 ltac:(lia) Hs2) as (s3 & E3 & Hs3 & Hf3 & Hc3).
    rewrite E3. cbn [mbind outcome_bind].
    destruct (IH (p + 1) s3) as (s' & E & Hw' & Hf' & Hc'); [lia|lia| |].
    { do 2 eexists. split; [exact Hs3|]. rewrite window_next by done. csimpl. by rewrite HW1, HV1. }
    exists s'. split; [done|]. split; [|split; congruence].
    by replace (p + Z.of_nat (S k)) with (p + 1 + Z.of_nat k) by lia.
Qed.

Lemma swd_accept_run k p s :
  0 ≤ p → 0 ≤ k ≤ look_at p → p + k ≤ L → window_at p s →
  ∃ s', swd_accept input k s = Ret s' ∧ window_at (p + k) s' ∧ w_found s' = w_found s ∧ w_conf s' = w_conf s.
Proof.
  intros Hp Hk HL Hw. unfold swd_accept.
  assert (Hlook : look_of s = look_at p).
  { destruct Hw as (W & V & (_ & Ek & _) & _). unfold look_of. by rewrite Ek. }
  rewrite assert_run by (apply bool_decide_eq_true; lia). cbn [mbind outcome_bind].
  destruct (accept_loop_run (Z.to_nat k) p s Hp ltac:(lia) Hw) as (s' & E & H). rewrite Z2Nat.id in H by lia. eauto.
Qed.

(** *** Searching *)

Section search.
  Context (p : Z) (Hp : 0 ≤ p ≤ L).
  Context (b head3 succ3 best3 llen3 head2 : mem).
  Context (Hb : shows b (read_at p)) (Hbest : m_size best3 = B) (Hsucc : m_size succ3 = B).
  Context (c : swd_conf) (k : swd_cursor) (Hbp : w_bp k = slot p) (Hlook : w_look k = look_at p).

Let t : swd_tables :=
  mk_swd_tables (Some b) (Some head3) (Some succ3) (Some best3) (Some llen3) (Some head2).

(** The answer so far is a repetition found in the window. *)
Definition answer (r : swd_found) : Prop :=
  2 ≤ w_m_len r ≤ look_at p ∧
  ∃ q, q ∈ window p ∧ w_m_pos r = slot q ∧ repeats input p (p - q) (w_m_len r).
Definition same_rest (r r' : swd_found) : Prop := w_b_char r' = w_b_char r ∧ w_m_off r' = w_m_off r.

Let in_reach (q i : Z) : q ∈ window p ∨ q = p → 0 ≤ i < look_at p →
  0 ≤ q ∧ 0 ≤ i ≤ f ∧ read_at p - B ≤ q + i < read_at p.
Proof.
  intros Hq Hi. rewrite elem_of_window in Hq by lia. rewrite look_read by lia.
  unfold look_at, B in *. lia.
Qed.

Let get (q i : Z) : q ∈ window p ∨ q = p → 0 ≤ i < look_at p →
  mem_get (Some b) (slot q + i) = Ret (byte_at input (q + i)).
Proof. intros Hq Hi. destruct (in_reach q i Hq Hi) as (? & ? & ?). by apply (get_text b (read_at p)). Qed.

Lemma same_bytes_run q j m :
  q ∈ window p → 0 ≤ j → j + Z.of_nat m ≤ look_at p →
  (∀ i, j ≤ i < j + Z.of_nat m → byte_at input (p + i) = byte_at input (q + i)) →
  same_bytes (Some b) (slot p + j) (slot q + j) m = Ret true.
Proof.
  intros Hq. revert j. induction m as [|m IH]; intros j Hj Hm Heq; cbn [same_bytes]; [done|].
  rewrite !get by (auto || lia). cbn [mbind outcome_bind]. rewrite decide_True by (apply Heq; lia).
  rewrite <-!Z.add_assoc. apply IH; [lia|lia|]. intros i Hi. apply Heq. lia.
Qed.

Lemma scan_match_run fuel q i :
  q ∈ window p → 0 ≤ i < look_at p → look_at p - i ≤ Z.of_nat fuel →
  ∃ r, scan_match fuel (Some b) (slot p) (slot q) (look_at p) i = Ret r ∧ i < r ≤ look_at p ∧
    ∀ j, i < j < r → byte_at input (p + j) = byte_at input (q + j).
Proof.
  intros Hq. revert i. induction fuel as [|fuel IH]; intros i Hi Hf'; [lia|]. cbn [scan_match].
  destruct (decide (i + 1 < look_at p)) as [Hlt|Hge].
  - rewrite !get by (auto || lia). cbn [mbind outcome_bind]. destruct (decide _) as [E|E].
    + destruct (IH (i + 1)) as (r & E1 & Hr & Heq); [lia|lia|]. exists r. split; [done|]. split; [lia|].
      intros j Hj. destruct (decide (j = i + 1)) as [->|]; [done|]. apply Heq. lia.
    + exists (i + 1). split; [done|]. split; [lia|]. intros j Hj. lia.
  - exists (i + 1). split; [done|]. split; [lia|]. intros j Hj. lia.
Qed.

(** The hash chain of [p]. *)
Definition same_key (q : Z) : Prop :=
  key3 (byte_at input q) (byte_at input (q + 1)) (byte_at input (q + 2)) =
  key3 (byte_at input p) (byte_at input (p + 1)) (byte_at input (p + 2)).

Lemma search_node_run r q m_len scan_end1 :
  q ∈ window p → same_key q → 2 ≤ m_len < look_at p → 3 ≤ look_at p →
  ∃ o, search_node (mk_swd c k r t) (slot q) m_len scan_end1 = Ret o ∧
    ∀ i, o = Some i → 3 ≤ i ≤ look_at p ∧ repeats input p (p - q) i.
Proof.
  intros Hq Hkey Hm Hl. unfold search_node, b_of, bp_of, look_of. cbn [w_b w_tables w_cursor t].
  rewrite Hbp, Hlook. mem_steps.
  pose proof (get q 0 ltac:(auto) ltac:(lia)) as G0. pose proof (get p 0 ltac:(auto) ltac:(lia)) as P0.
  rewrite !Z.add_0_r in G0, P0.
  rewrite <-Z.add_sub_assoc, (get q (m_len - 1)), (get q m_len), (get p m_len), G0, P0, (get q 1), (get p 1)
    by (auto || lia). cbn [mbind outcome_bind].
  destruct (decide _); [by exists None|]. destruct (decide _); [by exists None|].
  destruct (decide (_ ≠ _)) as [|E0]; [by exists None|]. destruct (decide (_ ≠ _)) as [|E1]; [by exists None|].
  apply dec_stable in E0, E1.
  assert (E2 : byte_at input (q + 2) = byte_at input (p + 2)).
  { unfold same_key in Hkey. rewrite E0, E1 in Hkey. apply key3_third in Hkey; auto using text_byte. }
  destruct (scan_match_run (Z.to_nat (look_at p)) q 2) as (i & Ei & Hi & Heq); [done|lia|lia|].
  assert (Hall : ∀ j, 0 ≤ j < i → byte_at input (p + j) = byte_at input (q + j)).
  { intros j Hj. destruct (decide (j = 0)) as [->|]; [by rewrite !Z.add_0_r|].
    destruct (decide (j = 1)) as [->|]; [done|]. destruct (decide (j = 2)) as [->|]; [done|]. apply Heq. lia. }
  pose proof (same_bytes_run q 0 3 Hq ltac:(lia) ltac:(lia) ltac:(intros; apply Hall; lia)) as S3.
  pose proof (same_bytes_run q 0 (Z.to_nat i) Hq ltac:(lia) ltac:(lia) ltac:(intros; apply Hall; lia)) as Si.
  rewrite !Z.add_0_r in S3, Si. rewrite S3. cbn [mbind outcome_bind assert]. rewrite Ei. cbn [mbind outcome_bind].
  rewrite Si. cbn [mbind outcome_bind assert]. exists (Some i). split; [done|]. intros ? [= <-]. split; [lia|].
  apply elem_of_window in Hq; [|lia]. split; [lia|].
  intros j Hj. replace (p - (p - q) + j) with (q + j) by lia. by apply Hall.
Qed.

Lemma search_loop_run cnt node ps m_len scan_end1 r :
  linked slot succ3 node ps → (cnt ≤ length ps)%nat → (∀ q, q ∈ ps → q ∈ window p ∧ same_key q) →
  3 ≤ look_at p → m_len = w_m_len r → m_len < look_at p → answer r →
  ∃ r', search_loop cnt node m_len scan_end1 (mk_swd c k r t) = Ret (mk_swd c k r' t) ∧ answer r' ∧
    same_rest r r' ∧ w_m_len r ≤ w_m_len r'.
Proof.
  intros Hl Hc Hps Hl3 Hm Hlt Hr. revert node ps m_len scan_end1 r Hl Hc Hps Hm Hlt Hr.
  induction cnt as [|cnt IH]; intros node ps m_len scan_end1 r Hl Hc Hps Hm Hlt Hr; cbn [search_loop].
  { by exists r. }
  destruct ps as [|q ps]; [simpl in Hc; lia|]. destruct Hl as [-> Hl].
  destruct (Hps q ltac:(set_solver)) as [Hq Hkey]. pose proof (slot_range q) as Hsq.
  assert (Hnext : ∀ m' e r', m' = w_m_len r' → m' < look_at p → answer r' → same_rest r r' → w_m_len r ≤ w_m_len r' →
    ∃ r2, (node ← mem_get (w_succ3 (w_tables (mk_swd c k r' t))) (slot q); search_loop cnt node m' e (mk_swd c k r' t)) =
      Ret (mk_swd c k r2 t) ∧ answer r2 ∧ same_rest r r2 ∧ w_m_len r ≤ w_m_len r2).
  { intros m' e r' Hm' Hlt' Hr' Hsame Hle. cbn [w_tables w_succ3 t]. mem_steps.
    destruct (IH (cell succ3 (slot q)) ps m' e r') as (r2 & E & Ha & [Hs1 Hs2] & Hle2); try done.
    { simpl in Hc. lia. } { intros q' Hq'. apply Hps. set_solver. }
    destruct Hsame. exists r2. split_and!; try done; [split; congruence|lia]. }
  destruct (search_node_run r q m_len scan_end1) as (o & E & Ho); [done|done|destruct Hr; lia|done|].
  rewrite E. cbn [mbind outcome_bind]. destruct o as [i|]; [|by apply Hnext].
  destruct (Ho i eq_refl) as [Hi Hrep].
  destruct (decide (m_len < i)) as [Hbig|]; [|by apply Hnext].
  set (r' := mk_swd_found i (w_m_off r) (slot q) (w_b_char r)).
  change (set_m_pos (slot q) (set_m_len i (mk_swd c k r t))) with (mk_swd c k r' t).
  assert (Ha' : answer r') by (split; [simpl; lia|by exists q]).
  assert (Hrest : same_rest r r' ∧ w_m_len r ≤ w_m_len r') by (split; [done|simpl; lia]). destruct Hrest.
  unfold look_of. cbn [w_cursor]. rewrite Hlook.
  destruct (decide _); [by exists r'|]. destruct (decide _); [by exists r'|].
  cbn [w_tables w_best3 t]. mem_steps. destruct (decide _); [by exists r'|].
  unfold b_of, bp_of. cbn [w_tables w_b t w_cursor]. rewrite Hbp, <-Z.add_sub_assoc, get by (auto || lia).
  cbn [mbind outcome_bind]. apply Hnext; [done|lia|done..].
Qed.

Lemma swd_search2_run V r :
  heads slot head2 V → V.*1 = window p → keys2_ok V → m_size head2 = 65536 →
  2 ≤ look_at p → w_m_len r = 1 →
  ∃ found r', swd_search2 (mk_swd c k r t) = Ret (found, mk_swd c k r' t) ∧ same_rest r r' ∧
    if found then answer r' ∧ w_m_len r' = 2 else r' = r.
Proof.
  intros Hh HV HK Hs2 Hl Hr. unfold swd_search2, b_of, bp_of, look_of, m_len_of.
  cbn [w_b w_tables w_cursor w_found t]. rewrite Hbp, Hlook. mem_steps.
  pose proof (look_read p Hp) as Hread. pose proof (get p 0 ltac:(auto) ltac:(lia)) as P0.
  rewrite !Z.add_0_r in P0. unfold HEAD2 at 1. rewrite P0, (get p 1) by (auto || lia). cbn [mbind outcome_bind].
  set (key := key2 _ _). assert (Hkey : 0 ≤ key < 65536) by (apply key2_range; apply text_byte).
  cbn [w_head2 t]. mem_steps. specialize (Hh key Hkey).
  destruct (with_key key V) as [|q ps] eqn:E; rewrite Hh.
  { rewrite decide_True by done. by exists false, r. }
  assert (Hin : (q, key) ∈ V) by (apply with_key_elem; rewrite E; set_solver).
  assert (Hq : q ∈ window p). { rewrite <-HV. apply list_elem_of_fmap. by exists (q, key). }
  pose proof (slot_range q) as Hsq. pose proof B_big. rewrite decide_False by (unfold NIL2, SWD_UINT_MAX, UCL_UINT_MAX; lia).
  destruct (HK q key Hin) as [_ Ek]. pose proof Hq as Hq'. rewrite elem_of_window in Hq' by lia.
  destruct (reach_at p Hp) as (? & ? & _). specialize (Ek ltac:(lia)). unfold key in Ek.
  apply key2_inj in Ek as [Eq0 Eq1]; [|apply text_byte..].
  assert (Hall : ∀ i, 0 ≤ i < 0 + 2 → byte_at input (p + i) = byte_at input (q + i)).
  { intros i Hi. assert (i = 0 ∨ i = 1) as [-> | ->] by lia; rewrite ?Z.add_0_r; done. }
  pose proof (same_bytes_run q 0 2 Hq ltac:(lia) ltac:(lia) Hall) as S. rewrite !Z.add_0_r in S.
  rewrite S. cbn [mbind outcome_bind assert]. rewrite Hr, decide_True by lia.
  exists true. eexists. split; [done|]. split; [done|]. split; [|done].
  split; [simpl; lia|]. exists q. split; [done|]. split; [done|]. split; [lia|].
  intros i Hi. replace (p - (p - q) + i) with (q + i) by lia. by apply Hall.
Qed.

Lemma pos2off_run r q : q ∈ window p → w_b_size c = B → swd_pos2off (mk_swd c k r t) (slot q) = p - q.
Proof.
  intros Hq Hc. rewrite elem_of_window in Hq by lia. unfold swd_pos2off, bp_of. cbn [w_conf w_cursor].
  rewrite Hbp, Hc. pose proof (slot_range q). pose proof (slot_range p). pose proof B_big.
  assert (E : p = q + (p - q)) by lia. assert (Hd : 0 < p - q < B) by lia.
  pose proof (Z.div_mod q B ltac:(lia)) as Dq. pose proof (Z.div_mod p B ltac:(lia)) as Dp.
  fold (slot q) in Dq. fold (slot p) in Dp.
  assert (Hcase : p / B = q / B ∨ p / B = q / B + 1).
  { clear - Dq Dp E Hd H H0 H1. set (a := p / B) in *. set (a' := q / B) in *. clearbody a a'.
    assert (B * (a - a') < B * 2) as ?%Z.mul_lt_mono_pos_l by lia.
    assert (B * (- 1) < B * (a - a')) as ?%Z.mul_lt_mono_pos_l by lia. all: lia. }
  destruct (decide _).
  - destruct Hcase as [Hc1|Hc1]; rewrite Hc1 in Dp; lia.
  - rewrite u32_small; unfold is_u32; destruct Hcase as [Hc1|Hc1]; rewrite Hc1 in Dp; lia.
Qed.

(** What [swd_findbest] promises of [m_len], [m_off] and [b_char]. *)
Definition best_at (r : swd_found) : Prop :=
  w_b_char r = (if decide (p < L) then byte_at input p else -1) ∧
  (w_m_len r = 1 ∨
   2 ≤ w_m_len r ≤ look_at p ∧ w_m_off r ≤ n ∧ repeats input p (w_m_off r) (w_m_len r)).

Lemma search_chain_run V ps node cnt r :
  heads slot head2 V → V.*1 = window p → keys2_ok V → m_size head2 = 65536 → conf_ok c →
  linked slot succ3 node ps → (Z.to_nat cnt ≤ length ps)%nat →
  (∀ q, q ∈ ps → q ∈ window p ∧ (3 ≤ look_at p → same_key q)) → w_m_len r = 1 →
  ∃ r' best3', search_chain node cnt (mk_swd c k r t) =
      Ret (mk_swd c k r' (mk_swd_tables (Some b) (Some head3) (Some succ3) (Some best3') (Some llen3) (Some head2))) ∧
    m_size best3' = B ∧ best_at r'.
Proof.
  intros Hh HV HK Hs2 Hc Hl Hcnt Hps Hr. unfold search_chain.
  change (b_of (mk_swd c k r t)) with (Some b). change (bp_of (mk_swd c k r t)) with (w_bp k).
  rewrite Hbp. pose proof (slot_range p) as Hsp. pose proof (look_read p Hp) as Hread.
  destruct (get_any b (read_at p) p 0 Hb ltac:(lia) ltac:(lia)) as (x & Ex & _ & Hx).
  rewrite !Z.add_0_r in Ex, Hx. rewrite Ex. cbn [mbind outcome_bind].
  set (r1 := mk_swd_found (w_m_len r) (w_m_off r) (w_m_pos r) x).
  change (set_b_char x (mk_swd c k r t)) with (mk_swd c k r1 t).
  change (look_of (mk_swd c k r1 t)) with (w_look k). change (m_len_of (mk_swd c k r1 t)) with (w_m_len r).
  rewrite Hlook, Hr. pose proof B_big as HB.
  assert (Hpos : 0 < look_at p → x = byte_at input p).
  { intros H0. apply Hx. unfold look_at, B in *. lia. }
  destruct (decide (look_at p ≤ 1)) as [Hsmall|Hbig].
  - assert (Hend : look_at p = 0 ↔ ¬ p < L) by (unfold look_at; lia).
    destruct (decide (look_at p = 0)) as [E0|E0]; cbn [w_tables set_m_off set_b_char set_found w_found]; cbn [w_best3 t];
      unfold bp_of; cbn [w_cursor set_m_off set_b_char set_found w_found]; rewrite Hbp; mem_steps;
      do 2 eexists; (split; [done|]); (split; [done|]); (split; [|by left]); cbn.
    + by rewrite decide_False by tauto.
    + rewrite decide_True by (destruct (decide (p < L)); tauto). apply Hpos. unfold look_at in *. lia.
  - destruct (swd_search2_run V r1) as (found & r2 & E2 & Hs12 & Hf2); [done..|lia|done|].
    rewrite E2. cbn [mbind outcome_bind].
    assert (Hr3 : ∃ r3, (if found && bool_decide (3 ≤ look_of (mk_swd c k r2 t)) then swd_search node cnt (mk_swd c k r2 t)
        else Ret (mk_swd c k r2 t)) = Ret (mk_swd c k r3 t) ∧ same_rest r1 r3 ∧ (w_m_len r3 = 1 ∨ answer r3)).
    { destruct found; cbn [andb].
      - unfold look_of. cbn [w_cursor]. rewrite Hlook. destruct Hf2 as [Ha2 Hm2].
        case_bool_decide as H3; [|by exists r2; auto].
        unfold swd_search, m_len_of, b_of, bp_of. cbn [w_found w_tables w_b t w_cursor]. rewrite Hbp, Hm2. mem_steps.
        rewrite <-Z.add_sub_assoc, get by (auto || lia). cbn [mbind outcome_bind].
        destruct (search_loop_run (Z.to_nat cnt) node ps 2 (byte_at input (p + (2 - 1))) r2) as (r3 & E3 & Ha & [Hb1 Hb2] & _);
          try done; [|lia|].
        { intros q Hq. destruct (Hps q Hq). auto. }
        exists r3. split; [done|]. destruct Hs12. split; [split; congruence|by right].
      - subst r2. exists r1. split; [done|]. split; [done|]. by left. }
    destruct Hr3 as (r3 & E3 & [Hs31 Hs32] & Ha3). rewrite E3. cbn [mbind outcome_bind].
    unfold m_len_of. cbn [w_found].
    assert (Hp1 : p < L) by (unfold look_at in Hbig; lia).
    destruct (decide (1 < w_m_len r3)) as [Hm|Hm]; unfold bp_of; cbn [w_tables set_m_off set_found w_best3 t w_cursor]; cbn [w_best3 w_cursor w_found];
      rewrite Hbp; mem_steps; do 2 eexists; (split; [done|]); (split; [done|]); cbn; (split; [by rewrite Hs31, decide_True by done; apply Hpos; lia|]).
    + destruct Ha3 as [|(Hml & q & Hq & Eq & Hrep)]; [lia|]. right. cbn. rewrite Eq.
      change {| w_conf := c; w_cursor := k; w_found := r3; w_tables := t |} with (mk_swd c k r3 t).
      rewrite pos2off_run by (done || apply Hc). split; [done|]. split; [|done].
      apply elem_of_window in Hq; lia.
    + left. destruct Ha3 as [|[? _]]; lia.
Qed.
End search.

Lemma enter_chain_run p W V s :
  0 ≤ p ≤ L → swd_at p p W V s → W.*1 = window p → V.*1 = window p → w_m_len (w_found s) = 1 →
  ∃ node cnt k3 b head3 succ3 best3 llen3 head2,
    enter_chain s = Ret (node, cnt, mk_swd (w_conf s) (w_cursor s) (w_found s)
      (mk_swd_tables (Some b) (Some head3) (Some succ3) (Some best3) (Some llen3) (Some head2))) ∧
    swd_at p p ((p, k3) :: W) V (mk_swd (w_conf s) (w_cursor s) (w_found s)
      (mk_swd_tables (Some b) (Some head3) (Some succ3) (Some best3) (Some llen3) (Some head2))) ∧
    shows b (read_at p) ∧ m_size succ3 = B ∧ m_size best3 = B ∧ m_size head2 = 65536 ∧
    heads slot head2 V ∧ keys2_ok V ∧
    linked slot succ3 node (with_key k3 W) ∧ (Z.to_nat cnt ≤ length (with_key k3 W))%nat ∧
    ∀ q, q ∈ with_key k3 W → q ∈ window p ∧ (3 ≤ look_at p → same_key p q).
Proof.
  intros Hp (Hc & Hk & b & head3 & succ3 & best3 & llen3 & head2 & Et & Hb & (S1 & S2 & S3 & S4 & S5) & Hch & HK3 & Hhd & HK2) HW HV Hm.
  destruct (reach_at p Hp) as (Hr1 & Hr2 & Hr3 & Hr4). pose proof (slot_range p) as Hs. pose proof B_big as HB.
  destruct (HEAD3_run b (read_at p) p Hb ltac:(lia) ltac:(unfold B; lia)) as (k3 & E3 & Hk3 & Hkey3).
  destruct (Hch k3 Hk3) as [Hl Hlink]. pose proof (with_key_length k3 W) as Hl2.
  assert (HlW : length W = length (window p)) by (by rewrite <-HW, length_fmap).
  pose proof (window_length p ltac:(lia)) as Hwl. destruct Hc as (Ec1 & Ec2 & Ec3 & Ec4).
  assert (Hbp : bp_of s = slot p) by (unfold bp_of; by rewrite Hk).
  assert (Hfar : ∀ e, e ∈ W → slot e.1 ≠ slot p).
  { intros e He E. assert (Hin : e.1 ∈ W.*1) by (apply list_elem_of_fmap; eauto).
    rewrite HW, elem_of_window in Hin by lia. apply slot_inj in E; lia. }
  set (cnt := if decide (w_max_chain (w_conf s) < cell llen3 k3 ∧ 0 < w_max_chain (w_conf s))
              then w_max_chain (w_conf s) else cell llen3 k3).
  exists (cell head3 k3), cnt, k3, b, (set_cell k3 (slot p) head3), (set_cell (slot p) (cell head3 k3) succ3), best3,
    (set_cell k3 (cell llen3 k3 + 1) llen3), head2.
  split.
  { unfold enter_chain, b_of, m_len_of. rewrite Et, Hm, Hbp. cbn [w_b w_head3 w_succ3 w_best3 w_llen3 w_head2].
    mem_steps. rewrite E3. mem_steps. rewrite (u32_small (cell llen3 k3 + 1)) by (unfold is_u32; lia).
    rewrite Ec1, Ec2. mem_steps. rewrite <-Hbp. unfold set_llen3, set_heads, set_tables. cbn. by rewrite Et. }
  split.
  { split; [done|]. split; [done|]. do 6 eexists. split; [done|]. split; [done|]. split; [done|].
    split; [by apply chains_add|]. split; [apply keys3_add; auto|done]. }
  split_and!; try done.
  - apply linked_set; [|done]. intros q Hq. apply with_key_elem in Hq. by apply (Hfar (q, k3)).
  - unfold cnt. destruct (decide _); lia.
  - intros q Hq. apply with_key_elem in Hq.
    assert (Hqw : q ∈ window p). { rewrite <-HW. apply list_elem_of_fmap. by exists (q, k3). }
    split; [done|]. intros H3. apply elem_of_window in Hqw; [|lia]. unfold same_key.
    destruct (HK3 q k3 Hq) as [_ Eq]. pose proof (look_read p Hp). rewrite <-Eq, Hkey3 by (unfold look_at in *; lia). done.
Qed.

Lemma swd_findbest_run p s :
  0 ≤ p ≤ L → window_at p s → w_m_len (w_found s) = 1 →
  ∃ W V s', swd_findbest s = Ret s' ∧ swd_at p (p + 1) W V s' ∧
    W.*1 = window (p + 1) ∧ V.*1 = window (p + 1) ∧ w_conf s' = w_conf s ∧ best_at p (w_found s').
Proof.
  intros Hp (W & V & Hs & HW & HV) Hm. pose proof (window_next p ltac:(lia)) as Hwn.
  destruct (enter_chain_run p W V s Hp Hs HW HV Hm) as
    (node & cnt & k3 & b & head3 & succ3 & best3 & llen3 & head2 & E1 & Hs1 & Hb & Hsu & Hbe & Hh2 & Hhd & HK2 & Hlink & Hcnt & Hps).
  unfold swd_findbest. rewrite E1. cbn [mbind outcome_bind].
  destruct Hs1 as (Hc & Hk & Ht). cbn [w_conf w_cursor w_tables] in Hc, Hk, Ht.
  destruct (search_chain_run p Hp b head3 succ3 best3 llen3 head2 Hb Hbe Hsu (w_conf s) (w_cursor s)
    ltac:(by rewrite Hk) ltac:(by rewrite Hk) V (with_key k3 W) node cnt (w_found s)) as (r' & best3' & E2 & Hbe' & Hbest);
    try done.
  rewrite E2. cbn [mbind outcome_bind].
  set (s2 := mk_swd (w_conf s) (w_cursor s) r' _).
  assert (Hs2 : swd_at p p ((p, k3) :: W) V s2).
  { split; [done|]. split; [done|]. destruct Ht as (b0 & h0 & su0 & be0 & ll0 & he0 & Et & Hb0 & (Z1 & Z2 & Z3 & Z4 & Z5) & Hrest).
    injection Et as <- <- <- <- <- <-. do 6 eexists. split; [done|]. split; [done|]. done. }
  change (w_rp (w_cursor s2)) with (w_rp (w_cursor s)).
  replace (w_rp (w_cursor s)) with (slot (p + f)) by (by rewrite Hk).
  destruct (remove_run p ((p, k3) :: W) V (p :: young p) (young p) s2) as (W' & V' & s3 & E3 & Hs3 & HW' & HV' & Hf3 & Hc3);
    [done|done|csimpl; by rewrite HW|done|apply in_young|].
  rewrite E3. cbn [mbind outcome_bind].
  destruct Hs3 as (Hc3' & Hk3 & b3 & h3 & su3 & be3 & ll3 & he3 & Et3 & Hb3 & (Z1 & Z2 & Z3 & Z4 & Z5) & Hch3 & HK33 & Hhd3 & HK23).
  destruct (reach_at p Hp) as (Hr1 & Hr2 & Hr3 & _).
  destruct (HEAD2_run b3 (read_at p) p Hb3 ltac:(lia) ltac:(unfold B; lia)) as (k2 & E4 & Hk2 & Hkey2).
  unfold b_of, bp_of. rewrite Et3, Hk3. cbn [w_b w_head2 w_bp]. rewrite E4. mem_steps.
  do 3 eexists. split; [done|]. split.
  { split; [done|]. split; [done|]. do 6 eexists. split; [cbn; by rewrite Et3|]. split; [done|]. split; [done|].
    split; [exact Hch3|]. split; [done|]. split; [by apply heads_add|]. apply keys2_add; auto. }
  rewrite Hwn. split; [done|]. split; [by rewrite <-HV'|]. split; [cbn; by rewrite Hc3|].
  cbn. rewrite Hf3. done.
Qed.

(** *** Initialisation *)

Lemma mem_copy_run m i l : 0 ≤ i → i + Z.of_nat (length l) ≤ m_size m →
  ∃ m', mem_copy (Some m) i l = Ret (Some m') ∧ m_size m' = m_size m ∧
    ∀ j, cell m' j = if decide (i ≤ j < i + Z.of_nat (length l)) then nth (Z.to_nat (j - i)) l 0 else cell m j.
Proof.
  revert m i. induction l as [|x l IH]; intros m i Hi Hl; cbn [mem_copy].
  - exists m. split; [done|]. split; [done|]. intros j. rewrite decide_False by (simpl; lia). done.
  - cbn [length] in *. mem_steps. destruct (IH (set_cell i x m) (i + 1)) as (m' & E & Es & Ec); [lia|simpl in *; lia|].
    exists m'. split; [done|]. split; [done|]. intros j. rewrite Ec, cell_set. destruct (decide (j = i)) as [->|Hne].
    + rewrite decide_False, decide_True by lia. by rewrite Z.sub_diag.
    + destruct (decide _).
      * rewrite decide_True by lia. replace (Z.to_nat (j - i)) with (S (Z.to_nat (j - (i + 1)))) by lia. done.
      * by rewrite decide_False by lia.
Qed.

(** The first bytes, with nothing in the tables. *)
Lemma init_cursor_run head3 succ3 best3 llen3 head2 b s :
  conf_ok (w_conf s) → w_cursor s = mk_swd_cursor 0 0 0 0 0 n 0 →
  w_tables s = mk_swd_tables (Some b) (Some head3) (Some succ3) (Some best3) (Some llen3) (Some head2) →
  m_size b = n + f + f → (∀ i, is_byte (cell b i)) →
  m_size head3 = 65536 ∧ m_size succ3 = B ∧ m_size best3 = B ∧ m_size llen3 = 65536 ∧ m_size head2 = 65536 →
  (∀ k, cell llen3 k = 0) → (∀ k, cell head2 k = NIL2) →
  ∃ s', init_cursor input 0 [] s = Ret s' ∧ window_at 0 s' ∧ w_conf s' = w_conf s ∧ w_found s' = w_found s.
Proof.
  intros Hc Hk Et Hsz Hbytes Hs Hll Hh. destruct Hc as (Ec1 & Ec2 & Ec3 & Ec4). pose proof B_big as HB.
  unfold init_cursor, swd_initdict. rewrite decide_True by (simpl; lia). cbn [mbind outcome_bind w_conf w_f w_cursor w_b_size].
  rewrite Hk, Ec2, Ec3. cbn [w_ip]. mem_steps. fold L. rewrite Z.sub_0_r, (u32_small L) by (unfold L, is_u32; lia).
  replace (if decide (f < L) then f else L) with ip0 by (unfold ip0; destruct (decide _); lia).
  unfold b_of. cbn [w_tables]. rewrite Et. cbn [w_b]. change (Z.to_nat 0) with 0%nat. rewrite drop_0.
  assert (Hip : 0 ≤ ip0 ≤ f ∧ ip0 ≤ L) by (unfold ip0, L; lia).
  assert (Hl : Z.of_nat (length (take (Z.to_nat ip0) input)) = ip0) by (rewrite length_take; unfold L in *; lia).
  destruct (mem_copy_run b 0 (take (Z.to_nat ip0) input)) as (b' & E & Es & Ecell); [lia|lia|].
  rewrite E. cbn [mbind outcome_bind]. rewrite (decide_False (P := 0 + ip0 = B)) by lia.
  cbn [w_conf w_dict set_cursor set_b set_tables]. rewrite decide_False by (simpl; lia). cbn [mbind outcome_bind].
  cbn [w_cursor set_cursor set_b set_tables w_first_rp w_node_count w_conf w_b_size].
  rewrite (decide_False (P := n ≤ 0)) by lia.
  rewrite (u32_small (B - n)) by (unfold is_u32; lia). rewrite u32_small by (unfold is_u32; lia).
  eexists. split; [done|]. split; [|split; [|done]].
  2:{ cbn. rewrite <-Ec3. destruct (w_conf s). cbn in *. by subst. }
  exists [], []. rewrite window_0. split; [|done]. split; [done|].
  assert (Hslot : ∀ q, 0 ≤ q ≤ f → slot q = q) by (intros q Hq; apply Z.mod_small; lia). split.
  { cbn. unfold read_at, look_at, free_at, first_at. rewrite decide_True by lia. rewrite !Z.add_0_r, !Z.add_0_l, !Hslot by lia. f_equal; unfold ip0, B in *; lia. }
  do 6 eexists. split; [done|]. split; [|split; [done|]].
  - split; [lia|]. split.
    + intros i. rewrite Ecell. destruct (decide _); [|done].
      destruct (nth_in_or_default (Z.to_nat (i - 0)) (take (Z.to_nat ip0) input) 0) as [Hin| ->]; [|done].
      rewrite Forall_forall in Hinput. apply Hinput. apply list_elem_of_In in Hin. by apply elem_of_take in Hin as (? & ?%list_elem_of_lookup_2 & _).
    + unfold read_at. intros q Hq Hd. split; [|lia]. rewrite Hslot, Ecell, decide_True by lia.
      rewrite Z.sub_0_r. unfold byte_at.
      destruct (lookup_lt_is_Some_2 input (Z.to_nat q)) as [x Hx]; [unfold L in *; lia|].
      rewrite (nth_lookup_Some input _ 0 x) by done. apply nth_lookup_Some. rewrite lookup_take_lt by lia. done.
  - split; [intros k Hk'; by rewrite Hll|]. split; [intros q k; by rewrite elem_of_nil|].
    split; [intros k Hk'; by rewrite Hh|intros q k; by rewrite elem_of_nil].
Qed.

Lemma swd_init_memory heap m_off :
  (∀ k, (k < 6)%nat → is_Some (heap k)) →
  ∃ s, swd_init input heap n f 0 m_off [] = Ret (UCL_E_OK, s) ∧ window_at 0 s.
Proof.
  intros Hheap. unfold swd_init. pose proof B_big as HB.
  rewrite !(decide_False (P := _ = 0)) by lia. rewrite decide_False by lia.
  unfold init_tables, new_array, byte_array.
  destruct (Hheap 0%nat ltac:(lia)) as [g0 ->], (Hheap 1%nat ltac:(lia)) as [g1 ->], (Hheap 2%nat ltac:(lia)) as [g2 ->],
    (Hheap 3%nat ltac:(lia)) as [g3 ->], (Hheap 4%nat ltac:(lia)) as [g4 ->], (Hheap 5%nat ltac:(lia)) as [g5 ->].
  cbn [mbind option_bind w_head2]. rewrite bool_decide_false by done.
  rewrite decide_False by (unfold SWD_UINT_MAX, UCL_UINT_MAX, B in *; lia).
  cbn [mem_fill of_option mbind outcome_bind w_llen3 w_b w_head3 w_succ3 w_best3].
  edestruct init_cursor_run as (s' & E & Hw & _);
    [..|rewrite E; cbn [mbind outcome_bind]; exists s'; split; [done|exact Hw]]; try done.
  intros i. apply Z.mod_pos_bound. lia.
Qed.

Lemma swd_init_no_memory heap m_off k :
  (k < 6)%nat → heap k = None → ∃ s, swd_init input heap n f 0 m_off [] = Ret (UCL_E_OUT_OF_MEMORY, s).
Proof.
  intros Hk Hnone. unfold swd_init. rewrite !(decide_False (P := _ = 0)) by lia. rewrite decide_False by lia.
  assert (Ht : w_head2 (init_tables heap n f) = None).
  { unfold init_tables, new_array, byte_array. cbn [w_head2].
    destruct (heap 0%nat) eqn:H0, (heap 1%nat) eqn:H1, (heap 2%nat) eqn:H2,
      (heap 3%nat) eqn:H3, (heap 4%nat) eqn:H4, (heap 5%nat) eqn:H5; try done.
    exfalso. do 6 (destruct k as [|k]; [congruence|]). lia. }
  rewrite bool_decide_true by done. by eexists.
Qed.
End window.
