(* ===== verification/UclCompress.v ===== *)
(** * The compressor of the packer (packers/exepak-1.5/ucl-1.02/src/n2_99.ch, ucl_mchw.ch)

    [ucl_nrv_99_compress] as a whole: the search of UclSwd, the choice between
    literals, matches and later (lazy) matches, and the encoder of UclEncode.
    The assertions of the search and of the loop are
    checked, as in a build with [UCL_DEBUG]. *)

From S2P Require Import Prelude UclBits UclDecode UclEncode UclSwd.

(** ** The matching half of [UCL_COMPRESS_T] *)

(** [bp] is [c->bp - c->in], [c->ip] is in the window, [log] the calls of the
    progress callback: text size, code size, state. *)
Record matcher : Type := mk_matcher {
  t_init : Z; t_look : Z; t_m_len : Z; t_m_off : Z; t_bp : Z;
  t_textsize : Z; t_codesize : Z; t_printcount : Z; t_lazy : Z;
  t_swd : ucl_swd_t; t_log : list (Z * Z * Z)
}.
Definition set_swd (s : ucl_swd_t) (m : matcher) : matcher :=
  mk_matcher (t_init m) (t_look m) (t_m_len m) (t_m_off m) (t_bp m) (t_textsize m) (t_codesize m)
    (t_printcount m) (t_lazy m) s (t_log m).
Definition set_codesize (x : Z) (m : matcher) : matcher :=
  mk_matcher (t_init m) (t_look m) (t_m_len m) (t_m_off m) (t_bp m) (t_textsize m) x
    (t_printcount m) (t_lazy m) (t_swd m) (t_log m).
Definition count_lazy (m : matcher) : matcher :=
  mk_matcher (t_init m) (t_look m) (t_m_len m) (t_m_off m) (t_bp m) (t_textsize m) (t_codesize m)
    (t_printcount m) (t_lazy m + 1) (t_swd m) (t_log m).
Definition chain_limit (x : Z) (m : matcher) : matcher := set_swd (set_max_chain x (t_swd m)) m.
Definition report (cb : bool) (state : Z) (m : matcher) : matcher :=
  if cb then
    mk_matcher (t_init m) (t_look m) (t_m_len m) (t_m_off m) (t_bp m) (t_textsize m) (t_codesize m)
      (t_printcount m) (t_lazy m) (t_swd m) (t_log m ++ [(t_textsize m, t_codesize m, state)])
  else m.

(** ** Configuration *)

(** [struct swd_config_t], and the table of the levels *)
Record swd_config_t : Type := mk_config {
  try_lazy : Z; good_length : Z; max_lazy : Z; nice_length : Z; max_chain : Z; flags : Z; max_offset : Z
}.
Definition swd_config : list swd_config_t := [
  mk_config 0 0 0 8 4 0 (48 * 1024);
  mk_config 0 0 0 16 8 0 (48 * 1024);
  mk_config 0 0 0 32 16 0 (48 * 1024);
  mk_config 1 4 4 16 16 0 (48 * 1024);
  mk_config 1 8 16 32 32 0 (48 * 1024);
  mk_config 1 8 16 128 128 0 (48 * 1024);
  mk_config 2 8 32 128 256 0 (128 * 1024);
  mk_config 2 32 128 SWD_F 2048 1 (128 * 1024);
  mk_config 2 32 128 SWD_F 2048 1 (256 * 1024);
  mk_config 2 SWD_F SWD_F SWD_F 4096 1 SWD_N
].

(** [struct ucl_compress_config_t], the fields that are read *)
Record ucl_compress_config : Type := mk_ucl_config {
  conf_bb_endian : Z; conf_bb_size : Z; conf_max_offset : Z; conf_max_match : Z
}.
(** [memset(&c->conf, 0xff, sizeof(c->conf))] *)
Definition default_config : ucl_compress_config := mk_ucl_config (-1) (-1) UCL_UINT_MAX UCL_UINT_MAX.

(** [static int bbConfig(c, endian, bitsize)], both arguments *)
Definition bbConfig_endian (endian bitsize : Z) (w : bit_writer) : option bit_writer :=
  if decide (endian ≠ -1 ∧ endian ≠ 0) then None
  else if decide (bitsize ≠ -1) then bbConfig bitsize
  else Some (mk_bit_writer 0 0 (bb_c_s8 w) None []).

Section compress.
  Context (f : nrv) (cb : bool) (input : list Z).

Let in_len : Z := Z.of_nat (length input).

(** ** Finding a match *)

(** [static int find_match(c, s, this_len, skip)], which returns [UCL_E_OK] *)
Definition find_match (this_len skip : Z) (m : matcher) : outcome matcher :=
  assert (bool_decide (t_init m ≠ 0));;
  '(s, textsize) ←
    (if decide (0 < skip) then
       assert (bool_decide (skip ≤ this_len));;
       s ← swd_accept input (this_len - skip) (t_swd m);
       Ret (s, u32 (t_textsize m + (this_len - skip + 1)))
     else
       assert (bool_decide (this_len ≤ 1));;
       Ret (t_swd m, u32 (t_textsize m + (this_len - skip))));
  s ← swd_findbest (set_m_len SWD_THRESHOLD s);
  let m_len := w_m_len (w_found s) in
  let m_off := w_m_off (w_found s) in
  s ← swd_getbyte input s;
  let ended := bool_decide (w_b_char (w_found s) < 0) in
  let look := if ended then 0 else u32 (look_of s + 1) in
  let m_len := if ended then 0 else m_len in
  let s := if ended then swd_exit s else s in
  let m := mk_matcher (t_init m) look m_len m_off (w_c_ip (w_cursor s) - look) textsize (t_codesize m)
             (t_printcount m) (t_lazy m) s (t_log m) in
  Ret (if cb && bool_decide (t_printcount m < t_textsize m) then
         let m := report cb 3 m in
         mk_matcher (t_init m) (t_look m) (t_m_len m) (t_m_off m) (t_bp m) (t_textsize m) (t_codesize m)
           (u32 (t_printcount m + 1024)) (t_lazy m) (t_swd m) (t_log m)
       else m).

(** [static int init_match(c, s, dict, dict_len, flags)]: [swd] holds [n] and
    [f], and on the stack whatever [m_off] is. *)
Definition init_match (heap : nat → option (Z → Z)) (n sf m_off : Z) (dict : list Z) (fl : Z)
    : outcome (Z * matcher) :=
  '(r, s) ← swd_init input heap n sf 0 m_off dict;
  let start s := mk_matcher 1 0 0 0 0 0 0 0 0 s [] in
  if decide (r ≠ UCL_E_OK) then Ret (r, start (swd_exit s))
  else
    let c := w_conf s in
    Ret (UCL_E_OK, start (mk_swd (mk_swd_conf (w_n c) (w_f c) (w_max_chain c) (w_nice_length c)
           (negb (bool_decide (Z.land fl 1 = 0))) (w_b_size c) (w_dict c)) (w_cursor s) (w_found s) (w_tables s))).

(** ** What a match costs *)

(** [while (x > 0) { b += step; x >>= shift; }] *)
Fixpoint add_steps (fuel : nat) (step shift x b : Z) : outcome Z :=
  if decide (0 < x) then
    match fuel with O => Err OutOfFuel | S n => add_steps n step shift (Z.shiftr x shift) (b + step) end
  else Ret b.

(** [do { b += 2; m_len >>= 1; } while (m_len > 0); return b;] *)
Definition add_length (m_len b : Z) : outcome Z := add_steps 32 2 1 (Z.shiftr m_len 1) (b + 2).

(** [static int len_of_coded_match(c, m_len, m_off)]: the bits, or -1 *)
Definition len_of_coded_match (c : UCL_COMPRESS_T) (m_len m_off : Z) : outcome Z :=
  if decide (m_len < 2 ∨ (m_len = 2 ∧ M2_MAX_OFFSET f < m_off) ∨ c_max_offset c < m_off) then Ret (-1)
  else
    assert (bool_decide (0 < m_off));;
    let m_len := u32 (m_len - 2 - Z.b2z (bool_decide (M2_MAX_OFFSET f < m_off))) in
    b ← (if decide (m_off = c_last_m_off c) then Ret (1 + 2)
         else match f with
              | NRV2B => add_steps 32 2 1 (Z.shiftr (m_off - 1) 8) (1 + 10)
              | NRV2D | NRV2E => add_steps 32 3 2 (Z.shiftr (m_off - 1) 7) (1 + 9)
              end);
    let b := b + 2 in
    match f with
    | NRV2B | NRV2D => if decide (m_len < 3) then Ret b else add_length (m_len - 3) b
    | NRV2E =>
        if decide (m_len < 2) then Ret b
        else if decide (m_len < 4) then Ret (b + 1)
        else add_length (m_len - 4) b
    end.

(** [ucl_memcmp(c->in + p, c->in + q, len) == 0] *)
Definition slice (p len : Z) : list Z := take (Z.to_nat len) (drop (Z.to_nat p) input).
Definition same_slice (p q len : Z) : bool :=
  bool_decide (p + len ≤ in_len ∧ q + len ≤ in_len ∧ 0 ≤ p ∧ 0 ≤ q ∧ slice p len = slice q len).

(** [static void assert_match(swd, m_len, m_off)] *)
Definition assert_match (m : matcher) (m_len m_off : Z) : outcome unit :=
  assert (bool_decide (2 ≤ m_len));;
  let dict := w_dict (w_conf (t_swd m)) in
  let c_ip := w_c_ip (w_cursor (t_swd m)) in
  if decide (m_off ≤ t_bp m) then
    assert (bool_decide (t_bp m - m_off + m_len < c_ip));;
    assert (same_slice (t_bp m) (t_bp m - m_off) m_len)
  else
    assert (bool_decide (dict ≠ []));;
    let d_off := m_off - t_bp m in
    let dict_len := Z.of_nat (length dict) in
    assert (bool_decide (d_off ≤ dict_len));;
    let tail len := take (Z.to_nat len) (drop (Z.to_nat (dict_len - d_off)) dict) in
    if decide (d_off < m_len) then
      assert (bool_decide (slice (t_bp m) d_off = tail d_off));;
      assert (bool_decide (m_len - d_off < c_ip));;
      assert (same_slice (t_bp m + d_off) 0 (m_len - d_off))
    else assert (bool_decide (slice (t_bp m) m_len = tail m_len)).

(** ** The main loop *)

(** [lit] bytes at [ii], for [code_run] *)
Definition run_at (ii lit : Z) : outcome (list Z) :=
  if decide (0 ≤ ii ∧ ii + lit ≤ in_len) then Ret (slice ii lit) else Err OutOfBounds.

(** [while (ahead < max_ahead && c->look > m_len) { ... }]: whether a later
    match is better, and how far ahead the search is. *)
Fixpoint lazy_loop (fuel : nat) (sc : swd_config_t) (c : UCL_COMPRESS_T) (here m_len l1 max_ahead ahead : Z)
    (m : matcher) : outcome (bool * Z * matcher) :=
  if decide (ahead < max_ahead ∧ m_len < t_look m) then
    match fuel with
    | O => Err OutOfFuel
    | S n =>
        let limit := if decide (good_length sc ≤ m_len) then Z.shiftr (max_chain sc) 2 else max_chain sc in
        m ← find_match 1 0 (chain_limit limit m);
        let ahead := ahead + 1 in
        assert (bool_decide (0 < t_look m));;
        assert (bool_decide (here + ahead = t_bp m));;
        let next := lazy_loop n sc c here m_len l1 max_ahead ahead m in
        if decide (t_m_len m < 2) then next
        else
          l2 ← len_of_coded_match c (t_m_len m) (t_m_off m);
          if decide (l2 < 0) then next
          else if decide (l2 + s32 ahead * 9 < l1 + s32 (u32 (ahead + t_m_len m - m_len)) * 5) then
            let m := count_lazy m in
            assert_match m (t_m_len m) (t_m_off m);;
            Ret (true, ahead, m)
          else next
    end
  else Ret (false, ahead, m).

(** A match of [m_len] bytes, [m_off] back, after [lit] literals at [ii]. *)
Definition take_match (sc : swd_config_t) (ii lit m_len m_off : Z) (m : matcher) (c : UCL_COMPRESS_T)
    : outcome (matcher * UCL_COMPRESS_T * Z) :=
  assert_match m m_len m_off;;
  '(l1, max_ahead) ←
    (if decide (try_lazy sc ≤ 0 ∨ max_lazy sc ≤ m_len ∨ m_off = c_last_m_off c) then Ret (0, 0)
     else
       l1 ← len_of_coded_match c m_len m_off;
       assert (bool_decide (0 < l1));;
       Ret (l1, Z.min (try_lazy sc) (m_len - 1)));
  '(better, ahead, m) ← lazy_loop (Z.to_nat max_ahead) sc c (ii + lit) m_len l1 max_ahead 0 m;
  if (better : bool) then
    assert (bool_decide (ii + lit + ahead = t_bp m));;
    Ret (m, c, lit + ahead)
  else
    assert (bool_decide (ii + lit + ahead = t_bp m));;
    run ← run_at ii lit;
    c ← code_run run c;
    c ← code_match (S (Z.to_nat m_len)) f m_len m_off c;
    m ← find_match m_len (1 + ahead) (chain_limit (max_chain sc) m);
    Ret (m, c, 0).

(** [while (c->look > 0) { ... }] *)
Fixpoint main_loop (fuel : nat) (sc : swd_config_t) (ii lit : Z) (m : matcher) (c : UCL_COMPRESS_T)
    : outcome (matcher * UCL_COMPRESS_T * Z * Z) :=
  if decide (0 < t_look m) then
    match fuel with
    | O => Err OutOfFuel
    | S n =>
        let m := set_codesize (Z.of_nat (length (bb_out (c_bits c)))) m in
        let m_len := t_m_len m in
        let m_off := t_m_off m in
        assert (bool_decide (t_bp m = w_c_ip (w_cursor (t_swd m)) - t_look m));;
        assert (bool_decide (0 ≤ t_bp m));;
        let ii := if decide (lit = 0) then t_bp m else ii in
        assert (bool_decide (ii + lit = t_bp m));;
        assert (bool_decide (input !! Z.to_nat (t_bp m) = Some (w_b_char (w_found (t_swd m)))));;
        if decide (m_len < 2 ∨ (m_len = 2 ∧ M2_MAX_OFFSET f < m_off) ∨ c_max_offset c < m_off) then
          m ← find_match 1 0 (chain_limit (max_chain sc) m);
          main_loop n sc ii (lit + 1) m c
        else
          '(m, c, lit) ← take_match sc ii lit m_len m_off m c;
          main_loop n sc ii lit m c
    end
  else Ret (m, c, ii, lit).

(** The final run, the end mark and the last assertions. *)
Definition finish_stream (ii lit : Z) (m : matcher) (c : UCL_COMPRESS_T) : outcome (list Z * matcher) :=
  run ← run_at (if decide (lit = 0) then 0 else ii) lit;
  c ← code_run run c;
  c ← code_eof f c;
  assert (bool_decide (t_textsize m = in_len));;
  let out := bb_out (c_bits c) in
  let m := report cb 4 (set_codesize (Z.of_nat (length out)) m) in
  assert (bool_decide (c_lit_bytes c + c_match_bytes c = in_len));;
  Ret (out, set_swd (swd_exit (t_swd m)) m).

(** [s->n] and [s->f] *)
Definition window_size (sc : swd_config_t) (conf : ucl_compress_config) : Z :=
  let n := Z.min SWD_N (max_offset sc) in
  let n := if decide (conf_max_offset conf ≠ UCL_UINT_MAX) then Z.min SWD_N (conf_max_offset conf) else n in
  if decide (in_len < n) then Z.max in_len 256 else n.
Definition match_limit (conf : ucl_compress_config) : Z := Z.min SWD_F (conf_max_match conf).

(** [s->max_chain] and [s->nice_length] after [init_match] *)
Definition tune (sc : swd_config_t) (conf : ucl_compress_config) (s : ucl_swd_t) : ucl_swd_t :=
  let c := w_conf s in
  let chain := if decide (0 < max_chain sc) then max_chain sc else w_max_chain c in
  let nice := if decide (0 < nice_length sc) then nice_length sc else w_nice_length c in
  let nice := if decide (conf_max_match conf < nice) then conf_max_match conf else nice in
  mk_swd (mk_swd_conf (w_n c) (w_f c) chain nice (w_use_best_off c) (w_b_size c) (w_dict c))
    (w_cursor s) (w_found s) (w_tables s).

(** [int ucl_nrv_99_compress(in, in_len, out, out_len, cb, level, conf, result)]:
    the code returned, and what [out] holds, with [out_len] its length.  The
    output buffer is taken to be large enough. *)
Definition ucl_nrv_99_compress (heap : nat → option (Z → Z)) (stack : Z) (level : Z)
    (conf : option ucl_compress_config) : outcome (Z * list Z) :=
  match (if decide (level < 1 ∨ 10 < level) then None else swd_config !! Z.to_nat (level - 1)) with
  | None => Ret (UCL_E_INVALID_ARGUMENT, [])
  | Some sc =>
      let conf := default default_config conf in
      match (w ← bbConfig 8; bbConfig_endian (conf_bb_endian conf) (conf_bb_size conf) w) with
      | None => Ret (UCL_E_INVALID_ARGUMENT, [])
      | Some w =>
          let sf := match_limit conf in
          let n := window_size sc conf in
          if decide (sf < 8 ∨ n < 256) then Ret (UCL_E_INVALID_ARGUMENT, [])
          else
            '(r, m) ← init_match heap n sf stack [] (flags sc);
            if decide (r ≠ UCL_E_OK) then Ret (r, [])
            else
              let m := report cb (-1) (set_swd (tune sc conf (t_swd m)) m) in
              let c := mk_compress w 1 0 0 (0, 0, 0) (conf_max_match conf) (conf_max_offset conf) in
              m ← find_match 0 0 m;
              '(m, c, ii, lit) ← main_loop (length input) sc 0 0 m c;
              '(out, m) ← finish_stream ii lit m c;
              Ret (UCL_E_OK, out)
      end
  end.

End compress.
