(* ===== verification/UclCorrect.v ===== *)
(** * The compressor does what it promises (n2_99.ch, ucl_mchw.ch, ucl_swd.ch)

    On every input, at every level and in every configuration it accepts,
    [ucl_nrv_99_compress] ends, stays inside its arrays, fails no assertion and
    writes a stream the decompressors turn back into the input. *)

From S2P Require Import Prelude UclBits UclDecode UclEncode UclRoundtrip UclSwd UclWindow UclCompress.

(** ** Parts of the input *)

Section text.
  Context (input : list Z).

Let L : Z := Z.of_nat (length input).

Lemma nth_byte q x : input !! Z.to_nat q = Some x → byte_at input q = x.
Proof. apply nth_lookup_Some. Qed.

Lemma byte_lookup q : 0 ≤ q < L → input !! Z.to_nat q = Some (byte_at input q).
Proof.
  intros Hq. destruct (lookup_lt_is_Some_2 input (Z.to_nat q)) as [x Hx]; [unfold L in *; lia|].
  by rewrite (nth_byte q x).
Qed.

Lemma slice_S p k : 0 ≤ p → p < L → slice input p (Z.of_nat (S k)) = byte_at input p :: slice input (p + 1) (Z.of_nat k).
Proof.
  intros Hp HL. unfold slice at 1. rewrite !Nat2Z.id. rewrite (drop_S input (byte_at input p)) by (apply byte_lookup; lia).
  unfold slice. rewrite Nat2Z.id. replace (Z.to_nat (p + 1)) with (S (Z.to_nat p)) by lia. done.
Qed.

Lemma slice_length p len : 0 ≤ p → 0 ≤ len → p + len ≤ L → Z.of_nat (length (slice input p len)) = len.
Proof. intros. unfold slice. rewrite length_take, length_drop. unfold L in *. lia. Qed.

(** Equal bytes make equal slices. *)
Lemma slice_same p q k :
  0 ≤ p → 0 ≤ q → p + Z.of_nat k ≤ L → q + Z.of_nat k ≤ L →
  (∀ i, 0 ≤ i < Z.of_nat k → byte_at input (p + i) = byte_at input (q + i)) →
  slice input p (Z.of_nat k) = slice input q (Z.of_nat k).
Proof.
  revert p q. induction k as [|k IH]; intros p q Hp Hq HpL HqL Heq; [done|].
  rewrite !slice_S by lia. f_equal; [specialize (Heq 0); rewrite !Z.add_0_r in Heq; apply Heq; lia|].
  apply IH; [lia..|]. intros i Hi. rewrite <-!Z.add_assoc. apply Heq. lia.
Qed.

Lemma prefix_slice p len : 0 ≤ p → 0 ≤ len →
  take (Z.to_nat (p + len)) input = take (Z.to_nat p) input ++ slice input p len.
Proof. intros Hp Hl. unfold slice. rewrite Z2Nat.inj_add by lia. by rewrite take_take_drop. Qed.

(** Repeating what is already there continues the input. *)
Lemma lz_copy_prefix k p off :
  1 ≤ off ≤ p → p + Z.of_nat k ≤ L →
  (∀ i, 0 ≤ i < Z.of_nat k → byte_at input (p + i) = byte_at input (p - off + i)) →
  lz_copy k off (take (Z.to_nat p) input) = take (Z.to_nat (p + Z.of_nat k)) input.
Proof.
  revert p. induction k as [|k IH]; intros p Hoff HL Heq; cbn [lz_copy]; [by rewrite Z.add_0_r|].
  rewrite length_take_le by (unfold L in *; lia).
  assert (E : nth (Z.to_nat p - Z.to_nat off) (take (Z.to_nat p) input) 0 = byte_at input p).
  { specialize (Heq 0). rewrite !Z.add_0_r in Heq. rewrite Heq by lia. rewrite <-Z2Nat.inj_sub by lia.
    apply nth_lookup_Some. rewrite lookup_take_lt by lia. apply byte_lookup. lia. }
  rewrite E. replace (take (Z.to_nat p) input ++ [byte_at input p]) with (take (Z.to_nat (p + 1)) input).
  2:{ rewrite (Z2Nat.inj_add p 1), Nat.add_1_r by lia. apply take_S_r. apply byte_lookup. lia. }
  rewrite IH; [f_equal; lia|lia|lia|].
  intros i Hi. replace (p + 1 + i) with (p + (1 + i)) by lia. rewrite Heq by lia. f_equal. lia.
Qed.
End text.

(** ** Matches *)

Section matches.
  Context (f : nrv) (cb : bool) (input : list Z) (n sf : Z).
  Context (Hinput : Forall is_byte input).
  Context (Hlen : Z.of_nat (length input) < 2 ^ 32).
  Context (Hn : 256 ≤ n ≤ SWD_N) (Hsf : 8 ≤ sf ≤ SWD_F).

Let L : Z := Z.of_nat (length input).
Let look (p : Z) : Z := look_at input sf p.

(** What [find_match] leaves when the search has come to [P]: the window is
    one byte further, and [m_len], [m_off] are a repetition at [P] or none. *)
Definition match_for (P m_len m_off : Z) : Prop :=
  m_len = 1 ∨ 2 ≤ m_len ≤ look P ∧ m_off ≤ n ∧ repeats input P m_off m_len.
Definition found_at (P : Z) (m : matcher) : Prop :=
  t_init m = 1 ∧ t_textsize m = P ∧ t_bp m = P ∧ 0 ≤ P ≤ L ∧
  (P = L → t_look m = 0) ∧
  (P < L → t_look m = look (P + 1) + 1 ∧ window_at input n sf (P + 1) (t_swd m) ∧
    w_b_char (w_found (t_swd m)) = byte_at input P ∧ match_for P (t_m_len m) (t_m_off m)).

Lemma window_ip p s : window_at input n sf p s → 0 ≤ p ≤ L →
  w_c_ip (w_cursor s) = p + look p ∧ w_dict (w_conf s) = [].
Proof.
  intros (W & V & ((_ & _ & _ & Hd) & Hk & _) & _) Hp. rewrite Hk. split; [|done]. cbn.
  by apply (look_read input n sf).
Qed.

Lemma find_match_run this_len skip Q m :
  let k := if decide (0 < skip) then this_len - skip else 0 in
  t_init m = 1 → 0 ≤ Q → window_at input n sf Q (t_swd m) → 0 ≤ k ≤ look Q → Q + k ≤ L →
  (skip ≤ 0 → this_len ≤ 1) →
  t_textsize m + (if decide (0 < skip) then this_len - skip + 1 else this_len - skip) = Q + k →
  ∃ m', find_match cb input this_len skip m = Ret m' ∧ found_at (Q + k) m'.
Proof.
  intros k Hinit HQ Hw Hk HkL Hone Htext. unfold find_match. rewrite Hinit. mem_steps.
  assert (Hacc : ∃ s, (if decide (0 < skip) then
       assert (bool_decide (skip ≤ this_len));;
       s ← swd_accept input (this_len - skip) (t_swd m);
       Ret (s, u32 (t_textsize m + (this_len - skip + 1)))
     else
       assert (bool_decide (this_len ≤ 1));; Ret (t_swd m, u32 (t_textsize m + (this_len - skip)))) = Ret (s, Q + k) ∧
    window_at input n sf (Q + k) s).
  { unfold k in *. destruct (decide (0 < skip)) as [Hs|Hs]; rewrite Htext, u32_small by (unfold is_u32, L in *; lia).
    - rewrite assert_run by (apply bool_decide_eq_true; lia). cbn [mbind outcome_bind].
      destruct (swd_accept_run input n sf Hinput Hlen Hn Hsf (this_len - skip) Q (t_swd m)) as (s & E & Hw' & _);
        [done|done|done|done|]. rewrite E. by exists s.
    - rewrite assert_run by (apply bool_decide_eq_true; lia). exists (t_swd m). by rewrite Z.add_0_r. }
  destruct Hacc as (s & E & Hw1). rewrite E. cbn [mbind outcome_bind]. clear E Hw Htext Hone.
  revert Hw1 HkL. assert (HP : 0 ≤ Q + k) by lia. revert HP. generalize (Q + k). clear Hk HQ k Q. intros P HP Hw HL.
  destruct (swd_findbest_run input n sf Hinput Hlen Hn Hsf P (set_m_len SWD_THRESHOLD s)) as
    (W & V & s1 & E1 & Hs1 & HW & HV & _ & Hbest); [done|exact Hw|done|].
  rewrite E1. cbn [mbind outcome_bind].
  destruct (getbyte_run input n sf Hinput Hn Hsf P _ W V s1 ltac:(done) Hs1) as (s2 & E2 & Hs2 & Hf2 & _).
  rewrite E2. cbn [mbind outcome_bind]. rewrite Hf2. destruct Hbest as [Hchar Hmatch]. rewrite Hchar.
  assert (Hpos : bool_decide ((if decide (P < L) then byte_at input P else -1) < 0) = bool_decide (P = L)).
  { apply bool_decide_ext. pose proof (text_byte input Hinput P) as Hb. unfold is_byte in Hb. destruct (decide (P < L)); lia. }
  fold L. rewrite Hpos. clear Hpos. assert (Hlook2 : look_of s2 = look (P + 1)).
  { destruct Hs2 as (_ & Hk2 & _). unfold look_of. by rewrite Hk2. }
  rewrite Hlook2. assert (Hip : w_c_ip (w_cursor s2) = read_at input sf (P + 1)).
  { destruct Hs2 as (_ & -> & _). done. }
  set (m1 := mk_matcher _ _ _ _ _ _ _ _ _ _ _).
  assert (Hm1 : found_at P m1).
  { unfold m1, found_at. cbn. split; [done|]. split; [done|]. case_bool_decide as HPL.
    - cbn. rewrite Hip. split; [unfold read_at; fold L; lia|]. split; [lia|]. split; [done|lia].
    - unfold look in *. fold L in Hlen. assert (HP1 : 0 ≤ P + 1 ≤ L) by lia. rewrite Hip, (look_read input n sf Hsf (P + 1)) by (unfold L in *; lia).
      assert (Hl : 0 ≤ look_at input sf (P + 1) ≤ sf) by (unfold look_at; lia).
      rewrite u32_small by (unfold is_u32, SWD_F in *; lia). split; [lia|]. split; [lia|]. split; [lia|]. intros _.
      split; [done|]. split; [by exists W, V|]. split; [by rewrite Hf2, Hchar, decide_True by lia|].
      exact Hmatch. }
  clearbody m1. eexists. split; [done|]. destruct cb; [cbn [andb]; case_bool_decide|]; exact Hm1.
Qed.

(** The asserted repetitions hold. *)
Lemma assert_match_run P m m_len m_off :
  found_at P m → P < L → 2 ≤ m_len ≤ look P → repeats input P m_off m_len → assert_match input m m_len m_off = Ret tt.
Proof.
  intros (_ & _ & Hbp & HP & _ & Hm) HPL Hl [Hoff Hrep]. destruct (Hm HPL) as (_ & Hw & _).
  destruct (window_ip _ _ Hw) as [Hip _]; [lia|]. unfold assert_match. rewrite Hbp, Hip.
  assert (Hlook : 0 ≤ look P ≤ L - P) by (unfold look, look_at, L in *; lia).
  assert (Hlook1 : look P - 1 ≤ look (P + 1)) by (unfold look, look_at; lia).
  rewrite (decide_True (P := m_off ≤ P)) by lia.
  assert (E : same_slice input P (P - m_off) m_len = true); [|by rewrite E; mem_steps].
  apply bool_decide_eq_true. fold L. split_and!; try lia.
  rewrite <-(Z2Nat.id m_len) by lia. apply (slice_same input); [lia..|]. intros i Hi. apply Hrep. lia.
Qed.

(** *** Costs *)

Lemma shiftr_small x k m : 0 ≤ k → 0 ≤ x < m → 0 ≤ Z.shiftr x k < m.
Proof.
  intros Hk Hx. rewrite Z.shiftr_div_pow2 by done. assert (0 < 2 ^ k) by (apply Z.pow_pos_nonneg; lia).
  split; [apply Z.div_pos; lia|]. pose proof (Z.div_le_upper_bound x (2 ^ k) x). nia.
Qed.

Lemma add_steps_run fuel step shift x b :
  0 < shift → 0 ≤ step → 0 ≤ x < 2 ^ Z.of_nat fuel → ∃ r, add_steps fuel step shift x b = Ret r ∧ b ≤ r.
Proof.
  intros Hshift Hstep. revert x b. induction fuel as [|fuel IH]; intros x b Hx; cbn [add_steps].
  - rewrite decide_False by (simpl in Hx; lia). by exists b.
  - destruct (decide (0 < x)) as [Hpos|]; [|by exists b].
    destruct (IH (Z.shiftr x shift) (b + step)) as (r & E & Hr); [|exists r; split; [done|lia]].
    rewrite Z.shiftr_div_pow2 by lia. assert (2 ^ 1 ≤ 2 ^ shift) by (apply Z.pow_le_mono_r; lia).
    rewrite Nat2Z.inj_succ, Z.pow_succ_r in Hx by lia. split; [apply Z.div_pos; lia|].
    apply Z.div_lt_upper_bound; nia.
Qed.

Lemma len_of_coded_match_run c m_len m_off :
  m_len < 2 ^ 31 → 1 ≤ m_off ≤ SWD_N →
  ∃ l, len_of_coded_match f c m_len m_off = Ret l ∧
    (2 + Z.b2z (bool_decide (M2_MAX_OFFSET f < m_off)) ≤ m_len → m_off ≤ c_max_offset c → 0 < l).
Proof.
  intros Hl Hoff. unfold len_of_coded_match. destruct (decide _) as [Hbad|Hgood].
  { exists (-1). split; [done|]. intros Hml Hmo. exfalso.
    destruct Hbad as [?|[[? ?]|?]]; [|rewrite bool_decide_true in Hml by done; simpl in Hml|]; try lia.
    pose proof (b2z_range (bool_decide (M2_MAX_OFFSET f < m_off))). lia. }
  mem_steps. set (far := Z.b2z _). assert (Hfar : 2 + far ≤ m_len).
  { unfold far. case_bool_decide; simpl; [|lia]. destruct (decide (m_len = 2)); [tauto|lia]. }
  assert (Hfar0 : 0 ≤ far) by apply b2z_range. rewrite u32_small by (unfold is_u32; lia).
  assert (Hoffs : ∀ step shift k b, 0 < shift → 0 ≤ step → 0 ≤ k →
    ∃ r, add_steps 32 step shift (Z.shiftr (m_off - 1) k) b = Ret r ∧ b ≤ r).
  { intros. apply add_steps_run; [done..|]. apply shiftr_small; unfold SWD_N in *; simpl; lia. }
  assert (Hadd : ∀ x b, 0 ≤ x < 2 ^ 31 → ∃ r, add_length x b = Ret r ∧ b < r).
  { intros x b Hx. destruct (add_steps_run 32 2 1 (Z.shiftr x 1) (b + 2)) as (r & E & Hr);
      [lia|lia|apply shiftr_small; simpl; lia|]. exists r. split; [done|lia]. }
  assert (Hb : ∃ b, (if decide (m_off = c_last_m_off c) then Ret (1 + 2)
         else match f with
              | NRV2B => add_steps 32 2 1 (Z.shiftr (m_off - 1) 8) (1 + 10)
              | NRV2D | NRV2E => add_steps 32 3 2 (Z.shiftr (m_off - 1) 7) (1 + 9)
              end) = Ret b ∧ 0 < b).
  { destruct (decide _); [by exists 3|].
    destruct f; [destruct (Hoffs 2 1 8 11) as (r & E & Hr)|destruct (Hoffs 3 2 7 10) as (r & E & Hr)..];
      try lia; exists r; (split; [exact E|lia]). }
  destruct Hb as (b & -> & Hb). cbn [mbind outcome_bind].
  assert (Hfin : ∀ x, 0 ≤ x < 2 ^ 31 → ∃ l, add_length x (b + 2) = Ret l ∧ 0 < l).
  { intros x Hx. destruct (Hadd x (b + 2) Hx) as (r & E & Hr). exists r. split; [done|lia]. }
  assert (∃ l, match f with
    | NRV2B | NRV2D => if decide (m_len - 2 - far < 3) then Ret (b + 2) else add_length (m_len - 2 - far - 3) (b + 2)
    | NRV2E =>
        if decide (m_len - 2 - far < 2) then Ret (b + 2)
        else if decide (m_len - 2 - far < 4) then Ret (b + 2 + 1)
        else add_length (m_len - 2 - far - 4) (b + 2)
    end = Ret l ∧ 0 < l) as (l & E & Hpos); [|by exists l].
  destruct f; repeat destruct (decide _); try (apply Hfin; lia); eexists; (split; [done|lia]).
Qed.

(** *** Later matches *)

Lemma found_next P m x : found_at P m → P < L →
  ∃ m', find_match cb input 1 0 (chain_limit x m) = Ret m' ∧ found_at (P + 1) m'.
Proof.
  intros (Hi & Ht & _ & HP & _ & Hm) HPL. destruct (Hm HPL) as (_ & Hw & _).
  destruct (find_match_run 1 0 (P + 1) (chain_limit x m)) as (m' & E & Hf).
  - done.
  - lia.
  - exact Hw.
  - rewrite decide_False by lia. unfold look, look_at. lia.
  - rewrite decide_False by lia. lia.
  - lia.
  - rewrite !decide_False by lia. change (t_textsize (chain_limit x m)) with (t_textsize m). lia.
  - exists m'. split; [done|]. by rewrite decide_False, Z.add_0_r in Hf by lia.
Qed.

Lemma match_for_bounds P m_len m_off : match_for P m_len m_off → 2 ≤ m_len →
  m_len ≤ look P ∧ m_len ≤ sf ∧ 1 ≤ m_off ≤ SWD_N ∧ m_off ≤ P ∧ repeats input P m_off m_len.
Proof.
  intros [?|(Hl & Hoff & Hrep)] H2; [lia|]. assert (look P ≤ sf) by (unfold look, look_at; lia).
  pose proof Hrep as [? _]. split_and!; try lia. done.
Qed.

Lemma lazy_loop_run fuel sc c P m_len l1 max_ahead ahead m :
  found_at (P + ahead) m → 0 ≤ ahead ≤ max_ahead → max_ahead - ahead ≤ Z.of_nat fuel → max_ahead ≤ m_len - 1 →
  2 ≤ m_len ≤ look P → 0 ≤ P →
  ∃ better ahead' m', lazy_loop f cb input fuel sc c P m_len l1 max_ahead ahead m = Ret (better, ahead', m') ∧
    found_at (P + ahead') m' ∧ ahead ≤ ahead' ≤ max_ahead ∧ (better = true → 0 < ahead').
Proof.
  revert ahead m. induction fuel as [|fuel IH]; intros ahead m Hm Ha Hf' Hmax Hl HP; cbn [lazy_loop].
  { rewrite decide_False by lia. exists false, ahead, m. split; [done|]. split; [done|]. split; [lia|done]. }
  destruct (decide (ahead < max_ahead ∧ m_len < t_look m)) as [[Hlt Hlk]|].
  2:{ exists false, ahead, m. split; [done|]. split; [done|]. split; [lia|done]. }
  assert (HPL : P + m_len ≤ L) by (unfold look, look_at, L in *; lia).
  assert (Hnext : P + ahead + 1 < L).
  { destruct Hm as (_ & _ & _ & _ & _ & Hm). destruct Hm as (Hlook & _); [lia|].
    unfold look, look_at in Hlook, Hl. unfold L in *. lia. }
  destruct (found_next (P + ahead) m (if decide (good_length sc ≤ m_len) then Z.shiftr (max_chain sc) 2 else max_chain sc) Hm
    ltac:(lia)) as (m1 & E1 & Hm1).
  rewrite E1. cbn [mbind outcome_bind]. rewrite <-Z.add_assoc in Hm1.
  pose proof Hm1 as (_ & _ & Hbp & _ & _ & Hin). destruct (Hin ltac:(lia)) as (Hlk1 & Hw1 & _ & Hmf).
  assert (0 ≤ look (P + (ahead + 1) + 1)) by (unfold look, look_at; lia). rewrite Hlk1, Hbp. mem_steps.
  assert (Hrest : ∃ better ahead' m', lazy_loop f cb input fuel sc c P m_len l1 max_ahead (ahead + 1) m1 = Ret (better, ahead', m') ∧
    found_at (P + ahead') m' ∧ ahead ≤ ahead' ≤ max_ahead ∧ (better = true → 0 < ahead')).
  { destruct (IH (ahead + 1) m1) as (better & ahead' & m' & E & Hf2 & Ha2 & Hb2); try done; try lia.
    exists better, ahead', m'. split; [done|]. split; [done|]. split; [lia|done]. }
  destruct (decide (t_m_len m1 < 2)) as [|H2]; [exact Hrest|].
  destruct (match_for_bounds _ _ _ Hmf ltac:(lia)) as (Hl1 & Hl2 & Ho1 & Ho2 & Hrep).
  destruct (len_of_coded_match_run c (t_m_len m1) (t_m_off m1)) as (l2 & E2 & _); [unfold SWD_F in *; lia|done|].
  rewrite E2. cbn [mbind outcome_bind]. destruct (decide (l2 < 0)); [exact Hrest|].
  destruct (decide (l2 + _ < _)); [|exact Hrest].
  rewrite (assert_match_run (P + (ahead + 1)) (count_lazy m1));
    [|exact Hm1|lia|change (t_m_len (count_lazy m1)) with (t_m_len m1); lia|exact Hrep].
  cbn [mbind outcome_bind]. exists true, (ahead + 1), (count_lazy m1). split; [done|]. split; [exact Hm1|]. lia.
Qed.

(** ** The main loop *)

(** The writer began with [w0]; it has been given [l0], and takes any item. *)
Context (w0 : bit_writer) (Hputs : ∀ l, items_ok l → ∃ w, put_items l w0 = Ret w).

Definition coded (l0 : list item) (c : UCL_COMPRESS_T) : Prop := items_ok l0 ∧ put_items l0 w0 = Ret (c_bits c).

Lemma coded_more l0 l c : coded l0 c → items_ok l →
  ∃ w, put_items l (c_bits c) = Ret w ∧ put_items (l0 ++ l) w0 = Ret w.
Proof.
  intros [H0 E0] Hl. destruct (Hputs (l0 ++ l)) as [w E]; [by apply items_ok_app|]. exists w. split; [|done].
  rewrite put_items_app, E0 in E. done.
Qed.

Lemma slice_bytes p len : bytes_ok (slice input p len).
Proof.
  unfold slice, bytes_ok. apply Forall_take, Forall_drop. exact Hinput.
Qed.

(** A run and its match are coded. *)
Lemma code_piece_run l0 c run m_len m_off :
  coded l0 c → bytes_ok run → m_len ≤ c_max_match c → 1 ≤ m_off ≤ SWD_N →
  2 + Z.b2z (bool_decide (M2_MAX_OFFSET f < m_off)) ≤ m_len < 2 ^ 31 →
  ∃ l1 c1 c2, code_run run c = Ret c1 ∧ code_match (S (Z.to_nat m_len)) f m_len m_off c1 = Ret c2 ∧
    coded l1 c2 ∧ same_limits c c2 ∧ coded_bytes c2 = coded_bytes c + Z.of_nat (length run) + m_len.
Proof.
  intros Hc Hrun Hmax Hoff Hlen'. pose proof (run_items_ok run Hrun) as Hok1.
  destruct (coded_more l0 (run_items run) c Hc Hok1) as (w1 & Ew1 & Ec1). pose proof Hc as [Hl0 _].
  destruct (code_run_emit run c w1 Hrun Ew1) as (c1 & E1 & Hb1 & [Hm1 Ho1] & Hl1 & Hn1).
  set (l := Bit false :: match_items f (c_last_m_off c1) m_len m_off).
  assert (Hl : items_ok l) by (constructor; [done|]; apply match_items_ok; lia).
  destruct (coded_more (l0 ++ run_items run) l c1) as (w2 & Ew2 & Ec2); [split; [by apply items_ok_app|by rewrite Hb1]|done|].
  destruct (code_match_emit (Z.to_nat m_len) f m_len m_off c1 w2) as (c2 & E2 & Hb2 & [Hm2 Ho2] & Hl2 & Hn2);
    [by rewrite Hm1|done|done|exact Ew2|].
  exists ((l0 ++ run_items run) ++ l), c1, c2. split; [done|]. split; [done|].
  split; [|split; [split; congruence|lia]]. split; [by rewrite !items_ok_app|by rewrite Hb2].
Qed.

Lemma take_match_run sc ii lit P m c l0 :
  found_at P m → P < L → 0 ≤ lit ≤ P → ii + lit = P → coded l0 c → sf ≤ c_max_match c →
  ¬ (t_m_len m < 2 ∨ (t_m_len m = 2 ∧ M2_MAX_OFFSET f < t_m_off m) ∨ c_max_offset c < t_m_off m) →
  (∃ m' ahead, take_match f cb input sc ii lit (t_m_len m) (t_m_off m) m c = Ret (m', c, lit + ahead) ∧
     found_at (P + ahead) m' ∧ 0 < ahead) ∨
  (∃ m' c1 c2 l1, take_match f cb input sc ii lit (t_m_len m) (t_m_off m) m c = Ret (m', c2, 0) ∧
     found_at (P + t_m_len m) m' ∧ 2 ≤ t_m_len m ∧
     code_run (slice input ii lit) c = Ret c1 ∧ code_match (S (Z.to_nat (t_m_len m))) f (t_m_len m) (t_m_off m) c1 = Ret c2 ∧
     coded l1 c2 ∧ same_limits c c2 ∧ coded_bytes c2 = coded_bytes c + lit + t_m_len m).
Proof.
  intros Hm HPL Hlit Hii Hc Hmax Hgood. pose proof Hm as (_ & _ & _ & _ & _ & Hin).
  destruct (Hin HPL) as (_ & _ & _ & Hmf). set (m_len := t_m_len m) in *. set (m_off := t_m_off m) in *.
  destruct (match_for_bounds P m_len m_off Hmf ltac:(lia)) as (Hl1 & Hl2 & Ho1 & Ho2 & Hrep).
  assert (Hfar : 2 + Z.b2z (bool_decide (M2_MAX_OFFSET f < m_off)) ≤ m_len < 2 ^ 31).
  { unfold SWD_F in *. case_bool_decide; simpl; lia. }
  unfold take_match. rewrite (assert_match_run P m); [|done|done|lia|done]. cbn [mbind outcome_bind].
  assert (Hlazy : ∃ l1 max_ahead,
    (if decide (try_lazy sc ≤ 0 ∨ max_lazy sc ≤ m_len ∨ m_off = c_last_m_off c) then Ret (0, 0)
     else
       l1 ← len_of_coded_match f c m_len m_off;
       assert (bool_decide (0 < l1));;
       Ret (l1, Z.min (try_lazy sc) (m_len - 1))) = Ret (l1, max_ahead) ∧ 0 ≤ max_ahead ≤ m_len - 1).
  { destruct (decide _) as [|Hno]; [exists 0, 0; split; [done|lia]|].
    destruct (len_of_coded_match_run c m_len m_off) as (l1 & E1 & Hpos); [lia|done|].
    rewrite E1. specialize (Hpos ltac:(lia) ltac:(lia)). mem_steps. do 2 eexists. split; [done|lia]. }
  destruct Hlazy as (l1 & max_ahead & E & Hma). rewrite E. cbn [mbind outcome_bind]. rewrite Hii.
  destruct (lazy_loop_run (Z.to_nat max_ahead) sc c P m_len l1 max_ahead 0 m) as (better & ahead & m1 & E1 & Hm1 & Ha & Hb);
    [by rewrite Z.add_0_r|lia|lia|lia|lia|lia|].
  rewrite E1. cbn [mbind outcome_bind]. pose proof Hm1 as (Hi1 & Ht1 & Hbp1 & HP1 & _ & Hin1). rewrite Hbp1.
  destruct better.
  - mem_steps. left. exists m1, ahead. auto.
  - mem_steps. right. unfold run_at. fold L. rewrite decide_True by lia. cbn [mbind outcome_bind].
    destruct (code_piece_run l0 c (slice input ii lit) m_len m_off) as (l2 & c1 & c2 & Ec1 & Ec2 & Hc2 & Hsame & Hbytes);
      [done|apply slice_bytes|lia|done|done|].
    rewrite Ec1. cbn [mbind outcome_bind]. rewrite Ec2. cbn [mbind outcome_bind].
    assert (Hend : P + m_len ≤ L) by (unfold look, look_at, L in *; lia).
    destruct (Hin1 ltac:(lia)) as (_ & Hw1 & _).
    destruct (find_match_run m_len (1 + ahead) (P + ahead + 1) (chain_limit (max_chain sc) m1)) as (m2 & E2 & Hm2).
    + done.
    + lia.
    + exact Hw1.
    + rewrite decide_True by lia. unfold look, look_at in *. lia.
    + rewrite decide_True by lia. lia.
    + lia.
    + rewrite !decide_True by lia. change (t_textsize (chain_limit (max_chain sc) m1)) with (t_textsize m1). lia.
    + rewrite E2. cbn [mbind outcome_bind]. rewrite decide_True in Hm2 by lia.
      replace (P + ahead + 1 + (m_len - (1 + ahead))) with (P + m_len) in Hm2 by lia.
      exists m2, c1, c2, l2. split; [done|]. split; [done|]. split; [lia|]. split; [done|]. split; [done|].
      split; [done|]. split; [done|]. rewrite Hbytes, (slice_length input) by lia. lia.
Qed.

(** The division the loop has made when it ends: the pieces, and what is left
    for the final run. *)
Definition divided (start : Z) (c c' : UCL_COMPRESS_T) (ps : list piece) (ii lit : Z) : Prop :=
  code_pieces f ps c = Ret c' ∧ pieces_ok f (take (Z.to_nat start) input) ps ∧
  Forall (λ p, p_len p ≤ c_max_match c) ps ∧
  expand (take (Z.to_nat start) input) ps = take (Z.to_nat (L - lit)) input ∧
  0 ≤ lit ≤ L ∧ (lit = 0 ∨ ii + lit = L) ∧
  coded_bytes c' = coded_bytes c + (L - lit - start) ∧ ∃ l, coded l c'.

Lemma divided_piece start lit ii m_len m_off c c1 c2 c' ps ii' lit' :
  0 ≤ lit → 0 ≤ start → start + lit + m_len ≤ L → ii = start → 2 + Z.b2z (bool_decide (M2_MAX_OFFSET f < m_off)) ≤ m_len < 2 ^ 31 →
  m_off ≤ SWD_N → m_len ≤ c_max_match c → repeats input (start + lit) m_off m_len →
  code_run (slice input ii lit) c = Ret c1 → code_match (S (Z.to_nat m_len)) f m_len m_off c1 = Ret c2 →
  same_limits c c2 → coded_bytes c2 = coded_bytes c + lit + m_len →
  divided (start + lit + m_len) c2 c' ps ii' lit' →
  divided start c c' (mk_piece (slice input ii lit) m_len m_off :: ps) ii' lit'.
Proof.
  intros Hlit Hs HL -> Hl Ho Hmax [Hoff Hrep] E1 E2 [Hsame _] Hbytes (Ec & Hok & Hall & Hexp & Hl' & Hii' & Hb' & Hcoded).
  pose proof (b2z_range (bool_decide (M2_MAX_OFFSET f < m_off))) as Hfar.
  assert (Hcopy : lz_copy (Z.to_nat m_len) m_off (take (Z.to_nat (start + lit)) input) =
    take (Z.to_nat (start + lit + m_len)) input).
  { replace (start + lit + m_len) with (start + lit + Z.of_nat (Z.to_nat m_len)) by lia. apply lz_copy_prefix; [lia| |].
    - unfold L in *. lia.
    - intros i Hi. apply Hrep. lia. }
  split; [|split; [|split; [|split; [|split; [done|split; [done|split; [lia|done]]]]]]].
  - cbn [code_pieces p_run p_len p_off]. rewrite E1. cbn [mbind outcome_bind]. by rewrite E2.
  - cbn [pieces_ok p_run p_len p_off]. rewrite <-prefix_slice by done. split; [apply slice_bytes|].
    rewrite Hcopy. split; [|done]. split; [|done]. rewrite length_take_le by (unfold L in *; lia). lia.
  - constructor; [done|]. by rewrite <-Hsame.
  - cbn [expand p_run p_len p_off]. by rewrite <-prefix_slice, Hcopy by done.
Qed.

Lemma main_loop_run fuel sc ii lit P m c l0 :
  found_at P m → coded l0 c → 0 ≤ lit ≤ P → (lit = 0 ∨ ii + lit = P) → L - P ≤ Z.of_nat fuel → sf ≤ c_max_match c →
  ∃ ps m' c' ii' lit', main_loop f cb input fuel sc ii lit m c = Ret (m', c', ii', lit') ∧
    found_at L m' ∧ divided (P - lit) c c' ps ii' lit'.
Proof.
  revert ii lit P m c l0. induction fuel as [|fuel IH]; intros ii lit P m c l0 Hm Hc Hlit Hii Hfuel Hmax;
    pose proof Hm as (Hi & Ht & Hbp & HP & Hend & Hin); cbn [main_loop].
  all: destruct (decide (P = L)) as [->|HPL].
  1, 3: rewrite decide_False by lia; exists [], m, c, ii, lit; (split; [done|]); (split; [done|]);
    split_and!; try done; [lia..|by exists l0].
  { exfalso. lia. }
  destruct (Hin ltac:(lia)) as (Hlk & Hw & Hchar & Hmf). destruct (window_ip _ _ Hw) as [Hip _]; [lia|].
  assert (0 ≤ look (P + 1)) by (unfold look, look_at; lia).
  rewrite decide_True by lia. set (m0 := set_codesize _ m).
  assert (Hm0 : found_at P m0) by exact Hm. clearbody m0. clear Hm Hi Ht Hbp Hend Hin Hlk Hw Hchar Hmf Hip.
  pose proof Hm0 as (Hi & Ht & Hbp & _ & Hend & Hin).
  destruct (Hin ltac:(lia)) as (Hlk & Hw & Hchar & Hmf). destruct (window_ip _ _ Hw) as [Hip _]; [lia|].
  rewrite Hlk, Hip, Hbp, Hchar. rewrite (byte_lookup input) by (unfold L in *; lia).
  set (ii0 := if decide (lit = 0) then P else ii).
  assert (Hii0 : ii0 + lit = P) by (unfold ii0; destruct (decide _); lia). clearbody ii0.
  rewrite (bool_decide_true (Some _ = Some _)) by done. mem_steps. destruct (decide _) as [Hlitl|Hmatch].
  - destruct (found_next P m0 (max_chain sc) Hm0) as (m1 & E1 & Hm1); [lia|]. rewrite E1. cbn [mbind outcome_bind].
    destruct (IH ii0 (lit + 1) (P + 1) m1 c l0) as (ps & m' & c' & ii' & lit' & E & Hf & Hd); try done; try lia.
    exists ps, m', c', ii', lit'. split; [done|]. split; [done|]. by replace (P + 1 - (lit + 1)) with (P - lit) in Hd by lia.
  - destruct (take_match_run sc ii0 lit P m0 c l0) as
      [(m1 & ahead & E1 & Hm1 & Ha)|(m1 & c1 & c2 & l1 & E1 & Hm1 & H2 & Er & Em & Hc2 & Hsame & Hbytes)]; try done; try lia;
      rewrite E1; cbn [mbind outcome_bind].
    + pose proof Hm1 as (_ & _ & _ & HP1 & _).
      destruct (IH ii0 (lit + ahead) (P + ahead) m1 c l0) as (ps & m' & c' & ii' & lit' & E & Hf & Hd); try done; try lia.
      exists ps, m', c', ii', lit'. split; [done|]. split; [done|].
      by replace (P + ahead - (lit + ahead)) with (P - lit) in Hd by lia.
    + destruct (match_for_bounds _ _ _ Hmf H2) as (Hl1 & Hl2 & Ho1 & Ho2 & Hrep).
      assert (Hend' : P + t_m_len m0 ≤ L) by (unfold look, look_at, L in *; lia).
      destruct (IH ii0 0 (P + t_m_len m0) m1 c2 l1) as (ps & m' & c' & ii' & lit' & E & Hf & Hd); try done; try lia.
      { destruct Hsame as [-> _]. done. }
      eexists _, m', c', ii', lit'. split; [exact E|]. split; [done|].
      eapply (divided_piece (P - lit) lit ii0 (t_m_len m0) (t_m_off m0)); try done; try lia.
      * unfold SWD_F in *. case_bool_decide; simpl; lia.
      * by replace (P - lit + lit) with P by lia.
      * replace (P - lit + lit + t_m_len m0) with (P + t_m_len m0 - 0) by lia. done.
Qed.

(** The end of the stream. *)
Lemma finish_stream_run m c ii lit l0 c' :
  found_at L m → coded l0 c → 0 ≤ lit ≤ L → (lit = 0 ∨ ii + lit = L) → coded_bytes c = L - lit →
  (c ← code_run (slice input (L - lit) lit) c; code_eof f c) = Ret c' →
  ∃ m', finish_stream f cb input ii lit m c = Ret (bb_out (c_bits c'), m').
Proof.
  intros (_ & Ht & _) Hc Hlit Hii Hbytes Hc'.
  assert (Hrun : run_at input (if decide (lit = 0) then 0 else ii) lit = Ret (slice input (L - lit) lit)).
  { unfold run_at. fold L. destruct (decide (lit = 0)) as [->|]; [rewrite decide_True by lia; done|].
    rewrite decide_True by lia. by replace (L - lit) with ii by lia. }
  pose proof (slice_bytes (L - lit) lit) as Hb. pose proof (run_items_ok _ Hb) as Hok1.
  destruct (coded_more l0 _ c Hc Hok1) as (w1 & Ew1 & Ec1). pose proof Hc as [Hl0 _].
  destruct (code_run_emit _ c w1 Hb Ew1) as (c1 & E1 & Hb1 & _ & _ & Hn1).
  assert (Hok2 : items_ok (Bit false :: eof_items f)).
  { pose proof (stream_ok f 1 [] [] [] ltac:(done) ltac:(constructor)) as H. exact H. }
  destruct (coded_more (l0 ++ run_items (slice input (L - lit) lit)) (Bit false :: eof_items f) c1) as (w2 & Ew2 & _);
    [split; [by apply items_ok_app|by rewrite Hb1]|exact Hok2|].
  pose proof (code_eof_emit f c1 w2 Ew2) as E2. unfold finish_stream. rewrite Hrun. cbn [mbind outcome_bind].
  rewrite E1 in Hc'. cbn [mbind outcome_bind] in Hc'. rewrite E1. cbn [mbind outcome_bind]. rewrite Hc'.
  rewrite E2 in Hc'. destruct (bbFlushBits false w2) as [w|e]; [|done]. injection Hc' as <-.
  assert (Hsum : c_lit_bytes (set_bits w c1) + c_match_bytes (set_bits w c1) = L).
  { change (coded_bytes c1 = L). rewrite Hn1, slice_length by (unfold L in *; lia). lia. }
  cbn [mbind outcome_bind]. rewrite Ht, Hsum. mem_steps. by eexists.
Qed.
End matches.

(** ** The whole compressor *)

(** The arguments [ucl_nrv_99_compress] accepts. *)
Definition valid_arguments (input : list Z) (level : Z) (conf : ucl_compress_config) : Prop :=
  1 ≤ level ≤ 10 ∧ (conf_bb_endian conf = -1 ∨ conf_bb_endian conf = 0) ∧
  (conf_bb_size conf = -1 ∨ conf_bb_size conf = 8 ∨ conf_bb_size conf = 16 ∨ conf_bb_size conf = 32) ∧
  8 ≤ conf_max_match conf ∧ (256 ≤ conf_max_offset conf ∨ Z.of_nat (length input) < conf_max_offset conf).
#[export] Instance valid_arguments_dec input level conf : Decision (valid_arguments input level conf).
Proof. unfold valid_arguments. apply _. Defined.

(** Bytes per group of bits. *)
Definition group_bytes (conf : ucl_compress_config) : nat :=
  if decide (conf_bb_size conf = -1) then 1 else Z.to_nat (conf_bb_size conf / 8).

Lemma swd_config_lookup level : 1 ≤ level ≤ 10 →
  ∃ sc, swd_config !! Z.to_nat (level - 1) = Some sc ∧ 48 * 1024 ≤ max_offset sc ≤ SWD_N.
Proof.
  intros Hl. destruct (lookup_lt_is_Some_2 swd_config (Z.to_nat (level - 1))) as [sc E]; [simpl; lia|].
  exists sc. split; [done|].
  assert (Hall : Forall (λ sc, 48 * 1024 ≤ max_offset sc ≤ SWD_N) swd_config) by (repeat constructor; vm_compute; done).
  by eapply Forall_lookup_1 in Hall.
Qed.

Lemma window_size_valid input sc conf :
  48 * 1024 ≤ max_offset sc ≤ SWD_N → 0 ≤ conf_max_offset conf ≤ UCL_UINT_MAX →
  (256 ≤ conf_max_offset conf ∨ Z.of_nat (length input) < conf_max_offset conf ↔ 256 ≤ window_size input sc conf) ∧
  window_size input sc conf ≤ SWD_N.
Proof.
  intros Hsc Hmo. unfold window_size, SWD_N, UCL_UINT_MAX in *. repeat destruct (decide _); lia.
Qed.

Lemma bbConfig_8 : bbConfig 8 = Some (mk_bit_writer 0 0 1 None []).
Proof. done. Qed.

Lemma config_bits conf :
  conf_bb_endian conf = -1 ∨ conf_bb_endian conf = 0 →
  conf_bb_size conf = -1 ∨ conf_bb_size conf = 8 ∨ conf_bb_size conf = 16 ∨ conf_bb_size conf = 32 →
  ∃ w, (w ← bbConfig 8; bbConfig_endian (conf_bb_endian conf) (conf_bb_size conf) w) = Some w ∧
    bbConfig (8 * Z.of_nat (group_bytes conf)) = Some w ∧ (0 < group_bytes conf ≤ 4)%nat.
Proof.
  intros He Hs. cbn [mbind option_bind]. unfold group_bytes, bbConfig_endian.
  destruct Hs as [-> | [-> | [-> | ->]]]; destruct He as [-> | ->]; eexists; (split; [reflexivity|]); (split; [reflexivity|]);
    (split; apply Nat.leb_le; reflexivity).
Qed.

Section compressor.
  Context (f : nrv) (cb : bool) (input : list Z) (heap : nat → option (Z → Z)) (stack : Z) (level : Z).
  Context (conf : option ucl_compress_config).
  Context (Hinput : bytes_ok input) (Hlen : Z.of_nat (length input) < 2 ^ 32).

Let conf_of : ucl_compress_config := default default_config conf.
Context (Hmo : 0 ≤ conf_max_offset conf_of ≤ UCL_UINT_MAX).

Lemma invalid_arguments_run : ¬ valid_arguments input level conf_of →
  ucl_nrv_99_compress f cb input heap stack level conf = Ret (UCL_E_INVALID_ARGUMENT, []).
Proof.
  intros Hbad. unfold ucl_nrv_99_compress. fold conf_of. destruct (decide (level < 1 ∨ 10 < level)); [done|].
  destruct (swd_config_lookup level) as (sc & Esc & Hsc); [lia|]. rewrite Esc.
  destruct (decide (conf_bb_endian conf_of = -1 ∨ conf_bb_endian conf_of = 0)) as [He|He].
  2:{ rewrite bbConfig_8. cbn [mbind option_bind]. unfold bbConfig_endian. by rewrite decide_True by lia. }
  destruct (decide (conf_bb_size conf_of = -1 ∨ conf_bb_size conf_of = 8 ∨ conf_bb_size conf_of = 16 ∨ conf_bb_size conf_of = 32)) as [Hs|Hs].
  2:{ rewrite bbConfig_8. cbn [mbind option_bind]. unfold bbConfig_endian. rewrite decide_False, decide_True by lia.
      unfold bbConfig. by rewrite decide_True by lia. }
  destruct (config_bits conf_of He Hs) as (w & Ew & _). rewrite Ew.
  destruct (window_size_valid input sc conf_of Hsc Hmo) as [Hw _].
  rewrite decide_True; [done|]. unfold valid_arguments in Hbad. unfold match_limit, SWD_F.
  destruct (decide (conf_max_match conf_of < 8)); [lia|]. right.
  destruct (decide (256 ≤ window_size input sc conf_of)) as [Hge|]; [|lia]. apply Hw in Hge. lia.
Qed.

Context (Hvalid : valid_arguments input level conf_of).

Lemma no_memory_run : (∃ k, (k < 6)%nat ∧ heap k = None) →
  ucl_nrv_99_compress f cb input heap stack level conf = Ret (UCL_E_OUT_OF_MEMORY, []).
Proof.
  intros (k & Hk & Hnone). destruct Hvalid as (Hl & He & Hs & Hm & Ho). unfold ucl_nrv_99_compress. fold conf_of.
  rewrite decide_False by lia. destruct (swd_config_lookup level Hl) as (sc & Esc & Hsc). rewrite Esc.
  destruct (config_bits conf_of He Hs) as (w & Ew & _). rewrite Ew.
  destruct (window_size_valid input sc conf_of Hsc Hmo) as [Hw Hw2]. apply Hw in Ho.
  rewrite decide_False by (unfold match_limit, SWD_F; lia). unfold init_match.
  destruct (swd_init_no_memory input (window_size input sc conf_of) (match_limit conf_of) ltac:(lia)
    ltac:(unfold match_limit, SWD_F; lia) heap stack k Hk Hnone) as (s & E).
  rewrite E. done.
Qed.

(** What is written is the coded stream of a division of the input. *)
Lemma compress_run : (∀ k, (k < 6)%nat → is_Some (heap k)) →
  ∃ ps final, ucl_nrv_99_compress f cb input heap stack level conf =
      Ret (UCL_E_OK, layout (group_bytes conf_of) 0 (stream f 1 ps final)) ∧
    expand [] ps ++ final = input ∧ pieces_ok f [] ps ∧ bytes_ok final.
Proof.
  intros Hheap. destruct Hvalid as (Hl & He & Hs & Hm & Ho). unfold ucl_nrv_99_compress. fold conf_of.
  rewrite decide_False by lia. destruct (swd_config_lookup level Hl) as (sc & Esc & Hsc). rewrite Esc.
  destruct (config_bits conf_of He Hs) as (w & Ew & Ew' & Hg). rewrite Ew.
  destruct (window_size_valid input sc conf_of Hsc Hmo) as [Hw Hw2]. apply Hw in Ho. clear Hw.
  assert (Hsf : 8 ≤ match_limit conf_of ≤ SWD_F) by (unfold match_limit, SWD_F; lia).
  assert (Hsf2 : match_limit conf_of ≤ conf_max_match conf_of) by (unfold match_limit; lia).
  rewrite decide_False by lia. unfold init_match.
  set (n := window_size input sc conf_of) in *. set (sf := match_limit conf_of) in *.
  destruct (swd_init_memory input n sf Hinput Hlen ltac:(lia) Hsf heap stack Hheap) as (s & E & Hs0).
  rewrite E. cbn [mbind outcome_bind]. rewrite !(decide_False (P := _ ≠ UCL_E_OK)) by (intros H; by apply H).
  cbn [mbind outcome_bind]. rewrite (decide_False (P := _ ≠ UCL_E_OK)) by (intros H; by apply H).
  set (m0 := report cb (-1) _). set (c0 := mk_compress _ _ _ _ _ _ _).
  destruct (find_match_run cb input n sf Hinput Hlen ltac:(lia) Hsf 0 0 0 m0) as (m1 & E1 & Hm1).
  { unfold m0. by destruct cb. } { lia. } { unfold m0. destruct cb; exact Hs0. }
  { rewrite decide_False by lia. unfold look_at. lia. } { rewrite decide_False by lia. lia. } { lia. }
  { rewrite !decide_False by lia. unfold m0. by destruct cb. }
  rewrite E1. cbn [mbind outcome_bind]. rewrite decide_False in Hm1 by lia.
  assert (Hputs : ∀ l, items_ok l → ∃ w', put_items l w = Ret w').
  { intros l Hl'. destruct (put_items_run (group_bytes conf_of) Hg l w []) as (w1 & _ & E' & _); [done|by apply config_fresh|eauto]. }
  destruct (main_loop_run f cb input n sf Hinput Hlen ltac:(lia) Hsf w Hputs (length input) sc 0 0 0 m1 c0 []) as
    (ps & m' & c' & ii' & lit' & E2 & Hm' & Hpieces & Hok & Hmax & Hexp & Hlit & Hii & Hbytes & l1 & Hcoded);
    try done; try lia.
  { split; [constructor|done]. }
  rewrite E2. cbn [mbind outcome_bind]. change (take (Z.to_nat (0 - 0)) input) with (@nil Z) in *.
  set (L := Z.of_nat (length input)) in *. set (final := slice input (L - lit') lit').
  assert (Hfin : bytes_ok final) by (by apply slice_bytes).
  destruct (nrv_compress_run (group_bytes conf_of) f ps final c0 Hg Ew' eq_refl Hmax Hok Hfin) as (c2 & E3 & Hout).
  unfold nrv_compress in E3. rewrite Hpieces in E3. cbn [mbind outcome_bind] in E3.
  destruct (finish_stream_run f cb input n sf Hinput w Hputs m' c' ii' lit' l1 c2) as (m2 & E4); try done.
  { rewrite Hbytes. unfold coded_bytes. simpl. lia. }
  rewrite E4. cbn [mbind outcome_bind]. exists ps, final. rewrite Hout. split; [done|]. split; [|done].
  rewrite Hexp. unfold final. rewrite <-prefix_slice by lia. replace (L - lit' + lit') with L by lia.
  unfold L. rewrite Nat2Z.id. by rewrite firstn_all.
Qed.
End compressor.
