(* ===== verification/UclSize.v ===== *)
(** * What the compressor promises its callers (n2_99.ch)

    The theorems about [ucl_nrv_99_compress] as a whole: decompression undoes
    it, it returns on every input with the code the arguments call for, and how
    much room its output needs. *)

From S2P Require Import Prelude UclBits UclDecode UclEncode UclRoundtrip UclSwd UclWindow UclCompress UclCorrect.

(** ** Sizes *)

Definition weight (l : list item) : Z :=
  foldr (λ i w, match i with Bit _ => 1 | Byte _ => 8 end + w) 0 l.

Lemma weight_app l1 l2 : weight (l1 ++ l2) = weight l1 + weight l2.
Proof. induction l1 as [|i l1 IH]; [done|]. cbn. fold (weight (l1 ++ l2)) (weight l1). rewrite IH. lia. Qed.

Lemma weight_nonneg l : 0 ≤ weight l.
Proof. induction l as [|i l IH]; [done|]. destruct i; cbn; fold (weight l); lia. Qed.

(** A stream takes its bits and bytes, and at most the rest of one group. *)
Lemma layout_length g k l : (k ≤ 8 * g - 1)%nat → (0 < g)%nat →
  8 * Z.of_nat (length (layout g k l)) + Z.of_nat k ≤ weight l + 8 * Z.of_nat g - 1.
Proof.
  intros Hk Hg. revert k Hk. induction l as [|[b|x] l IH]; intros k Hk; cbn [layout length weight foldr]; [lia| |].
  - fold (weight l). destruct k as [|k].
    + rewrite length_app, le_bytes_length. specialize (IH (8 * g - 1)%nat). lia.
    + specialize (IH k). lia.
  - fold (weight l). specialize (IH k). simpl. lia.
Qed.

Lemma weight_run lits : weight (run_items lits) = 9 * Z.of_nat (length lits).
Proof.
  induction lits as [|x l IH]; [done|].
  change (weight (run_items (x :: l))) with (1 + (8 + weight (run_items l))). cbn [length]. lia.
Qed.

Lemma weight_digits11 n j : weight (digits11 n j) = 2 * Z.of_nat n.
Proof. induction n as [|n IH]; [done|]. cbn. fold (weight (digits11 n j)). lia. Qed.

Lemma weight_digits12 n j : weight (digits12 n j) = 3 * Z.of_nat n + 2.
Proof. induction n as [|n IH]; [done|]. cbn [digits12 weight foldr]. fold (weight (digits12 n j)). lia. Qed.

Lemma weight_ss11 i k : 0 ≤ i → 0 ≤ k → i + 2 < 2 ^ (k + 1) → weight (ss11_items i) ≤ 2 * k.
Proof.
  intros Hi Hk Hlt. unfold ss11_items. rewrite weight_digits11.
  assert (Z.log2 (i + 2) < k + 1) by (apply Z.log2_lt_pow2; lia).
  pose proof (Z.log2_nonneg (i + 2)). lia.
Qed.

Lemma weight_ss11_lin i : 0 ≤ i → weight (ss11_items i) ≤ 2 * (i + 1).
Proof.
  intros Hi. unfold ss11_items. rewrite weight_digits11. pose proof (Z.log2_lt_lin (i + 2)).
  pose proof (Z.log2_nonneg (i + 2)). lia.
Qed.

Lemma steps12_bound fuel m n i :
  (n ≤ m)%nat → 3 * i < 2 * (4 * 4 ^ Z.of_nat m - 4 ^ Z.of_nat n) → ((steps12 fuel n i).1 ≤ m)%nat.
Proof.
  revert n i. induction fuel as [|fuel IH]; intros n i Hn Hi; cbn [steps12]; [done|].
  destruct (decide _) as [Hle|]; [|done].
  apply IH; [|rewrite Nat2Z.inj_succ, Z.pow_succ_r by lia; lia]. destruct (decide (n = m)) as [->|]; lia.
Qed.

Lemma weight_ss12 i m : 3 * i < 2 * (4 * 4 ^ Z.of_nat m - 1) → weight (ss12_items i) ≤ 3 * Z.of_nat m + 2.
Proof.
  intros Hi. unfold ss12_items. pose proof (steps12_bound 32 m 0 i ltac:(lia) Hi) as H.
  destruct (steps12 32 0 i) as [n i']. rewrite weight_digits12. simpl in H. lia.
Qed.

(** No match takes more than two bytes for each it stands for. *)
Lemma weight_match f last m_len m_off :
  1 ≤ m_off ≤ SWD_N → 2 + Z.b2z (bool_decide (M2_MAX_OFFSET f < m_off)) ≤ m_len →
  1 + weight (match_items f last m_len m_off) ≤ 16 * m_len.
Proof.
  intros Hoff Hlen. unfold match_items. set (far := Z.b2z _) in *. unfold SWD_N in *.
  assert (Hfar : (far = 0 ∧ m_off ≤ M2_MAX_OFFSET f) ∨ far = 1) by (unfold far; case_bool_decide; simpl; lia).
  set (len := m_len - 1 - far). assert (Hl : 1 ≤ len) by (unfold len; lia).
  assert (Hs : ∀ k, 0 ≤ k → 0 ≤ Z.shiftr (m_off - 1) k ∧ Z.shiftr (m_off - 1) k * 2 ^ k ≤ m_off - 1).
  { intros k Hk. rewrite Z.shiftr_div_pow2 by done. assert (0 < 2 ^ k) by (apply Z.pow_pos_nonneg; lia).
    split; [apply Z.div_pos; lia|]. rewrite Z.mul_comm. apply Z.mul_div_le. lia. }
  pose proof (Hs 8 ltac:(lia)) as H8. pose proof (Hs 7 ltac:(lia)) as H7.
  change (2 ^ 8) with 256 in H8. change (2 ^ 7) with 128 in H7.
  assert (H11 : weight (ss11_items (1 + Z.shiftr (m_off - 1) 8)) ≤ if decide (m_off ≤ 0xd00) then 6 else 30).
  { destruct (decide (m_off ≤ 0xd00)); [apply (weight_ss11 _ 3)|apply (weight_ss11 _ 15)]; simpl; lia. }
  assert (H12 : weight (ss12_items (1 + Z.shiftr (m_off - 1) 7)) ≤ if decide (m_off ≤ 0x500) then 8 else 26).
  { destruct (decide (m_off ≤ 0x500)); [apply (weight_ss12 _ 2)|apply (weight_ss12 _ 8)]; simpl; lia. }
  pose proof (weight_ss11_lin (len - 4)) as W4. pose proof (weight_ss11_lin (len - 5)) as W5.
  destruct f; cbn [M2_MAX_OFFSET] in *; repeat (case_decide || rewrite weight_app);
    cbn [weight foldr] in *; repeat match goal with |- context [foldr ?g 0 ?l] => change (foldr g 0 l) with (weight l) in * end;
    lia.
Qed.

(** Up to this offset a match of three bytes takes no more than the 27 bits of
    its bytes as literals. *)
Definition near_offset (f : nrv) : Z := match f with NRV2B => 509 * 256 | NRV2D | NRV2E => 341 * 1024 end.

Lemma shiftr_range x k m : 0 ≤ k → 0 ≤ x ≤ m * 2 ^ k → 0 ≤ Z.shiftr x k ≤ m.
Proof.
  intros Hk Hx. rewrite Z.shiftr_div_pow2 by done. assert (0 < 2 ^ k) by (apply Z.pow_pos_nonneg; lia).
  split; [apply Z.div_pos; lia|]. apply Z.div_le_upper_bound; lia.
Qed.

Lemma weight_match_near f last m_len m_off :
  1 ≤ m_off ≤ near_offset f → 2 + Z.b2z (bool_decide (M2_MAX_OFFSET f < m_off)) ≤ m_len →
  1 + weight (match_items f last m_len m_off) ≤ 9 * m_len.
Proof.
  intros Hoff Hlen. unfold match_items. set (far := Z.b2z _) in *.
  assert (Hfar : (far = 0 ∧ m_off ≤ M2_MAX_OFFSET f) ∨ (far = 1 ∧ M2_MAX_OFFSET f < m_off)).
  { unfold far. case_bool_decide; simpl; lia. }
  set (len := m_len - 1 - far). assert (Hl : 1 ≤ len) by (unfold len; lia).
  assert (H11 : f = NRV2B → weight (ss11_items (1 + Z.shiftr (m_off - 1) 8)) ≤ if decide (m_off ≤ 0xd00) then 6 else 16).
  { intros ->. unfold near_offset in Hoff. destruct (decide (m_off ≤ 0xd00)).
    - apply (weight_ss11 _ 3); rewrite ?Z.shiftr_div_pow2 by done; simpl; Z.div_mod_to_equations; lia.
    - apply (weight_ss11 _ 8); rewrite ?Z.shiftr_div_pow2 by done; simpl; Z.div_mod_to_equations; lia. }
  assert (H12 : f ≠ NRV2B → weight (ss12_items (1 + Z.shiftr (m_off - 1) 7)) ≤ if decide (m_off ≤ 0x500) then 8 else 17).
  { intros Hf. assert (m_off ≤ 341 * 1024) by (destruct f; unfold near_offset in Hoff; lia).
    destruct (decide (m_off ≤ 0x500)); [apply (weight_ss12 _ 2)|apply (weight_ss12 _ 5)].
    - pose proof (shiftr_range (m_off - 1) 7 10 ltac:(lia) ltac:(lia)). simpl. lia.
    - pose proof (shiftr_range (m_off - 1) 7 2728 ltac:(lia) ltac:(lia)). simpl. lia. }
  pose proof (weight_ss11_lin (len - 4)) as W4. pose proof (weight_ss11_lin (len - 5)) as W5.
  destruct f; cbn [M2_MAX_OFFSET] in *;
    (specialize (H11 eq_refl) || specialize (H12 ltac:(done))); clear Hoff; repeat (case_decide || rewrite weight_app);
    cbn [weight foldr] in *; repeat match goal with |- context [foldr ?g 0 ?l] => change (foldr g 0 l) with (weight l) in * end;
    lia.
Qed.

(** A stream whose matches take at most [c] bits for each byte they stand for;
    the offsets are within what is already written. *)
Lemma weight_stream c f last ps final out N :
  9 ≤ c →
  (∀ last m_len m_off, 1 ≤ m_off ≤ SWD_N → m_off ≤ N → 2 + Z.b2z (bool_decide (M2_MAX_OFFSET f < m_off)) ≤ m_len →
    1 + weight (match_items f last m_len m_off) ≤ c * m_len) →
  pieces_ok f out ps → Z.of_nat (length (expand out ps ++ final)) ≤ N →
  weight (stream f last ps final) ≤ c * (Z.of_nat (length (expand out ps ++ final)) - Z.of_nat (length out)) + 57.
Proof.
  intros Hc Hmatch. revert last out. induction ps as [|p ps IH]; intros last out Hp HN; cbn [stream expand].
  - rewrite weight_app, weight_run, length_app.
    assert (weight (Bit false :: eof_items f) ≤ 57) by (destruct f; by vm_compute). nia.
  - destruct Hp as (_ & (Ho1 & Ho2 & Hl) & Hp). specialize (IH (p_off p) _ Hp HN).
    cbn [expand] in HN. set (out2 := lz_copy (Z.to_nat (p_len p)) (p_off p) (out ++ p_run p)) in *.
    pose proof (expand_length out2 ps) as He.
    assert (Hlen : length out2 = (length out + length (p_run p) + Z.to_nat (p_len p))%nat)
      by (unfold out2; by rewrite lz_copy_length, length_app).
    rewrite length_app in Ho1, HN. rewrite weight_app, weight_run, app_comm_cons, weight_app.
    pose proof (Hmatch last (p_len p) (p_off p) ltac:(lia) ltac:(lia) ltac:(lia)) as Hw.
    change (weight (Bit false :: match_items f last (p_len p) (p_off p)))
      with (1 + weight (match_items f last (p_len p) (p_off p))).
    pose proof (b2z_range (bool_decide (M2_MAX_OFFSET f < p_off p))). nia.
Qed.

(** Farther back a repetition of three bytes takes 30 bits, its bytes as
    literals 27: the compressor, which does not compare them, takes it all the
    same. *)
Example far_match_costs :
  1 + weight (match_items NRV2E 1 3 (2729 * 128)) = 27 ∧ 1 + weight (match_items NRV2E 1 3 (2729 * 128 + 1)) = 30 ∧
  1 + weight (match_items NRV2B 1 3 (509 * 256)) = 27 ∧ 1 + weight (match_items NRV2B 1 3 (509 * 256 + 1)) = 29.
Proof. done. Qed.

(** The stream of an input that reaches no farther back *)
Lemma weight_near f last ps final out :
  pieces_ok f out ps → Z.of_nat (length (expand out ps ++ final)) ≤ near_offset f →
  weight (stream f last ps final) ≤ 9 * (Z.of_nat (length (expand out ps ++ final)) - Z.of_nat (length out)) + 57.
Proof.
  intros Hok Hn. apply (weight_stream 9 f last ps final out (near_offset f)); [lia| |done|done].
  intros last' l o Ho Ho2 Hl. apply weight_match_near; [lia|done].
Qed.

Lemma stream_near f g ps final :
  (0 < g ≤ 4)%nat → pieces_ok f [] ps → Z.of_nat (length (expand [] ps ++ final)) ≤ near_offset f →
  let n := Z.of_nat (length (expand [] ps ++ final)) in
  0 < Z.of_nat (length (layout g 0 (stream f 1 ps final))) ≤ n + n / 8 + 256.
Proof.
  intros Hg Hok Hn n. split.
  - assert (Hne : ∃ b l, stream f 1 ps final = Bit b :: l).
    { destruct ps as [|[run len off] ps]; cbn [stream p_run]; [destruct final|destruct run]; by do 2 eexists. }
    destruct Hne as (b & l & ->). cbn [layout]. rewrite length_app, le_bytes_length. lia.
  - pose proof (weight_near f 1 ps final [] Hok Hn) as Hw. fold n in Hw.
    pose proof (layout_length g 0 (stream f 1 ps final) ltac:(lia) ltac:(lia)) as Hl. simpl in Hw.
    Z.div_mod_to_equations. lia.
Qed.

(** ** The theorems *)

Section compressor.
  Context (f : nrv) (cb : bool) (input : list Z) (heap : nat → option (Z → Z)) (stack : Z) (level : Z).
  Context (conf : option ucl_compress_config).

Let conf_of : ucl_compress_config := default default_config conf.

(** An allocation fails, or all six return. *)
Lemma heap_cases : (∀ k, (k < 6)%nat → is_Some (heap k)) ∨ ∃ k, (k < 6)%nat ∧ heap k = None.
Proof.
  destruct (decide (Forall (λ k, is_Some (heap k)) (seq 0 6))) as [Hall|Hno].
  - left. intros k Hk. rewrite Forall_forall in Hall. apply Hall, elem_of_seq. lia.
  - right. apply not_Forall_Exists, Exists_exists in Hno; [|apply _]. destruct Hno as (k & Hk & Hnone).
    apply elem_of_seq in Hk. exists k. split; [lia|]. by apply eq_None_not_Some.
Qed.

(** C12: the compressor returns on every input: [UCL_E_INVALID_ARGUMENT] exactly
    for the arguments it does not accept, [UCL_E_OUT_OF_MEMORY] when it accepts
    them but an allocation fails, [UCL_E_OK] otherwise.  It never leaves its
    arrays (the window, the hash tables, the input), fails no assertion, does
    not loop, and in the last case its output takes at most two bytes for each
    of the input and eleven more. *)
Theorem compress_returns :
  bytes_ok input → Z.of_nat (length input) < 2 ^ 32 → 0 ≤ conf_max_offset conf_of ≤ UCL_UINT_MAX →
  ∃ r out, ucl_nrv_99_compress f cb input heap stack level conf = Ret (r, out) ∧
    (r = UCL_E_INVALID_ARGUMENT ↔ ¬ valid_arguments input level conf_of) ∧
    (r = UCL_E_OUT_OF_MEMORY ↔ valid_arguments input level conf_of ∧ ∃ k, (k < 6)%nat ∧ heap k = None) ∧
    (r = UCL_E_OK ↔ valid_arguments input level conf_of ∧ ∀ k, (k < 6)%nat → is_Some (heap k)) ∧
    Z.of_nat (length out) ≤ 2 * Z.of_nat (length input) + 11.
Proof.
  intros Hinput Hlen Hmo. destruct (decide (valid_arguments input level conf_of)) as [Hv|Hv].
  - destruct heap_cases as [Hheap|(k & Hk & Hnone)].
    + destruct (compress_run f cb input heap stack level conf Hinput Hlen Hmo Hv Hheap) as (ps & final & E & Hexp & Hok & _).
      eexists _, _. split; [exact E|]. split; [|split; [|split; [done|]]].
      * split; [done|tauto].
      * split; [done|]. intros [_ (k & Hk & Hnone)]. destruct (Hheap k Hk). congruence.
      * pose proof (weight_stream 16 f 1 ps final [] _ ltac:(lia) (λ last l o Ho _, weight_match f last l o Ho) Hok (Z.le_refl _)) as Hw.
        rewrite Hexp in Hw.
        destruct Hv as (_ & He & Hs & _). destruct (config_bits conf_of He Hs) as (w & _ & _ & Hg).
        pose proof (layout_length (group_bytes conf_of) 0 (stream f 1 ps final) ltac:(lia) ltac:(lia)) as Hl.
        fold conf_of in Hl |- *. simpl in Hw. lia.
    + rewrite (no_memory_run f cb input heap stack level conf Hmo Hv) by eauto.
      eexists _, _. split; [done|]. split; [split; [done|tauto]|]. split; [split; [eauto|done]|].
      split; [|simpl; lia]. split; [done|]. intros [_ Hall]. destruct (Hall k Hk). congruence.
  - rewrite (invalid_arguments_run f cb input heap stack level conf Hmo Hv).
    eexists _, _. split; [done|]. split; [done|]. split; [split; [done|tauto]|]. split; [split; [done|tauto]|]. simpl. lia.
Qed.

(** C4: compression is undone by decompression.  For every input and every
    accepted argument the compressor returns [UCL_E_OK], and the decompressor
    of the same format and bit buffer, fast or safe, makes the input out of what
    it wrote, whatever follows it in the source buffer, and leaves the rest of
    the destination alone; with the checks of [SAFE] the destination need not
    be longer than the input. *)
Theorem compress_decompress `{BB : BitBuffer} `{!BitBufferLaws} :
  bytes_ok input → Z.of_nat (length input) < 2 ^ 32 → 0 ≤ conf_max_offset conf_of ≤ UCL_UINT_MAX →
  valid_arguments input level conf_of → (∀ k, (k < 6)%nat → is_Some (heap k)) → group_bytes conf_of = bb_bytes →
  ∃ out, ucl_nrv_99_compress f cb input heap stack level conf = Ret (UCL_E_OK, out) ∧
    ∀ md fuel rest oend dst,
      md = Fast ∨ md = Safe ∧ Z.of_nat (length input) ≤ oend →
      Z.of_nat (length (out ++ rest)) < 2 ^ 32 → (length input ≤ length dst)%nat → (length input + 33 ≤ fuel)%nat →
      decompress (round_of f) md fuel (out ++ rest) (Z.of_nat (length out)) oend dst =
        Ret (UCL_E_OK, Z.of_nat (length input), input ++ drop (length input) dst).
Proof.
  intros Hinput Hlen Hmo Hv Hheap Hg.
  destruct (compress_run f cb input heap stack level conf Hinput Hlen Hmo Hv Hheap) as (ps & final & E & Hexp & Hok & Hfin).
  eexists. split; [exact E|]. fold conf_of. rewrite Hg. intros md fuel rest oend dst Hmd Hbig Hdst Hfuel.
  rewrite <-Hexp in *. apply decompress_stream; try done; destruct Hmd as [->|[-> ?]]; done.
Qed.
End compressor.

(** C18: NRV2D and NRV2E expand an input of up to 341 KB by at most an eighth
    and 256 bytes, NRV2B one of up to 127 KB, whatever the level and
    configuration: the bound of UCL's README and of the buffers exepak and uclpack
    allocate, although the compressor never compares a repetition with its
    bytes as literals.  (Farther back than that a repetition of three bytes takes
    more room than three literals.) *)
Theorem nrv_expansion f cb input heap stack level conf :
  let c := default default_config conf in
  bytes_ok input → Z.of_nat (length input) ≤ near_offset f → 0 ≤ conf_max_offset c ≤ UCL_UINT_MAX →
  valid_arguments input level c → (∀ k, (k < 6)%nat → is_Some (heap k)) →
  ∃ out, ucl_nrv_99_compress f cb input heap stack level conf = Ret (UCL_E_OK, out) ∧
    Z.of_nat (length out) ≤ Z.of_nat (length input) + Z.of_nat (length input) / 8 + 256.
Proof.
  intros c Hinput Hlen Hmo Hv Hheap.
  destruct (compress_run f cb input heap stack level conf Hinput ltac:(destruct f; unfold near_offset in *; lia) Hmo Hv Hheap)
    as (ps & final & E & Hexp & Hok & _).
  eexists. split; [exact E|]. destruct Hv as (_ & He & Hs & _). destruct (config_bits c He Hs) as (w & _ & _ & Hg).
  rewrite <-Hexp in *. by destruct (stream_near f (group_bytes c) ps final Hg Hok Hlen).
Qed.

(** *** A text, at two levels *)

Definition sample_text : list Z := [97; 98; 99; 97; 98; 99; 97; 98; 99; 97; 98; 99; 100; 101; 102; 97; 98; 99; 100; 101; 102; 103].
Definition sample_heap : nat → option (Z → Z) := λ k, Some (λ i, i * 7919 + Z.of_nat k).
Definition sample_config : ucl_compress_config := mk_ucl_config 0 32 4096 64.

Lemma sample_bytes : bytes_ok sample_text.
Proof. by repeat constructor. Qed.
Lemma sample_memory k : (k < 6)%nat → is_Some (sample_heap k).
Proof. by eexists. Qed.

Lemma compress_returns_witness :
  (∃ r out, ucl_nrv_99_compress NRV2B true sample_text sample_heap 5 7 None = Ret (r, out) ∧ r = UCL_E_OK ∧
    Z.of_nat (length out) ≤ 55) ∧
  (∃ r out, ucl_nrv_99_compress NRV2E false sample_text sample_heap 5 11 None = Ret (r, out) ∧ r = UCL_E_INVALID_ARGUMENT) ∧
  ∃ r out, ucl_nrv_99_compress NRV2D false sample_text (λ _, None) 5 1 (Some sample_config) = Ret (r, out) ∧
    r = UCL_E_OUT_OF_MEMORY.
Proof.
  split; [|split].
  - destruct (compress_returns NRV2B true sample_text sample_heap 5 7 None sample_bytes) as (r & out & E & _ & _ & Hok & Hl);
      [by vm_compute|by vm_compute|].
    exists r, out. split; [exact E|]. split; [|exact Hl]. apply Hok. split; [|exact sample_memory].
    apply (bool_decide_unpack _). by vm_compute.
  - destruct (compress_returns NRV2E false sample_text sample_heap 5 11 None sample_bytes) as (r & out & E & Hbad & _);
      [by vm_compute|by vm_compute|].
    exists r, out. split; [exact E|]. apply Hbad. apply (bool_decide_unpack _). by vm_compute.
  - destruct (compress_returns NRV2D false sample_text (λ _, None) 5 1 (Some sample_config) sample_bytes)
      as (r & out & E & _ & Hno & _); [by vm_compute|by vm_compute|].
    exists r, out. split; [exact E|]. apply Hno. split; [|by exists 0%nat; split; [lia|]].
    apply (bool_decide_unpack _). by vm_compute.
Defined.

Lemma compress_decompress_witness :
  (∃ out, ucl_nrv_99_compress NRV2E true sample_text sample_heap 5 10 None = Ret (UCL_E_OK, out) ∧
    decompress (BB := buffer_8) (round_of (BB := buffer_8) NRV2E) Safe 60 (out ++ []) (Z.of_nat (length out)) 22
      (replicate 23 0) = Ret (UCL_E_OK, 22, sample_text ++ [0])) ∧
  ∃ out, ucl_nrv_99_compress NRV2B false sample_text sample_heap 5 1 (Some sample_config) = Ret (UCL_E_OK, out).
Proof.
  split.
  - destruct (compress_decompress NRV2E true sample_text sample_heap 5 10 None (BB := buffer_8) sample_bytes)
      as (out & E & H); [by vm_compute|by vm_compute|apply (bool_decide_unpack _); by vm_compute|exact sample_memory|done|].
    exists out. split; [exact E|]. apply (H Safe 60%nat [] 22 (replicate 23 0)).
    + right. split; [done|by vm_compute].
    + vm_compute in E. injection E as <-. by vm_compute.
    + apply Nat.leb_le. by vm_compute.
    + apply Nat.leb_le. by vm_compute.
  - destruct (compress_decompress NRV2B false sample_text sample_heap 5 1 (Some sample_config) (BB := buffer_le32) sample_bytes)
      as (out & E & _); [by vm_compute|by vm_compute|apply (bool_decide_unpack _); by vm_compute|exact sample_memory|done|].
    by exists out.
Defined.

Lemma nrv_expansion_witness :
  ∃ out, ucl_nrv_99_compress NRV2E false sample_text sample_heap 5 10 None = Ret (UCL_E_OK, out) ∧ Z.of_nat (length out) ≤ 280.
Proof.
  destruct (nrv_expansion NRV2E false sample_text sample_heap 5 10 None sample_bytes) as (out & E & H);
    [by vm_compute|by vm_compute|apply (bool_decide_unpack _); by vm_compute|exact sample_memory|].
  exists out. split; [exact E|exact H].
Defined.
