(* ===== verification/UclInPlace.v ===== *)
(** * Decompression in place (packers/exepak-1.5/ucl-1.02/src, n2?_to.c)

    uclpack reads a block to the end of a buffer and decompresses it to the
    beginning of the same buffer.  The decompressors compiled with
    [TEST_OVERLAP] say whether that works: what they accept, decompresses in
    place as it does apart; and what the compressor writes they accept if the
    buffer has the room UCL documents. *)

From S2P Require Import Prelude UclBits UclDecode UclEncode UclRoundtrip UclSwd UclCompress UclCorrect UclSize.

(** ** What a bit depends on *)

(** The next bit depends on the source from [ilen] on only. *)
Class LocalBuffer `{BB : BitBuffer} : Prop := getbit_local src1 i1 src2 i2 s b j s' :
  0 ≤ i1 ≤ Z.of_nat (length src1) → 0 ≤ i2 → Z.of_nat (length src1) < 2 ^ 32 → Z.of_nat (length src2) < 2 ^ 32 →
  drop (Z.to_nat i1) src1 = drop (Z.to_nat i2) src2 → getbit src1 i1 s = Ret (b, j, s') →
  getbit src2 i2 s = Ret (b, i2 + (j - i1), s') ∧ 0 ≤ b ≤ 1 ∧ i1 ≤ j ≤ Z.of_nat (length src1).

Lemma src_get_shift src1 i1 src2 i2 k x :
  0 ≤ i1 → 0 ≤ i2 → 0 ≤ k → drop (Z.to_nat i1) src1 = drop (Z.to_nat i2) src2 → src_get src1 (i1 + k) = Ret x →
  src_get src2 (i2 + k) = Ret x ∧ i1 + k < Z.of_nat (length src1) ∧ i2 + k < Z.of_nat (length src2).
Proof.
  intros H1 H2 Hk Hd. unfold src_get. rewrite !decide_True by lia.
  assert (E : src1 !! Z.to_nat (i1 + k) = src2 !! Z.to_nat (i2 + k)).
  { rewrite !Z2Nat.inj_add by lia. by rewrite <-!lookup_drop, Hd. }
  rewrite E. destruct (src2 !! Z.to_nat (i2 + k)) as [y|] eqn:Ey; [|done]. intros Hx. split; [done|].
  pose proof (lookup_lt_Some _ _ _ E). pose proof (lookup_lt_Some _ _ _ Ey). lia.
Qed.

Lemma land_1_range x : 0 ≤ Z.land x 1 ≤ 1.
Proof. change 1 with (Z.ones 1) at 1 2. rewrite Z.land_ones by lia. pose proof (Z.mod_pos_bound x (2 ^ 1)). lia. Qed.

#[export] Instance buffer_8_local : @LocalBuffer buffer_8.
Proof.
  intros src1 i1 src2 i2 s b j s' H1 H2 Hb1 Hb2 Hd. cbn [getbit buffer_8]. unfold getbit_8.
  destruct (decide _).
  - cbn. intros [= <- <- <-]. split; [f_equal; f_equal; f_equal; lia|]. split; [apply land_1_range|lia].
  - destruct (src_get src1 i1) as [x|] eqn:Ex; [|done]. rewrite <-(Z.add_0_r i1) in Ex.
    destruct (src_get_shift _ _ _ _ _ _ (proj1 H1) H2 (Z.le_refl 0) Hd Ex) as (E & L1 & L2).
    rewrite Z.add_0_r in E. rewrite E. cbn. intros [= <- <- <-].
    rewrite (u32_small (i1 + 1)), (u32_small (i2 + 1)) by (unfold is_u32; lia). split; [f_equal; f_equal; f_equal; lia|]. split; [apply land_1_range|lia].
Qed.

#[export] Instance buffer_le16_local : @LocalBuffer buffer_le16.
Proof.
  intros src1 i1 src2 i2 s b j s' H1 H2 Hb1 Hb2 Hd. cbn [getbit buffer_le16]. unfold getbit_le16.
  destruct (decide _).
  - intros [= <- <- <-]. split; [f_equal; f_equal; f_equal; lia|]. split; [apply land_1_range|lia].
  - destruct (decide (i1 + 2 < 2 ^ 32)) as [Hs|Hs].
    2:{ assert (E0 : src_get src1 (u32 (i1 + 2) - 2) = Err OutOfBounds).
        { unfold u32. assert (i1 = 2 ^ 32 - 2 ∨ i1 = 2 ^ 32 - 1) as [-> | ->] by lia; by rewrite decide_False || reflexivity. }
        rewrite E0. done. }
    rewrite (u32_small (i1 + 2)) by (unfold is_u32; lia).
    replace (i1 + 2 - 2) with (i1 + 0) by lia. replace (i1 + 2 - 1) with (i1 + 1) by lia.
    destruct (src_get src1 (i1 + 0)) as [x|] eqn:Ex; [|done]. cbn.
    destruct (src_get_shift _ _ _ _ 0 _ (proj1 H1) H2 ltac:(lia) Hd Ex) as (Ex2 & _ & _).
    destruct (src_get src1 (i1 + 1)) as [y|] eqn:Ey; [|done]. cbn.
    destruct (src_get_shift _ _ _ _ 1 _ (proj1 H1) H2 ltac:(lia) Hd Ey) as (Ey2 & L1 & L2).
    intros [= <- <- <-]. destruct (decide (i2 + 2 < 2 ^ 32)); [|lia].
    rewrite (u32_small (i2 + 2)) by (unfold is_u32; lia).
    replace (i2 + 2 - 2) with (i2 + 0) by lia. replace (i2 + 2 - 1) with (i2 + 1) by lia. rewrite Ex2, Ey2. cbn.
    split; [f_equal; f_equal; f_equal; lia|]. split; [apply land_1_range|lia].
Qed.

#[export] Instance buffer_le32_local : @LocalBuffer buffer_le32.
Proof.
  intros src1 i1 src2 i2 [bb bc] b j s' H1 H2 Hb1 Hb2 Hd. cbn [getbit buffer_le32]. unfold getbit_le32.
  destruct (decide _).
  - intros [= <- <- <-]. split; [f_equal; f_equal; f_equal; lia|]. split; [apply land_1_range|lia].
  - rewrite <-(Z.add_0_r i1) at 1. rewrite <-(Z.add_0_r i2) at 1.
    destruct (src_get src1 (i1 + 0)) as [x0|] eqn:E0; [|done]. cbn.
    destruct (src_get_shift _ _ _ _ 0 _ (proj1 H1) H2 ltac:(lia) Hd E0) as (-> & _ & _). cbn.
    destruct (src_get src1 (i1 + 1)) as [x1|] eqn:E1; [|done]. cbn.
    destruct (src_get_shift _ _ _ _ 1 _ (proj1 H1) H2 ltac:(lia) Hd E1) as (-> & _ & _). cbn.
    destruct (src_get src1 (i1 + 2)) as [x2|] eqn:E2; [|done]. cbn.
    destruct (src_get_shift _ _ _ _ 2 _ (proj1 H1) H2 ltac:(lia) Hd E2) as (-> & _ & _). cbn.
    destruct (src_get src1 (i1 + 3)) as [x3|] eqn:E3; [|done]. cbn.
    destruct (src_get_shift _ _ _ _ 3 _ (proj1 H1) H2 ltac:(lia) Hd E3) as (-> & L1 & L2). cbn.
    intros [= <- <- <-].
    rewrite (u32_small (i1 + 4)), (u32_small (i2 + 4)) by (unfold is_u32; lia).
    split; [f_equal; f_equal; f_equal; lia|]. split; [apply land_1_range|lia].
Qed.

(** ** The test, the run in place and the run apart *)

Section lockstep.
  Context `{BB : BitBuffer} `{!LocalBuffer}.
  (** how the blocks are decompressed, not how they are tested *)
  Context (md : mode) (Hmd : overlap md = false).
  Context (buf : list Z) (off src_len oend : Z) (dst0 : list Z).
  Context (Hbuf : Z.of_nat (length buf) < 2 ^ 32) (Hoff : 0 ≤ off) (Hpos : 0 ≤ src_len)
    (Hfit : off + src_len ≤ Z.of_nat (length buf)) (Hoend : 0 ≤ oend < 2 ^ 31 - 4)
    (Hdst : oend + 1 ≤ Z.of_nat (length dst0)).

Let tail : list Z := drop (Z.to_nat off) buf.

(** The test is at [so], decompression in place at [si] and apart at [ss]. *)
Definition level (so si ss : dstate) : Prop :=
  d_bb si = d_bb so ∧ d_bb ss = d_bb so ∧ 0 ≤ d_ilen si ∧ d_ilen so = d_ilen si + off ∧ d_ilen ss = d_ilen si ∧
  d_ilen so ≤ Z.of_nat (length buf) ∧ 1 ≤ d_last so ∧
  ∃ out, d_olen so = Z.of_nat (length out) ∧ d_olen so ≤ d_ilen so ∧ d_olen so ≤ oend + 1 ∧
    in_buffer buf si out (d_last so) ∧ in_buffer dst0 ss out (d_last so).

(** Where the test goes on, so do both decompressors, the same way. *)
Definition lock_at {A} (P : A → Prop) (g : mode → (list Z → list Z) → Z → dec A) (so si ss : dstate) : Prop :=
  match g (Overlap off) (apart buf) (src_len + off) so with
  | Go a so' => P a ∧ ∃ si' ss', g md (drop (Z.to_nat off)) src_len si = Go a si' ∧
      g md (apart tail) src_len ss = Go a ss' ∧ level so' si' ss'
  | Done c _ => c ≠ UCL_E_OK
  | Crash _ => True
  end.
Definition lock {A} (P : A → Prop) (g : mode → (list Z → list Z) → Z → dec A) : Prop :=
  ∀ so si ss, level so si ss → lock_at P g so si ss.

Lemma lock_bind {A B} (P : A → Prop) (Q : B → Prop) m (k : A → mode → (list Z → list Z) → Z → dec B) :
  lock P m → (∀ a, P a → lock Q (k a)) → lock Q (λ md src n, m md src n ≫= λ a, k a md src n).
Proof.
  intros Hm Hk so si ss Hl. specialize (Hm so si ss Hl). unfold lock_at, mbind, dec_bind in *.
  destruct (m (Overlap off) (apart buf) (src_len + off) so) as [a so'|c so'|f]; [|done|done].
  destruct Hm as (Hp & si' & ss' & -> & -> & Hl'). by apply (Hk a Hp).
Qed.

Lemma lock_ret {A} (P : A → Prop) a : P a → lock P (λ _ _ _, mret a).
Proof. intros Hp so si ss Hl. split; [done|]. by exists si, ss. Qed.

Lemma lock_mono {A} (P Q : A → Prop) g : lock P g → (∀ a, P a → Q a) → lock Q g.
Proof.
  intros Hg HPQ so si ss Hl. specialize (Hg so si ss Hl). unfold lock_at in *. destruct (g _ _ _ so); [|done|done].
  destruct Hg as [Hp ?]. split; [by apply HPQ|done].
Qed.

Lemma lock_if {A} (Q : A → Prop) (P : Prop) `{Decision P} g h :
  (P → lock Q g) → (¬ P → lock Q h) → lock Q (λ md src n, if decide P then g md src n else h md src n).
Proof. intros Hg Hh. destruct (decide P) as [HP|HP]; [exact (Hg HP)|exact (Hh HP)]. Qed.

(** The unread part of the source is in place. *)
Lemma level_source so si ss : level so si ss →
  drop (Z.to_nat (d_ilen si)) (drop (Z.to_nat off) (d_dst si)) = drop (Z.to_nat (d_ilen so)) buf ∧
  drop (Z.to_nat (d_ilen ss)) tail = drop (Z.to_nat (d_ilen so)) buf.
Proof.
  intros (_ & _ & Hi & Eo & Es & _ & _ & out & Ho & Hle & _ & (_ & _ & Hd) & _). unfold tail. rewrite !drop_drop, Hd, Es.
  replace (Z.to_nat off + Z.to_nat (d_ilen si))%nat with (Z.to_nat (d_ilen so)) by lia. split; [|done].
  rewrite drop_app_ge, drop_drop by lia. f_equal. lia.
Qed.

Lemma level_length so si ss : level so si ss → length (d_dst si) = length buf.
Proof.
  intros (_ & _ & _ & _ & _ & Hb & _ & out & Ho & Hle & _ & (_ & _ & Hd) & _).
  rewrite Hd, length_app, length_drop. lia.
Qed.

Lemma lock_bit : lock (λ b, 0 ≤ b ≤ 1) (λ _ src _, bit src).
Proof.
  intros so si ss Hl. destruct (level_source _ _ _ Hl) as [Ei Es]. pose proof (level_length _ _ _ Hl) as Hlen.
  destruct Hl as (Bi & Bs & Hi & Eo & Es' & Hb & Hm & out & Ho & Hle & Hoe & Hwi & Hws).
  unfold lock_at, bit, apart. destruct (getbit buf (d_ilen so) (d_bb so)) as [[[b j] bb]|] eqn:E; [|done].
  destruct (getbit_local buf (d_ilen so) (drop (Z.to_nat off) (d_dst si)) (d_ilen si) (d_bb so) b j bb)
    as (E1 & Hbit & Hj); [lia|lia|done|rewrite length_drop; lia|done|done|].
  destruct (getbit_local buf (d_ilen so) tail (d_ilen ss) (d_bb so) b j bb)
    as (E2 & _ & _); [lia|lia|done|unfold tail; rewrite length_drop; lia|done|done|].
  rewrite Bi, Bs, E1, E2. split; [done|]. eexists _, _. split; [done|]. split; [done|].
  unfold level. cbn [d_bb d_ilen d_last d_olen d_dst]. split_and!; [done|done|lia|lia|lia|lia|done|].
  exists out. split_and!; [done|lia|done|done|done].
Qed.

(** A check: the test makes it, the decompressors at most the same. *)
Lemma lock_check {A} (P : A → Prop) (x : Z → dstate → bool) r k so si ss :
  r ≠ UCL_E_OK → (x src_len si = x (src_len + off) so ∧ x src_len ss = x (src_len + off) so) →
  (x (src_len + off) so = false → lock_at P k so si ss) →
  lock_at P (λ md src n, fail md (x n) r;; k md src n) so si ss.
Proof.
  intros Hr [Ei Es] Hk. unfold lock_at, fail, mbind, dec_bind in *. cbn [safe andb].
  destruct (x (src_len + off) so) eqn:E; [done|]. rewrite Ei, Es, !andb_false_r. by apply Hk.
Qed.

Lemma level_input so si ss : level so si ss →
  input_over src_len si = input_over (src_len + off) so ∧ input_over src_len ss = input_over (src_len + off) so.
Proof. intros (_ & _ & _ & Eo & Es & _). unfold input_over. split; apply bool_decide_ext; lia. Qed.

Lemma level_olen so si ss : level so si ss → d_olen si = d_olen so ∧ d_olen ss = d_olen so.
Proof. intros (_ & _ & _ & _ & _ & _ & _ & out & Ho & _ & _ & (-> & _) & (-> & _)). done. Qed.

Lemma lock_input r {A} (P : A → Prop) k : r ≠ UCL_E_OK → lock P k →
  lock P (λ md src n, fail md (input_over n) r;; k md src n).
Proof. intros Hr Hk so si ss Hl. apply lock_check; [done|by apply level_input|intros _; by apply Hk]. Qed.

Lemma lock_const r (b : bool) {A} (P : A → Prop) k : r ≠ UCL_E_OK → (b = false → lock P k) →
  lock P (λ md src n, fail md (λ _, b) r;; k md src n).
Proof. intros Hr Hk so si ss Hl. apply (lock_check P (λ _ _, b)); [done|done|intros Hb; by apply Hk]. Qed.

Lemma lock_last : lock (λ m, 1 ≤ m) (λ _ _ _, dget d_last).
Proof.
  intros so si ss Hl. pose proof Hl as (_ & _ & _ & _ & _ & _ & Hm & out & _ & _ & _ & (_ & Ei & _) & (_ & Es & _)).
  split; [done|]. exists si, ss. unfold dget. by rewrite Ei, Es.
Qed.

Lemma lock_set_last m : 1 ≤ m → lock (λ _, True) (λ _ _ _, dmod (set_last m)).
Proof.
  intros Hm so si ss (Bi & Bs & Hi & Eo & Es & Hb & _ & out & Ho & Hle & Hoe & (O1 & _ & D1) & (O2 & _ & D2)).
  split; [done|]. eexists _, _. split; [done|]. split; [done|].
  unfold level. cbn [d_bb d_ilen d_last d_olen d_dst set_last]. split_and!; try done. exists out. by split_and!.
Qed.

(** [src[ilen++]], after the check of the input *)
Lemma next_byte_run so si ss : level so si ss → input_over (src_len + off) so = false →
  ∃ x, next_byte (apart buf) so = Go x (set_ilen (d_ilen so + 1) so) ∧
    next_byte (drop (Z.to_nat off)) si = Go x (set_ilen (d_ilen si + 1) si) ∧
    next_byte (apart tail) ss = Go x (set_ilen (d_ilen ss + 1) ss).
Proof.
  intros Hl Hx. destruct (level_source _ _ _ Hl) as [Ei Es]. pose proof (level_length _ _ _ Hl) as Hlen.
  destruct Hl as (_ & _ & Hi & Eo & Es' & Hb & _). unfold input_over in Hx. to_prop.
  destruct (lookup_lt_is_Some_2 buf (Z.to_nat (d_ilen so))) as [x Hlook]; [lia|].
  assert (E : ∀ src i, 0 ≤ i → drop (Z.to_nat i) src = drop (Z.to_nat (d_ilen so)) buf → src_get src i = Ret x).
  { intros src i H0 Hd. unfold src_get. rewrite decide_True by done. apply (f_equal (λ l, l !! 0%nat)) in Hd.
    rewrite !lookup_drop, !Nat.add_0_r in Hd. by rewrite Hd, Hlook. }
  exists x. unfold next_byte, apart, dget, lift, dmod, mbind, dec_bind. rewrite (E buf), (E (drop _ _)), (E tail) by (done || lia).
  rewrite !u32_small by (unfold is_u32; lia). done.
Qed.

Lemma level_ilen so si ss : level so si ss → d_ilen so + 1 ≤ Z.of_nat (length buf) →
  level (set_ilen (d_ilen so + 1) so) (set_ilen (d_ilen si + 1) si) (set_ilen (d_ilen ss + 1) ss).
Proof.
  intros (Bi & Bs & Hi & Eo & Es & Hb & Hm & out & Ho & Hle & Hoe & Hwi & Hws) Hn.
  unfold level. cbn [d_bb d_ilen d_last d_olen d_dst set_ilen]. split_and!; try done; try lia.
  exists out. split_and!; try done. lia.
Qed.

(** The byte of an offset *)
Lemma lock_offset_byte m : lock (λ o, ∀ x, o = Some x → 0 ≤ x < 0xffffffff) (λ md src n, offset_byte md src n m).
Proof.
  intros so si ss Hl. unfold offset_byte. apply lock_check; [done|by apply level_input|]. intros Hx.
  destruct (next_byte_run _ _ _ Hl Hx) as (x & E1 & E2 & E3). unfold lock_at.
  rewrite (go_bind _ _ _ _ _ E1), (go_bind _ _ _ _ _ E2), (go_bind _ _ _ _ _ E3).
  set (y := u32 (_ + x)). pose proof (u32_range (u32 (u32 (m - 3) * 256) + x)) as Hr. fold y in Hr. unfold is_u32 in Hr.
  split; [|eexists _, _; split; [done|split; [done|]]].
  - intros z. destruct (decide _); [done|]. intros [= <-]. lia.
  - apply level_ilen; [done|]. unfold input_over in Hx. to_prop. lia.
Qed.

(** Descend through a body. *)
Ltac lock_on H := eapply lock_bind; [apply H|cbv beta].

(** A byte goes to both destinations. *)
Lemma lock_literal : lock (λ _, True) (λ md src n, literal md src n oend).
Proof.
  intros so si ss Hl. unfold literal. apply lock_check; [done|by apply level_input|]. intros Hx.
  apply (lock_check _ (λ _ s, bool_decide (oend ≤ d_olen s))); [done| |].
  { destruct (level_olen _ _ _ Hl) as [-> ->]. done. }
  intros Ho. to_prop. unfold lock_at. cbn [overlap]. rewrite Hmd.
  unfold fail at 1. cbn [safe andb]. unfold mbind at 1. unfold dec_bind at 1.
  destruct (bool_decide (d_ilen so < d_olen so)) eqn:Hov; [done|]. to_prop. cbn.
  destruct (next_byte_run _ _ _ Hl Hx) as (x & _ & E2 & E3). rewrite (go_bind _ _ _ _ _ E2), (go_bind _ _ _ _ _ E3).
  unfold input_over in Hx. to_prop. destruct (level_ilen _ _ _ Hl ltac:(lia)) as
    (Bi & Bs & Hi & Eo & Es & Hb & Hm & out & Hout & Hle & Hoe & Hwi & Hws).
  cbn [d_bb d_ilen d_last d_olen set_ilen] in *.
  destruct (put_run [] [] buf (length buf) ltac:(done) Hbuf x _ out _ Hwi) as (si' & Ei & [Bi' Ii'] & Wi); [lia|].
  destruct (put_run [] [] dst0 (Z.to_nat (oend + 1)) ltac:(lia) ltac:(lia) x _ out _ Hws) as (ss' & Es' & [Bs' Is'] & Ws); [lia|].
  rewrite Ei, Es'. split; [done|]. exists si', ss'. split; [done|]. split; [done|].
  unfold level. cbn [d_bb d_ilen d_last d_olen set_ilen set_olen] in *. rewrite Bi', Ii', Bs', Is'.
  rewrite !u32_small by (unfold is_u32; lia). split_and!; try done; try lia.
  exists (out ++ [x]). rewrite length_app. cbn [length]. split_and!; try done; lia.
Qed.

Lemma lock_literals fuel : lock (λ _, True) (λ md src n, literals md src n oend fuel).
Proof.
  induction fuel as [|fuel IH]; cbn [literals]; [done|].
  lock_on lock_bit. intros b Hb. apply lock_if; intros _; [|by apply lock_ret].
  lock_on lock_literal. intros _ _. exact IH.
Qed.

(** A match goes to both destinations. *)
Lemma lock_copy_match m_off m_len : 1 ≤ m_off → 1 ≤ m_len < 2 ^ 31 →
  lock (λ _, True) (λ md _ _, copy_match md oend m_off m_len).
Proof.
  intros Hmo Hml so si ss Hl. unfold copy_match. destruct (level_olen _ _ _ Hl) as [Oi Os].
  apply (lock_check _ (λ _ s, bool_decide (oend < u32 (d_olen s + m_len)))); [done|by rewrite Oi, Os|]. intros Ho.
  apply (lock_check _ (λ _ s, bool_decide (d_olen s < m_off))); [done|by rewrite Oi, Os|]. intros Hb.
  unfold lock_at. cbn [overlap]. rewrite Hmd.
  destruct Hl as (Bi & Bs & Hi & Eo & Es & Hbuf2 & Hm & out & Hout & Hle & Hoe & Hwi & Hws).
  rewrite u32_small in Ho by (unfold is_u32; lia). to_prop.
  unfold dmod, fail, mbind, dec_bind, dget. cbn [d_olen d_ilen set_olen safe andb].
  rewrite !(u32_small (d_olen so + m_len)), (u32_small (_ + 1)) by (unfold is_u32; lia).
  destruct (bool_decide (d_ilen so < d_olen so + m_len + 1)) eqn:Hov; [done|]. to_prop. cbn -[copy Z.to_nat].
  rewrite Oi, Os, Hout. rewrite (u32_small (m_len - 1)) by (unfold is_u32; lia).
  replace (S (Z.to_nat (m_len - 1 + 1))) with (Z.to_nat (m_len + 1)) by lia. set (n := Z.to_nat (m_len + 1)).
  destruct (copy_run [] [] buf (length buf) ltac:(done) Hbuf n m_off si out _ Hwi) as (si' & -> & [Bi' Ii'] & Wi); [lia|lia|].
  destruct (copy_run [] [] dst0 (Z.to_nat (oend + 1)) ltac:(lia) ltac:(lia) n m_off ss out _ Hws)
    as (ss' & -> & [Bs' Is'] & Ws); [lia|lia|].
  split; [done|]. exists si', ss'. split; [done|]. split; [done|].
  unfold level. cbn [d_bb d_ilen d_last d_olen set_olen]. rewrite Bi', Ii', Bs', Is'. split_and!; try done.
  exists (lz_copy n m_off out). rewrite lz_copy_length. split_and!; try done; lia.
Qed.

(** ** Offsets and lengths *)

Lemma lock_offset_b fuel m : lock (λ _, True) (λ md src n, offset_b md src n fuel m).
Proof.
  revert m. induction fuel as [|fuel IH]; intros m; cbn [offset_b]; [done|].
  lock_on lock_bit. intros b Hb. cbv zeta. apply lock_input; [done|]. apply lock_const; [done|]. intros _.
  lock_on lock_bit. intros b2 Hb2. apply lock_if; intros _; [apply IH|by apply lock_ret].
Qed.

Lemma lock_offset_de fuel m : lock (λ _, True) (λ md src n, offset_de md src n fuel m).
Proof.
  revert m. induction fuel as [|fuel IH]; intros m; cbn [offset_de]; [done|].
  lock_on lock_bit. intros b Hb. cbv zeta. apply lock_input; [done|]. apply lock_const; [done|]. intros _.
  lock_on lock_bit. intros b2 Hb2. apply lock_if; intros _; [by apply lock_ret|].
  lock_on lock_bit. intros b3 Hb3. apply IH.
Qed.

Lemma lock_length fuel m : 1 ≤ m < 2 ^ 31 - 4 → lock (λ l, 2 ≤ l < 2 ^ 31 - 4) (λ md src n, length_loop md src n oend fuel m).
Proof.
  revert m. induction fuel as [|fuel IH]; intros m Hm; cbn [length_loop]; [done|].
  lock_on lock_bit. intros b Hb. cbv zeta.
  assert (E : u32 (u32 (m * 2) + b) = 2 * m + b) by (rewrite u32_add_l, u32_small by (unfold is_u32; lia); lia).
  rewrite E. apply lock_input; [done|]. apply lock_const; [done|]. intros Ho. to_prop.
  lock_on lock_bit. intros b2 Hb2. apply lock_if; intros _; [apply IH; lia|apply lock_ret; lia].
Qed.

Lemma lock_match_offset_b fuel : lock (λ o, ∀ m, o = Some m → 1 ≤ m) (λ md src n, match_offset_b md src n fuel).
Proof.
  unfold match_offset_b. lock_on lock_offset_b. intros m _.
  lock_on lock_last. intros last Hlast.
  apply lock_if; intros _; [apply lock_ret; by intros ? [= <-]|].
  lock_on lock_offset_byte. intros [x|] Hx; [|by apply lock_ret].
  specialize (Hx x eq_refl). rewrite u32_small by (unfold is_u32; lia).
  eapply lock_bind; [apply lock_set_last; lia|]. intros _ _. apply lock_ret. intros ? [= <-]. lia.
Qed.

Lemma lock_match_offset_de fuel : lock (λ o, ∀ m l, o = Some (m, l) → 1 ≤ m ∧ 0 ≤ l ≤ 1) (λ md src n, match_offset_de md src n fuel).
Proof.
  unfold match_offset_de. lock_on lock_offset_de. intros m _.
  lock_on lock_last. intros last Hlast. apply lock_if; intros _.
  - lock_on lock_bit. intros b Hb. apply lock_ret. by intros ? ? [= <- <-].
  - lock_on lock_offset_byte. intros [x|] Hx; [|by apply lock_ret].
    specialize (Hx x eq_refl). assert (0 ≤ Z.shiftr x 1 ≤ x) by (rewrite Z.shiftr_div_pow2 by done; Z.div_mod_to_equations; lia).
    rewrite u32_small by (unfold is_u32; lia).
    eapply lock_bind; [apply lock_set_last; lia|]. intros _ _. apply lock_ret. intros ? ? [= <- <-].
    split; [lia|apply land_1_range].
Qed.

Lemma lock_len_bd fuel m : 0 ≤ m ≤ 1 → lock (λ l, 1 ≤ l < 2 ^ 31 - 1) (λ md src n, match_len_bd md src n oend fuel m).
Proof.
  intros Hm. unfold match_len_bd. lock_on lock_bit. intros b Hb. cbv zeta.
  rewrite u32_small by (unfold is_u32; lia). apply lock_if; intros H0; [|apply lock_ret; lia].
  eapply lock_bind; [apply lock_length; lia|cbv beta]. intros l Hl. apply lock_ret. rewrite u32_small by (unfold is_u32; lia). lia.
Qed.

Lemma lock_len_e fuel m : 0 ≤ m ≤ 1 → lock (λ l, 1 ≤ l < 2 ^ 31 - 1) (λ md src n, match_len_e md src n oend fuel m).
Proof.
  intros Hm. unfold match_len_e. apply lock_if; intros H0.
  - lock_on lock_bit. intros b Hb. apply lock_ret. lia.
  - lock_on lock_bit. intros c Hc. apply lock_if; intros H1.
    + lock_on lock_bit. intros b Hb. apply lock_ret. lia.
    + eapply lock_bind; [apply lock_length; lia|cbv beta]. intros l Hl. apply lock_ret. rewrite u32_small by (unfold is_u32; lia). lia.
Qed.

(** ** Rounds *)

(** The match, with one byte more when it is far *)
Lemma lock_far m_off m_len lim : 1 ≤ m_off → 1 ≤ m_len < 2 ^ 31 - 1 →
  lock (λ _, True) (λ md _ _, copy_match md oend m_off (u32 (m_len + Z.b2z (bool_decide (lim < m_off))));; mret true).
Proof.
  intros Ho Hl. pose proof (b2z_range (bool_decide (lim < m_off))). rewrite u32_small by (unfold is_u32; lia).
  eapply lock_bind; [apply lock_copy_match; lia|]. intros _ _. by apply lock_ret.
Qed.

Lemma lock_round f fuel : lock (λ _, True) (λ md src n, round_of f md src n oend fuel).
Proof.
  destruct f; cbn [round_of].
  - unfold round_b. lock_on lock_match_offset_b. intros [m|] Hm; [|by apply lock_ret].
    lock_on lock_bit. intros b Hb. eapply lock_bind; [by apply lock_len_bd|cbv beta]. intros l Hl.
    cbv zeta. apply lock_far; [by apply Hm|lia].
  - unfold round_d. lock_on lock_match_offset_de. intros [[m b]|] Hm; [|by apply lock_ret].
    destruct (Hm m b eq_refl) as [Hm1 Hb]. eapply lock_bind; [by apply lock_len_bd|cbv beta]. intros l Hl.
    cbv zeta. apply lock_far; [done|lia].
  - unfold round_e. lock_on lock_match_offset_de. intros [[m b]|] Hm; [|by apply lock_ret].
    destruct (Hm m b eq_refl) as [Hm1 Hb]. eapply lock_bind; [by apply lock_len_e|cbv beta]. intros l Hl.
    cbv zeta. apply lock_far; [done|lia].
Qed.

Lemma lock_rounds f fuel inner k :
  lock (λ _, True) (λ md src n, rounds md src n oend (round_of f md src n oend fuel) k inner).
Proof.
  induction k as [|k IH]; cbn [rounds]; [done|].
  lock_on lock_literals. intros _ _. lock_on lock_round. intros [|] _; [exact IH|by apply lock_ret].
Qed.

(** What the test accepts *)
Lemma in_place_run f fuel n d0 d :
  decompress (round_of f) (Overlap off) fuel buf src_len oend d0 = Ret (UCL_E_OK, n, d) →
  ∃ out, Z.of_nat (length out) = n ∧ n ≤ oend + 1 ∧ n ≤ off + src_len ∧
    decompress_in_place (round_of f) md fuel off src_len oend buf = Ret (UCL_E_OK, n, out ++ drop (length out) buf) ∧
    decompress (round_of f) md fuel tail src_len oend dst0 = Ret (UCL_E_OK, n, out ++ drop (length out) dst0).
Proof.
  unfold decompress, decompress_in_place, decompress_from, run, body.
  assert (E : (match md with Overlap o => o | _ => 0 end) = 0) by (by destruct md). rewrite E. clear E.
  rewrite Hmd, Z.add_0_r, !u32_small by (unfold is_u32; lia). cbn [overlap].
  set (so := mk_dstate bb_init off 0 1 d0). set (si := mk_dstate bb_init 0 0 1 buf). set (ss := mk_dstate bb_init 0 0 1 dst0).
  assert (Hl : level so si ss).
  { unfold level. cbn [d_bb d_ilen d_last d_olen so si ss]. split_and!; try done; try lia.
    exists []. split_and!; try done; simpl; lia. }
  unfold fail. cbn [safe andb].
  destruct (bool_decide (src_len + off ≤ oend)); [by intros [=]|].
  rewrite (go_bind _ _ so tt so), (go_bind _ _ si tt si), (go_bind _ _ ss tt ss) by done.
  pose proof (lock_rounds f fuel fuel fuel so si ss Hl) as Hr. unfold lock_at in Hr.
  destruct (rounds (Overlap off) _ _ _ _ _ _ so) as [[] so'|c so'|e] eqn:Eo.
  - destruct Hr as (_ & si' & ss' & Ei & Es & Hl'). rewrite (go_bind _ _ _ _ _ Eo), (go_bind _ _ _ _ _ Ei), (go_bind _ _ _ _ _ Es).
    destruct (level_olen _ _ _ Hl') as [Oi Os]. unfold dget, finish.
    destruct Hl' as (_ & _ & _ & Eo' & Es' & _ & _ & out & Hout & Hle & Hoe & (_ & _ & Hdi) & (_ & _ & Hds)).
    destruct (decide (d_ilen so' = src_len + off)); [|by destruct (decide (d_ilen so' < src_len + off))].
    intros [= <- _]. exists out. rewrite Oi, Os, Hdi, Hds, !decide_True by lia. split_and!; try done; lia.
  - unfold mbind, dec_bind. rewrite Eo. by intros [= -> _ _].
  - unfold mbind, dec_bind. by rewrite Eo.
Qed.
End lockstep.

(** ** What the test accepts *)

Section accepted.
  Context `{BB : BitBuffer} `{!BitBufferLaws}.
  Context (src rest : list Z) (off src_len oend : Z) (N : nat).
  Context (Hsrc : src_len = Z.of_nat (length src) - Z.of_nat (length rest)).
  Context (Hbig : Z.of_nat (length src) < 2 ^ 32) (HN : Z.of_nat N ≤ oend) (Hoend : oend < 2 ^ 32).

Let slack : Z := 8 * Z.of_nat bb_bytes - 1.

(** The test keeps the count only. *)
Definition counted (s : dstate) (out : list Z) (last : Z) : Prop :=
  d_olen s = Z.of_nat (length out) ∧ d_last s = last.

(** What is decompressed ends before what is to be read. *)
Definition behind (out : list Z) (l : list item) : Prop :=
  8 * Z.of_nat (length out) + weight l + slack ≤ 8 * src_len.

Lemma behind_ready s out l : ready src rest s l → behind out l → Z.of_nat (length out) ≤ d_ilen s.
Proof.
  intros (p & Hp & _ & Hi & Hd) Hb. unfold behind, slack in *. pose proof (holds_short _ _ Hp) as Hs. pose proof bb_bytes_pos as Hg.
  pose proof (layout_length bb_bytes (length p) l ltac:(lia) Hg) as Hl.
  apply (f_equal length) in Hd. rewrite length_drop, length_app in Hd. lia.
Qed.

Lemma counted_literal x s out last l :
  ready src rest s (Byte x :: l) → counted s out last → (length out < N)%nat → behind out (Bit true :: Byte x :: l) →
  ∃ s', literal (Overlap off) (apart src) src_len oend s = Go tt s' ∧ ready src rest s' l ∧
    counted s' (out ++ [x]) last ∧ behind (out ++ [x]) l.
Proof.
  intros Hr [Ho Hl] Hn Hb. assert (Hw : weight (Bit true :: Byte x :: l) = 9 + weight l) by (cbn; fold (weight l); lia).
  assert (Hw' : weight (Byte x :: l) = 8 + weight l) by (cbn; fold (weight l); lia).
  assert (Hi : d_ilen s < src_len). { apply (ready_more src rest src_len Hsrc _ _ Hr). exists x. apply elem_of_cons. by left. }
  assert (Hle : Z.of_nat (length out) ≤ d_ilen s) by (apply (behind_ready _ _ _ Hr); unfold behind in *; lia).
  destruct (ready_byte src rest Hbig s x l Hr) as (s' & E & _ & Hr').
  unfold next_byte, apart, dget, lift, dmod, mbind, dec_bind in E. destruct (src_get src (d_ilen s)) as [y|]; [|done].
  injection E as -> <-. unfold literal.
  rewrite (go_bind _ _ s tt s), (go_bind _ _ s tt s).
  2:{ apply fail_pass. intros _. apply bool_decide_false. lia. }
  2:{ apply fail_pass. intros _. unfold input_over. apply bool_decide_false. lia. }
  cbn [overlap]. rewrite (go_bind _ _ s tt s).
  2:{ apply fail_pass. intros _. apply bool_decide_false. lia. }
  eexists. split; [reflexivity|]. split; [exact Hr'|]. split.
  - unfold counted. cbn [d_olen d_last set_ilen set_olen]. rewrite Ho, u32_small, length_app by (unfold is_u32; lia).
    split; [simpl; lia|done].
  - unfold behind in *. rewrite length_app. simpl. lia.
Qed.

Lemma counted_match m_off len s out last l :
  ready src rest s l → counted s out last → 1 ≤ m_off ≤ Z.of_nat (length out) → 2 ≤ len → Z.of_nat (length out) + len ≤ Z.of_nat N →
  behind (lz_copy (Z.to_nat len) m_off out) l →
  ∃ s', copy_match (Overlap off) oend m_off (len - 1) s = Go tt s' ∧ ready src rest s' l ∧
    counted s' (lz_copy (Z.to_nat len) m_off out) last.
Proof.
  intros Hr [Ho Hl] Hoff Hlen Hn Hb. pose proof (behind_ready _ _ _ Hr Hb) as Hle. rewrite lz_copy_length in Hle.
  unfold copy_match. rewrite (go_bind _ _ s tt s), (go_bind _ _ s tt s).
  2:{ apply fail_pass. intros _. rewrite Ho. apply bool_decide_false. lia. }
  2:{ apply fail_pass. intros _. rewrite Ho, u32_small by (unfold is_u32; lia). apply bool_decide_false. lia. }
  cbn [overlap]. unfold dmod. set (s' := set_olen (u32 (u32 (d_olen s + (len - 1)) + 1)) s).
  assert (Ho' : d_olen s' = Z.of_nat (length out) + len).
  { unfold s'. cbn [d_olen set_olen]. rewrite Ho, u32_add_l, u32_small by (unfold is_u32; lia). lia. }
  rewrite (go_bind _ _ s tt s') by done. exists s'. split; [|split; [exact Hr|]].
  - apply fail_pass. intros _. rewrite Ho'. apply bool_decide_false. change (d_ilen s') with (d_ilen s). lia.
  - split; [|done]. rewrite Ho', lz_copy_length. lia.
Qed.

Definition test_destination : destination (Overlap off) src rest src_len oend N.
Proof.
  refine {| wrote := counted; room := behind |}.
  - unfold same, counted. by intros s s' out last (-> & -> & _).
  - by intros s out last [_ ->].
  - by intros s out last m [? _].
  - exact counted_literal.
  - exact counted_match.
Defined.
End accepted.

(** A stream at the end of a buffer with an eighth and twelve bytes more than
    what it stands for *)
Lemma test_accepts `{BB : BitBuffer} `{!BitBufferLaws} f ps final pre rest oend fuel dst :
  let data := expand [] ps ++ final in
  let out := layout bb_bytes 0 (stream f 1 ps final) in
  let n := Z.of_nat (length data) in
  let off := Z.of_nat (length pre) in
  (bb_bytes ≤ 4)%nat → pieces_ok f [] ps → n ≤ near_offset f →
  n + n / 8 + 12 ≤ off + Z.of_nat (length out) → n ≤ oend < off + Z.of_nat (length out) →
  Z.of_nat (length (pre ++ out ++ rest)) < 2 ^ 32 → (length data + 33 ≤ fuel)%nat →
  ∃ d, decompress (round_of f) (Overlap off) fuel (pre ++ out ++ rest) (Z.of_nat (length out)) oend dst = Ret (UCL_E_OK, n, d).
Proof.
  intros data out n off Hg Hok Hnear Hroom Hoend Hbig Hfuel. unfold decompress, decompress_from.
  set (src := pre ++ out ++ rest) in *. pose proof Hbig as Hbig'. unfold src in Hbig. rewrite !length_app in Hbig. rewrite u32_small by (unfold is_u32; lia).
  set (src_len := Z.of_nat (length out) + off). set (s0 := mk_dstate bb_init off 0 1 dst).
  assert (Hsrc : src_len = Z.of_nat (length src) - Z.of_nat (length rest)) by (unfold src, src_len, off; rewrite !length_app; lia).
  destruct (body_stream f ps final (Overlap off) fuel src rest src_len oend
    (test_destination src rest off src_len oend (length data) Hsrc Hbig' ltac:(lia) ltac:(lia)) s0) as (s1 & last & E1 & Ho & _);
    try done; try (unfold src_len; lia); try (intros _; exact (proj1 Hoend)).
  - intros out' ps' last Hok' Hexp. cbn [room test_destination]. unfold behind.
    pose proof (weight_near f last ps' final out' Hok') as Hw. rewrite Hexp in Hw. specialize (Hw Hnear). fold data n in Hw.
    assert (Hlen : (length out' ≤ length data)%nat).
    { unfold data. rewrite length_app, <-Hexp. pose proof (pieces_count f out' ps' Hok'). lia. }
    unfold src_len. Z.div_mod_to_equations. lia.
  - exists []. split; [apply holds_init|]. split; [done|]. cbn [d_ilen s0]. split; [lia|].
    unfold off. rewrite Nat2Z.id. unfold src. by rewrite drop_app_length.
  - exists (d_dst s1). unfold run. rewrite E1. fold data in Ho. by rewrite Ho.
Qed.

(** A stream decompresses in place. *)
Lemma in_place_stream `{BB : BitBuffer} `{!BitBufferLaws} `{!LocalBuffer} f ps final md pre rest oend fuel :
  let data := expand [] ps ++ final in
  let out := layout bb_bytes 0 (stream f 1 ps final) in
  let n := Z.of_nat (length data) in
  let buf := pre ++ out ++ rest in
  overlap md = false → (bb_bytes ≤ 4)%nat → pieces_ok f [] ps → n ≤ near_offset f →
  n + n / 8 + 12 ≤ Z.of_nat (length pre) + Z.of_nat (length out) →
  n ≤ oend < Z.of_nat (length pre) + Z.of_nat (length out) → oend < 2 ^ 31 - 4 →
  Z.of_nat (length buf) < 2 ^ 32 → (length data + 33 ≤ fuel)%nat →
  decompress_in_place (round_of f) md fuel (Z.of_nat (length pre)) (Z.of_nat (length out)) oend buf =
    Ret (UCL_E_OK, n, data ++ drop (length data) buf).
Proof.
  intros data out n buf Hmd Hg Hok Hnear Hroom Hoend Hoend2 Hbig Hfuel.
  destruct (test_accepts f ps final pre rest oend fuel [] Hg Hok Hnear Hroom Hoend Hbig Hfuel) as [d Hd].
  assert (Hb : Z.of_nat (length buf) = Z.of_nat (length pre) + Z.of_nat (length out) + Z.of_nat (length rest)).
  { unfold buf. rewrite !length_app. lia. }
  destruct (in_place_run md Hmd buf (Z.of_nat (length pre)) (Z.of_nat (length out)) oend
    (replicate (Z.to_nat (oend + 1)) 0) Hbig ltac:(lia) ltac:(lia) ltac:(lia) ltac:(lia)
    ltac:(rewrite length_replicate; lia) f fuel n [] d Hd) as (x & Hx & _ & _ & E1 & E2).
  rewrite E1. do 2 f_equal. rewrite Nat2Z.id in E2. unfold buf in E2 at 1. rewrite drop_app_length in E2.
  pose proof (decompress_stream f ps final md fuel rest oend (replicate (Z.to_nat (oend + 1)) 0) Hmd Hok) as E3.
  fold data out n in E3. rewrite E3 in E2; [| | |rewrite length_replicate; lia|intros _; exact (proj1 Hoend)|exact Hfuel].
  - injection E2 as E2. apply app_inj_1 in E2 as [<- _]; [done|unfold n in Hx; lia].
  - rewrite length_app. lia.
  - unfold n in *. lia.
Qed.

(** ** What any input leaves of a buffer *)

Section bytes.
  Context `{BB : BitBuffer} (md : mode) (src : list Z → list Z) (src_len oend : Z) (L : nat).
  Context (Hsrc : ∀ dst, bytes_ok dst → bytes_ok (src dst)).

(** As many bytes as before *)
Definition kept (s : dstate) : Prop := bytes_ok (d_dst s) ∧ length (d_dst s) = L.
Definition keeps {A} (Q : A → Prop) (m : dec A) : Prop := ∀ s, kept s →
  match m s with Go a s' => Q a ∧ kept s' | Done _ s' => kept s' | Crash _ => True end.

Lemma keeps_bind {A B} (P : A → Prop) (Q : B → Prop) (m : dec A) (k : A → dec B) :
  keeps P m → (∀ a, P a → keeps Q (k a)) → keeps Q (m ≫= k).
Proof.
  intros Hm Hk s Hs. specialize (Hm s Hs). unfold mbind, dec_bind. destruct (m s); [|done|done].
  destruct Hm as [Hp Hs']. by apply (Hk a).
Qed.

Lemma keeps_ret {A} (a : A) : keeps (λ _, True) (mret a).
Proof. intros s Hs. done. Qed.
Lemma keeps_fail x r : keeps (λ _, True) (fail md x r).
Proof. intros s Hs. unfold fail. by destruct (safe md && x s). Qed.
Lemma keeps_bit : keeps (λ _, True) (bit src).
Proof. intros s Hs. unfold bit. destruct (getbit _ _ _) as [[[??]?]|]; [|done]. split; [done|exact Hs]. Qed.
Lemma keeps_dget {A} (f : dstate → A) : keeps (λ _, True) (dget f).
Proof. intros s Hs. by split. Qed.
Lemma keeps_set_ilen (f : dstate → Z) : keeps (λ _, True) (dmod (λ s, set_ilen (f s) s)).
Proof. intros s Hs. by split. Qed.
Lemma keeps_set_last m : keeps (λ _, True) (dmod (set_last m)).
Proof. intros s Hs. by split. Qed.
Lemma keeps_next_byte : keeps (λ x, 0 ≤ x < 256) (next_byte src).
Proof.
  intros s [Hb Hl]. unfold next_byte, dget, lift, dmod, mbind, dec_bind.
  destruct (src_get (src (d_dst s)) (d_ilen s)) as [x|] eqn:E; [|done]. split; [|by split].
  unfold src_get in E. destruct (decide _); [|done].
  destruct (src (d_dst s) !! Z.to_nat (d_ilen s)) as [y|] eqn:Ey; [|done]. injection E as ->.
  by apply (proj1 (Forall_lookup _ _) (Hsrc _ Hb) _ _ Ey).
Qed.
Lemma keeps_put x : 0 ≤ x < 256 → keeps (λ _, True) (put x).
Proof.
  intros Hx s [Hb Hl]. unfold put. destruct (decide _); [|done]. split; [done|]. split; cbn [d_dst].
  - by apply Forall_insert.
  - by rewrite length_insert.
Qed.
Lemma keeps_if {A} (Q : A → Prop) (P : Prop) `{Decision P} (a b : dec A) : keeps Q a → keeps Q b → keeps Q (if decide P then a else b).
Proof. by destruct (decide P). Qed.

Create HintDb keeps.
#[local] Hint Resolve keeps_ret keeps_fail keeps_bit keeps_dget keeps_set_ilen keeps_set_last keeps_put : keeps.
Ltac keeps_step :=
  first [ done | solve [auto with keeps] | apply keeps_if
        | eapply keeps_bind; [apply keeps_next_byte|intros ? ?] | eapply (keeps_bind (λ _, True)); [|intros ? _]
        | match goal with |- keeps _ (match ?o with _ => _ end) => destruct o as [?|] || destruct o end ].

Lemma keeps_copy n pos : keeps (λ _, True) (copy n pos).
Proof.
  revert pos. induction n as [|n IH]; intros pos; cbn [copy]; [apply keeps_ret|].
  intros s [Hb Hl]. unfold mbind at 1, dec_bind at 1, dget, lift. cbn.
  destruct (src_get (d_dst s) pos) as [x|] eqn:E; [|done]. unfold mbind, dec_bind.
  assert (Hx : 0 ≤ x < 256).
  { unfold src_get in E. destruct (decide _); [|done]. destruct (d_dst s !! Z.to_nat pos) as [y|] eqn:Ey; [|done].
    injection E as ->. by apply (proj1 (Forall_lookup _ _) Hb _ _ Ey). }
  pose proof (keeps_put x Hx s (conj Hb Hl)) as Hp. destruct (put x s) as [[] s1|c s1|]; [|done|done].
  destruct Hp as [_ Hs1]. exact (IH _ s1 Hs1).
Qed.

Lemma keeps_body f fuel : overlap md = false → keeps (λ _, True) (body md src src_len oend (round_of f md src src_len oend) fuel).
Proof.
  intros Hmd. assert (Hlits : ∀ n, keeps (λ _, True) (literals md src src_len oend n)).
  { induction n as [|n IH]; cbn [literals]; [done|]. unfold literal. rewrite Hmd. repeat keeps_step. }
  assert (Hb : ∀ n m, keeps (λ _, True) (offset_b md src src_len n m)).
  { induction n as [|n IH]; intros m; cbn [offset_b]; repeat keeps_step. }
  assert (Hde : ∀ n m, keeps (λ _, True) (offset_de md src src_len n m)).
  { induction n as [|n IH]; intros m; cbn [offset_de]; repeat keeps_step. }
  assert (Hlen : ∀ n m, keeps (λ _, True) (length_loop md src src_len oend n m)).
  { induction n as [|n IH]; intros m; cbn [length_loop]; repeat keeps_step. }
  assert (Hmatch : ∀ o l, keeps (λ _, True) (copy_match md oend o l)).
  { intros o l. unfold copy_match. rewrite Hmd. repeat (apply keeps_copy || keeps_step). }
  assert (Hround : keeps (λ _, True) (round_of f md src src_len oend fuel)).
  { destruct f; cbn [round_of]; unfold round_b, round_d, round_e, match_offset_b, match_offset_de, match_len_bd, match_len_e, offset_byte;
      repeat (apply Hb || apply Hde || apply Hlen || apply Hmatch || keeps_step). }
  unfold body. rewrite Hmd. apply (keeps_bind (λ _, True)); [apply keeps_ret|intros _ _].
  apply (keeps_bind (λ _, True)); [|intros _ _; apply keeps_dget].
  generalize fuel at 2 as k. induction k as [|k IH]; cbn [rounds]; [done|].
  apply (keeps_bind (λ _, True)); [apply Hlits|intros _ _]. apply (keeps_bind (λ _, True)); [apply Hround|intros [|] _]; [exact IH|apply keeps_ret].
Qed.
End bytes.

(** Decompression in place keeps a buffer of bytes one, whatever the block is. *)
Lemma in_place_bytes `{BB : BitBuffer} f md fuel off src_len oend buf r n buf' :
  overlap md = false → bytes_ok buf → decompress_in_place (round_of f) md fuel off src_len oend buf = Ret (r, n, buf') →
  bytes_ok buf' ∧ length buf' = length buf.
Proof.
  intros Hmd Hb. unfold decompress_in_place, decompress_from, run.
  assert (E : (match md with Overlap o => o | _ => 0 end) = 0) by (by destruct md). rewrite E. clear E.
  set (s0 := mk_dstate bb_init 0 0 1 buf). set (len := u32 _).
  pose proof (keeps_body md (drop (Z.to_nat off)) len oend (length buf) (λ d Hd, Forall_drop _ _ _ Hd) f fuel Hmd s0 (conj Hb eq_refl)) as H.
  destruct (body _ _ _ _ _ _ s0) as [c s1|c s1|e]; [|intros [= _ _ <-]; exact H|done].
  intros [= _ _ <-]. exact (proj2 H).
Qed.

(** ** Theorems *)

(** C21: what [ucl_nrv2?_test_overlap] accepts, decompresses in place: when the
    test of a block at [off] of a buffer returns [UCL_E_OK] and [n], the
    decompressor of the same format and bit buffer, fast or safe, run on that
    buffer as its source and its destination, returns [UCL_E_OK] and [n] and
    leaves in the first [n] bytes what it would have made of the block in a
    buffer apart, and the rest of the buffer as it was. *)
Theorem test_overlap_sound `{BB : BitBuffer} `{!LocalBuffer} f md fuel buf off src_len oend dst n d0 d :
  md = Fast ∨ md = Safe →
  Z.of_nat (length buf) < 2 ^ 32 → 0 ≤ off → 0 ≤ src_len → off + src_len ≤ Z.of_nat (length buf) →
  0 ≤ oend < 2 ^ 31 - 4 → oend + 1 ≤ Z.of_nat (length dst) →
  decompress (round_of f) (Overlap off) fuel buf src_len oend d0 = Ret (UCL_E_OK, n, d) →
  ∃ out, Z.of_nat (length out) = n ∧
    decompress (round_of f) md fuel (drop (Z.to_nat off) buf) src_len oend dst =
      Ret (UCL_E_OK, n, out ++ drop (length out) dst) ∧
    decompress_in_place (round_of f) md fuel off src_len oend buf = Ret (UCL_E_OK, n, out ++ drop (length out) buf).
Proof.
  intros Hmd Hbuf Hoff Hpos Hfit Hoend Hdst Ht. assert (Ho : overlap md = false) by (by destruct Hmd as [-> | ->]).
  destruct (in_place_run md Ho buf off src_len oend dst Hbuf Hoff Hpos Hfit Hoend Hdst f fuel n d0 d Ht)
    as (out & Hn & _ & _ & E1 & E2). by exists out.
Qed.

(** What the compressor makes of an input of up to 341 KB (NRV2B: 127 KB)
    decompresses in place, if it ends a buffer with an eighth and twelve bytes
    more than the input has; the test says so, and the input is what the
    decompressor leaves at the beginning of the buffer. *)
Theorem compressed_in_place `{BB : BitBuffer} `{!BitBufferLaws} `{!LocalBuffer} f cb input heap stack level conf :
  let c := default default_config conf in
  let n := Z.of_nat (length input) in
  bytes_ok input → n ≤ near_offset f → 0 ≤ conf_max_offset c ≤ UCL_UINT_MAX →
  valid_arguments input level c → (∀ k, (k < 6)%nat → is_Some (heap k)) → group_bytes c = bb_bytes →
  ∃ out, ucl_nrv_99_compress f cb input heap stack level conf = Ret (UCL_E_OK, out) ∧
    ∀ md pre fuel, md = Fast ∨ md = Safe →
      let buf := pre ++ out in
      n + n / 8 + 12 ≤ Z.of_nat (length buf) < 2 ^ 32 → (length input + 33 ≤ fuel)%nat →
      (∃ d, decompress (round_of f) (Overlap (Z.of_nat (length pre))) fuel buf (Z.of_nat (length out)) n [] = Ret (UCL_E_OK, n, d)) ∧
      decompress_in_place (round_of f) md fuel (Z.of_nat (length pre)) (Z.of_nat (length out)) n buf =
        Ret (UCL_E_OK, n, input ++ drop (length input) buf).
Proof.
  intros c n Hinput Hlen Hmo Hv Hheap Hg.
  assert (Hsmall : Z.of_nat (length input) < 2 ^ 31 - 4) by (destruct f; unfold near_offset in *; lia).
  destruct (compress_run f cb input heap stack level conf Hinput ltac:(lia) Hmo Hv Hheap) as (ps & final & E & Hexp & Hok & _).
  eexists. split; [exact E|]. fold c. rewrite Hg. intros md pre fuel Hmd buf Hroom Hfuel.
  assert (Hg4 : (bb_bytes ≤ 4)%nat).
  { destruct Hv as (_ & He & Hs & _). destruct (config_bits c He Hs) as (w & _ & _ & Hg'). rewrite Hg in Hg'. lia. }
  assert (Ho : overlap md = false) by (by destruct Hmd as [-> | ->]).
  subst n buf. rewrite <-Hexp in *. set (data := expand [] ps ++ final) in *. rewrite length_app in Hroom.
  assert (0 ≤ Z.of_nat (length data) / 8) by (apply Z.div_pos; lia).
  assert (Ea : pre ++ layout bb_bytes 0 (stream f 1 ps final) = pre ++ layout bb_bytes 0 (stream f 1 ps final) ++ [])
    by (by rewrite app_nil_r).
  rewrite Ea. split; [apply test_accepts|apply in_place_stream]; try done; fold data; try lia; rewrite !length_app; simpl; lia.
Qed.

(** A block for four bytes at the end of a buffer of sixteen; at its beginning it
    is refused. *)
Lemma test_overlap_sound_witness :
  let buf := replicate 7 5 ++ [152; 97; 0; 0; 0; 0; 0; 18; 255] in
  decompress_in_place (BB := buffer_8) (round_of (BB := buffer_8) NRV2B) Safe 100 7 9 4 buf =
    Ret (UCL_E_OK, 4, [97; 97; 97; 97; 5; 5; 5; 152; 97; 0; 0; 0; 0; 0; 18; 255]) ∧
  decompress (BB := buffer_8) (round_of (BB := buffer_8) NRV2B) (Overlap 0) 100 (drop 7 buf) 9 4 [] =
    Ret (UCL_E_OVERLAP_OVERRUN, 4, []).
Proof.
  set (buf := replicate 7 5 ++ [152; 97; 0; 0; 0; 0; 0; 18; 255]). split; [|by vm_compute].
  destruct (test_overlap_sound (BB := buffer_8) NRV2B Safe 100 buf 7 9 4 [1; 2; 3; 4; 5] 4 [] []
    (or_intror eq_refl) eq_refl ltac:(done) ltac:(done) ltac:(done) ltac:(done) ltac:(done) ltac:(by vm_compute))
    as (out & Hn & E1 & E2).
  rewrite E2. clear E2. vm_compute in E1. injection E1 as E1. do 2 f_equal.
  destruct out as [|? [|? [|? [|? [|]]]]]; simpl in Hn; try lia. by injection E1 as <- <- <- <-.
Defined.

Lemma compressed_in_place_witness :
  ∃ out, ucl_nrv_99_compress NRV2D false sample_text sample_heap 5 10 None = Ret (UCL_E_OK, out) ∧
    decompress_in_place (BB := buffer_8) (round_of (BB := buffer_8) NRV2D) Safe 60 22 (Z.of_nat (length out)) 22
      (replicate 22 0 ++ out) = Ret (UCL_E_OK, 22, sample_text ++ out).
Proof.
  destruct (compressed_in_place (BB := buffer_8) NRV2D false sample_text sample_heap 5 10 None sample_bytes) as (out & E & H);
    [by vm_compute|by vm_compute|apply (bool_decide_unpack _); by vm_compute|exact sample_memory|done|].
  exists out. split; [exact E|]. vm_compute in E. injection E as <-.
  destruct (H Safe (replicate 22 0) 60%nat) as [_ E]; [by right|by vm_compute|apply Nat.leb_le; by vm_compute|].
  exact E.
Defined.
