(* ===== verification/Stub.v ===== *)
(** * The extracting stub (packers/exepak-1.5/stub/stub.s)

    The memory of a packed program from [bss_begin] on: two words (the size of
    the compressed data and the mode of the program), then the compressed data,
    its tail before its head, then zeros.  The stub moves the tail behind the
    head, clears the rest of its bss, and extracts block by block.  Only the
    mode [>d], which writes to the standard output, is modelled; the other one
    writes the same bytes to a file.  The decompressor written out in stub.s is
    the assembler version of [ucl_nrv2e_decompress_8] that stub.c calls, and is
    taken to be that function. *)

From S2P Require Import Prelude UclBits UclDecode UclEncode UclRoundtrip.

(** ** Words in memory *)

Definition from_le (l : list Z) : Z := foldr (λ b v, b + 256 * v) 0 l.

(** The [n] bytes at [off], read as a number or written *)
Definition get_field (l : list Z) (off : Z) (n : nat) : outcome Z :=
  if decide (0 ≤ off ∧ off + Z.of_nat n ≤ Z.of_nat (length l)) then Ret (from_le (take n (drop (Z.to_nat off) l)))
  else Err OutOfBounds.
Definition put_field (l : list Z) (off : Z) (n : nat) (v : Z) : outcome (list Z) :=
  if decide (0 ≤ off ∧ off + Z.of_nat n ≤ Z.of_nat (length l)) then
    Ret (take (Z.to_nat off) l ++ le_bytes n v ++ drop (Z.to_nat off + n) l)
  else Err OutOfBounds.

(** [movl p, %eax] *)
Definition word (mem : list Z) (p : Z) : outcome Z := get_field mem p 4.

(** ** The start *)

(** [rep movsb] *)
Fixpoint rep_movsb (ecx : nat) (esi edi : Z) (mem : list Z) : outcome (list Z) :=
  match ecx with
  | O => Ret mem
  | S n =>
      x ← array_get (Some mem) esi;
      mem ← array_set (Some mem) edi x;
      mem ← of_option NullDeref mem;
      rep_movsb n (esi + 1) (edi + 1) mem
  end.

(** [movb %cl, (%eax)], [incl %eax], [decl %ebx], [jnz zero_it] *)
Fixpoint zero_it (ebx : nat) (eax : Z) (mem : list Z) : outcome (list Z) :=
  match ebx with
  | O => Ret mem
  | S n => mem ← array_set (Some mem) eax 0; mem ← of_option NullDeref mem; zero_it n (eax + 1) mem
  end.

(** From [_start] to [check_args]: the mode, and the memory; addresses are
    relative to [bss_begin], [mapcompressed - bss_begin] is [z + 8]. *)
Definition _start (z : nat) (mem : list Z) : outcome (Z * list Z) :=
  complen ← word mem 0;
  mem ← rep_movsb z 8 (8 + complen) mem;
  mode ← word mem 4;
  mem ← zero_it (z + 8) 0 mem;
  Ret (mode, mem).

(** ** Extraction *)

(** "exepak error\n", written to the standard error *)
Definition extraction_error : list Z := [101; 120; 101; 112; 97; 107; 32; 101; 114; 114; 111; 114; 10].

(** [decompress_loop]: what is written, errors included; [readbuf] is [READBUF_P],
    [heap] the memory at [WRITEBUF_P]. *)
Fixpoint decompress_loop (fuel : nat) (mem : list Z) (readbuf : Z) (heap : list Z) : outcome (list Z) :=
  match fuel with
  | O => Err OutOfFuel
  | S n =>
      size0 ← word mem readbuf;
      if decide (size0 = 0) then Ret []
      else
        size1 ← word mem (readbuf + 4);
        let p := readbuf + 8 in
        if decide (size0 = size1) then
          if decide (p + size1 ≤ Z.of_nat (length mem)) then
            out ← decompress_loop n mem (p + size0) heap;
            Ret (take (Z.to_nat size1) (drop (Z.to_nat p) mem) ++ out)
          else Err OutOfBounds
        else
          '(r, destlen, heap) ← decompress (BB := buffer_8) (round_of (BB := buffer_8) NRV2E) Fast
            (length heap + 8 * length mem + 33) (drop (Z.to_nat p) mem) size0 0 heap;
          if decide (r ≠ UCL_E_OK ∨ destlen ≠ size1) then Ret extraction_error
          else
            out ← decompress_loop n mem (p + size0) heap;
            Ret (take (Z.to_nat size1) heap ++ out)
  end.

(** The whole run with the argument [>d].  The buffer has the size of the first
    block; its pages are fresh. *)
Definition dump (z : nat) (mem : list Z) : outcome (list Z) :=
  '(_, mem) ← _start z mem;
  let mapcompressed := Z.of_nat z + 8 in
  size ← word mem (mapcompressed + 4);
  decompress_loop (length mem) mem mapcompressed (replicate (Z.to_nat size) 0).

(** ** Lemmas on words *)

Definition is_byte (x : Z) : Prop := 0 ≤ x < 256.

Lemma from_le_bytes n v : 0 ≤ v < 256 ^ Z.of_nat n → from_le (le_bytes n v) = v.
Proof.
  revert v. induction n as [|n IH]; intros v Hv; [simpl in *; lia|].
  rewrite Nat2Z.inj_succ, Z.pow_succ_r in Hv by lia. cbn [le_bytes from_le foldr].
  rewrite Z.shiftr_div_pow2 by lia. change (2 ^ 8) with 256. fold (from_le (le_bytes n (v / 256))).
  rewrite IH; [|split; [apply Z.div_pos; lia|apply Z.div_lt_upper_bound; lia]].
  pose proof (Z.div_mod v 256 ltac:(lia)). lia.
Qed.

Lemma get_field_app pre m post off n :
  off = Z.of_nat (length pre) → n = length m → get_field (pre ++ m ++ post) off n = Ret (from_le m).
Proof.
  intros -> ->. unfold get_field. rewrite !length_app. rewrite decide_True by lia.
  by rewrite Nat2Z.id, drop_app_length, take_app_length.
Qed.

(** Fields that were written *)
Lemma put_field_lookup l off n v l' i :
  put_field l off n v = Ret l' →
  length l' = length l ∧
  l' !! i = if decide (Z.to_nat off ≤ i < Z.to_nat off + n)%nat then le_bytes n v !! (i - Z.to_nat off)%nat else l !! i.
Proof.
  unfold put_field. destruct (decide _) as [[H1 H2]|]; [|done]. intros [= <-].
  assert (Hl : length (take (Z.to_nat off) l) = Z.to_nat off) by (rewrite length_take; lia). split.
  - rewrite !length_app, le_bytes_length, length_drop, Hl. lia.
  - destruct (decide _) as [Hi|Hi].
    + rewrite lookup_app_r, Hl, lookup_app_l by (rewrite ?le_bytes_length; lia). done.
    + destruct (decide (i < Z.to_nat off)%nat).
      * rewrite lookup_app_l, lookup_take_lt by lia. done.
      * rewrite lookup_app_r, Hl, lookup_app_r, le_bytes_length, lookup_drop by (rewrite ?le_bytes_length; lia).
        f_equal. lia.
Qed.

Lemma put_field_run l off n v :
  0 ≤ off → off + Z.of_nat n ≤ Z.of_nat (length l) → ∃ l', put_field l off n v = Ret l' ∧ length l' = length l.
Proof.
  intros H1 H2. destruct (put_field l off n v) as [l'|e] eqn:E.
  - exists l'. split; [done|]. by destruct (put_field_lookup _ _ _ _ _ 0 E).
  - unfold put_field in E. by rewrite decide_True in E by lia.
Qed.

Lemma get_put_same l off n v l' :
  put_field l off n v = Ret l' → 0 ≤ v < 256 ^ Z.of_nat n → get_field l' off n = Ret v.
Proof.
  unfold put_field. destruct (decide _) as [[H1 H2]|]; [|done]. intros [= <-] Hv.
  rewrite get_field_app; [by rewrite from_le_bytes| |by rewrite le_bytes_length]. rewrite length_take. lia.
Qed.

Lemma get_put_other l off n v l' off2 n2 :
  put_field l off n v = Ret l' → off2 + Z.of_nat n2 ≤ off ∨ off + Z.of_nat n ≤ off2 →
  get_field l' off2 n2 = get_field l off2 n2.
Proof.
  intros E Hoff. destruct (put_field_lookup _ _ _ _ _ 0 E) as [Hl _].
  assert (0 ≤ off) by (unfold put_field in E; by destruct (decide _) as [[? _]|] in E).
  unfold get_field. rewrite Hl. destruct (decide _) as [[H1 H2]|]; [|done]. do 2 f_equal. apply list_eq. intros i.
  destruct (decide (i < n2)%nat); [|by rewrite !lookup_take_ge by lia].
  rewrite !lookup_take_lt, !lookup_drop by lia. destruct (put_field_lookup _ _ _ _ _ (Z.to_nat off2 + i) E) as [_ ->].
  by rewrite decide_False by lia.
Qed.

Lemma put_take l off n v l' k : put_field l off n v = Ret l' → Z.of_nat k ≤ off → take k l' = take k l.
Proof.
  unfold put_field. destruct (decide _) as [[H1 H2]|]; [|done]. intros [= <-] Hk.
  rewrite take_app_le by (rewrite length_take; lia). by rewrite take_take, Nat.min_l by lia.
Qed.

Lemma get_field_run l off n : 0 ≤ off → off + Z.of_nat n ≤ Z.of_nat (length l) → ∃ v, get_field l off n = Ret v.
Proof. intros H1 H2. unfold get_field. rewrite decide_True by lia. eauto. Qed.

Lemma word_app pre v post p :
  0 ≤ v < 2 ^ 32 → p = Z.of_nat (length pre) → word (pre ++ le_bytes 4 v ++ post) p = Ret v.
Proof.
  intros Hv Hp. unfold word. rewrite get_field_app by (done || by rewrite le_bytes_length).
  rewrite from_le_bytes; [done|]. exact Hv.
Qed.

(** ** The start puts the compressed data together *)

Lemma rep_movsb_run T : ∀ pre mid room post,
  length room = length T →
  rep_movsb (length T) (Z.of_nat (length pre)) (Z.of_nat (length pre + length T + length mid))
    (pre ++ T ++ mid ++ room ++ post) = Ret (pre ++ T ++ mid ++ T ++ post).
Proof.
  induction T as [|x T IH]; intros pre mid room post Hroom.
  - destruct room; [done|discriminate Hroom].
  - destruct room as [|r room]; [discriminate Hroom|]. injection Hroom as Hroom.
    cbn [rep_movsb length]. rewrite <-app_comm_cons, array_get_app. cbn [mbind outcome_bind].
    replace (Z.of_nat (length pre + S (length T) + length mid)) with (Z.of_nat (length (pre ++ x :: T ++ mid)))
      by (rewrite !length_app; simpl; rewrite length_app; lia).
    assert (E : ∀ y l, pre ++ x :: T ++ mid ++ y :: l = (pre ++ x :: T ++ mid) ++ y :: l).
    { intros y l. by rewrite <-!app_assoc, <-app_comm_cons, <-app_assoc. }
    rewrite <-(app_comm_cons room), (E r), array_set_app, <-E. cbn [mbind outcome_bind of_option].
    specialize (IH (pre ++ [x]) (mid ++ [x]) room post Hroom). rewrite !length_app in IH. cbn [length] in IH.
    replace (Z.of_nat (length pre) + 1) with (Z.of_nat (length pre + 1)) by lia.
    replace (Z.of_nat (length (pre ++ x :: T ++ mid)) + 1) with (Z.of_nat (length pre + 1 + length T + (length mid + 1)))
      by (rewrite !length_app; simpl; rewrite length_app; lia).
    rewrite <-!app_assoc in IH. cbn [app] in IH. rewrite IH. by rewrite <-!app_comm_cons.
Qed.

Lemma zero_it_run l : ∀ pre post,
  zero_it (length l) (Z.of_nat (length pre)) (pre ++ l ++ post) = Ret (pre ++ replicate (length l) 0 ++ post).
Proof.
  induction l as [|x l IH]; intros pre post; [done|]. cbn [zero_it length]. rewrite <-app_comm_cons, array_set_app.
  cbn [mbind outcome_bind of_option]. specialize (IH (pre ++ [0]) post). rewrite length_app, <-!app_assoc in IH.
  cbn [length app] in IH. replace (Z.of_nat (length pre) + 1) with (Z.of_nat (length pre + 1)) by lia. exact IH.
Qed.

(** The image of a program packed into [head ++ tail] *)
Definition image (z : nat) (mode : Z) (body : list Z) : list Z :=
  let n := (length body - z)%nat in
  le_bytes 4 (Z.of_nat (length body)) ++ le_bytes 4 mode ++ drop n body ++ take n body ++ replicate (z + 12) 0.

Lemma start_run z mode body :
  (z ≤ length body)%nat → Z.of_nat (length body) < 2 ^ 32 → 0 ≤ mode < 2 ^ 32 →
  _start z (image z mode body) = Ret (mode, replicate (z + 8) 0 ++ body ++ replicate 12 0).
Proof.
  intros Hz Hbody Hmode. unfold _start, image. set (n := (length body - z)%nat).
  set (size := Z.of_nat (length body)). set (T := drop n body). set (H := take n body).
  assert (HT : length T = z) by (unfold T, n; rewrite length_drop; lia).
  assert (HH : length H = n) by (unfold H, n; rewrite length_take; lia).
  pose proof (word_app [] size (le_bytes 4 mode ++ T ++ H ++ replicate (z + 12) 0) 0 ltac:(unfold size; lia) eq_refl) as Ew.
  rewrite app_nil_l in Ew. rewrite Ew. cbn [mbind outcome_bind].
  set (A := le_bytes 4 size ++ le_bytes 4 mode).
  assert (HA : length A = 8%nat) by (unfold A; by rewrite length_app, !le_bytes_length).
  rewrite (app_assoc (le_bytes 4 size)). fold A. rewrite replicate_add.
  replace 8 with (Z.of_nat (length A)) at 1 by (rewrite HA; done).
  replace (8 + size) with (Z.of_nat (length A + length T + length H)) by (unfold size; lia).
  rewrite <-HT at 1. rewrite rep_movsb_run by (rewrite length_replicate; lia). cbn [mbind outcome_bind].
  assert (Em : ∀ l, word (A ++ l) 4 = Ret mode).
  { intros l. unfold A. rewrite <-app_assoc. apply word_app; [done|by rewrite le_bytes_length]. }
  rewrite Em. cbn [mbind outcome_bind].
  rewrite (app_assoc A), <-(take_drop n body) at 1. fold H T.
  assert (HAT : length (A ++ T) = (z + 8)%nat) by (rewrite length_app; lia).
  assert (Ez : zero_it (z + 8) 0 ((A ++ T) ++ H ++ T ++ replicate 12 0) =
    Ret (replicate (z + 8) 0 ++ H ++ T ++ replicate 12 0)).
  { rewrite <-HAT. apply (zero_it_run (A ++ T) []). }
  rewrite Ez. cbn [mbind outcome_bind]. by rewrite <-(app_assoc H).
Qed.

(** ** The loop extracts the blocks *)

(** A block of a packed program: the sizes, then the data stored for [inbuf] *)
Definition block (data inbuf : list Z) : list Z :=
  le_bytes 4 (Z.of_nat (length data)) ++ le_bytes 4 (Z.of_nat (length inbuf)) ++ data.

(** Stored as it is, or shorter and what decompresses to [inbuf] *)
Definition stored (data inbuf : list Z) : Prop :=
  (0 < length data)%nat ∧ (length data ≤ length inbuf)%nat ∧
  (data = inbuf ∨
   (length data < length inbuf)%nat ∧
   ∀ fuel rest dst,
     Z.of_nat (length (data ++ rest)) < 2 ^ 32 → (length inbuf ≤ length dst)%nat → (length inbuf + 33 ≤ fuel)%nat →
     decompress (BB := buffer_8) (round_of (BB := buffer_8) NRV2E) Fast fuel (data ++ rest) (Z.of_nat (length data)) 0 dst =
       Ret (UCL_E_OK, Z.of_nat (length inbuf), inbuf ++ drop (length inbuf) dst)).

Definition blocks_bytes (l : list (list Z * list Z)) : list Z := concat ((λ b, block b.1 b.2) <$> l).

Lemma block_length data inbuf : length (block data inbuf) = (8 + length data)%nat.
Proof. unfold block. by rewrite !length_app, !le_bytes_length. Qed.

Lemma block_words pre data inbuf post :
  Z.of_nat (length data) < 2 ^ 32 → Z.of_nat (length inbuf) < 2 ^ 32 →
  let mem := pre ++ block data inbuf ++ post in
  let p := Z.of_nat (length pre) in
  word mem p = Ret (Z.of_nat (length data)) ∧ word mem (p + 4) = Ret (Z.of_nat (length inbuf)) ∧
  drop (Z.to_nat (p + 8)) mem = data ++ post.
Proof.
  intros Hd Hi mem p. unfold mem, block. rewrite <-!app_assoc.
  split; [apply word_app; lia|]. split.
  - rewrite app_assoc. apply word_app; [lia|]. rewrite length_app, le_bytes_length. lia.
  - rewrite app_assoc, app_assoc. apply drop_app_length'. rewrite !length_app, !le_bytes_length. lia.
Qed.

Lemma decompress_loop_run l : ∀ fuel pre post heap,
  let mem := pre ++ blocks_bytes l ++ le_bytes 4 0 ++ post in
  (length l < fuel)%nat → Z.of_nat (length mem) < 2 ^ 32 → Z.of_nat (length heap) < 2 ^ 32 →
  Forall (λ b, stored b.1 b.2 ∧ (length b.2 ≤ length heap)%nat) l →
  decompress_loop fuel mem (Z.of_nat (length pre)) heap = Ret (concat l.*2).
Proof.
  induction l as [|[data inbuf] l IH]; intros fuel pre post heap mem Hfuel Hmem Hheap Hl;
    (destruct fuel as [|fuel]; [simpl in Hfuel; lia|]); cbn [decompress_loop].
  - unfold mem. cbn [blocks_bytes fmap list_fmap concat app]. by rewrite (word_app pre 0 post (Z.of_nat (length pre))) by lia.
  - apply Forall_cons_1 in Hl as [[(Hpos & Hle & Hdata) Hfit] Hl]. cbn [fst snd] in *.
    assert (E : mem = pre ++ block data inbuf ++ blocks_bytes l ++ le_bytes 4 0 ++ post).
    { unfold mem, blocks_bytes. csimpl. by rewrite <-app_assoc. }
    destruct (block_words pre data inbuf (blocks_bytes l ++ le_bytes 4 0 ++ post)) as (W0 & W4 & Hdrop);
      [rewrite E in Hmem; rewrite !length_app, block_length in Hmem; lia|lia|]. rewrite <-E in W0, W4, Hdrop.
    assert (Hnext : ∀ heap', length heap' = length heap →
      decompress_loop fuel mem (Z.of_nat (length pre) + 8 + Z.of_nat (length data)) heap' = Ret (concat l.*2)).
    { intros heap' Hh.
      assert (E2 : mem = (pre ++ block data inbuf) ++ blocks_bytes l ++ le_bytes 4 0 ++ post) by by rewrite <-app_assoc.
      replace (Z.of_nat (length pre) + 8 + Z.of_nat (length data)) with (Z.of_nat (length (pre ++ block data inbuf)))
        by (rewrite length_app, block_length; lia).
      rewrite E2. apply IH; rewrite <-?E2, ?Hh; [simpl in Hfuel; lia|done|done|exact Hl]. }
    rewrite W0. cbn [mbind outcome_bind]. rewrite decide_False by lia. rewrite W4. cbn [mbind outcome_bind]. rewrite Hdrop.
    change (concat ((data, inbuf) :: l).*2) with (inbuf ++ concat l.*2).
    assert (Hlen : Z.of_nat (length pre) + 8 + Z.of_nat (length data) ≤ Z.of_nat (length mem))
      by (rewrite E, !length_app, block_length; lia).
    destruct Hdata as [->|[Hlt Hdec]].
    + rewrite decide_True, decide_True by (done || lia). rewrite Hnext by done. cbn [mbind outcome_bind].
      by rewrite Nat2Z.id, take_app_length.
    + rewrite decide_False by lia. rewrite Hdec.
      * cbn [mbind outcome_bind]. rewrite decide_False by (intros [?|?]; done).
        rewrite Hnext by (rewrite length_app, length_drop; lia). cbn [mbind outcome_bind].
        by rewrite Nat2Z.id, take_app_length.
      * rewrite E, !length_app, block_length in Hmem. rewrite !length_app in *. lia.
      * done.
      * lia.
Qed.

Lemma blocks_count l : (length l ≤ length (blocks_bytes l))%nat.
Proof.
  unfold blocks_bytes. induction l as [|b l IH]; [done|]. csimpl. rewrite length_app.
  pose proof (block_length b.1 b.2). lia.
Qed.

(** What a packed program prints when told to extract itself *)
Lemma dump_run z mode data inbuf l :
  let body := blocks_bytes ((data, inbuf) :: l) in
  (z ≤ length body)%nat → Z.of_nat (length body + z + 20) < 2 ^ 32 → 0 ≤ mode < 2 ^ 32 →
  Z.of_nat (length inbuf) < 2 ^ 32 →
  Forall (λ b, stored b.1 b.2 ∧ (length b.2 ≤ length inbuf)%nat) ((data, inbuf) :: l) →
  dump z (image z mode body) = Ret (concat ((data, inbuf) :: l).*2).
Proof.
  intros body Hz Hlen Hmode Hi Hall. unfold dump. rewrite start_run by lia. cbn [mbind outcome_bind].
  assert (Hd : (length data ≤ length inbuf)%nat) by (apply Forall_cons_1 in Hall as [[(_ & ? & _) _] _]; done).
  assert (E : body = block data inbuf ++ blocks_bytes l) by done.
  assert (W4 : word (replicate (z + 8) 0 ++ body ++ replicate 12 0) (Z.of_nat z + 8 + 4) = Ret (Z.of_nat (length inbuf))).
  { destruct (block_words (replicate (z + 8) 0) data inbuf (blocks_bytes l ++ replicate 12 0)) as (_ & W4 & _); [lia..|].
    rewrite (app_assoc (block data inbuf)), <-E, length_replicate in W4. by replace (Z.of_nat z + 8) with (Z.of_nat (z + 8)) by lia. }
  rewrite W4.
  cbn [mbind outcome_bind]. rewrite Nat2Z.id.
  pose proof (decompress_loop_run ((data, inbuf) :: l) (length (replicate (z + 8) 0 ++ body ++ replicate 12 0))
    (replicate (z + 8) 0) (replicate 8 0) (replicate (length inbuf) 0)) as H.
  rewrite !length_replicate in H. replace (Z.of_nat (z + 8)) with (Z.of_nat z + 8) in H by lia. apply H.
  - rewrite !length_app, !length_replicate.
    pose proof (blocks_count ((data, inbuf) :: l)) as Hle. fold body in Hle. lia.
  - fold body. rewrite !length_app, !length_replicate, le_bytes_length. lia.
  - done.
  - done.
Qed.
