(* ===== verification/Layout.v ===== *)
(** * The bytes of a message (malpage.h, monitor.h)

    The two drivers are compiled against headers of their own, in which the
    structs of the shared ring have a member of different types.  Here are those
    structs with their C layout, and how a member is written and read through
    each; the theorem is what lets one record [message] stand for the slot that
    all of them share. *)

From S2P Require Import Prelude Protocol UclBits Stub.

(** ** C layout (System V x86-64) *)

Inductive ctype : Type :=
  | CU16 | CU32 | CInt | CULong | CPtr
  | CStruct (fields : list (string * ctype)).

Fixpoint align_of (t : ctype) : Z :=
  match t with
  | CU16 => 2
  | CU32 | CInt => 4
  | CULong | CPtr => 8
  | CStruct fs => foldr (λ f acc, Z.max (align_of f.2) acc) 1 fs
  end.

Definition align_up (n a : Z) : Z := ((n + a - 1) / a) * a.

Fixpoint size_of (t : ctype) : Z :=
  match t with
  | CU16 => 2
  | CU32 | CInt => 4
  | CULong | CPtr => 8
  | CStruct fs =>
      align_up (foldl (λ off f, align_up off (align_of f.2) + size_of f.2) 0 fs) (align_of t)
  end.

(** Where a member is, and its type *)
Fixpoint member (off : Z) (fs : list (string * ctype)) (x : string) : option (Z * ctype) :=
  match fs with
  | [] => None
  | (y, t) :: fs' =>
      let o := align_up off (align_of t) in
      if String.eqb x y then Some (o, t) else member (o + size_of t) fs' x
  end.

Definition malpage_process_report_t : list (string * ctype) :=
  [("process_id", CU32); ("domid", CU16); ("process_age", CU32); ("pfn_list", CPtr);
   ("gref_list", CPtr); ("pfn_list_length", CU32); ("first_gref", CU32)]%string.

Definition monitor_process_report_t : list (string * ctype) :=
  [("process_id", CU32); ("domid", CU32); ("process_age", CU32); ("pfn_list", CPtr);
   ("gref_list", CPtr); ("pfn_list_length", CU32)]%string.

Definition malpage_request_t : list (string * ctype) :=
  [("operation", CU32); ("pfn_gref", CU32); ("pfn", CU32);
   ("report", CStruct malpage_process_report_t); ("process_id", CU32); ("domid", CInt);
   ("mmu_ptr", CPtr); ("fault_addr", CULong); ("mmu_val", CULong)]%string.

Definition malpage_response_t : list (string * ctype) :=
  [("operation", CU32); ("pfn_gref", CU32); ("pfn", CU32);
   ("report", CStruct malpage_process_report_t); ("process_id", CU32); ("domid", CInt);
   ("mmu_ptr", CPtr); ("fault_addr", CULong); ("mmu_val", CULong)]%string.

Definition monitor_request_t : list (string * ctype) :=
  [("operation", CU32); ("pfn_gref", CU32); ("pfn", CU32);
   ("report", CStruct monitor_process_report_t); ("process_id", CU32); ("domid", CInt);
   ("mmu_ptr", CPtr); ("fault_addr", CULong); ("mmu_val", CULong)]%string.

Definition monitor_response_t : list (string * ctype) :=
  [("operation", CU32); ("pfn_gref", CU32); ("pfn", CU32);
   ("report", CStruct monitor_process_report_t); ("process_id", CU32); ("domid", CInt);
   ("mmu_ptr", CPtr); ("fault_addr", CULong); ("mmu_val", CULong)]%string.

(** ** Slots *)

(** [p->x] for a pointer to a struct with the members [fs] *)
Definition width (t : ctype) : nat := Z.to_nat (size_of t).
Definition value (t : ctype) (v : Z) : Z := match t with CInt => s32 v | _ => v end.
Definition load_member (fs : list (string * ctype)) (x : string) (slot : list Z) : outcome Z :=
  '(o, t) ← of_option WildAccess (member 0 fs x);
  v ← get_field slot o (width t);
  Ret (value t v).

(** [p->x = v] *)
Definition store_member (fs : list (string * ctype)) (x : string) (v : Z) (slot : list Z) : outcome (list Z) :=
  '(o, t) ← of_option WildAccess (member 0 fs x);
  put_field slot o (width t) (v mod 256 ^ Z.of_nat (width t)).

(** [memcpy(dst, src, sizeof(...))] *)
Definition copy_struct (fs : list (string * ctype)) (dst src : list Z) : list Z :=
  let n := Z.to_nat (size_of (CStruct fs)) in take n src ++ drop n dst.

(** The message in a slot, read through the struct [fs] *)
Definition read_message (fs : list (string * ctype)) (slot : list Z) : outcome message :=
  operation ← load_member fs "operation" slot;
  pfn_gref ← load_member fs "pfn_gref" slot;
  pfn ← load_member fs "pfn" slot;
  process_id ← load_member fs "process_id" slot;
  domid ← load_member fs "domid" slot;
  mmu_ptr ← load_member fs "mmu_ptr" slot;
  fault_addr ← load_member fs "fault_addr" slot;
  mmu_val ← load_member fs "mmu_val" slot;
  Ret (mk_message operation pfn_gref pfn process_id domid mmu_ptr fault_addr mmu_val).

(** [m.x = v] on the record *)
Definition set_member (x : string) (v : Z) (m : message) : message :=
  mk_message (if String.eqb "operation" x then v else operation m) (if String.eqb "pfn_gref" x then v else pfn_gref m)
    (if String.eqb "pfn" x then v else msg_pfn m) (if String.eqb "process_id" x then v else process_id m)
    (if String.eqb "domid" x then v else domid m) (if String.eqb "mmu_ptr" x then v else mmu_ptr m)
    (if String.eqb "fault_addr" x then v else fault_addr m) (if String.eqb "mmu_val" x then v else mmu_val m).

(** The structs of a slot; the members that are used; the values a member has *)
Definition layouts : list (list (string * ctype)) :=
  [malpage_request_t; malpage_response_t; monitor_request_t; monitor_response_t].
Definition names : list string :=
  ["operation"; "pfn_gref"; "pfn"; "process_id"; "domid"; "mmu_ptr"; "fault_addr"; "mmu_val"].
Definition slot_size : nat := 88.
Definition fits_type (t : ctype) (v : Z) : Prop :=
  match t with CInt => is_s32 v | _ => 0 ≤ v < 256 ^ Z.of_nat (width t) end.
Definition fits_member (x : string) (v : Z) : Prop :=
  match member 0 malpage_request_t x with Some (_, t) => fits_type t v | None => False end.

(** ** Lemmas *)

Ltac in_names := unfold names; repeat first [left; reflexivity|right].

(** The structs place every member that is used alike, apart from the others, and
    have the size of the slot. *)
Lemma layout_members fs x : fs ∈ layouts → x ∈ names → member 0 fs x = member 0 malpage_request_t x.
Proof.
  intros Hfs Hx. unfold layouts, names in *. rewrite !elem_of_cons, elem_of_nil in Hfs. rewrite !elem_of_cons, elem_of_nil in Hx.
  by destruct Hfs as [->|[->|[->|[->|[]]]]]; destruct Hx as [->|[->|[->|[->|[->|[->|[->|[->|[]]]]]]]]].
Qed.

Lemma layout_size fs : fs ∈ layouts → Z.to_nat (size_of (CStruct fs)) = slot_size.
Proof. intros Hfs. unfold layouts in Hfs. rewrite !elem_of_cons, elem_of_nil in Hfs. by destruct Hfs as [->|[->|[->|[->|[]]]]]. Qed.

Definition places_apart (x y : string) : bool :=
  match member 0 malpage_request_t x, member 0 malpage_request_t y with
  | Some (o, t), Some (o', t') => String.eqb x y || bool_decide (o + size_of t ≤ o' ∨ o' + size_of t' ≤ o)
  | _, _ => false
  end.
Lemma members_apart x y : x ∈ names → y ∈ names → places_apart x y = true.
Proof.
  intros Hx Hy. assert (E : forallb (λ x, forallb (places_apart x) names) names = true) by by vm_compute.
  rewrite forallb_forall in E. specialize (E x ltac:(by apply list_elem_of_In)). rewrite forallb_forall in E.
  apply E. by apply list_elem_of_In.
Qed.

Lemma member_place x : x ∈ names → ∃ o t, member 0 malpage_request_t x = Some (o, t) ∧
  0 ≤ o ∧ o + Z.of_nat (width t) ≤ Z.of_nat slot_size ∧ Z.of_nat (width t) = size_of t ∧ (t = CInt → width t = 4%nat).
Proof.
  intros Hx. unfold names in Hx. rewrite !elem_of_cons, elem_of_nil in Hx.
  destruct Hx as [->|[->|[->|[->|[->|[->|[->|[->|[]]]]]]]]]; (do 2 eexists; split; [reflexivity|]; by vm_compute).
Qed.

(** Reading through one struct is reading through another. *)
Lemma load_member_layout fs x slot : fs ∈ layouts → x ∈ names → load_member fs x slot = load_member malpage_request_t x slot.
Proof. intros Hfs Hx. unfold load_member. by rewrite layout_members. Qed.

Lemma read_message_layout fs slot : fs ∈ layouts → read_message fs slot = read_message malpage_request_t slot.
Proof. intros Hfs. unfold read_message. by rewrite !(load_member_layout fs) by (done || in_names). Qed.

Lemma value_mod t v : fits_type t v → (t = CInt → width t = 4%nat) → value t (v mod 256 ^ Z.of_nat (width t)) = v.
Proof.
  intros Hv Ht. destruct t; cbn [value fits_type] in *; try (by apply Z.mod_small).
  rewrite Ht by done. change (256 ^ Z.of_nat 4) with (2 ^ 32). zwrap.
Qed.

(** A member that is written, and the others *)
Lemma store_load x v slot : x ∈ names → fits_member x v → length slot = slot_size →
  ∃ slot', store_member malpage_request_t x v slot = Ret slot' ∧ length slot' = slot_size ∧
    ∀ y, y ∈ names → load_member malpage_request_t y slot' =
      if String.eqb y x then Ret v else load_member malpage_request_t y slot.
Proof.
  intros Hx Hv Hl. destruct (member_place x Hx) as (o & t & E & Ho & Hw & Hs & Hint). unfold fits_member in Hv. rewrite E in Hv.
  unfold store_member. rewrite E. cbn [of_option mbind outcome_bind].
  destruct (put_field_run slot o (width t) (v mod 256 ^ Z.of_nat (width t))) as (slot' & Ep & Hl'); [done|by rewrite Hl|].
  exists slot'. split; [exact Ep|]. split; [by rewrite Hl'|]. intros y Hy.
  destruct (member_place y Hy) as (o' & t' & E' & _ & _ & Hs' & _). pose proof (members_apart y x Hy Hx) as Ha.
  unfold places_apart in Ha. rewrite E, E' in Ha. unfold load_member. rewrite E'. cbn [of_option mbind outcome_bind].
  destruct (String.eqb y x) eqn:Eyx.
  - apply String.eqb_eq in Eyx as ->. rewrite E in E'. injection E' as <- <-.
    rewrite (get_put_same _ _ _ _ _ Ep) by (apply Z.mod_pos_bound; lia). cbn [mbind outcome_bind]. by rewrite value_mod.
  - apply bool_decide_eq_true in Ha. by rewrite (get_put_other _ _ _ _ _ _ _ Ep) by lia.
Qed.

Lemma read_store x v slot m : x ∈ names → fits_member x v → length slot = slot_size → read_message malpage_request_t slot = Ret m →
  ∃ slot', store_member malpage_request_t x v slot = Ret slot' ∧ length slot' = slot_size ∧
    read_message malpage_request_t slot' = Ret (set_member x v m).
Proof.
  intros Hx Hv Hl Hm. destruct (store_load x v slot Hx Hv Hl) as (slot' & E & Hl' & Hload). exists slot'. do 2 (split; [done|]).
  unfold read_message in *. rewrite !Hload by in_names.
  repeat match goal with H : context [load_member ?fs ?y slot] |- _ => destruct (load_member fs y slot); [|done]; cbn [mbind outcome_bind] in H end.
  injection Hm as <-. unfold set_member. cbn [operation pfn_gref msg_pfn process_id domid mmu_ptr fault_addr mmu_val].
  by repeat match goal with |- context [String.eqb ?a x] => destruct (String.eqb a x) end.
Qed.

(** A slot always holds a message. *)
Lemma load_total x slot : x ∈ names → length slot = slot_size → ∃ v, load_member malpage_request_t x slot = Ret v.
Proof.
  intros Hx Hl. destruct (member_place x Hx) as (o & t & E & Ho & Hw & _). unfold load_member. rewrite E.
  cbn [of_option mbind outcome_bind]. destruct (get_field_run slot o (width t)) as (v & ->); [done|by rewrite Hl|]. by eexists.
Qed.

Lemma read_message_total slot : length slot = slot_size → ∃ m, read_message malpage_request_t slot = Ret m.
Proof.
  intros Hl. unfold read_message.
  repeat match goal with |- context [load_member ?fs ?y slot] =>
    let E := fresh "E" in destruct (load_total y slot) as (? & E); [in_names|done|]; rewrite E; clear E; cbn [mbind outcome_bind] end.
  by eexists.
Qed.

(** ** Properties *)

(** The reports that are members of them are laid out differently: a 16-bit
    [domid] and a [first_gref] in the one, neither in the other. *)
Example reports_differ :
  member 0 malpage_process_report_t "first_gref" ≠ member 0 monitor_process_report_t "first_gref" ∧
  member 0 malpage_process_report_t "domid" ≠ member 0 monitor_process_report_t "domid".
Proof. by vm_compute. Qed.

(** C40: the drivers are compiled against different structs, and yet a slot of the
    ring is one message to all of them.  Whatever its 88 bytes are, all four
    structs (request and response of either driver) read the same eight members;
    a member written through any of them, with any value of its type, changes
    that member and no other, however the slot is read afterwards; and a copy
    of the [sizeof] any of them has, as [memcpy] makes it between a slot and a
    local variable, is the whole message for all of them. *)
Theorem message_layout_agrees fs fs' slot :
  fs ∈ layouts → fs' ∈ layouts → length slot = slot_size →
  ∃ m, read_message fs slot = Ret m ∧ read_message fs' slot = Ret m ∧
    (∀ x v, x ∈ names → fits_member x v →
       ∃ slot', store_member fs x v slot = Ret slot' ∧ length slot' = slot_size ∧
         read_message fs' slot' = Ret (set_member x v m)) ∧
    (∀ dst, length dst = slot_size →
       length (copy_struct fs dst slot) = slot_size ∧ read_message fs' (copy_struct fs dst slot) = Ret m).
Proof.
  intros Hfs Hfs' Hl. rewrite !(read_message_layout fs), !(read_message_layout fs') by done.
  destruct (read_message_total slot Hl) as (m & Hm). exists m. split; [done|]. split; [done|]. split.
  - intros x v Hx Hv. destruct (read_store x v slot m Hx Hv Hl Hm) as (slot' & E & Hl' & E').
    exists slot'. unfold store_member in *. rewrite layout_members by done. rewrite read_message_layout by done. done.
  - intros dst Hd. unfold copy_struct. rewrite layout_size, take_ge, drop_ge, app_nil_r by (done || lia). split; [done|].
    by rewrite read_message_layout.
Qed.

(** A request of the domain for process 7, in a slot that held other bytes; the
    monitor's struct reads it. *)
Lemma message_layout_agrees_witness :
  ∃ m slot', read_message monitor_request_t (replicate 88 255) = Ret m ∧ domid m = -1 ∧
    store_member malpage_request_t "process_id" 7 (replicate 88 255) = Ret slot' ∧
    read_message monitor_request_t slot' = Ret (set_member "process_id" 7 m).
Proof.
  destruct (message_layout_agrees malpage_request_t monitor_request_t (replicate 88 255))
    as (m & _ & E & Hstore & _); [left|right; right; left|done|].
  destruct (Hstore "process_id" 7) as (slot' & E1 & _ & E2); [do 3 right; left|by vm_compute|].
  exists m, slot'. split; [exact E|]. split; [|exact (conj E1 E2)].
  assert (Hm : read_message monitor_request_t (replicate 88 255) = Ret (mk_message (2 ^ 32 - 1) (2 ^ 32 - 1) (2 ^ 32 - 1) (2 ^ 32 - 1)
    (-1) (2 ^ 64 - 1) (2 ^ 64 - 1) (2 ^ 64 - 1))) by by vm_compute.
  rewrite E in Hm. by injection Hm as ->.
Defined.
