(* ===== verification/Exepak.v ===== *)
(** * The packer (packers/exepak-1.5/src/exepak.c)

    exepak compresses the blocks of an executable with NRV2E, level 10, puts the
    extracting stub in front, and writes the result over the program; it makes
    no copy of the program before it does.  Files are a map from names; a call
    that may fail ([malloc], [fopen], [fread], [write], [rename], [fork], ...)
    asks an oracle with its number; the stub, which the build generates, is a
    parameter.  Data written with stdio is taken to be in the file when it is
    mapped ([ftell] comes before, and writes it out). *)

From S2P Require Import Prelude KernelText UclBits UclDecode UclEncode UclRoundtrip UclSwd UclCompress Stub.

(** ** Files and state *)

Record file : Type := mk_file { f_bytes : list Z; f_mode : Z; f_uid : Z; f_gid : Z; f_times : Z * Z }.
Definition set_bytes (l : list Z) (x : file) : file := mk_file l (f_mode x) (f_uid x) (f_gid x) (f_times x).

(** What [-t] prints about a file. *)
Inductive test_verdict : Type :=
  | CantStat | NotExecutable | IsDirectory | IsCompressed (version : Z) | Uncompressed | Unreadable.

(** The globals [blocksize], [testing], [extracting], [exepak_stub] (an array the
    packer modifies), [stub_wsize] and [zbufsz]; the files; how many calls that
    may fail were made; what [-t] printed. *)
Record exepak : Type := mk_exepak {
  x_blocksize : Z; x_testing : bool; x_extracting : bool;
  x_stub : list Z; x_wsize : Z; x_zbufsz : Z;
  x_files : gmap string file; x_calls : nat; x_said : list (string * test_verdict)
}.
Definition set_blocksize (n : Z) (s : exepak) : exepak :=
  mk_exepak n (x_testing s) (x_extracting s) (x_stub s) (x_wsize s) (x_zbufsz s) (x_files s) (x_calls s) (x_said s).
Definition set_testing (s : exepak) : exepak :=
  mk_exepak (x_blocksize s) true (x_extracting s) (x_stub s) (x_wsize s) (x_zbufsz s) (x_files s) (x_calls s) (x_said s).
Definition set_extracting (s : exepak) : exepak :=
  mk_exepak (x_blocksize s) (x_testing s) true (x_stub s) (x_wsize s) (x_zbufsz s) (x_files s) (x_calls s) (x_said s).
Definition set_stub (l : list Z) (s : exepak) : exepak :=
  mk_exepak (x_blocksize s) (x_testing s) (x_extracting s) l (x_wsize s) (x_zbufsz s) (x_files s) (x_calls s) (x_said s).
Definition set_wsize (n : Z) (s : exepak) : exepak :=
  mk_exepak (x_blocksize s) (x_testing s) (x_extracting s) (x_stub s) n (x_zbufsz s) (x_files s) (x_calls s) (x_said s).
Definition set_zbufsz (n : Z) (s : exepak) : exepak :=
  mk_exepak (x_blocksize s) (x_testing s) (x_extracting s) (x_stub s) (x_wsize s) n (x_files s) (x_calls s) (x_said s).
Definition set_files (m : gmap string file) (s : exepak) : exepak :=
  mk_exepak (x_blocksize s) (x_testing s) (x_extracting s) (x_stub s) (x_wsize s) (x_zbufsz s) m (x_calls s) (x_said s).
Definition called (s : exepak) : exepak :=
  mk_exepak (x_blocksize s) (x_testing s) (x_extracting s) (x_stub s) (x_wsize s) (x_zbufsz s) (x_files s) (S (x_calls s)) (x_said s).
Definition say (name : string) (v : test_verdict) (s : exepak) : exepak :=
  mk_exepak (x_blocksize s) (x_testing s) (x_extracting s) (x_stub s) (x_wsize s) (x_zbufsz s) (x_files s) (x_calls s)
    (x_said s ++ [(name, v)]).
Definition unlink (name : string) (s : exepak) : exepak := set_files (delete name (x_files s)) s.
Definition put_file (name : string) (x : file) (s : exepak) : exepak := set_files (<[name := x]> (x_files s)) s.

(** ** ELF headers (32 bit, little endian) *)

Definition e_type : Z := 16.
Definition e_phoff : Z := 28.
Definition e_shoff : Z := 32.
Definition e_ehsize : Z := 40.
Definition e_phentsize : Z := 42.
Definition e_phnum : Z := 44.
Definition e_shentsize : Z := 46.
Definition e_shnum : Z := 48.
Definition e_shstrndx : Z := 50.
Definition sizeof_Ehdr : Z := 52.
Definition sizeof_Phdr : Z := 32.
(** of the second program header *)
Definition p_offset (phoff : Z) : Z := phoff + sizeof_Phdr + 4.
Definition p_filesz (phoff : Z) : Z := phoff + sizeof_Phdr + 16.
Definition p_memsz (phoff : Z) : Z := phoff + sizeof_Phdr + 20.
Definition ELFMAG : list Z := [0x7f; 69; 76; 70].
Definition ET_EXEC : Z := 2.

(** The test [read_headers] and [append_stubfile] share. *)
Definition elf_exec (l : list Z) : outcome bool :=
  ty ← get_field l e_type 2;
  size ← get_field l e_ehsize 2;
  Ret (bool_decide (take 4 l = ELFMAG) && bool_decide (ty = ET_EXEC) && bool_decide (size = sizeof_Ehdr)).

Definition S_IXUSR : Z := 0x40.
Definition S_IXGRP : Z := 0x8.
Definition S_IXOTH : Z := 0x1.
Definition S_ISDIR (mode : Z) : bool := bool_decide (Z.land mode 0xF000 = 0x4000).
Definition executable (mode : Z) : bool :=
  negb (bool_decide (Z.land mode S_IXUSR = 0)) || negb (bool_decide (Z.land mode S_IXGRP = 0)) ||
  negb (bool_decide (Z.land mode S_IXOTH = 0)).

(** [sprintf(newfname,"%s~",infile)] into 256 bytes *)
Definition backup_name (infile : string) : outcome string :=
  if decide (slen infile + 2 ≤ 256) then Ret (infile +:+ "~") else Err OutOfBounds.

(** ** Environment *)

Section exepak.
  (** whether the k-th call that may fail succeeds; the user; the names of the
      temporary files; what the program with these bytes prints when it runs
      with the argument [>d], if it can be executed; whether [rename] finds two
      file systems; the memory [malloc] returns when the block at an offset of
      the file is compressed, and the stack; the byte of a buffer on the stack
      that is not written *)
  Context (sys_ok : nat → bool) (uid : Z) (comp_name decomp_name : string).
  Context (execute : list Z → option (list Z)) (exdev : bool).
  Context (heap : Z → nat → option (Z → Z)) (stack junk : Z).

Definition attempt (s : exepak) : bool * exepak := (sys_ok (x_calls s), called s).

(** [fopen(name, "w")]: an existing file keeps its owner and mode. *)
Definition create (name : string) (s : exepak) : exepak :=
  put_file name (match x_files s !! name with Some x => set_bytes [] x | None => mk_file [] 0x81A4 uid 0 (0, 0) end) s.

(** [write] or [fwrite] of [l] at the end of an open file: all of it, or
    nothing and an error. *)
Definition append (name : string) (l : list Z) (s : exepak) : bool * exepak :=
  let '(ok, s) := attempt s in
  if (ok : bool) then
    (true, match x_files s !! name with Some x => put_file name (set_bytes (f_bytes x ++ l) x) s | None => s end)
  else (false, s).

(** [char my_rename(char *oldname, char *newname)]; the loop over 64 KB copies
    the whole file. *)
Definition my_rename (oldname newname : string) (s : exepak) : Z * exepak :=
  match x_files s !! oldname with
  | None => (1, s)
  | Some x =>
      let '(ok, s) := attempt s in
      if (ok : bool) then (0, put_file newname x (unlink oldname s))
      else if negb exdev then (1, s)
      else
        let '(ok, s) := attempt s in
        if negb ok then (1, s)
        else
          let s := create newname s in
          let '(ok, s) := attempt s in
          if negb ok then (1, s)
          else
            let '(ok, s) := append newname (f_bytes x) s in
            if (ok : bool) then (0, unlink oldname s) else (1, s)
  end.

(** [int read_headers(int fd)] on the bytes of the file *)
Definition read_headers (l : list Z) (s : exepak) : outcome (bool * exepak) :=
  phoff ← get_field (x_stub s) e_phoff 4;
  off ← get_field (x_stub s) (p_offset phoff) 4;
  size ← get_field (x_stub s) (p_filesz phoff) 4;
  let s := set_wsize (s32 (off + size)) s in
  if decide (Z.of_nat (length l) < sizeof_Ehdr) then Ret (false, s)
  else ok ← elf_exec l; Ret (ok, s).

(** [int is_script(int fd)] *)
Definition is_script (l : list Z) : bool := bool_decide (take 2 l = [35; 33]).

(** The header of the stub once its section headers are gone and [size] bytes
    follow it, and the room its bss has for the tail. *)
Definition patch_stub (stub : list Z) (size : Z) : outcome (list Z * Z) :=
  phoff ← get_field stub e_phoff 4;
  stub ← put_field stub e_shoff 4 0;
  stub ← put_field stub e_shnum 2 0;
  stub ← put_field stub e_shentsize 2 0;
  stub ← put_field stub e_shstrndx 2 0;
  filesz ← get_field stub (p_filesz phoff) 4;
  memsz ← get_field stub (p_memsz phoff) 4;
  stub ← put_field stub (p_filesz phoff) 4 (u32 (filesz + (8 + size)));
  stub ← put_field stub (p_memsz phoff) 4 (u32 (memsz + (8 + size + 4)));
  Ret (stub, s32 (memsz - filesz - 8)).

(** From the first [write] of [append_stubfile] on: the stub, the two words, the
    tail of the mapped data, its head *)
Definition write_packed (body : list Z) (out : string) (mode size : Z) (s : exepak) : outcome (bool * exepak) :=
  if decide (Z.of_nat (length (x_stub s)) < x_wsize s ∨ x_wsize s < 0) then Err OutOfBounds
  else
    let '(ok, s) := append out (take (Z.to_nat (x_wsize s)) (x_stub s)) s in
    if negb ok then Ret (false, s) else
    let '(ok, s) := append out (le_bytes 4 size) s in
    if negb ok then Ret (false, s) else
    let '(ok, s) := append out (le_bytes 4 mode) s in
    if negb ok then Ret (false, s) else
    let '(ok, s) := attempt s in
    if negb ok then Ret (false, s)
    else if decide (x_zbufsz s < 0 ∨ size < x_zbufsz s) then Err OutOfBounds
    else
      let '(ok, s) := append out (drop (Z.to_nat (size - x_zbufsz s)) body) s in
      if negb ok then Ret (false, s) else
      let '(ok, s) := append out (take (Z.to_nat (size - x_zbufsz s)) body) s in
      Ret (ok, s).

(** [int append_stubfile(fdcompressed, fdout, stub, infstat, compressed_size)]:
    [body] is the compressed file, [mode] [infstat->st_mode]. *)
Definition append_stubfile (body : list Z) (out : string) (mode size : Z) (s : exepak) : outcome (bool * exepak) :=
  ok ← elf_exec (x_stub s);
  phoff ← get_field (x_stub s) e_phoff 4;
  phnum ← get_field (x_stub s) e_phnum 2;
  phentsize ← get_field (x_stub s) e_phentsize 2;
  if negb ok || bool_decide (phoff = 0 ∧ phnum ≠ 2 ∧ phentsize ≠ sizeof_Phdr) then Ret (false, s)
  else
    '(stub, z) ← patch_stub (x_stub s) size;
    write_packed body out mode size (set_zbufsz z (set_stub stub s)).

(** ** Compressing *)

(** [malloc(blocksize / 8 + blocksize + 256)], in 32 bits *)
Definition outbuf_size (blocksize : Z) : Z := u32 (u32 (blocksize / 8 + blocksize) + 256).

(** One block of at most [blocksize] bytes: its two sizes and its data, stored
    as it is when it does not shrink; [None] when the compressor fails. *)
Definition pack_block (blocksize : Z) (heap : nat → option (Z → Z)) (inbuf : list Z) : outcome (option (list Z)) :=
  '(r, outbuf) ← ucl_nrv_99_compress NRV2E false inbuf heap stack 10 None;
  if decide (outbuf_size blocksize < Z.of_nat (length outbuf)) then Err OutOfBounds
  else if decide (r ≠ UCL_E_OK) then Ret None
  else
    let n := Z.of_nat (length inbuf) in
    let outsize := Z.of_nat (length outbuf) in
    let '(outsize, frombuf) := if decide (n ≤ outsize) then (n, inbuf) else (outsize, outbuf) in
    Ret (Some (le_bytes 4 outsize ++ le_bytes 4 n ++ frombuf)).

(** [while ((n = fread(inbuf,1,blocksize,inf))) { ... }]: how much was read, or
    [None] when the function returns 0 from within; an error of [fread] looks
    like the end of the file; sizes and data are two calls of [fwrite]. *)
Fixpoint pack_loop (fuel : nat) (nread : Z) (rest : list Z) (s : exepak) : outcome (option Z * exepak) :=
  match rest with
  | [] => Ret (Some nread, s)
  | _ :: _ =>
      let '(ok, s) := attempt s in
      if negb ok then Ret (Some nread, s)
      else
        match fuel with
        | O => Err OutOfFuel
        | S n =>
            let inbuf := take (Z.to_nat (x_blocksize s)) rest in
            block ← pack_block (x_blocksize s) (heap nread) inbuf;
            match block with
            | None => Ret (None, unlink comp_name s)
            | Some b =>
                let '(ok, s) := append comp_name (take 8 b) s in
                if negb ok then Ret (None, unlink comp_name s)
                else
                  let '(ok, s) := append comp_name (drop 8 b) s in
                  if negb ok then Ret (None, unlink comp_name s)
                  else pack_loop n (nread + Z.of_nat (length inbuf)) (drop (Z.to_nat (x_blocksize s)) rest) s
            end
        end
  end.

(** [chown], [chmod] and [utime]; only the first may fail for the owner *)
Definition restore (infile : string) (old : file) (s : exepak) : exepak :=
  let '(ok, s) := attempt s in
  match x_files s !! infile with
  | Some x =>
      put_file infile (mk_file (f_bytes x) (f_mode old) (if (ok : bool) then f_uid old else f_uid x)
        (if (ok : bool) then f_gid old else f_gid x) (f_times old)) s
  | None => s
  end.

(** The test of who may touch a file, and which: owner or super-user, an
    executable, no directory *)
Definition may_replace (x : file) : bool :=
  (bool_decide (uid = 0) || bool_decide (f_uid x = uid)) && executable (f_mode x) && negb (S_ISDIR (f_mode x)).

(** From [oldsize = ftell(inf)] on: the stub and the blocks are written over the
    program, unless they are no shorter than it. *)
Definition replace_program (infile newfname : string) (old : file) (nread : Z) (s : exepak) : outcome (Z * exepak) :=
  let body := match x_files s !! comp_name with Some x => f_bytes x | None => [] end in
  let oldsize := s32 nread in
  let newsize := s32 (Z.of_nat (length body)) in
  let abandon s := let '(_, s) := my_rename newfname infile s in Ret (0, unlink comp_name s) in
  if decide (oldsize ≤ s32 (newsize + x_wsize s)) then abandon s
  else
    let '(ok, s) := attempt s in
    if negb ok then abandon s
    else
      let s := put_file infile (set_bytes [] old) s in
      '(ok, s) ← append_stubfile body infile (f_mode old) (u32 newsize) s;
      if negb ok then abandon s else Ret (1, restore infile old (unlink comp_name s)).

(** [char create_sfx_binary(char *infile)] *)
Definition create_sfx_binary (infile : string) (s : exepak) : outcome (Z * exepak) :=
  newfname ← backup_name infile;
  let '(ok, s) := attempt s in
  if negb ok then Ret (0, s)
  else match x_files s !! infile with
  | None => Ret (0, s)
  | Some old =>
      if negb (may_replace old) then Ret (0, s)
      else
        let '(ok, s) := attempt s in
        if negb ok then Ret (0, s)
        else
          '(elf, s) ← read_headers (f_bytes old) s;
          if negb (elf || is_script (f_bytes old)) then Ret (0, s)
          else
            let '(ok, s) := attempt s in
            if negb ok then Ret (0, s)
            else
              '(nread, s) ← pack_loop (length (f_bytes old)) 0 (f_bytes old) (create comp_name s);
              match nread with
              | None => Ret (0, s)
              | Some nread =>
                  if decide (nread = 0) then Ret (0, unlink comp_name s)
                  else replace_program infile newfname old nread s
              end
  end.

(** ** The marker *)

Fixpoint prefix_of_bytes (m l : list Z) : bool :=
  match m, l with
  | [], _ => true
  | x :: m', y :: l' => bool_decide (x = y) && prefix_of_bytes m' l'
  | _, _ => false
  end.
(** [strstr] *)
Fixpoint contains (m l : list Z) : bool :=
  prefix_of_bytes m l || match l with [] => false | _ :: l' => contains m l' end.

Definition marker_1_0 : list Z := map (Z.add 1) [68; 87; 68; 79; 64; 74].
Definition marker_1_1 : list Z := map (Z.add 1) [68; 79; 74; 48; 48].

(** The buffer as [strstr] sees it: nulls are replaced, [buf[n]] is not written. *)
Definition as_string (buf : list Z) : list Z :=
  map (λ b, if decide (b = 0) then 1 else b) buf ++ (if decide (junk = 0) then [] else [junk]).

(** [char check_already_compressed(char *fname)] *)
Definition check_already_compressed (fname : string) (s : exepak) : Z * exepak :=
  match x_files s !! fname with
  | None => (0, s)
  | Some x =>
      if negb (executable (f_mode x)) || S_ISDIR (f_mode x) then (0, s)
      else
        let '(ok, s) := attempt s in
        if negb ok then (0, s)
        else
          let buf := take (Z.to_nat 16384) (f_bytes x) in
          if decide (buf = []) then (0, s)
          else
            let buf := as_string buf in
            (if contains marker_1_0 buf then 1 else if contains marker_1_1 buf then 2 else 0, s)
  end.

(** ** Decompressing *)

(** "can't extract" *)
Definition cant_extract : list Z := [99; 97; 110; 39; 116; 32; 101; 120; 116; 114; 97; 99; 116].

(** A buffer as a string *)
Fixpoint c_string (l : list Z) : list Z :=
  match l with [] => [] | x :: l' => if decide (x = 0) then [] else x :: c_string l' end.

(** [char decompress_sfx_binary(char *infile)]: the output of the packed program
    replaces it, unless it is short or an error message.  A child that cannot
    execute the program goes on with the code of its parent, and both wait for
    output of the pipe whose other end the child holds. *)
Definition decompress_sfx_binary (infile : string) (s : exepak) : outcome (Z * exepak) :=
  newfname ← backup_name infile;
  match x_files s !! infile with
  | None => Ret (0, s)
  | Some old =>
      if negb (may_replace old) then Ret (0, s)
      else
        let '(ok, s) := attempt s in
        if negb ok then Ret (0, s)
        else
          let s := create decomp_name s in
          let '(ok, s) := attempt s in
          if negb ok then Ret (0, unlink decomp_name s)
          else
            let '(ok, s) := attempt s in
            if negb ok then Ret (0, unlink decomp_name s)
            else
              out ← of_option SelfDeadlock (execute (f_bytes old));
              let '(ok, s) := append decomp_name out s in
              if negb ok then Ret (0, unlink decomp_name s)
              else if decide (Z.of_nat (length out) < 128) then Ret (0, unlink decomp_name s)
              else if contains cant_extract (c_string (take 128 out ++ [junk])) then Ret (0, unlink decomp_name s)
              else
                let '(r, s) := my_rename decomp_name infile (unlink infile s) in
                if decide (r ≠ 0) then
                  let '(_, s) := my_rename newfname infile (unlink decomp_name s) in Ret (0, s)
                else Ret (1, restore infile old s)
  end.

(** ** The command *)

(** [atoi]; a value that is too large wraps. *)
Definition char_code (c : Ascii.ascii) : Z := Z.of_N (Ascii.N_of_ascii c).
Fixpoint atoi_digits (acc : Z) (a : string) : Z :=
  match a with
  | String c a' => if decide (48 ≤ char_code c ≤ 57) then atoi_digits (acc * 10 + (char_code c - 48)) a' else acc
  | EmptyString => acc
  end.
Fixpoint atoi (a : string) : Z :=
  match a with
  | String c a' =>
      if decide (char_code c = 32 ∨ 9 ≤ char_code c ≤ 13) then atoi a'
      else if decide (char_code c = 45) then s32 (- atoi_digits 0 a')
      else if decide (char_code c = 43) then s32 (atoi_digits 0 a')
      else s32 (atoi_digits 0 a)
  | EmptyString => 0
  end.

(** [char *tospaces(char *str)], into 512 bytes *)
Definition tospaces (a : string) : outcome string :=
  if decide (slen a + 1 ≤ 512) then Ret (String.string_of_list_ascii (repeat (Ascii.ascii_of_nat 32) (String.length a)))
  else Err OutOfBounds.

(** An argument that begins with [-]: [None] is [bad_options], which exits. *)
Definition option_arg (a : string) (s : exepak) : option exepak :=
  match a with
  | String c v =>
      if decide (char_code c = 98) then
        let blocksize := u32 (1024 * atoi v) in
        if decide (blocksize ≤ 1024 * 16) then None else Some (set_blocksize blocksize s)
      else if decide (char_code c = 116) then Some (set_testing s)
      else if decide (char_code c = 120 ∨ char_code c = 100) then Some (set_extracting s)
      else None
  | EmptyString => None
  end.

(** [-t] *)
Definition test_file (name : string) (s : exepak) : exepak :=
  match x_files s !! name with
  | None => say name CantStat s
  | Some x =>
      if decide (Z.land (f_mode x) S_IXUSR = 0 ∧ Z.land (f_mode x) S_IXGRP = 0) then
        if decide (Z.land (f_mode x) S_IXOTH = 0) then say name NotExecutable s else s
      else if S_ISDIR (f_mode x) then say name IsDirectory s
      else
        let '(ok, s) := attempt s in
        if negb ok then say name Unreadable s
        else
          let '(v, s) := check_already_compressed name s in
          say name (if decide (v = 0) then Uncompressed else IsCompressed v) s
  end.

(** An argument that names a file *)
Definition file_arg (a : string) (s : exepak) : outcome exepak :=
  if x_testing s then Ret (test_file a s)
  else
    let '(v, s) := check_already_compressed a s in
    if x_extracting s then
      if decide (v = 0) then Ret s
      else if decide (v = 2) then '(_, s) ← decompress_sfx_binary a s; Ret s
      else _ ← tospaces a; Ret s
    else if decide (v = 0) then '(_, s) ← create_sfx_binary a s; Ret s
    else Ret s.

(** [int main(int argc, char *argv[])] on [argv[1]], ... *)
Fixpoint main (args : list string) (s : exepak) : outcome exepak :=
  match args with
  | [] => Ret s
  | a :: args' =>
      match a with
      | String c v =>
          if decide (char_code c = 45) then
            match option_arg v s with Some s => main args' s | None => Ret s end
          else s ← file_arg a s; main args' s
      | EmptyString => s ← file_arg a s; main args' s
      end
  end.

End exepak.
