(* ===== verification/ExepakCorrect.v ===== *)
(** * What exepak does to a program

    The theorems about the packer as a whole: a packed program, as the kernel
    maps it by its own program header, extracts itself to what it was, and
    [exepak -x] restores it with its owner, mode and times; and the ways in
    which a program is lost. *)

From S2P Require Import Prelude KernelText UclBits UclDecode UclEncode UclRoundtrip UclSwd UclCompress UclCorrect UclSize Stub Exepak.

(** ** The stub *)

(** What [append_stubfile] relies on, and the fields of the second program header *)
Record stub_fields (stub : list Z) (phoff off filesz memsz : Z) : Prop := mk_stub_fields {
  sf_elf : elf_exec stub = Ret true;
  sf_phoff : get_field stub e_phoff 4 = Ret phoff;
  sf_room : sizeof_Ehdr ≤ phoff ∧ phoff + 2 * sizeof_Phdr ≤ Z.of_nat (length stub);
  sf_off : get_field stub (p_offset phoff) 4 = Ret off;
  sf_filesz : get_field stub (p_filesz phoff) 4 = Ret filesz;
  sf_memsz : get_field stub (p_memsz phoff) 4 = Ret memsz
}.

Ltac field_offsets := unfold p_offset, p_filesz, p_memsz, e_type, e_phoff, e_shoff, e_ehsize, e_phentsize, e_phnum, e_shentsize, e_shnum, e_shstrndx,
  sizeof_Ehdr, sizeof_Phdr in *.

(** Writing a field that is none of these leaves them *)
Lemma stub_fields_put stub phoff off filesz memsz o n v stub' :
  stub_fields stub phoff off filesz memsz → put_field stub o n v = Ret stub' →
  e_shoff ≤ o →
  (o + Z.of_nat n ≤ e_ehsize ∨ e_ehsize + 2 ≤ o) → (o + Z.of_nat n ≤ phoff ∨ p_memsz phoff + 4 ≤ o) →
  stub_fields stub' phoff off filesz memsz ∧ length stub' = length stub.
Proof.
  intros [H1 H2 H3 H4 H5 H6] E Ho1 Ho2 Ho3. destruct (put_field_lookup _ _ _ _ _ 0 E) as [Hl _]. split; [|done].
  field_offsets. split; field_offsets; rewrite ?Hl; try done.
  - unfold elf_exec in *. field_offsets.
    rewrite (get_put_other _ _ _ _ _ _ _ E), (get_put_other _ _ _ _ _ _ _ E), (put_take _ _ _ _ _ 4 E) by lia. done.
  - by rewrite (get_put_other _ _ _ _ _ _ _ E) by lia.
  - by rewrite (get_put_other _ _ _ _ _ _ _ E) by lia.
  - by rewrite (get_put_other _ _ _ _ _ _ _ E) by lia.
  - by rewrite (get_put_other _ _ _ _ _ _ _ E) by lia.
Qed.

Lemma patch_stub_run stub phoff off filesz memsz size :
  stub_fields stub phoff off filesz memsz →
  ∃ stub', patch_stub stub size = Ret (stub', s32 (memsz - filesz - 8)) ∧ length stub' = length stub ∧
    stub_fields stub' phoff off (u32 (filesz + (8 + size))) (u32 (memsz + (8 + size + 4))).
Proof.
  intros H. unfold patch_stub. rewrite (sf_phoff _ _ _ _ _ H). cbn [mbind outcome_bind].
  assert (Hput : ∀ s o n v, stub_fields s phoff off filesz memsz → length s = length stub →
    e_shoff ≤ o → (o + Z.of_nat n ≤ e_ehsize ∨ e_ehsize + 2 ≤ o) → o + Z.of_nat n ≤ sizeof_Ehdr →
    ∃ s', put_field s o n v = Ret s' ∧ stub_fields s' phoff off filesz memsz ∧ length s' = length stub).
  { intros s o n v Hs Hl Ho1 Ho2 Ho3. destruct (sf_room _ _ _ _ _ H) as [Hr1 Hr2]. field_offsets.
    destruct (put_field_run s o n v) as (s' & E & Hl'); [lia|lia|]. exists s'. split; [done|].
    destruct (stub_fields_put _ _ _ _ _ _ _ _ _ Hs E) as [? ?]; field_offsets; try lia. split; [done|lia]. }
  field_offsets. destruct (Hput stub 32 4%nat 0) as (s1 & -> & H1 & L1); try lia; [done|]. cbn [mbind outcome_bind].
  destruct (Hput s1 48 2%nat 0) as (s2 & -> & H2 & L2); try lia; [done|]. cbn [mbind outcome_bind].
  destruct (Hput s2 46 2%nat 0) as (s3 & -> & H3 & L3); try lia; [done|]. cbn [mbind outcome_bind].
  destruct (Hput s3 50 2%nat 0) as (s4 & -> & H4 & L4); try lia; [done|]. cbn [mbind outcome_bind].
  clear Hput H1 H2 H3. destruct H4 as [G1 G2 G3 G4 G5 G6]. field_offsets. rewrite G5, G6. cbn [mbind outcome_bind].
  destruct (put_field_run s4 (phoff + 32 + 16) 4 (u32 (filesz + (8 + size)))) as (s5 & E5 & L5); [lia|lia|].
  rewrite E5. cbn [mbind outcome_bind].
  destruct (put_field_run s5 (phoff + 32 + 20) 4 (u32 (memsz + (8 + size + 4)))) as (s6 & E6 & L6); [lia|lia|].
  rewrite E6. cbn [mbind outcome_bind]. exists s6. split; [done|]. split; [congruence|].
  assert (Hother : ∀ o n, o + Z.of_nat n ≤ phoff + 32 + 16 → get_field s6 o n = get_field s4 o n).
  { intros o n Ho. by rewrite (get_put_other _ _ _ _ _ _ _ E6), (get_put_other _ _ _ _ _ _ _ E5) by lia. }
  split; field_offsets; rewrite ?L6, ?L5; try done.
  - unfold elf_exec in *. field_offsets. rewrite !Hother by lia.
    by rewrite (put_take _ _ _ _ _ 4 E6), (put_take _ _ _ _ _ 4 E5) by lia.
  - by rewrite Hother by lia.
  - by rewrite Hother by lia.
  - rewrite (get_put_other _ _ _ _ _ _ _ E6) by lia. apply (get_put_same _ _ _ _ _ E5), u32_range.
  - apply (get_put_same _ _ _ _ _ E6), u32_range.
Qed.

(** ** Running a packed program *)

(** The second program header is mapped: its bytes of the file, then zeros.  The
    kernel goes by the header that is in the file. *)
Definition map_segment (l : list Z) : outcome (list Z) :=
  phoff ← get_field l e_phoff 4;
  off ← get_field l (p_offset phoff) 4;
  filesz ← get_field l (p_filesz phoff) 4;
  memsz ← get_field l (p_memsz phoff) 4;
  if decide (off + filesz ≤ Z.of_nat (length l) ∧ filesz ≤ memsz) then
    Ret (take (Z.to_nat filesz) (drop (Z.to_nat off) l) ++ replicate (Z.to_nat (memsz - filesz)) 0)
  else Err OutOfBounds.

(** What makes [l] the program [stub] up to its byte [w]: all but the section
    header fields of the ELF header and the two sizes of the second segment *)
Definition code (phoff w : Z) (l : list Z) : list Z :=
  take 32 l ++ drop 52 (take (Z.to_nat (phoff + 48)) l) ++ drop (Z.to_nat (phoff + 56)) (take (Z.to_nat w) l).

(** What the file [l] prints when it is run with [>d], where [stub] is the stub
    as it was linked: its [bss_begin] is where the file part of its second
    segment ended then, and its [mapcompressed] where its bss ended.  A file
    that is not the stub is not known to print anything. *)
Definition run_linked (stub l : list Z) : outcome (list Z) :=
  phoff ← get_field stub e_phoff 4;
  off ← get_field stub (p_offset phoff) 4;
  filesz ← get_field stub (p_filesz phoff) 4;
  memsz ← get_field stub (p_memsz phoff) 4;
  ok ← elf_exec l;
  mem ← map_segment l;
  if decide (ok = true ∧ code phoff (off + filesz) l = code phoff (off + filesz) stub) then
    dump (Z.to_nat (memsz - filesz - 8)) (drop (Z.to_nat filesz) mem)
  else Err OutOfBounds.
Definition run_packed (stub l : list Z) : option (list Z) :=
  match run_linked stub l with Ret out => Some out | Err _ => None end.

(** A stub with other section header fields and sizes *)
Definition patched (phoff : Z) (stub stub' : list Z) : Prop :=
  length stub' = length stub ∧
  ∀ i, (i < 32 ∨ 52 ≤ i)%nat → Z.of_nat i < phoff + 48 ∨ phoff + 56 ≤ Z.of_nat i → stub' !! i = stub !! i.

Lemma patched_refl phoff stub : patched phoff stub stub.
Proof. done. Qed.

Lemma patched_put phoff stub l o n v l' :
  patched phoff stub l → put_field l o n v = Ret l' →
  32 ≤ o ∧ o + Z.of_nat n ≤ 52 ∨ phoff + 48 ≤ o ∧ o + Z.of_nat n ≤ phoff + 56 → patched phoff stub l'.
Proof.
  intros [Hl Hi] E Ho. assert (0 ≤ o) by (unfold put_field in E; by destruct (decide _) as [[? _]|] in E). split.
  - destruct (put_field_lookup _ _ _ _ _ 0 E) as [-> _]. done.
  - intros i H1 H2. destruct (put_field_lookup _ _ _ _ _ i E) as [_ ->]. rewrite decide_False by lia. by apply Hi.
Qed.

Lemma patch_stub_patched stub size stub' z phoff :
  patch_stub stub size = Ret (stub', z) → get_field stub e_phoff 4 = Ret phoff → patched phoff stub stub'.
Proof.
  intros E Hphoff. unfold patch_stub in E. rewrite Hphoff in E. cbn [mbind outcome_bind] in E. field_offsets.
  destruct (put_field stub 32 4 0) as [s1|] eqn:E1; [|done]. cbn [mbind outcome_bind] in E.
  destruct (put_field s1 48 2 0) as [s2|] eqn:E2; [|done]. cbn [mbind outcome_bind] in E.
  destruct (put_field s2 46 2 0) as [s3|] eqn:E3; [|done]. cbn [mbind outcome_bind] in E.
  destruct (put_field s3 50 2 0) as [s4|] eqn:E4; [|done]. cbn [mbind outcome_bind] in E.
  destruct (get_field s4 (phoff + 32 + 16) 4) as [filesz|]; [|done]. cbn [mbind outcome_bind] in E.
  destruct (get_field s4 (phoff + 32 + 20) 4) as [memsz|]; [|done]. cbn [mbind outcome_bind] in E.
  destruct (put_field s4 (phoff + 32 + 16) 4 _) as [s5|] eqn:E5; [|done]. cbn [mbind outcome_bind] in E.
  destruct (put_field s5 (phoff + 32 + 20) 4 _) as [s6|] eqn:E6; [|done]. cbn [mbind outcome_bind] in E. injection E as <- _.
  eapply patched_put; [|exact E6|lia]. eapply patched_put; [|exact E5|lia]. eapply patched_put; [|exact E4|lia].
  eapply patched_put; [|exact E3|lia]. eapply patched_put; [|exact E2|lia]. eapply patched_put; [|exact E1|lia]. apply patched_refl.
Qed.

(** The packer's changes are outside the code. *)
Lemma code_patched phoff w stub stub' r :
  patched phoff stub stub' → 52 ≤ phoff → phoff + 64 ≤ w ≤ Z.of_nat (length stub) →
  code phoff w (take (Z.to_nat w) stub' ++ r) = code phoff w stub.
Proof.
  intros [Hl Hi] Hp Hw. set (l := take (Z.to_nat w) stub' ++ r).
  assert (Hlook : ∀ i, (i < 32 ∨ 52 ≤ i)%nat → Z.of_nat i < phoff + 48 ∨ phoff + 56 ≤ Z.of_nat i < w → l !! i = stub !! i).
  { intros i H1 H2. unfold l. rewrite lookup_app_l by (rewrite length_take; lia). rewrite lookup_take_lt by lia. apply Hi; lia. }
  clearbody l. unfold code. f_equal; [|f_equal]; apply list_eq; intros i.
  - destruct (decide (i < 32)%nat); [|by rewrite !lookup_take_ge by lia]. rewrite !lookup_take_lt by lia. apply Hlook; lia.
  - rewrite !lookup_drop. destruct (decide (52 + i < Z.to_nat (phoff + 48))%nat); [|by rewrite !lookup_take_ge by lia].
    rewrite !lookup_take_lt by lia. apply Hlook; lia.
  - rewrite !lookup_drop. destruct (decide (Z.to_nat (phoff + 56) + i < Z.to_nat w)%nat); [|by rewrite !lookup_take_ge by lia].
    rewrite !lookup_take_lt by lia. apply Hlook; lia.
Qed.

(** ** Blocks *)

Section packer.
  Context (sys_ok : nat → bool) (uid : Z) (comp_name decomp_name : string).
  Context (exdev : bool) (heap : Z → nat → option (Z → Z)) (stack junk : Z).
  (** the allocator has memory for the compressor *)
  Context (Hheap : ∀ pos k, (k < 6)%nat → is_Some (heap pos k)).

(** The sizes for which the output buffer is certain to be large enough *)
Definition block_size_ok (blocksize : Z) : Prop := 16 * 1024 < blocksize ≤ near_offset NRV2E.

Lemma pack_block_run blocksize pos inbuf :
  block_size_ok blocksize → bytes_ok inbuf → (0 < length inbuf)%nat → Z.of_nat (length inbuf) ≤ blocksize →
  ∃ data, pack_block stack blocksize (heap pos) inbuf = Ret (Some (block data inbuf)) ∧ stored data inbuf.
Proof.
  intros [Hb1 Hb2] Hin Hpos Hlen. assert (Hnear : Z.of_nat (length inbuf) ≤ near_offset NRV2E) by lia. unfold near_offset in Hb2.
  assert (Hlt : Z.of_nat (length inbuf) < 2 ^ 32) by lia.
  destruct (compress_run NRV2E false inbuf (heap pos) stack 10 None Hin Hlt) as (ps & final & E & Hexp & Hok & _);
    [by vm_compute| |apply Hheap|].
  { split; [lia|]. split; [by left|]. split; [by left|]. split; [by vm_compute|]. left. by vm_compute. }
  change (group_bytes _) with 1%nat in E. set (out := layout 1 0 (stream NRV2E 1 ps final)) in E.
  pose proof (stream_near NRV2E 1 ps final ltac:(lia) Hok ltac:(by rewrite Hexp)) as Hout. rewrite Hexp in Hout. fold out in Hout. cbv zeta in Hout.
  unfold pack_block. rewrite E. cbn [mbind outcome_bind].
  assert (Hcap : Z.of_nat (length out) ≤ outbuf_size blocksize).
  { unfold outbuf_size. rewrite (u32_small (_ / 8 + _)), u32_small; unfold is_u32; Z.div_mod_to_equations; lia. }
  rewrite decide_False by lia. rewrite decide_False by (intros H; by apply H).
  destruct (decide (Z.of_nat (length inbuf) ≤ Z.of_nat (length out))) as [Hbig|Hsmall].
  - exists inbuf. split; [done|]. split; [done|]. split; [done|]. by left.
  - exists out. split; [done|]. split; [lia|]. split; [lia|]. right. split; [lia|]. intros fuel rest dst Hrest Hdst Hfuel.
    rewrite <-Hexp. rewrite <-Hexp in Hdst, Hfuel, Hlt. by apply (decompress_stream (BB := buffer_8)).
Qed.

(** What the blocks of a file become *)
Fixpoint pack_blocks (blocksize : Z) (fuel : nat) (pos : Z) (rest : list Z) : outcome (option (list Z)) :=
  match rest, fuel with
  | [], _ => Ret (Some [])
  | _ :: _, O => Err OutOfFuel
  | _ :: _, S n =>
      let inbuf := take (Z.to_nat blocksize) rest in
      b ← pack_block stack blocksize (heap pos) inbuf;
      l ← pack_blocks blocksize n (pos + Z.of_nat (length inbuf)) (drop (Z.to_nat blocksize) rest);
      Ret (b ← b; l ← l; Some (b ++ l))
  end.

(** The state after [k] calls, with the files [m]; the rest is as it was *)
Definition after (k : nat) (m : gmap string file) (s : exepak) : exepak :=
  mk_exepak (x_blocksize s) (x_testing s) (x_extracting s) (x_stub s) (x_wsize s) (x_zbufsz s) m (k + x_calls s) (x_said s).

(** All calls from here on succeed. *)
Definition calls_ok (s : exepak) : Prop := ∀ k, (x_calls s ≤ k)%nat → sys_ok k = true.

Lemma attempt_ok s : calls_ok s → attempt sys_ok s = (true, called s).
Proof. intros H. unfold attempt. by rewrite H. Qed.

Lemma calls_ok_called s : calls_ok s → calls_ok (called s).
Proof. intros H k Hk. apply H. simpl in Hk. lia. Qed.

Lemma append_ok name l f s :
  calls_ok s → x_files s !! name = Some f →
  append sys_ok name l s = (true, after 1 (<[name := set_bytes (f_bytes f ++ l) f]> (x_files s)) s).
Proof. intros H Hf. unfold append. rewrite attempt_ok by done. cbn [x_files called]. by rewrite Hf. Qed.

Lemma calls_ok_after k m s : calls_ok s → calls_ok (after k m s).
Proof. intros H j Hj. apply H. simpl in Hj. lia. Qed.

Lemma after_after k m k' m' s : after k m (after k' m' s) = after (k + k') m s.
Proof. unfold after. simpl. by rewrite Nat.add_assoc. Qed.

Lemma called_after k m s : called (after k m s) = after (S k) m s.
Proof. done. Qed.

Lemma set_bytes_twice l l' f : set_bytes l (set_bytes l' f) = set_bytes l f.
Proof. done. Qed.

Lemma after_nothing s f :
  x_files s !! comp_name = Some f →
  after 0 (<[comp_name := set_bytes (f_bytes f ++ blocks_bytes []) f]> (x_files s)) s = s.
Proof.
  intros Hf. unfold blocks_bytes. csimpl. rewrite app_nil_r.
  replace (set_bytes (f_bytes f) f) with f by (by destruct f). rewrite insert_id by done. by destruct s.
Qed.

(** The blocks of a file, none longer than the first *)
Definition blocks_of (blocksize : Z) (rest : list Z) (bl : list (list Z * list Z)) : Prop :=
  concat bl.*2 = rest ∧
  Forall (λ b, stored b.1 b.2 ∧ (length b.2 ≤ length (take (Z.to_nat blocksize) rest))%nat) bl ∧
  (rest ≠ [] → ∃ data l, bl = (data, take (Z.to_nat blocksize) rest) :: l).

Lemma blocks_bound blocksize rest bl :
  blocks_of blocksize rest bl → (length (blocks_bytes bl) ≤ 9 * length rest)%nat.
Proof.
  intros (<- & Hall & _). apply (Forall_impl _ (λ b, stored b.1 b.2)) in Hall; [|by intros b [? _]].
  unfold blocks_bytes. induction Hall as [|[data inbuf] l (H1 & H2 & _) Hall IH]; [done|].
  csimpl. rewrite !length_app. pose proof (block_length data inbuf). cbn [fst snd] in *. lia.
Qed.

Lemma pack_loop_run fuel : ∀ nread rest s f,
  calls_ok s → block_size_ok (x_blocksize s) → bytes_ok rest → (length rest ≤ fuel)%nat →
  x_files s !! comp_name = Some f →
  ∃ bl k, pack_blocks (x_blocksize s) fuel nread rest = Ret (Some (blocks_bytes bl)) ∧
    blocks_of (x_blocksize s) rest bl ∧
    pack_loop sys_ok comp_name heap stack fuel nread rest s =
      Ret (Some (nread + Z.of_nat (length rest)),
        after k (<[comp_name := set_bytes (f_bytes f ++ blocks_bytes bl) f]> (x_files s)) s).
Proof.
  induction fuel as [|fuel IH]; intros nread rest s f Hcalls Hbs Hrest Hfuel Hf.
  - destruct rest; [|simpl in Hfuel; lia]. exists [], 0%nat. split; [done|]. split; [by split|].
    cbn [pack_loop]. by rewrite Z.add_0_r, (after_nothing s f).
  - destruct rest as [|x0 rest0] eqn:Er.
    { exists [], 0%nat. split; [done|]. split; [by split|]. cbn [pack_loop]. by rewrite Z.add_0_r, (after_nothing s f). }
    rewrite <-Er in *. assert (Hne : (0 < length rest)%nat) by (rewrite Er; simpl; lia).
    set (bs := Z.to_nat (x_blocksize s)). assert (Hbs' : (0 < bs)%nat) by (destruct Hbs; unfold bs; lia).
    set (inbuf := take bs rest).
    assert (Hin : length inbuf = (bs `min` length rest)%nat) by apply length_take.
    destruct (pack_block_run (x_blocksize s) nread inbuf Hbs) as (data & Eb & Hstored); [by apply Forall_take|lia|lia|].
    destruct (IH (nread + Z.of_nat (length inbuf)) (drop bs rest)
      (after 3 (<[comp_name := set_bytes (f_bytes f ++ block data inbuf) f]> (x_files s)) s)
      (set_bytes (f_bytes f ++ block data inbuf) f)) as (bl & k & Ebl & (Hc & Hall & Hhd) & El).
    { by apply calls_ok_after. } { done. } { by apply Forall_drop. } { rewrite length_drop. lia. }
    { apply lookup_insert_eq. }
    exists ((data, inbuf) :: bl), (k + 3)%nat. split; [|split].
    + rewrite Er. cbn [pack_blocks]. rewrite <-Er. fold bs inbuf. rewrite Eb. cbn [mbind outcome_bind].
      cbn [after x_blocksize] in Ebl. by rewrite Ebl.
    + split; [|split].
      * change (inbuf ++ concat bl.*2 = rest). rewrite Hc. apply take_drop.
      * apply Forall_cons_2; [by split; [|cbn [snd]]|]. eapply Forall_impl; [exact Hall|].
        intros b [Hb Hl]. split; [done|]. cbn [after x_blocksize] in Hl. fold bs in Hl |- *. fold inbuf.
        rewrite length_take, length_drop in Hl. lia.
      * intros _. by do 2 eexists.
    + rewrite Er. cbn [pack_loop]. rewrite <-Er. rewrite attempt_ok by done. cbn [negb].
      change (x_blocksize (called s)) with (x_blocksize s). fold bs inbuf. rewrite Eb. cbn [mbind outcome_bind].
      rewrite (append_ok comp_name _ f) by (done || by apply calls_ok_called). cbn [negb].
      rewrite (append_ok comp_name _ (set_bytes (f_bytes f ++ take 8 (block data inbuf)) f));
        [|by apply calls_ok_after, calls_ok_called|apply lookup_insert_eq]. cbn [negb].
      rewrite set_bytes_twice, after_after. cbn [set_bytes f_bytes after x_files called].
      rewrite <-(app_assoc (f_bytes f)), take_drop, insert_insert_eq.
      change (after _ _ (called s)) with (after 3 (<[comp_name := set_bytes (f_bytes f ++ block data inbuf) f]> (x_files s)) s).
      cbn [after x_blocksize] in El |- *. fold bs. rewrite El. rewrite !after_after. do 3 f_equal.
      * rewrite length_drop, Hin. lia.
      * cbn [after x_files set_bytes f_bytes]. rewrite insert_insert_eq, <-app_assoc. done.
Qed.

(** ** Writing the stub *)

(** The bytes of a packed program, the first of the stub being those of [stub] *)
Definition packed (stub : list Z) (w : Z) (z : nat) (mode : Z) (body : list Z) : list Z :=
  let n := (length body - z)%nat in
  take (Z.to_nat w) stub ++ le_bytes 4 (Z.of_nat (length body)) ++ le_bytes 4 mode ++ drop n body ++ take n body.

Lemma stub_paranoia stub phoff off filesz memsz :
  stub_fields stub phoff off filesz memsz →
  ∃ phnum phentsize, get_field stub e_phnum 2 = Ret phnum ∧ get_field stub e_phentsize 2 = Ret phentsize ∧ phoff ≠ 0.
Proof.
  intros [_ _ Hroom _ _ _]. field_offsets.
  destruct (get_field_run stub 44 2) as [phnum H1]; [lia|lia|].
  destruct (get_field_run stub 42 2) as [phentsize H2]; [lia|lia|].
  exists phnum, phentsize. split; [done|]. split; [done|lia].
Qed.

Lemma append_stubfile_patched s body out mode size phoff off filesz memsz :
  stub_fields (x_stub s) phoff off filesz memsz →
  ∃ stub', patched phoff (x_stub s) stub' ∧
    stub_fields stub' phoff off (u32 (filesz + (8 + size))) (u32 (memsz + (8 + size + 4))) ∧
    append_stubfile sys_ok body out mode size s =
      write_packed sys_ok body out mode size (set_zbufsz (s32 (memsz - filesz - 8)) (set_stub stub' s)).
Proof.
  intros Hstub. unfold append_stubfile. destruct (stub_paranoia _ _ _ _ _ Hstub) as (phnum & phentsize & E1 & E2 & Hne).
  rewrite (sf_elf _ _ _ _ _ Hstub), (sf_phoff _ _ _ _ _ Hstub), E1, E2. cbn [mbind outcome_bind negb orb].
  rewrite bool_decide_false by (intros [? _]; done).
  destruct (patch_stub_run _ _ _ _ _ size Hstub) as (stub' & Ep & _ & Hstub'). rewrite Ep. exists stub'.
  split; [exact (patch_stub_patched _ _ _ _ _ Ep (sf_phoff _ _ _ _ _ Hstub))|done].
Qed.

(** The stub and the two words are written, the data is mapped. *)
Lemma write_packed_run s f body out mode :
  let size := Z.of_nat (length body) in
  calls_ok s → 0 ≤ x_wsize s ≤ Z.of_nat (length (x_stub s)) → x_files s !! out = Some f →
  write_packed sys_ok body out mode size s =
    if decide (0 ≤ x_zbufsz s ≤ size) then
      Ret (true, after 6 (<[out := set_bytes (f_bytes f ++ packed (x_stub s) (x_wsize s) (Z.to_nat (x_zbufsz s)) mode body) f]>
        (x_files s)) s)
    else Err OutOfBounds.
Proof.
  intros size Hcalls Hw Hf. unfold write_packed. rewrite decide_False by lia.
  assert (Hc : ∀ k m, calls_ok (after k m s)) by (intros k m; by apply calls_ok_after).
  rewrite (append_ok out _ f) by (done || apply (Hc 0%nat)). cbn [negb].
  rewrite (append_ok out _ _ _ (Hc _ _) (lookup_insert_eq _ _ _)). cbn [negb]. rewrite after_after.
  rewrite (append_ok out _ _ _ (Hc _ _) (lookup_insert_eq _ _ _)). cbn [negb]. rewrite after_after.
  rewrite attempt_ok by apply Hc. cbn [negb]. rewrite called_after. cbn [after x_zbufsz].
  destruct (decide (0 ≤ x_zbufsz s ≤ size)) as [Hz|Hz]; [|by rewrite decide_True by lia]. rewrite decide_False by lia.
  rewrite (append_ok out _ _ _ (Hc _ _) (lookup_insert_eq _ _ _)). cbn [negb]. rewrite after_after.
  rewrite (append_ok out _ _ _ (Hc _ _) (lookup_insert_eq _ _ _)). rewrite after_after.
  cbn [after x_files x_zbufsz]. rewrite !insert_insert_eq, !set_bytes_twice. cbn [set_bytes f_bytes]. unfold packed.
  replace (Z.to_nat (size - x_zbufsz s)) with (length body - Z.to_nat (x_zbufsz s))%nat by lia. by rewrite <-!app_assoc.
Qed.

(** ** The program *)

(** An ELF executable or a script *)
Definition is_program (l : list Z) : bool :=
  match elf_exec l with Ret b => bool_decide (sizeof_Ehdr ≤ Z.of_nat (length l)) && b | Err _ => false end || is_script l.

(** A program that [create_sfx_binary] takes on *)
Record candidate (infile : string) (old : file) (s : exepak) : Prop := mk_candidate {
  ca_name : slen infile + 2 ≤ 256;
  ca_comp : infile ≠ comp_name ∧ infile +:+ "~" ≠ comp_name;
  ca_file : x_files s !! infile = Some old;
  ca_tmp : x_files s !! comp_name = None;
  ca_may : may_replace uid old = true;
  ca_program : is_program (f_bytes old) = true;
  ca_bytes : bytes_ok (f_bytes old);
  ca_size : Z.of_nat (length (f_bytes old)) < 2 ^ 26;
  ca_mode : 0 ≤ f_mode old < 2 ^ 32;
  ca_blocks : block_size_ok (x_blocksize s)
}.

Lemma read_headers_run l s phoff off filesz memsz :
  stub_fields (x_stub s) phoff off filesz memsz →
  ∃ b, read_headers l s = Ret (b, set_wsize (s32 (off + filesz)) s) ∧ b || is_script l = is_program l.
Proof.
  intros H. unfold read_headers, is_program.
  rewrite (sf_phoff _ _ _ _ _ H). cbn [mbind outcome_bind]. rewrite (sf_off _ _ _ _ _ H), (sf_filesz _ _ _ _ _ H).
  cbn [mbind outcome_bind]. destruct (decide _) as [Hlt|Hge].
  - exists false. split; [done|]. destruct (elf_exec l); [|done]. by rewrite bool_decide_false by lia.
  - unfold elf_exec. field_offsets.
    destruct (get_field_run l 16 2) as [ty ->]; [lia|lia|]. destruct (get_field_run l 40 2) as [size ->]; [lia|lia|].
    cbn [mbind outcome_bind]. eexists. split; [done|]. by rewrite (bool_decide_true (52 ≤ _)) by lia.
Qed.

(** A temporary file with the bytes [l] *)
Definition temporary (l : list Z) : file := mk_file l 0x81A4 uid 0 (0, 0).

(** The state in which the blocks are packed *)
Definition packing (w : Z) (s : exepak) : exepak :=
  after 3 (<[comp_name := temporary []]> (x_files s)) (set_wsize w s).

Lemma create_start infile old s phoff off filesz memsz :
  (∀ k, (x_calls s ≤ k < x_calls s + 3)%nat → sys_ok k = true) →
  candidate infile old s → stub_fields (x_stub s) phoff off filesz memsz →
  create_sfx_binary sys_ok uid comp_name exdev heap stack infile s =
    ('(nread, s) ← pack_loop sys_ok comp_name heap stack (length (f_bytes old)) 0 (f_bytes old)
       (packing (s32 (off + filesz)) s);
     match nread with
     | None => Ret (0, s)
     | Some nread =>
         if decide (nread = 0) then Ret (0, unlink comp_name s)
         else replace_program sys_ok uid comp_name exdev infile (infile +:+ "~") old nread s
     end).
Proof.
  intros Hcalls [Hname [Hcomp _] Hfile Htmp Hmay Hprog Hbytes Hsize Hmode Hbs] Hstub.
  unfold create_sfx_binary, backup_name. rewrite decide_True by done. cbn [mbind outcome_bind].
  unfold attempt at 1. rewrite Hcalls by lia. cbn [negb x_files called]. rewrite Hfile, Hmay. cbn [negb].
  unfold attempt at 1. rewrite Hcalls by (cbn [x_calls called]; lia). cbn [negb].
  destruct (read_headers_run (f_bytes old) (called (called s)) _ _ _ _ Hstub) as (b & Eh & Hb). rewrite Eh.
  cbn [mbind outcome_bind]. rewrite Hb, Hprog. cbn [negb].
  unfold attempt at 1. rewrite Hcalls by (cbn [x_calls called set_wsize]; lia). cbn [negb].
  match goal with |- context [create uid comp_name ?t] =>
    replace (create uid comp_name t) with (packing (s32 (off + filesz)) s) end; [done|].
  unfold create, packing. simpl. by rewrite Htmp.
Qed.

(** Up to the stub: the blocks are in the temporary file *)
Lemma create_front infile old s phoff off filesz memsz :
  calls_ok s → candidate infile old s → stub_fields (x_stub s) phoff off filesz memsz →
  ∃ bl k, pack_blocks (x_blocksize s) (length (f_bytes old)) 0 (f_bytes old) = Ret (Some (blocks_bytes bl)) ∧
    blocks_of (x_blocksize s) (f_bytes old) bl ∧ f_bytes old ≠ [] ∧
    create_sfx_binary sys_ok uid comp_name exdev heap stack infile s =
      replace_program sys_ok uid comp_name exdev infile (infile +:+ "~") old (Z.of_nat (length (f_bytes old)))
        (after k (<[comp_name := temporary (blocks_bytes bl)]> (x_files s)) (set_wsize (s32 (off + filesz)) s)).
Proof.
  intros Hcalls Hca Hstub. set (s1 := packing (s32 (off + filesz)) s).
  assert (Hc : calls_ok s1) by (intros k Hk; apply Hcalls; simpl in Hk; lia).
  destruct (pack_loop_run (length (f_bytes old)) 0 (f_bytes old) s1 (temporary []) Hc (ca_blocks _ _ _ Hca) (ca_bytes _ _ _ Hca))
    as (bl & k & Eb & Hbl & El); [lia|apply lookup_insert_eq|].
  assert (Hne : f_bytes old ≠ []) by (intros E; pose proof (ca_program _ _ _ Hca) as H; by rewrite E in H).
  exists bl, (k + 3)%nat. split; [done|]. split; [done|]. split; [done|].
  rewrite (create_start _ _ _ _ _ _ _ (λ k Hk, Hcalls k (proj1 Hk)) Hca Hstub). fold s1.
  rewrite El. cbn [mbind outcome_bind]. rewrite Z.add_0_l. rewrite decide_False by (destruct (f_bytes old); [done|simpl; lia]).
  f_equal. unfold s1, packing. rewrite after_after. cbn [after x_files temporary f_bytes set_bytes]. by rewrite insert_insert_eq.
Qed.

(** [my_rename(newfname, infile)] when every call succeeds *)
Definition restored (infile : string) (m : gmap string file) : gmap string file :=
  match m !! (infile +:+ "~") with Some b => <[infile := b]> (delete (infile +:+ "~") m) | None => m end.

Lemma no_reduction infile old s k m body w :
  calls_ok s → infile ≠ comp_name → infile +:+ "~" ≠ comp_name → m !! comp_name = None →
  Z.of_nat (length (f_bytes old)) < 2 ^ 30 → Z.of_nat (length body) < 2 ^ 30 → x_wsize s = w → 0 ≤ w < 2 ^ 30 →
  Z.of_nat (length (f_bytes old)) ≤ Z.of_nat (length body) + w →
  ∃ k', replace_program sys_ok uid comp_name exdev infile (infile +:+ "~") old (Z.of_nat (length (f_bytes old)))
      (after k (<[comp_name := temporary body]> m) s) = Ret (0, after k' (restored infile m) s).
Proof.
  intros Hcalls Hi Hb Hm Ho Hl <- Hw Hle. unfold replace_program. cbn [after x_files x_wsize].
  rewrite lookup_insert_eq. cbn [temporary f_bytes]. rewrite !s32_small by (unfold is_s32; rewrite ?s32_small by (unfold is_s32; lia); lia).
  rewrite decide_True by lia. unfold my_rename, restored. cbn [after x_files]. rewrite lookup_insert_ne by done.
  destruct (m !! (infile +:+ "~")) as [b|].
  - rewrite attempt_ok by by apply (calls_ok_after k (<[comp_name:=temporary body]> m)).
    exists (S k). unfold put_file, unlink, set_files, after. cbn [x_files called x_calls]. do 2 f_equal.
    f_equal. rewrite delete_insert_ne by done. f_equal. rewrite (delete_delete _ comp_name). f_equal. by rewrite delete_insert_id.
  - exists k. unfold unlink, set_files, after. cbn [x_files x_calls]. do 2 f_equal. f_equal. by rewrite delete_insert_id.
Qed.

Lemma replace_run infile old s k m body nread phoff off filesz memsz :
  let w := off + filesz in
  let z := memsz - filesz - 8 in
  calls_ok (after k m s) → infile ≠ comp_name → m !! comp_name = None →
  nread < 2 ^ 30 → x_wsize s = w → 0 ≤ w ≤ Z.of_nat (length (x_stub s)) →
  stub_fields (x_stub s) phoff off filesz memsz → 0 ≤ z ≤ Z.of_nat (length body) → Z.of_nat (length body) + w < nread →
  ∃ stub' k', patched phoff (x_stub s) stub' ∧
    stub_fields stub' phoff off (u32 (filesz + (8 + Z.of_nat (length body)))) (u32 (memsz + (8 + Z.of_nat (length body) + 4))) ∧
    replace_program sys_ok uid comp_name exdev infile (infile +:+ "~") old nread
      (after k (<[comp_name := temporary body]> m) s) =
    Ret (1, after k' (<[infile := set_bytes (packed stub' w (Z.to_nat z) (f_mode old) body) old]> m)
      (set_zbufsz z (set_stub stub' s))).
Proof.
  intros w z Hcalls Hi Hm Hread Ew Hw Hstub Hz Hlt. unfold replace_program. cbn [after x_files x_wsize].
  rewrite lookup_insert_eq. cbn [temporary f_bytes]. rewrite Ew.
  rewrite (s32_small (Z.of_nat (length body))), !s32_small by (unfold is_s32; lia). rewrite decide_False by lia.
  set (s0 := after k (<[comp_name := temporary body]> m) s).
  assert (Hc : calls_ok s0) by (intros j Hj; by apply Hcalls).
  rewrite attempt_ok by done. cbn [negb]. rewrite (u32_small (Z.of_nat (length body))) by (unfold is_u32; lia).
  set (s1 := put_file infile (set_bytes [] old) (called s0)).
  assert (Hc1 : calls_ok s1) by (intros j Hj; apply Hc; simpl in Hj |- *; lia).
  destruct (append_stubfile_patched s1 body infile (f_mode old) (Z.of_nat (length body)) _ _ _ _ Hstub)
    as (stub' & Hpatch & Hstub' & E). pose proof Hpatch as [Hl _]. change (x_stub s1) with (x_stub s) in Hl, Hpatch.
  rewrite E, (write_packed_run _ (set_bytes [] old)); [|done|cbn [x_wsize x_stub set_zbufsz set_stub s1 put_file]|apply lookup_insert_eq].
  2:{ change (x_wsize (called s0)) with (x_wsize s). rewrite Hl. change (0 ≤ x_wsize s ≤ Z.of_nat (length (x_stub s))). lia. }
  fold z. cbn [x_zbufsz set_zbufsz]. rewrite s32_small by (unfold is_s32; lia). rewrite decide_True by lia.
  cbn [mbind outcome_bind negb]. exists stub', (8 + k)%nat. split; [done|]. split; [done|].
  unfold restore. rewrite attempt_ok by (intros j Hj; apply Hc1; simpl in Hj |- *; lia).
  cbn [x_files called unlink set_files after set_zbufsz set_stub s1 put_file s0].
  rewrite !insert_insert_eq, (delete_insert_ne _ comp_name infile), delete_insert_id, lookup_insert_eq by done.
  change (x_wsize (set_zbufsz z (set_stub stub' s1))) with (x_wsize s). rewrite Ew. unfold put_file, set_files. cbn [x_files after called].
  simpl. by rewrite delete_insert_ne, delete_insert_id, insert_insert_eq by done.
Qed.

(** The headers of a packed program are those of the stub in front of it. *)
Lemma get_field_front w stub r o n :
  o + Z.of_nat n ≤ w ≤ Z.of_nat (length stub) → get_field (take (Z.to_nat w) stub ++ r) o n = get_field stub o n.
Proof.
  intros Hw. unfold get_field. rewrite length_app, length_take. destruct (decide (0 ≤ o)).
  - rewrite !decide_True by lia. rewrite drop_app_le, take_app_le by (rewrite ?length_drop, length_take; lia).
    by rewrite !take_drop_commute, take_take, Nat.min_l by lia.
  - by rewrite !decide_False by lia.
Qed.

Lemma elf_exec_front w stub r : 52 ≤ w ≤ Z.of_nat (length stub) → elf_exec (take (Z.to_nat w) stub ++ r) = elf_exec stub.
Proof.
  intros Hw. unfold elf_exec. field_offsets. rewrite !get_field_front by lia.
  rewrite take_app_le by (rewrite length_take; lia). by rewrite take_take, Nat.min_l by lia.
Qed.

(** ** The theorems *)

(** What is packed into which stub: where its bss begins in the file, and how
    much of the bss is behind the two words *)
Record fits_stub (s : exepak) (phoff off filesz memsz : Z) : Prop := mk_fits_stub {
  fs_fields : stub_fields (x_stub s) phoff off filesz memsz;
  fs_head : phoff + 2 * sizeof_Phdr ≤ off + filesz ∧ 0 ≤ off ∧ 0 ≤ filesz;
  fs_data : 128 ≤ off + filesz ≤ Z.of_nat (length (x_stub s));
  fs_small : off + filesz < 2 ^ 29;
  fs_bss : 0 ≤ memsz - filesz - 8 < 2 ^ 29
}.

(** The segment of a packed program, from [bss_begin] on *)
Lemma map_segment_run w z stub' phoff off filesz memsz mode body :
  stub_fields stub' phoff off (filesz + (8 + Z.of_nat (length body))) (memsz + (8 + Z.of_nat (length body) + 4)) →
  phoff + 64 ≤ off + filesz → 0 ≤ off → 0 ≤ filesz → w = off + filesz → w ≤ Z.of_nat (length stub') →
  memsz - filesz - 8 = Z.of_nat z → (z ≤ length body)%nat →
  ∃ mem, map_segment (packed stub' w z mode body) = Ret mem ∧ drop (Z.to_nat filesz) mem = image z mode body.
Proof.
  intros [_ H2 [H3 H3'] H4 H5 H6] Hhead Hoff Hfs Ew Hw Ez Hz. unfold map_segment, packed. field_offsets.
  set (r := le_bytes 4 (Z.of_nat (length body)) ++ _).
  assert (Hr : length r = (8 + length body)%nat).
  { unfold r. rewrite !length_app, !le_bytes_length, length_take, length_drop. lia. }
  rewrite get_field_front, H2 by lia. cbn [mbind outcome_bind]. rewrite !get_field_front by lia. rewrite H4, H5, H6.
  cbn [mbind outcome_bind]. rewrite decide_True by (rewrite length_app, length_take; lia). eexists. split; [done|].
  rewrite (drop_app_le _ _ (Z.to_nat off)) by (rewrite length_take; lia).
  rewrite (take_ge (_ ++ r)) by (rewrite length_app, length_drop, length_take; lia).
  rewrite <-app_assoc, drop_app_length' by (rewrite length_drop, length_take; lia).
  unfold image, r. rewrite <-!app_assoc. repeat f_equal. lia.
Qed.

Lemma run_packed_ok s stub' phoff off filesz memsz mode blocksize rest bl :
  let body := blocks_bytes bl in
  let w := off + filesz in
  let z := Z.to_nat (memsz - filesz - 8) in
  fits_stub s phoff off filesz memsz → patched phoff (x_stub s) stub' →
  stub_fields stub' phoff off (u32 (filesz + (8 + Z.of_nat (length body)))) (u32 (memsz + (8 + Z.of_nat (length body) + 4))) →
  (z ≤ length body)%nat → Z.of_nat (length body) < 2 ^ 30 → 0 ≤ mode < 2 ^ 32 →
  Z.of_nat (length rest) < 2 ^ 32 → rest ≠ [] → blocks_of blocksize rest bl →
  run_packed (x_stub s) (packed stub' w z mode body) = Some rest.
Proof.
  intros body w z [[Helf Hphoff [Hroom Hroom'] Hof Hfz Hmz] (Hhead & Hoff & Hfs) Hd Hs Hb] Hpatch Hst Hz Hlen Hmode Hrest Hne (Hc & Hall & Hhd).
  destruct (Hhd Hne) as (data & l & Ebl). field_offsets. fold w in Hd, Hs. pose proof Hpatch as [Hl _].
  rewrite !u32_small in Hst by (unfold is_u32; lia).
  unfold run_packed, run_linked. field_offsets. rewrite Hphoff. cbn [mbind outcome_bind]. rewrite Hof, Hfz, Hmz. cbn [mbind outcome_bind].
  destruct (map_segment_run w z stub' phoff off filesz memsz mode body Hst) as (mem & Em & Ed); [lia..|].
  rewrite Em. unfold packed. rewrite elf_exec_front, (sf_elf _ _ _ _ _ Hst) by lia. cbn [mbind outcome_bind]. fold w z.
  rewrite decide_True by (split; [done|apply code_patched; [done|lia..]]). rewrite Ed.
  pose proof (dump_run z mode data (take (Z.to_nat blocksize) rest) l) as H. unfold body in *. rewrite Ebl in *. rewrite Hc in H.
  rewrite H; [done|done|lia|done| |done]. rewrite length_take. lia.
Qed.

Lemma create_run infile old s phoff off filesz memsz :
  let w := off + filesz in
  let z := memsz - filesz - 8 in
  calls_ok s → candidate infile old s → fits_stub s phoff off filesz memsz →
  ∃ bl, pack_blocks (x_blocksize s) (length (f_bytes old)) 0 (f_bytes old) = Ret (Some (blocks_bytes bl)) ∧
    blocks_of (x_blocksize s) (f_bytes old) bl ∧ f_bytes old ≠ [] ∧
    let body := blocks_bytes bl in
    (Z.of_nat (length (f_bytes old)) ≤ Z.of_nat (length body) + w →
     ∃ k, create_sfx_binary sys_ok uid comp_name exdev heap stack infile s =
       Ret (0, after k (restored infile (x_files s)) (set_wsize w s))) ∧
    (Z.of_nat (length body) + w < Z.of_nat (length (f_bytes old)) → z ≤ Z.of_nat (length body) →
     ∃ stub' k, patched phoff (x_stub s) stub' ∧
       stub_fields stub' phoff off (u32 (filesz + (8 + Z.of_nat (length body)))) (u32 (memsz + (8 + Z.of_nat (length body) + 4))) ∧
       create_sfx_binary sys_ok uid comp_name exdev heap stack infile s =
         Ret (1, after k (<[infile := set_bytes (packed stub' w (Z.to_nat z) (f_mode old) body) old]> (x_files s))
           (set_zbufsz z (set_stub stub' (set_wsize w s))))).
Proof.
  intros w z Hcalls Hca [Hf _ Hd Hs Hb]. destruct (create_front _ _ _ _ _ _ _ Hcalls Hca Hf) as (bl & k & Eb & Hbl & Hne & E).
  rewrite (s32_small (off + filesz)) in E by (unfold is_s32; lia). fold w in E.
  destruct Hca as [_ [Hc1 Hc2] _ Htmp _ _ _ Hsize _ _].
  exists bl. split; [done|]. split; [done|]. split; [done|]. intros body. split.
  - intros Hle. pose proof (blocks_bound _ _ _ Hbl) as Hbig. fold body in Hbig. rewrite E. destruct (no_reduction infile old (set_wsize w s) k (x_files s) body w) as (k' & E'); try done; try lia.
    by exists k'.
  - intros Hlt Hz. rewrite E.
    destruct (replace_run infile old (set_wsize w s) k (x_files s) body (Z.of_nat (length (f_bytes old))) phoff off filesz memsz)
      as (stub' & k' & Hl & Hstub' & E'); try done; try lia.
    { intros j Hj. apply Hcalls. simpl in Hj. lia. } { cbn [x_stub set_wsize]. lia. }
    exists stub', k'. split; [done|]. split; [done|]. exact E'.
Qed.

Lemma unpack_run execute infile x old s :
  calls_ok s → slen infile + 2 ≤ 256 → infile ≠ decomp_name →
  x_files s !! infile = Some (set_bytes x old) → x_files s !! decomp_name = None → may_replace uid old = true →
  execute x = Some (f_bytes old) → 128 ≤ Z.of_nat (length (f_bytes old)) →
  contains cant_extract (c_string (take 128 (f_bytes old) ++ [junk])) = false →
  ∃ k, decompress_sfx_binary sys_ok uid decomp_name execute exdev junk infile s =
    Ret (1, after k (<[infile := old]> (x_files s)) s).
Proof.
  intros Hcalls Hname Hne Hfile Htmp Hmay Hrun Hlen Hmsg. unfold decompress_sfx_binary, backup_name.
  rewrite decide_True by done. cbn [mbind outcome_bind]. rewrite Hfile.
  change (may_replace uid (set_bytes x old)) with (may_replace uid old). rewrite Hmay. cbn [negb].
  assert (Hc : ∀ k m, calls_ok (after k m s)) by (intros; by apply calls_ok_after).
  rewrite attempt_ok by done. cbn [negb].
  replace (create uid decomp_name (called s)) with (after 1 (<[decomp_name := temporary []]> (x_files s)) s)
    by (unfold create; simpl; by rewrite Htmp).
  rewrite attempt_ok by done. cbn [negb]. rewrite called_after, attempt_ok by done. cbn [negb]. rewrite called_after.
  cbn [f_bytes set_bytes]. rewrite Hrun. cbn [of_option mbind outcome_bind].
  rewrite (append_ok decomp_name _ _ _ (Hc _ _) (lookup_insert_eq _ _ _)). cbn [negb]. rewrite after_after.
  rewrite decide_False by lia. rewrite Hmsg. cbn [after x_files]. rewrite insert_insert_eq.
  unfold my_rename, unlink. cbn [x_files set_files after]. rewrite lookup_delete_ne, lookup_insert_eq by done.
  unfold attempt at 1. rewrite Hcalls by (cbn [x_calls set_files after]; lia).
  rewrite decide_False by (intros H; by apply H). unfold restore, attempt. rewrite Hcalls by (cbn [x_calls put_file called set_files after]; lia).
  exists 6%nat. cbn [x_files put_file called set_files after]. rewrite lookup_insert_eq. unfold put_file, set_files, after.
  simpl. do 3 f_equal. rewrite insert_insert_eq. destruct old as [ob om ou og ot]. simpl.
  apply map_eq. intros j. destruct (decide (j = infile)) as [->|Hj]; [by rewrite !lookup_insert_eq|].
  rewrite !lookup_insert_ne by done. destruct (decide (j = decomp_name)) as [->|Hj2].
  - by rewrite lookup_delete_eq.
  - by rewrite !lookup_delete_ne, lookup_insert_ne by done.
Qed.

(** ** The marker *)

Lemma contains_app m a r : contains m (a ++ m ++ r) = true.
Proof.
  induction a as [|x a IH].
  - assert (Hp : prefix_of_bytes m (m ++ r) = true) by (induction m as [|x m IH]; [done|]; cbn; by rewrite bool_decide_true).
    cbn [app]. unfold contains. destruct (m ++ r); by rewrite Hp.
  - cbn [app contains]. by rewrite IH, orb_true_r.
Qed.

(** What [check_already_compressed] takes a program with these bytes for *)
Definition version (l : list Z) : Z :=
  let buf := as_string junk (take (Z.to_nat 16384) l) in
  if contains marker_1_0 buf then 1 else if contains marker_1_1 buf then 2 else 0.

Lemma marker_search_run name x s :
  calls_ok s → x_files s !! name = Some x → may_replace uid x = true → f_bytes x ≠ [] →
  check_already_compressed sys_ok junk name s = (version (f_bytes x), called s).
Proof.
  intros Hcalls Hx Hmay Hne. unfold check_already_compressed. rewrite Hx. unfold may_replace in Hmay.
  apply andb_true_iff in Hmay as [Hmay Hdir]. apply andb_true_iff in Hmay as [_ Hexe]. rewrite Hexe. cbn [negb orb].
  apply negb_true_iff in Hdir. rewrite Hdir, attempt_ok by done. cbn [negb]. unfold version.
  assert (Hn : (0 < Z.to_nat 16384)%nat) by lia. revert Hn. generalize (Z.to_nat 16384) as n. intros n Hn.
  rewrite decide_False; [reflexivity|]. intros E. apply Hne. destruct (f_bytes x), n; [done..|lia|done].
Qed.

(** The marker is in the stub, behind its headers and among its first 16 KB. *)
Definition has_marker (stub : list Z) (phoff w : Z) : Prop :=
  ∃ i, phoff + 56 ≤ Z.of_nat i ∧ (i + 5 ≤ Z.to_nat (w `min` 16384))%nat ∧ take 5 (drop i stub) = marker_1_1.

Lemma version_packed stub stub' phoff w z mode body :
  has_marker stub phoff w → 52 ≤ phoff → patched phoff stub stub' → w ≤ Z.of_nat (length stub) →
  version (packed stub' w z mode body) =
    if contains marker_1_0 (as_string junk (take (Z.to_nat 16384) (packed stub' w z mode body))) then 1 else 2.
Proof.
  intros (i & Hi & Hw & Hm) Hp [Hl Hlook] Hstub. unfold version. destruct (contains marker_1_0 _); [done|].
  set (l := take (Z.to_nat 16384) (packed stub' w z mode body)).
  assert (Hlen : (i + 5 ≤ length l)%nat).
  { unfold l, packed. rewrite length_take, length_app, length_take. lia. }
  assert (E : take 5 (drop i l) = marker_1_1).
  { rewrite <-Hm. apply list_eq. intros j. destruct (decide (j < 5)%nat); [|by rewrite !lookup_take_ge by lia].
    rewrite !lookup_take_lt, !lookup_drop by lia. unfold l, packed. rewrite lookup_take_lt by lia.
    rewrite lookup_app_l by (rewrite length_take; lia). rewrite lookup_take_lt by lia. apply Hlook; lia. }
  rewrite <-(take_drop i l), <-(take_drop 5 (drop i l)), E. unfold as_string. rewrite !map_app.
  change (map _ marker_1_1) with marker_1_1. by rewrite <-!app_assoc, contains_app.
Qed.

(** An argument that is no option *)
Definition is_name (a : string) : Prop := ∀ v, a ≠ "-" +:+ v.

Lemma main_name execute a s :
  is_name a → main sys_ok uid comp_name decomp_name execute exdev heap stack junk [a] s =
    file_arg sys_ok uid comp_name decomp_name execute exdev heap stack junk a s.
Proof.
  intros Ha. cbn [main]. destruct a as [|c v].
  - destruct (file_arg _ _ _ _ _ _ _ _ _ _ _) as [t|e]; done.
  - rewrite decide_False.
    + destruct (file_arg _ _ _ _ _ _ _ _ _ _ _) as [t|e]; done.
    + intros Hc. apply (Ha v). f_equal. rewrite <-(Ascii.ascii_N_embedding c). unfold char_code in Hc.
      replace (Ascii.N_of_ascii c) with 45%N by lia. done.
Qed.

(** The stub does not fit: the array is too short, or the compressed data. *)
Lemma replace_overrun infile old s k m body nread phoff off filesz memsz :
  calls_ok (after k m s) → nread < 2 ^ 30 → Z.of_nat (length body) < 2 ^ 30 → 0 ≤ x_wsize s < 2 ^ 30 →
  stub_fields (x_stub s) phoff off filesz memsz → Z.of_nat (length body) + x_wsize s < nread →
  (Z.of_nat (length (x_stub s)) < x_wsize s ∨
   x_wsize s ≤ Z.of_nat (length (x_stub s)) ∧ Z.of_nat (length body) < memsz - filesz - 8 < 2 ^ 31) →
  replace_program sys_ok uid comp_name exdev infile (infile +:+ "~") old nread
    (after k (<[comp_name := temporary body]> m) s) = Err OutOfBounds.
Proof.
  intros Hcalls Hread Hbody Hw Hstub Hlt Hover. unfold replace_program. cbn [after x_files x_wsize].
  rewrite lookup_insert_eq. cbn [temporary f_bytes].
  rewrite (s32_small (Z.of_nat (length body))), !s32_small by (unfold is_s32; lia). rewrite decide_False by lia.
  set (s0 := after k (<[comp_name := temporary body]> m) s).
  assert (Hc : calls_ok s0) by (intros j Hj; by apply Hcalls).
  rewrite attempt_ok by done. cbn [negb]. rewrite (u32_small (Z.of_nat (length body))) by (unfold is_u32; lia).
  set (s1 := put_file infile (set_bytes [] old) (called s0)).
  assert (Hc1 : calls_ok s1) by (intros j Hj; apply Hc; simpl in Hj |- *; lia).
  destruct (append_stubfile_patched s1 body infile (f_mode old) (Z.of_nat (length body)) _ _ _ _ Hstub)
    as (stub' & [Hl _] & _ & E). rewrite E. change (length (x_stub s1)) with (length (x_stub s)) in Hl.
  destruct Hover as [Hover|[Hfit Hover]].
  - unfold write_packed. rewrite decide_True; [done|]. left. cbn [x_stub set_stub set_zbufsz]. rewrite Hl. exact Hover.
  - rewrite (write_packed_run _ (set_bytes [] old)); [|done|cbn [x_stub set_stub set_zbufsz]|apply lookup_insert_eq].
    2:{ change (x_wsize _) with (x_wsize s). lia. }
    cbn [x_zbufsz set_zbufsz]. rewrite s32_small by (unfold is_s32; lia). by rewrite decide_False by lia.
Qed.

(** A call that succeeds changes nothing they speak of. *)
Lemma candidate_called infile old s : candidate infile old s → candidate infile old (called s).
Proof. by intros []. Qed.
Lemma fits_stub_called s phoff off filesz memsz : fits_stub s phoff off filesz memsz → fits_stub (called s) phoff off filesz memsz.
Proof. by intros []. Qed.


(** an old [infile~] replaces a program that does not shrink: exepak never
    makes such a copy, but when it gives up it restores the program from it. *)
Theorem stale_backup_replaces infile old b s phoff off filesz memsz :
  calls_ok s → candidate infile old s → fits_stub s phoff off filesz memsz →
  x_files s !! (infile +:+ "~") = Some b →
  ∃ body, pack_blocks (x_blocksize s) (length (f_bytes old)) 0 (f_bytes old) = Ret (Some body) ∧
    (Z.of_nat (length (f_bytes old)) ≤ Z.of_nat (length body) + (off + filesz) →
     ∃ s', create_sfx_binary sys_ok uid comp_name exdev heap stack infile s = Ret (0, s') ∧
       x_files s' !! infile = Some b ∧
       ∀ name, name ≠ infile → name ≠ infile +:+ "~" → x_files s' !! name = x_files s !! name).
Proof.
  intros Hcalls Hca Hfs Hb. destruct (create_run infile old s phoff off filesz memsz Hcalls Hca Hfs) as (bl & Eb & _ & _ & Hno & _).
  exists (blocks_bytes bl). split; [done|]. intros Hle. destruct (Hno Hle) as (k & E). eexists. split; [exact E|].
  cbn [after x_files]. unfold restored. rewrite Hb. split; [apply lookup_insert_eq|]. intros name H1 H2.
  by rewrite lookup_insert_ne, lookup_delete_ne by done.
Qed.

(** Two programs the packer loses.  One whose blocks are shorter than the
    part of the stub's bss they are loaded over (a few hundred bytes, so any
    small and repetitive script): the tail is taken from before the mapping,
    when the program is already truncated.  And the second program of one run:
    the first left its size in the stub's header, so more than the array holds
    is written as the stub, as soon as the blocks of the first are longer than
    what follows the stub's data. *)
Theorem stub_overruns infile old s phoff off filesz memsz :
  let w := off + filesz in
  let z := memsz - filesz - 8 in
  calls_ok s → candidate infile old s → fits_stub s phoff off filesz memsz →
  ∃ body, pack_blocks (x_blocksize s) (length (f_bytes old)) 0 (f_bytes old) = Ret (Some body) ∧
    let w' := w + 8 + Z.of_nat (length body) in
    Z.of_nat (length body) + w < Z.of_nat (length (f_bytes old)) →
    (Z.of_nat (length body) < z →
     create_sfx_binary sys_ok uid comp_name exdev heap stack infile s = Err OutOfBounds) ∧
    (z ≤ Z.of_nat (length body) → 0 ≤ off → 0 ≤ filesz → Z.of_nat (length (x_stub s)) < w' →
     ∃ s', create_sfx_binary sys_ok uid comp_name exdev heap stack infile s = Ret (1, s') ∧
       ∀ infile2 old2, candidate infile2 old2 s' →
         ∃ body2, pack_blocks (x_blocksize s) (length (f_bytes old2)) 0 (f_bytes old2) = Ret (Some body2) ∧
           (Z.of_nat (length body2) + w' < Z.of_nat (length (f_bytes old2)) →
            create_sfx_binary sys_ok uid comp_name exdev heap stack infile2 s' = Err OutOfBounds)).
Proof.
  intros w z Hcalls Hca Hfs. pose proof Hfs as [Hf _ Hd Hs Hb]. fold w z in Hd, Hs, Hb.
  destruct (create_run infile old s phoff off filesz memsz Hcalls Hca Hfs) as (bl & Eb & Hbl & _ & _ & Hyes).
  pose proof (blocks_bound _ _ _ Hbl) as Hbound. pose proof (ca_size _ _ _ Hca) as Hsize.
  exists (blocks_bytes bl). split; [done|]. intros w' Hlt. split.
  - intros Hz. destruct (create_front _ _ _ _ _ _ _ Hcalls Hca Hf) as (bl' & k & Eb' & _ & _ & E).
    rewrite Eb in Eb'. injection Eb' as Ebb. rewrite <-Ebb in E. rewrite E.
    rewrite (s32_small (off + filesz)) by (unfold is_s32; lia). fold w.
    apply (replace_overrun infile old (set_wsize w s) k (x_files s) _ _ phoff off filesz memsz);
      cbn [x_wsize x_stub set_wsize]; try done; try lia.
    intros j Hj. apply Hcalls. simpl in Hj. lia.
  - intros Hz Ho Hfz Hw. destruct (Hyes Hlt Hz) as (stub' & k & Hpatch & Hstub' & E). eexists. split; [exact E|].
    set (s' := after k _ _). intros infile2 old2 Hca2. pose proof (ca_size _ _ _ Hca2) as Hsize2.
    assert (Hc' : calls_ok s') by (intros j Hj; apply Hcalls; simpl in Hj; lia).
    destruct (create_front infile2 old2 s' phoff off _ _ Hc' Hca2 Hstub') as (bl2 & k2 & Eb2 & Hbl2 & _ & E2).
    pose proof (blocks_bound _ _ _ Hbl2) as Hbound2. exists (blocks_bytes bl2). split; [exact Eb2|]. intros Hlt2. rewrite E2.
    rewrite u32_small by (unfold is_u32; lia). rewrite (s32_small (off + _)) by (unfold is_s32; lia).
    apply (replace_overrun infile2 old2 (set_wsize (off + (filesz + (8 + Z.of_nat (length (blocks_bytes bl))))) s') k2
      (x_files s') _ _ phoff off (u32 (filesz + (8 + Z.of_nat (length (blocks_bytes bl)))))
      (u32 (memsz + (8 + Z.of_nat (length (blocks_bytes bl)) + 4)))); cbn [x_wsize x_stub set_wsize]; try done; try lia.
    + intros j Hj. apply Hc'. simpl in Hj. simpl. lia.
    + left. change (x_stub s') with stub'. destruct Hpatch as [Hl _]. change (x_stub (set_wsize w s)) with (x_stub s) in Hl. lia.
Qed.

Lemma pack_first_block fuel s w rest b :
  (∀ k, k ≠ (x_calls s + 6)%nat → sys_ok k = true) → sys_ok (x_calls s + 6)%nat = false →
  0 < x_blocksize s < Z.of_nat (length rest) → (0 < fuel)%nat →
  pack_block stack (x_blocksize s) (heap 0) (take (Z.to_nat (x_blocksize s)) rest) = Ret (Some b) →
  pack_loop sys_ok comp_name heap stack fuel 0 rest (packing w s) =
    Ret (Some (x_blocksize s), after 7 (<[comp_name := temporary b]> (x_files s)) (set_wsize w s)).
Proof.
  intros Hok Hbad Hlong Hfuel Eb. set (s1 := packing w s).
  assert (Ha : ∀ t, x_calls t ≠ (x_calls s + 6)%nat → attempt sys_ok t = (true, called t))
    by (intros t Ht; unfold attempt; by rewrite Hok).
  assert (Hap : ∀ name l f t, x_calls t ≠ (x_calls s + 6)%nat → x_files t !! name = Some f →
    append sys_ok name l t = (true, after 1 (<[name := set_bytes (f_bytes f ++ l) f]> (x_files t)) t)).
  { intros name l f t Ht Hf. unfold append. rewrite Ha by done. cbn [x_files called]. by rewrite Hf. }
  assert (Hrest : ∃ x l, drop (Z.to_nat (x_blocksize s)) rest = x :: l).
  { destruct (drop _ _) as [|x l] eqn:Ed; [|by exists x, l]. apply (f_equal length) in Ed. rewrite length_drop in Ed. simpl in Ed. lia. }
  destruct Hrest as (x1 & l1 & Erest). destruct fuel as [|fuel]; [lia|].
  assert (Hlen : Z.of_nat (length (take (Z.to_nat (x_blocksize s)) rest)) = x_blocksize s) by (rewrite length_take; lia).
  destruct rest as [|x0 rest0] eqn:Er; [simpl in Hlong; lia|]. rewrite <-Er in *. rewrite Er. cbn [pack_loop]. rewrite <-Er.
  rewrite Ha by (simpl; lia). cbn [negb]. change (x_blocksize (called s1)) with (x_blocksize s). rewrite Eb. cbn [mbind outcome_bind].
  rewrite (Hap _ _ (temporary [])) by (apply lookup_insert_eq || (simpl; lia)). cbn [negb].
  rewrite (Hap _ _ _ _) by (apply lookup_insert_eq || (simpl; lia)). cbn [negb].
  cbn [after x_files called s1 packing x_blocksize set_wsize]. rewrite !insert_insert_eq, Erest, Hlen.
  assert (Hstop : ∀ t, x_calls t = (x_calls s + 6)%nat →
    pack_loop sys_ok comp_name heap stack fuel (0 + x_blocksize s) (x1 :: l1) t = Ret (Some (x_blocksize s), called t)).
  { intros t Ht. destruct fuel; cbn [pack_loop]; unfold attempt; by rewrite Ht, Hbad. }
  rewrite Hstop by (simpl; lia). unfold after, called. cbn [set_bytes f_bytes temporary x_calls].
  by rewrite <-app_assoc, take_drop.
Qed.

(** a read error in the second block, which [fread] reports like the end of
    the file, is not noticed: exepak returns success, and the program is
    replaced by one that extracts its first block alone. *)
Theorem read_error_truncates infile old s phoff off filesz memsz :
  let w := off + filesz in
  let z := memsz - filesz - 8 in
  let first := take (Z.to_nat (x_blocksize s)) (f_bytes old) in
  (∀ k, k ≠ (x_calls s + 6)%nat → sys_ok k = true) → sys_ok (x_calls s + 6)%nat = false →
  candidate infile old s → fits_stub s phoff off filesz memsz → x_blocksize s < Z.of_nat (length (f_bytes old)) →
  ∃ body, pack_block stack (x_blocksize s) (heap 0) first = Ret (Some body) ∧
    (Z.of_nat (length body) + w < x_blocksize s → z ≤ Z.of_nat (length body) →
     ∃ s' x, create_sfx_binary sys_ok uid comp_name exdev heap stack infile s = Ret (1, s') ∧
       x_files s' = <[infile := set_bytes x old]> (x_files s) ∧ run_packed (x_stub s) x = Some first).
Proof.
  intros w z first Hok Hbad Hca Hfs Hlong. pose proof Hfs as [Hf _ Hd Hs Hb]. fold w z in Hd, Hs, Hb.
  pose proof (ca_blocks _ _ _ Hca) as Hbs. pose proof (ca_size _ _ _ Hca) as Hsize. pose proof Hbs as [Hbs1 Hbs2].
  assert (Hfirst : Z.of_nat (length first) = x_blocksize s) by (unfold first; rewrite length_take; lia).
  destruct (pack_block_run (x_blocksize s) 0 first Hbs) as (data & Eb & Hst); [apply Forall_take, (ca_bytes _ _ _ Hca)|lia|lia|].
  assert (Hbl : blocks_of (x_blocksize s) first [(data, first)]).
  { assert (Ht : take (Z.to_nat (x_blocksize s)) first = first) by (apply take_ge; lia).
    unfold blocks_of. rewrite Ht. split; [by csimpl; rewrite app_nil_r|]. split; [|intros _; by do 2 eexists].
    apply Forall_singleton. by split; cbn [snd]. }
  assert (Ebl : blocks_bytes [(data, first)] = block data first) by (unfold blocks_bytes; csimpl; by rewrite app_nil_r).
  exists (block data first). split; [exact Eb|]. intros Hlt Hz.
  rewrite (create_start infile old s phoff off filesz memsz) by (done || intros k Hk; apply Hok; lia).
  rewrite (s32_small (off + filesz)) by (unfold is_s32; lia). fold w.
  rewrite (pack_first_block _ s w _ (block data first) Hok Hbad); [|lia|lia|exact Eb].
  cbn [mbind outcome_bind]. rewrite decide_False by lia.
  destruct (replace_run infile old (set_wsize w s) 7 (x_files s) (block data first) (x_blocksize s) phoff off filesz memsz)
    as (stub' & k & Hpatch & Hstub' & E2); try done; try lia.
  { intros j Hj. apply Hok. simpl in Hj. lia. } { apply (ca_comp _ _ _ Hca). } { apply (ca_tmp _ _ _ Hca). }
  { cbn [x_stub set_wsize]. lia. }
  fold w z in E2. rewrite E2. eexists _, _. split; [done|]. split; [done|].
  rewrite <-Ebl. apply (run_packed_ok s stub' phoff off filesz memsz _ (x_blocksize s) first); try done; rewrite ?Ebl; try done; try lia.
  - apply (ca_mode _ _ _ Hca).
  - intros Enil. rewrite Enil in Hfirst. simpl in Hfirst. lia.
Qed.

End packer.

(** ** A stub, a script, a long program *)

Definition sample_tail : list Z := replicate 8 0 ++ marker_1_1 ++ replicate 11 0.

(** The headers of an ELF executable whose second segment has 64 bytes in the
    file from offset 64 on and [memsz] in memory; the marker and 7 bytes follow
    the headers, and there are 4 bytes that are not loaded. *)
Definition sample_stub (memsz : Z) : list Z :=
  ELFMAG ++ replicate 12 0 ++ [2; 0] ++ replicate 10 0 ++ [52; 0; 0; 0] ++ replicate 8 0 ++ [52; 0; 32; 0; 2; 0] ++
  replicate 6 0 ++ replicate 32 0 ++ replicate 4 0 ++ [64; 0; 0; 0] ++ replicate 8 0 ++ [64; 0; 0; 0] ++ le_bytes 4 memsz ++
  sample_tail.

Definition script (n : nat) : file := mk_file ([35; 33] ++ replicate n 97) 0x81ED 1000 100 (5, 6).
Definition sample_files (n : nat) : gmap string file := {["run" := script n; "other" := mk_file [1] 0 0 0 (0, 0)]}.
Definition sample_state (memsz : Z) (n : nat) : exepak :=
  mk_exepak (17 * 1024) false false (sample_stub memsz) 0 0 (sample_files n) 0 [].

Lemma sample_fits memsz n : 0 ≤ memsz - 72 < 2 ^ 29 → fits_stub (sample_state memsz n) 52 64 64 memsz.
Proof.
  intros Hm. assert (E : get_field (sample_stub memsz) (p_memsz 52) 4 = Ret memsz).
  { unfold sample_stub. rewrite !app_assoc, <-(app_assoc _ (le_bytes 4 memsz)).
    rewrite get_field_app; [|done|by rewrite le_bytes_length]. f_equal. apply from_le_bytes. simpl. lia. }
  split; [split|..]; try done; cbn [x_stub sample_state]; try lia; try exact E.
Qed.

Lemma sample_candidate comp memsz n :
  Z.of_nat n ≤ 60000 → comp ≠ "run" → comp ≠ "run~" → comp ≠ "other" →
  candidate 1000 comp "run" (script n) (sample_state memsz n).
Proof.
  intros Hn H1 H2 H3. split; try done.
  - cbn [x_files sample_state]. unfold sample_files. by rewrite lookup_insert_ne, lookup_singleton_ne by done.
  - unfold is_program. by rewrite (eq_refl : is_script (f_bytes (script n)) = true), orb_true_r.
  - apply Forall_app_2; [by repeat constructor|]. by apply Forall_replicate.
  - cbn [f_bytes script]. rewrite length_app, length_replicate. simpl. lia.
Qed.

Definition all_ok : nat → bool := λ _, true.
Definition no_error (s : exepak) : calls_ok all_ok s := λ k _, eq_refl.
Definition sample_memory (pos : Z) (k : nat) (H : (k < 6)%nat) : is_Some (sample_heap k) := UclSize.sample_memory k H.

Lemma sample_marked memsz : has_marker (sample_stub memsz) 52 128.
Proof.
  exists 116%nat. split; [lia|]. split; [lia|]. reflexivity.
Qed.

(** Whether the result of packing contains the marker of version 1.0 *)
Definition packed_marked_1_0 (r : outcome exepak) : bool :=
  match r with
  | Ret t => match x_files t !! "run" with Some f => contains marker_1_0 (as_string 7 (take (Z.to_nat 16384) (f_bytes f))) | None => true end
  | Err _ => true
  end.


(** 20 bytes repeated do not shrink below a stub of 128. *)
Definition backed_up : exepak :=
  set_files (<["run~" := mk_file [7] 0x81ED 1000 100 (1, 2)]> (sample_files 20)) (sample_state 84 20).

Lemma stale_backup_replaces_witness :
  ∃ s', create_sfx_binary all_ok 1000 "c" false (λ _, sample_heap) 5 "run" backed_up = Ret (0, s') ∧
    x_files s' !! "run" = Some (mk_file [7] 0x81ED 1000 100 (1, 2)).
Proof.
  destruct (stale_backup_replaces all_ok 1000 "c" false (λ _, sample_heap) 5 sample_memory "run" (script 20)
    (mk_file [7] 0x81ED 1000 100 (1, 2)) backed_up 52 64 64 84) as (body & Eb & H).
  - apply no_error.
  - destruct (sample_candidate "c" 84 20) as [? ? _ _ ? ? ? ? ? ?]; [done..|]. by split.
  - destruct (sample_fits 84 20) as [[? ? ? ? ? ?] ? ? ?]; [done|]. by split.
  - done.
  - vm_compute in Eb. injection Eb as <-. destruct H as (s' & E & Hb & _); [by vm_compute|]. exists s'. exact (conj E Hb).
Defined.

Lemma stub_overruns_witness :
  create_sfx_binary all_ok 1000 "c" false (λ _, sample_heap) 5 "run" (sample_state 200 160) = Err OutOfBounds.
Proof.
  destruct (stub_overruns all_ok 1000 "c" false (λ _, sample_heap) 5 sample_memory "run" (script 160)
    (sample_state 200 160) 52 64 64 200) as (body & Eb & H); [apply no_error|by apply sample_candidate|by apply sample_fits|].
  vm_compute in Eb. injection Eb as <-. destruct H as [Hsmall _]; [by vm_compute|]. apply Hsmall. by vm_compute.
Defined.

Definition fails_at_6 : nat → bool := λ k, negb (Nat.eqb k 6).

Lemma read_error_truncates_witness :
  ∃ body, pack_block 5 17408 sample_heap (take (Z.to_nat 17408) (f_bytes (script (Z.to_nat 20000)))) = Ret (Some body) ∧
    (Z.of_nat (length body) + 128 < 17408 → 12 ≤ Z.of_nat (length body) →
     ∃ s' x, create_sfx_binary fails_at_6 1000 "c" false (λ _, sample_heap) 5 "run" (sample_state 84 (Z.to_nat 20000)) = Ret (1, s') ∧
       x_files s' = <["run" := set_bytes x (script (Z.to_nat 20000))]> (sample_files (Z.to_nat 20000)) ∧
       run_packed (sample_stub 84) x = Some (take (Z.to_nat 17408) (f_bytes (script (Z.to_nat 20000))))).
Proof.
  apply (read_error_truncates fails_at_6 1000 "c" false (λ _, sample_heap) 5 sample_memory "run" (script (Z.to_nat 20000))
    (sample_state 84 (Z.to_nat 20000)) 52 64 64 84).
  - intros k Hk. unfold fails_at_6. apply negb_true_iff, Nat.eqb_neq. exact Hk.
  - done.
  - apply sample_candidate; [lia|done..].
  - by apply sample_fits.
  - cbn [f_bytes script x_blocksize sample_state]. rewrite length_app, length_replicate. simpl. lia.
Defined.
