(* ===== verification/Uclpack.v ===== *)
(** * The file packer of the library (packers/exepak-1.5/ucl-1.02/examples/uclpack.c)

    uclpack writes a file as a header, blocks that are compressed unless that
    would not make them smaller, and a checksum; it reads a block to the end of
    a buffer and decompresses it in place.  A FILE is what is left to read of
    it, or what has been written to it; [exit] ends a computation with its
    status, as a fault does.  Messages are left out. *)

From stdpp Require Import pretty.
From S2P Require Import Prelude UclBits UclDecode UclEncode UclRoundtrip UclSwd UclCompress UclChecksum UclInPlace Exepak.

(** ** State *)

(** The two files, [fo] being [None] for a null pointer, how many bytes the
    disk still takes, and the counters [total_in] and [total_out]. *)
Record streams : Type := mk_streams {
  s_fi : list Z; s_fo : option (list Z); s_space : Z; s_total_in : Z; s_total_out : Z
}.
Definition set_fi (l : list Z) (s : streams) : streams := mk_streams l (s_fo s) (s_space s) (s_total_in s) (s_total_out s).
Definition count_in (n : Z) (s : streams) : streams :=
  mk_streams (s_fi s) (s_fo s) (s_space s) (u32 (s_total_in s + n)) (s_total_out s).
Definition count_out (n : Z) (s : streams) : streams :=
  mk_streams (s_fi s) (s_fo s) (s_space s) (s_total_in s) (u32 (s_total_out s + n)).
Definition reset_totals (s : streams) : streams := mk_streams (s_fi s) (s_fo s) (s_space s) 0 0.
Definition write_out (l : list Z) (s : streams) : streams :=
  mk_streams (s_fi s) (match s_fo s with Some o => Some (o ++ l) | None => None end)
    (s_space s - Z.of_nat (length l)) (s_total_in s) (s_total_out s).

(** *** Computations that may end the program *)

Inductive ended (A : Type) : Type :=
  | Fine (a : A) (s : streams)
  | Exit (status : Z) (s : streams)
  | Wrong (f : fault).
Arguments Fine {_} a s.
Arguments Exit {_} status s.
Arguments Wrong {_} f.

Definition prog (A : Type) : Type := streams → ended A.
#[export] Instance prog_ret : MRet prog := λ A a s, Fine a s.
#[export] Instance prog_bind : MBind prog := λ A B k m s,
  match m s with Fine a s' => k a s' | Exit c s' => Exit c s' | Wrong f => Wrong f end.

Definition pmod (f : streams → streams) : prog unit := λ s, Fine tt (f s).
Definition exit {A} (status : Z) : prog A := λ s, Exit status s.
Definition pure {A} (m : outcome A) : prog A := λ s, match m with Ret a => Fine a s | Err f => Wrong f end.

(** ** File IO *)

Definition magic : list Z := [0x00; 0xe9; 0x55; 0x43; 0x4c; 0xff; 0x01; 0x1a].

(** [xread]: the bytes read, as many as the result says. *)
Definition xread (len : Z) (allow_eof : bool) : prog (list Z) := λ s,
  let l := take (Z.to_nat len) (s_fi s) in
  let s := set_fi (drop (Z.to_nat len) (s_fi s)) s in
  if decide (Z.of_nat (length l) ≠ len ∧ allow_eof = false) then Exit 1 s
  else Fine l (count_in (Z.of_nat (length l)) s).

(** [xwrite]; what a full disk still took is not in the model. *)
Definition xwrite (l : list Z) : prog unit := λ s,
  match s_fo s with
  | Some _ =>
      if decide (Z.of_nat (length l) ≤ s_space s) then Fine tt (count_out (Z.of_nat (length l)) (write_out l s))
      else Exit 1 s
  | None => Fine tt (count_out (Z.of_nat (length l)) s)
  end.

Definition xgetc : prog Z := l ← xread 1 false; mret (nth 0 l 0).
Definition xputc (c : Z) : prog unit := xwrite [Z.land c 0xff].

(** Portable 32-bit integers, most significant byte first *)
Definition be32_get (b : list Z) : Z :=
  Z.lor (Z.lor (Z.lor (Z.shiftl (nth 3 b 0) 0) (Z.shiftl (nth 2 b 0) 8)) (Z.shiftl (nth 1 b 0) 16)) (Z.shiftl (nth 0 b 0) 24).
Definition be32_put (v : Z) : list Z :=
  [Z.land (Z.shiftr v 24) 0xff; Z.land (Z.shiftr v 16) 0xff; Z.land (Z.shiftr v 8) 0xff; Z.land (Z.shiftr v 0) 0xff].
Definition xread32 : prog Z := b ← xread 4 false; mret (be32_get b).
Definition xwrite32 (v : Z) : prog unit := xwrite (be32_put v).

(** ** util *)

Definition get_overhead (method size : Z) : Z :=
  if decide (method = 0x2b ∨ method = 0x2d ∨ method = 0x2e) then u32 (size / 8 + 256) else 0.

Definition nrv_of (method : Z) : option nrv :=
  if decide (method = 0x2b) then Some NRV2B
  else if decide (method = 0x2d) then Some NRV2D
  else if decide (method = 0x2e) then Some NRV2E else None.

(** The name, when there is one; the C function leaves it in [method_name]. *)
Definition set_method_name (method level : Z) : option string :=
  if decide (level < 1 ∨ 10 < level) then None
  else match nrv_of method with
       | Some NRV2B => Some ("NRV2B-99/" +:+ pretty level)
       | Some NRV2D => Some ("NRV2D-99/" +:+ pretty level)
       | Some NRV2E => Some ("NRV2E-99/" +:+ pretty level)
       | None => None
       end.

Section uclpack.
  (** the option [-F]; what [malloc] returns for the k-th buffer; the memory the
      compressor gets for the block at which so many bytes are left to read,
      and the stack *)
  Context (opt_fast : bool) (malloc : nat → Z → option (list Z)).
  Context (heap : nat → nat → option (Z → Z)) (stack : Z).

(** alloc.c, where [size_t] has 32 bits as for the i386 programs it packs; no
    other hook is installed. *)
Definition ucl_malloc_internal (k : nat) (size : Z) : option (list Z) :=
  if decide (size < 2 ^ 32 - 1) then malloc k size else None.
Definition ucl_malloc (k : nat) (size : Z) : option (list Z) :=
  if decide (size ≤ 0) then None else ucl_malloc_internal k size.

(** *** compress *)

(** A block: [None] to go on, or the value [do_compress] returns. *)
Definition compress_block (method level : Z) (room : Z) (k : nat) (inb : list Z) : prog (option Z) :=
  let in_len := Z.of_nat (length inb) in
  '(r, out) ← pure (match nrv_of method with
                    | Some f => ucl_nrv_99_compress f false inb (heap k) stack level None
                    | None => Ret (UCL_E_ERROR, [])
                    end);
  let out_len := Z.of_nat (length out) in
  if decide (room < out_len) then pure (Err OutOfBounds)
  else if decide (r = UCL_E_OUT_OF_MEMORY) then mret (Some 1)
  else if decide (r ≠ UCL_E_OK ∨ in_len + get_overhead method in_len < out_len) then mret (Some 2)
  else
    xwrite32 in_len;;
    (if decide (out_len < in_len) then xwrite32 out_len;; xwrite out
     else xwrite32 in_len;; xwrite inb);;
    mret None.

(** [for (;;) { ... }]: the checksum, or the value returned *)
Fixpoint compress_loop (fuel : nat) (method level block_size flags checksum : Z) : prog (Z + Z) :=
  match fuel with
  | O => λ s, Wrong OutOfFuel
  | S n =>
      inb ← xread block_size true;
      let in_len := Z.of_nat (length inb) in
      if decide (in_len ≤ 0) then mret (inl checksum)
      else
        checksum ← (if decide (Z.land flags 1 ≠ 0) then pure (ucl_adler32 checksum (Some inb) in_len) else mret checksum);
        k ← (λ s, Fine (length (s_fi s)) s);
        r ← compress_block method level (block_size + get_overhead method block_size) k inb;
        match r with
        | Some r => mret (inr r)
        | None => compress_loop n method level block_size flags checksum
        end
  end.

Definition do_compress (method level block_size : Z) : prog Z :=
  let flags := if opt_fast then 0 else 1 in
  pmod reset_totals;;
  xwrite magic;;
  xwrite32 flags;;
  xputc method;;
  xputc level;;
  xwrite32 block_size;;
  checksum ← pure (ucl_adler32 0 None 0);
  let overhead := get_overhead method block_size in
  match ucl_malloc 0 block_size, ucl_malloc 1 (u32 (block_size + overhead)) with
  | Some _, Some _ =>
      n ← (λ s, Fine (length (s_fi s)) s);
      r ← compress_loop (S n) method level block_size flags checksum;
      match r with
      | inr r => mret r
      | inl checksum =>
          xwrite32 0;;
          (if decide (Z.land flags 1 ≠ 0) then xwrite32 checksum else mret tt);;
          mret 0
      end
  | _, _ => mret 1
  end.

(** *** decompress / test *)

(** Enough for any block of these sizes. *)
Definition block_fuel (in_len out_len : Z) : nat := Z.to_nat (8 * (in_len + 1) + out_len + 33).

Definition run_in_place (f : nrv) (md : mode) (off in_len out_len : Z) (buf : list Z) : outcome (Z * Z * list Z) :=
  decompress_in_place (BB := buffer_8) (round_of (BB := buffer_8) f) md (block_fuel in_len out_len) off in_len out_len buf.

(** [do_decompress_benchmark] without the clock *)
Fixpoint do_decompress_benchmark (benchmark_loops : nat) (f : nrv) (off in_len out_len : Z) (buf : list Z) : prog (list Z) :=
  match benchmark_loops with
  | O => mret buf
  | S n =>
      '(r, new_len, buf) ← pure (run_in_place f Fast off in_len out_len buf);
      if decide (r ≠ UCL_E_OK ∨ new_len ≠ out_len) then exit 1
      else do_decompress_benchmark n f off in_len out_len buf
  end.

(** A block that is not the last: the buffer and the checksum, or the value
    [do_decompress] returns. *)
Definition decompress_block (benchmark_loops : nat) (f : nrv) (flags block_size buf_len out_len : Z)
    (buf : list Z) (checksum : Z) : prog (list Z * Z + Z) :=
  in_len ← xread32;
  if decide (block_size < in_len ∨ block_size < out_len ∨ in_len = 0 ∨ out_len < in_len) then mret (inr 5)
  else
    let off := u32 (buf_len - in_len) in
    data ← xread in_len false;
    let buf := take (Z.to_nat off) buf ++ data in
    let sum (b : list Z) (len : Z) : outcome Z :=
      if decide (Z.land flags 1 ≠ 0 ∧ opt_fast = false) then ucl_adler32 checksum (Some b) len else Ret checksum in
    if decide (in_len < out_len) then
      '(r, new_len, buf) ← pure (run_in_place f (if opt_fast then Fast else Safe) off in_len out_len buf);
      if decide (r ≠ UCL_E_OK ∨ new_len ≠ out_len) then mret (inr 6)
      else
        xwrite (take (Z.to_nat out_len) buf);;
        checksum ← pure (sum buf out_len);
        buf ← do_decompress_benchmark benchmark_loops f off in_len out_len buf;
        mret (inl (buf, checksum))
    else
      xwrite data;;
      checksum ← pure (sum data in_len);
      mret (inl (buf, checksum)).

(** [for (;;) { ... }]: the checksum, or the value returned *)
Fixpoint decompress_loop (fuel : nat) (benchmark_loops : nat) (f : nrv) (flags block_size buf_len : Z)
    (buf : list Z) (checksum : Z) : prog (Z + Z) :=
  match fuel with
  | O => λ s, Wrong OutOfFuel
  | S n =>
      out_len ← xread32;
      if decide (out_len = 0) then mret (inl checksum)
      else
        r ← decompress_block benchmark_loops f flags block_size buf_len out_len buf checksum;
        match r with
        | inl (buf, checksum) => decompress_loop n benchmark_loops f flags block_size buf_len buf checksum
        | inr r => mret (inr r)
        end
  end.

(** Steps 2 and 3, after the header *)
Definition decompress_blocks (benchmark_loops : nat) (f : nrv) (flags block_size overhead : Z) : prog Z :=
  checksum ← pure (ucl_adler32 0 None 0);
  let buf_len := u32 (block_size + overhead) in
  let buf_len := if decide (benchmark_loops ≠ 0%nat) then u32 (buf_len + block_size) else buf_len in
  match ucl_malloc 0 buf_len with
  | None => mret 4
  | Some buf =>
      n ← (λ s, Fine (length (s_fi s)) s);
      r ← decompress_loop (S n) benchmark_loops f flags block_size buf_len buf checksum;
      match r with
      | inr r => mret r
      | inl checksum =>
          if decide (Z.land flags 1 ≠ 0) then
            c ← xread32;
            mret (if decide (opt_fast = false ∧ c ≠ checksum) then 7 else 0)
          else mret 0
      end
  end.

Definition do_decompress (benchmark_loops : nat) : prog Z :=
  pmod reset_totals;;
  m ← xread 8 true;
  if decide (m ≠ magic) then mret 1
  else
    flags ← xread32;
    method ← xgetc;
    level ← xgetc;
    block_size ← xread32;
    let overhead := get_overhead method block_size in
    match set_method_name method level, nrv_of method with
    | Some _, Some f =>
        if decide (overhead = 0) then mret 2
        else if decide (block_size < 1024 ∨ 8 * 1024 * 1024 < block_size) then mret 3
        else decompress_blocks benchmark_loops f flags block_size overhead
    | _, _ => mret 2
    end.
End uclpack.

(** ** The command *)

Record options : Type := mk_options {
  o_decompress : bool; o_test : bool; o_fast : bool; o_method : Z; o_level : Z; o_block_size : Z; o_loops : Z; o_debug : Z
}.
Definition no_options : options := mk_options false false false 0x2d 7 (256 * 1024) 0 0.
Definition set_decompress (o : options) : options :=
  mk_options true (o_test o) (o_fast o) (o_method o) (o_level o) (o_block_size o) (o_loops o) (o_debug o).
Definition set_test (o : options) : options :=
  mk_options (o_decompress o) true (o_fast o) (o_method o) (o_level o) (o_block_size o) (o_loops o) (o_debug o).
Definition set_fast (o : options) : options :=
  mk_options (o_decompress o) (o_test o) true (o_method o) (o_level o) (o_block_size o) (o_loops o) (o_debug o).
Definition set_method (m : Z) (o : options) : options :=
  mk_options (o_decompress o) (o_test o) (o_fast o) m (o_level o) (o_block_size o) (o_loops o) (o_debug o).
Definition set_level (l : Z) (o : options) : options :=
  mk_options (o_decompress o) (o_test o) (o_fast o) (o_method o) l (o_block_size o) (o_loops o) (o_debug o).
Definition set_block_size (n : Z) (o : options) : options :=
  mk_options (o_decompress o) (o_test o) (o_fast o) (o_method o) (o_level o) n (o_loops o) (o_debug o).
Definition set_loops (n : Z) (o : options) : options :=
  mk_options (o_decompress o) (o_test o) (o_fast o) (o_method o) (o_level o) (o_block_size o) n (o_debug o).
Definition set_debug (o : options) : options :=
  mk_options (o_decompress o) (o_test o) (o_fast o) (o_method o) (o_level o) (o_block_size o) (o_loops o) (o_debug o + 1).

(** [atol]; a value that is too large is cut off. *)
Fixpoint atol (a : string) : Z :=
  let clamp x := Z.max (- 2 ^ 31) (Z.min (2 ^ 31 - 1) x) in
  match a with
  | String c a' =>
      if decide (char_code c = 32 ∨ 9 ≤ char_code c ≤ 13) then atol a'
      else if decide (char_code c = 45) then clamp (- atoi_digits 0 a')
      else if decide (char_code c = 43) then clamp (atoi_digits 0 a')
      else clamp (atoi_digits 0 a)
  | EmptyString => 0
  end.

(** An argument that begins with [-]; [None] is [exit(1)], of [usage] or not. *)
Definition option_of (a : string) (o : options) : option options :=
  if decide (a = "-d") then Some (set_decompress o)
  else if decide (a = "-t") then Some (set_test o)
  else if decide (a = "-F") then Some (set_fast o)
  else if decide (a = "--2b" ∨ a = "--nrv2b") then Some (set_method 0x2b o)
  else if decide (a = "--2d" ∨ a = "--nrv2d") then Some (set_method 0x2d o)
  else if decide (a = "--2e" ∨ a = "--nrv2e") then Some (set_method 0x2e o)
  else
    match a with
    | String _ (String c v) =>
        if decide (49 ≤ char_code c ≤ 57 ∧ v = EmptyString) then Some (set_level (char_code c - 48) o)
        else if decide (a = "--10" ∨ a = "--best") then Some (set_level 10 o)
        else if decide (char_code c = 98 ∧ v ≠ EmptyString) then
          let x := atol v in
          if decide (1024 ≤ x ≤ 8 * 1024 * 1024) then Some (set_block_size x o) else None
        else if decide (char_code c = 68 ∧ v ≠ EmptyString) then
          let x := atol v in
          Some (if decide (1 < x) then set_loops x o else o)
        else if decide (a = "--debug") then Some (set_debug o)
        else None
    | _ => None
    end.

(** [while (i < argc && argv[i][0] == '-') { ... }]: the options, and the
    other arguments *)
Fixpoint get_options (args : list string) (o : options) : option (options * list string) :=
  match args with
  | String c v :: args' =>
      if decide (char_code c = 45) then o ← option_of (String c v) o; get_options args' o
      else Some (o, args)
  | _ => Some (o, args)
  end.

Section command.
  (** which files can be opened for writing; what [malloc] returns; the memory
      of the compressor, and the stack; the room on the disk *)
  Context (writable : string → bool) (malloc : nat → Z → option (list Z)).
  Context (heap : nat → nat → option (Z → Z)) (stack space : Z).

(** The exit status and the files, when [job] runs on the open files: what it
    has written is there however it ends. *)
Definition finish_job (out_name : option string) (files : gmap string (list Z)) (m : ended Z) : outcome (Z * gmap string (list Z)) :=
  let keep (s : streams) := match out_name, s_fo s with Some name, Some l => <[name := l]> files | _, _ => files end in
  match m with
  | Fine r s => Ret (r, keep s)
  | Exit c s => Ret (c, keep s)
  | Wrong f => Err f
  end.

(** [xopen_fi], [xopen_fo] and the job, which reads one file and writes another *)
Definition two_files (job : prog Z) (in_name out_name : string) (files : gmap string (list Z)) : outcome (Z * gmap string (list Z)) :=
  match files !! in_name with
  | None => Ret (1, files)
  | Some _ =>
      if negb (writable out_name) then Ret (1, files)
      else
        let files := <[out_name := []]> files in
        finish_job (Some out_name) files (job (mk_streams (default [] (files !! in_name)) (Some []) space 0 0))
  end.

(** [while (i < argc && r == 0) { ... }] of [-t] *)
Fixpoint test_files (o : options) (names : list string) (files : gmap string (list Z)) : outcome (Z * gmap string (list Z)) :=
  match names with
  | [] => Ret (0, files)
  | name :: names' =>
      match files !! name with
      | None => Ret (1, files)
      | Some l =>
          '(r, files) ← finish_job None files
            (do_decompress (o_fast o) malloc (Z.to_nat (o_loops o)) (mk_streams l None space 0 0));
          if decide (r = 0) then test_files o names' files else Ret (r, files)
      end
  end.

(** [int main(int argc, char *argv[])] on [argv[1]], ... after [ucl_init] *)
Definition uclpack_main (args : list string) (files : gmap string (list Z)) : outcome (Z * gmap string (list Z)) :=
  match get_options args no_options with
  | None => Ret (1, files)
  | Some (o, names) =>
      if o_test o then match names with [] => Ret (1, files) | _ => test_files o names files end
      else
        match names with
        | [in_name; out_name] =>
            if o_decompress o then two_files (do_decompress (o_fast o) malloc 0) in_name out_name files
            else if set_method_name (o_method o) (o_level o) is Some _ then
              two_files (do_compress (o_fast o) malloc heap stack (o_method o) (o_level o) (o_block_size o)) in_name out_name files
            else Ret (0, files)
        | _ => Ret (1, files)
        end
  end.
End command.
