(* ===== verification/UclpackCorrect.v ===== *)
(** * What uclpack promises (packers/exepak-1.5/ucl-1.02/examples/uclpack.c)

    A file that was packed is unpacked to what it was, whatever the options; and
    what passes for unpacked, without -F, has the checksum the archive names. *)

From S2P Require Import Prelude UclBits UclDecode UclEncode UclRoundtrip UclSwd UclCompress UclCorrect UclSize UclChecksum UclInPlace Exepak Uclpack.

(** ** Reading and writing *)

Definition written (w : list Z) (s : streams) : option (list Z) := (λ o, o ++ w) <$> s_fo s.
Definition space_for (n : Z) (s : streams) : Prop := s_fo s = None ∨ n ≤ s_space s.

(** From the input [fi] on, [m] computes [a], leaves [fi'] of the input and
    writes [w]. *)
Definition does {A} (m : prog A) (a : A) (fi fi' w : list Z) : Prop := ∀ s, s_fi s = fi → space_for (Z.of_nat (length w)) s →
  ∃ s', m s = Fine a s' ∧ s_fi s' = fi' ∧ s_fo s' = written w s ∧
    (s_fo s = None ∨ s_space s' = s_space s - Z.of_nat (length w)).

Lemma written_nil s : written [] s = s_fo s.
Proof. unfold written. destruct (s_fo s) as [o|]; [|done]. simpl. by rewrite app_nil_r. Qed.

Lemma does_ret {A} (a : A) fi : does (mret a) a fi fi [].
Proof. intros s Hs _. exists s. rewrite written_nil. split_and!; [done|done|done|]. right. simpl. lia. Qed.

Lemma does_bind {A B} (m : prog A) (k : A → prog B) a b fi fi1 fi2 w1 w2 :
  does m a fi fi1 w1 → does (k a) b fi1 fi2 w2 → does (m ≫= k) b fi fi2 (w1 ++ w2).
Proof.
  intros H1 H2 s Hs Hroom. rewrite length_app in Hroom.
  destruct (H1 s Hs) as (s1 & E1 & F1 & O1 & R1); [destruct Hroom as [?|?]; [by left|right; lia]|].
  destruct (H2 s1 F1) as (s2 & E2 & F2 & O2 & R2).
  { destruct Hroom as [Hn|Hr]; [left; rewrite O1; unfold written; by rewrite Hn|].
    destruct R1 as [Hn|R1]; [left; rewrite O1; unfold written; by rewrite Hn|right; lia]. }
  exists s2. unfold mbind, prog_bind. rewrite E1. split_and!; [done|done| |].
  - rewrite O2. unfold written. rewrite O1. unfold written. destruct (s_fo s); [|done]. simpl. by rewrite <-(assoc_L (++)).
  - destruct R1 as [Hn|R1]; [by left|]. destruct R2 as [Hn|R2].
    + left. rewrite O1 in Hn. unfold written in Hn. by destruct (s_fo s).
    + right. rewrite length_app. lia.
Qed.

(** Steps that write nothing, and steps that are the last to write *)
Lemma does_step {A B} (m : prog A) (k : A → prog B) a b fi fi1 fi2 w :
  does m a fi fi1 [] → does (k a) b fi1 fi2 w → does (m ≫= k) b fi fi2 w.
Proof. apply (does_bind m k a b fi fi1 fi2 [] w). Qed.

Lemma does_pure {A} (a : A) fi : does (pure (Ret a)) a fi fi [].
Proof. apply does_ret. Qed.

Lemma does_left fi : does (λ s, Fine (length (s_fi s)) s) (length fi) fi fi [].
Proof. intros s <- Hr. by apply (does_ret (length (s_fi s)) (s_fi s)). Qed.

Lemma does_reset fi : does (pmod reset_totals) tt fi fi [].
Proof. intros s Hs _. eexists. split; [done|]. rewrite written_nil. split_and!; [done|done|]. right. simpl. lia. Qed.

Lemma does_read n fi : 0 ≤ n → does (xread n true) (take (Z.to_nat n) fi) fi (drop (Z.to_nat n) fi) [].
Proof.
  intros Hn s <- _. unfold xread. rewrite decide_False by naive_solver. eexists. split; [done|].
  rewrite written_nil. split_and!; [done|done|]. right. simpl. lia.
Qed.

Lemma does_read_all l r eof : does (xread (Z.of_nat (length l)) eof) l (l ++ r) r [].
Proof.
  intros s Hs _. unfold xread. rewrite Hs, Nat2Z.id, take_app_length, drop_app_length.
  rewrite decide_False by naive_solver. eexists. split; [done|]. rewrite written_nil. split_and!; [done|done|]. right. simpl. lia.
Qed.

Lemma does_write l fi : does (xwrite l) tt fi fi l.
Proof.
  intros s Hs Hroom. unfold xwrite, written. destruct (s_fo s) as [o|] eqn:E.
  - destruct Hroom as [Hn|Hr]; [congruence|]. rewrite decide_True by done. eexists. split; [done|]. simpl. rewrite E. by auto.
  - eexists. split; [done|]. simpl. by auto.
Qed.

Lemma be32_length v : length (be32_put v) = 4%nat.
Proof. done. Qed.

Lemma be32_roundtrip v : is_u32 v → be32_get (be32_put v) = v.
Proof.
  intros Hv. unfold be32_get, be32_put. cbn [nth]. apply Z.bits_inj'. intros n Hn.
  change 0xff with (Z.ones 8). rewrite !Z.lor_spec, !Z.shiftl_spec by done.
  assert (Hhigh : 32 ≤ n → Z.testbit v n = false) by (intros; by apply (high_bit v 32)).
  assert (Hb : ∀ k j, 0 ≤ k → 0 ≤ j → n = j + k → Z.testbit (Z.land (Z.shiftr v k) (Z.ones 8)) j = Z.testbit v n && (j <? 8)).
  { intros k j Hk Hj ->. by rewrite Z.land_spec, Z.shiftr_spec, ones_bit by lia. }
  assert (H0 : ∀ k, n < k → Z.testbit (Z.land (Z.shiftr v k) (Z.ones 8)) (n - k) = false) by (intros; apply Z.testbit_neg_r; lia).
  rewrite (Hb 0 (n - 0)) by lia.
  destruct (decide (n < 8)); [rewrite !H0 by lia; rewrite (proj2 (Z.ltb_lt (n - 0) 8)) by lia; by destruct (Z.testbit v n)|].
  rewrite (Hb 8 (n - 8)), (proj2 (Z.ltb_ge (n - 0) 8)) by lia.
  destruct (decide (n < 16)); [rewrite !H0 by lia; rewrite (proj2 (Z.ltb_lt (n - 8) 8)) by lia; by destruct (Z.testbit v n)|].
  rewrite (Hb 16 (n - 16)), (proj2 (Z.ltb_ge (n - 8) 8)) by lia.
  destruct (decide (n < 24)); [rewrite !H0 by lia; rewrite (proj2 (Z.ltb_lt (n - 16) 8)) by lia; by destruct (Z.testbit v n)|].
  rewrite (Hb 24 (n - 24)), (proj2 (Z.ltb_ge (n - 16) 8)) by lia.
  destruct (decide (n < 32)); [rewrite (proj2 (Z.ltb_lt (n - 24) 8)) by lia; by destruct (Z.testbit v n)|].
  rewrite (proj2 (Z.ltb_ge (n - 24) 8)) by lia. rewrite Hhigh by lia. done.
Qed.

Lemma lor_high x y k : 0 ≤ k → 0 ≤ x < 2 ^ k → Z.lor x (Z.shiftl y k) = x + y * 2 ^ k.
Proof.
  intros Hk Hx. rewrite <-(Z.shiftl_mul_pow2 y k) by done. pose proof (Z.add_lor_land x (Z.shiftl y k)) as Ha.
  assert (E0 : Z.land x (Z.shiftl y k) = 0); [|lia]. apply Z.bits_inj'. intros n Hn. rewrite Z.land_spec, Z.bits_0.
  destruct (decide (n < k)); [rewrite (Z.shiftl_spec_low y k n) by lia; apply andb_false_r|]. by rewrite (high_bit x k n) by lia.
Qed.

(** Any four bytes are an integer. *)
Lemma be32_bytes l : bytes_ok l → length l = 4%nat → is_u32 (be32_get l) ∧ be32_put (be32_get l) = l.
Proof.
  intros Hb Hl. destruct l as [|a [|b [|c [|d [|]]]]]; try done. unfold bytes_ok in Hb. rewrite !Forall_cons in Hb.
  destruct Hb as (Ha & Hb & Hc & Hd & _).
  assert (E : be32_get [a; b; c; d] = d + c * 2 ^ 8 + b * 2 ^ 16 + a * 2 ^ 24).
  { unfold be32_get. cbn [nth]. rewrite Z.shiftl_0_r, (lor_high d c 8), (lor_high _ b 16), (lor_high _ a 24) by lia. done. }
  rewrite E. split; [unfold is_u32; lia|]. unfold be32_put. change 0xff with (Z.ones 8). rewrite !Z.land_ones, !Z.shiftr_div_pow2 by lia.
  change (2 ^ 0) with 1. repeat f_equal; Z.div_mod_to_equations; lia.
Qed.

Lemma does_read32 v r : is_u32 v → does xread32 v (be32_put v ++ r) r [].
Proof.
  intros Hv. unfold xread32. eapply does_step; [apply (does_read_all (be32_put v) r false)|].
  rewrite be32_roundtrip by done. apply does_ret.
Qed.

Lemma does_getc x r : does xgetc x (x :: r) r [].
Proof. unfold xgetc. eapply does_step; [apply (does_read_all [x] r false)|]. apply does_ret. Qed.

(** A computation that wrote everything before its result *)
Lemma does_then {A B} (m : prog A) (k : A → prog B) a b fi fi1 fi2 w :
  does m a fi fi1 w → does (k a) b fi1 fi2 [] → does (m ≫= k) b fi fi2 w.
Proof. intros H1 H2. rewrite <-(app_nil_r w). by eapply does_bind. Qed.

(** ** The format *)

Definition method_of (f : nrv) : Z := match f with NRV2B => 0x2b | NRV2D => 0x2d | NRV2E => 0x2e end.

Lemma nrv_of_method f : nrv_of (method_of f) = Some f.
Proof. by destruct f. Qed.

Lemma overhead_of f size : 0 ≤ size < 2 ^ 31 → get_overhead (method_of f) size = size / 8 + 256.
Proof.
  intros Hs. unfold get_overhead. rewrite decide_True by (destruct f; auto).
  apply u32_small. unfold is_u32. Z.div_mod_to_equations. lia.
Qed.

(** A block: as it is, or compressed to less. *)
Inductive packed_block (f : nrv) (inb : list Z) : list Z → Prop :=
  | packed_stored : packed_block f inb (be32_put (Z.of_nat (length inb)) ++ be32_put (Z.of_nat (length inb)) ++ inb)
  | packed_smaller ps final :
      let out := layout 1 0 (stream f 1 ps final) in
      pieces_ok f [] ps → expand [] ps ++ final = inb → (0 < length out < length inb)%nat →
      packed_block f inb (be32_put (Z.of_nat (length inb)) ++ be32_put (Z.of_nat (length out)) ++ out).

(** The blocks of a file *)
Inductive packed (f : nrv) (bs : Z) : list Z → list Z → Prop :=
  | packed_nil : packed f bs [] []
  | packed_cons inb blk data bytes :
      0 < Z.of_nat (length inb) ≤ bs → packed_block f inb blk → packed f bs data bytes →
      packed f bs (inb ++ data) (blk ++ bytes).

(** What the archive ends with *)
Definition trailer (fast : bool) (checksum : Z) : list Z := be32_put 0 ++ (if fast then [] else be32_put checksum).
Definition header (fast : bool) (method level bs : Z) : list Z :=
  magic ++ be32_put (if fast then 0 else 1) ++ [method; level] ++ be32_put bs.

(** The checksum that is kept, or not *)
Definition sum_of (fast : bool) (checksum : Z) (l : list Z) : Z := if fast then checksum else adler_spec checksum l.

Lemma sum_of_app fast c x y : sum_of fast (sum_of fast c x) y = sum_of fast c (x ++ y).
Proof. destruct fast; [done|apply adler_spec_app]. Qed.

Lemma sum_of_range fast c l : is_u32 c → is_u32 (sum_of fast c l).
Proof. destruct fast; [done|]. intros _. apply adler_spec_range. Qed.

(** Blocks a file of [n] bytes has *)
Definition blocks (bs n : Z) : Z := (n + bs - 1) / bs.

Lemma blocks_step bs n : 0 < bs → 0 < n → blocks bs n = 1 + blocks bs (Z.max 0 (n - bs)).
Proof.
  intros Hb Hn. unfold blocks. destruct (decide (n ≤ bs)).
  - rewrite Z.max_l by lia. rewrite (Z.div_small (0 + bs - 1)) by lia.
    symmetry. apply Z.div_unique with (n - 1); lia.
  - rewrite Z.max_r by lia. replace (n + bs - 1) with (n - bs + bs - 1 + 1 * bs) by lia. rewrite Z.div_add by lia. lia.
Qed.

(** [malloc] finds memory, whatever it holds. *)
Definition memory_ok (malloc : nat → Z → option (list Z)) : Prop :=
  ∀ k n, 0 < n < 2 ^ 32 - 1 → ∃ buf, malloc k n = Some buf ∧ Z.of_nat (length buf) = n ∧ bytes_ok buf.

Lemma ucl_malloc_run malloc k n : memory_ok malloc → 0 < n < 2 ^ 32 - 1 →
  ∃ buf, ucl_malloc malloc k n = Some buf ∧ Z.of_nat (length buf) = n ∧ bytes_ok buf.
Proof. intros Hm Hn. unfold ucl_malloc, ucl_malloc_internal. rewrite decide_False, decide_True by lia. by apply Hm. Qed.

Lemma near_small f : 2 ^ 16 < near_offset f < 2 ^ 19.
Proof. by destruct f. Qed.

(** ** Packing *)

Section packing.
  Context (f : nrv) (fast : bool) (malloc : nat → Z → option (list Z)).
  Context (heap : nat → nat → option (Z → Z)) (stack level bs : Z).
  Context (Hlevel : 1 ≤ level ≤ 10) (Hbs : 0 < bs ≤ near_offset f) (Hheap : ∀ k j, (j < 6)%nat → is_Some (heap k j)).

Let flags : Z := if fast then 0 else 1.

Lemma compress_block_run k inb fi : bytes_ok inb → 0 < Z.of_nat (length inb) ≤ bs →
  ∃ blk, packed_block f inb blk ∧ Z.of_nat (length blk) ≤ Z.of_nat (length inb) + 8 ∧
    does (compress_block heap stack (method_of f) level (bs + get_overhead (method_of f) bs) k inb) None fi fi blk.
Proof.
  intros Hb Hin. pose proof (near_small f) as Hn. set (n := Z.of_nat (length inb)) in *.
  destruct (compress_run f false inb (heap k) stack level None Hb ltac:(lia)) as (ps & final & E & Hexp & Hok & _).
  { by vm_compute. }
  { unfold valid_arguments. split_and!; [lia|lia|by left|by left|by vm_compute|by left; vm_compute]. }
  { apply Hheap. }
  change (group_bytes (default default_config None)) with 1%nat in E. set (out := layout 1 0 _) in E. rewrite <-Hexp in *.
  pose proof (stream_near f 1 ps final ltac:(lia) Hok) as Hout. rewrite Hexp in Hout. fold n in Hout.
  specialize (Hout ltac:(lia)). cbv zeta in Hout. fold out in Hout. rewrite Hexp.
  assert (Hd : n / 8 ≤ bs / 8) by (apply Z.div_le_mono; lia).
  set (len := Z.of_nat (length out)) in *.
  assert (Hrun : ∀ w, does (xwrite32 n;; (if decide (len < n) then xwrite32 len;; xwrite out else xwrite32 n;; xwrite inb);; mret (@None Z)) None fi fi w →
    does (compress_block heap stack (method_of f) level (bs + get_overhead (method_of f) bs) k inb) None fi fi w).
  { intros w Hw. unfold compress_block. rewrite nrv_of_method. rewrite Hexp in E. rewrite E.
    eapply does_step; [apply does_pure|]. cbv beta iota zeta. rewrite !overhead_of by lia. fold n len.
    rewrite decide_False by lia. rewrite decide_False by done. rewrite decide_False by (intros [H|H]; [by apply H|lia]). exact Hw. }
  destruct (decide (len < n)).
  - eexists. split; [apply (packed_smaller f inb ps final Hok Hexp); fold out; lia|]. fold out len.
    split; [rewrite !length_app, !be32_length; lia|]. apply Hrun.
    eapply does_bind; [apply does_write|]. eapply does_then; [|apply does_ret].
    eapply does_bind; apply does_write.
  - exists (be32_put n ++ be32_put n ++ inb). split; [apply packed_stored|].
    split; [rewrite !length_app, !be32_length; lia|]. apply Hrun.
    eapply does_bind; [apply does_write|]. eapply does_then; [|apply does_ret].
    eapply does_bind; apply does_write.
Qed.

Lemma compress_loop_run fuel data checksum : (length data < fuel)%nat → bytes_ok data → is_u32 checksum →
  ∃ bytes, packed f bs data bytes ∧ Z.of_nat (length bytes) ≤ Z.of_nat (length data) + 8 * blocks bs (Z.of_nat (length data)) ∧
    does (compress_loop heap stack fuel (method_of f) level bs flags checksum) (inl (sum_of fast checksum data)) data [] bytes.
Proof.
  revert data checksum. induction fuel as [|fuel IH]; intros data checksum Hf Hb Hc; [lia|]. cbn [compress_loop].
  set (inb := take (Z.to_nat bs) data). set (rest := drop (Z.to_nat bs) data).
  assert (Hread : does (xread bs true) inb data rest []) by (apply does_read; lia).
  destruct (decide (Z.of_nat (length inb) ≤ 0)) as [H0|H0].
  - assert (data = []) as -> by (destruct data; [done|unfold inb in H0; rewrite length_take in H0; simpl in H0; lia]).
    exists []. split; [constructor|]. split; [unfold blocks; simpl; Z.div_mod_to_equations; lia|].
    eapply does_step; [exact Hread|]. rewrite decide_True by done. unfold rest, sum_of. rewrite drop_nil.
    replace (if fast then checksum else adler_spec checksum []) with checksum; [apply does_ret|].
    destruct fast; [done|]. by rewrite adler_spec_nil.
  - assert (Hin : 0 < Z.of_nat (length inb) ≤ bs) by (unfold inb in *; rewrite length_take in *; lia).
    assert (Hdata : data = inb ++ rest) by (symmetry; apply take_drop).
    assert (Hrest : Z.of_nat (length rest) = Z.max 0 (Z.of_nat (length data) - bs)) by (unfold rest; rewrite length_drop; lia).
    assert (Hbin : bytes_ok inb) by by apply Forall_take. assert (Hbrest : bytes_ok rest) by by apply Forall_drop.
    assert (Hlen : length data = (length inb + length rest)%nat) by (rewrite Hdata at 1; apply length_app).
    destruct (compress_block_run (length rest) inb rest Hbin Hin) as (blk & Hblk & Hsize & Hdo).
    destruct (IH rest (sum_of fast checksum inb)) as (bytes & Hpacked & Hsizes & Hdos);
      [lia|done|by apply sum_of_range|].
    exists (blk ++ bytes). split; [rewrite Hdata; by constructor|]. split.
    { rewrite length_app, (blocks_step bs) by lia. rewrite <-Hrest. lia. }
    eapply does_step; [exact Hread|]. rewrite decide_False by done.
    eapply (does_step _ _ (sum_of fast checksum inb) _ rest rest).
    { unfold flags, sum_of. destruct fast; [apply does_ret|].
      change (Z.land 1 1) with 1. rewrite decide_True by done.
      rewrite adler32_run; [|done|by apply Forall_take|lia]. rewrite Nat2Z.id, firstn_all. apply does_pure. }
    eapply does_step; [apply does_left|]. eapply does_bind; [exact Hdo|].
    by rewrite sum_of_app, <-Hdata in Hdos.
Qed.

(** An archive, without what may follow it *)
Definition archive (data bytes : list Z) : list Z :=
  header fast (method_of f) level bs ++ bytes ++ trailer fast (adler_spec 1 data).

Lemma do_compress_run data : memory_ok malloc → bytes_ok data →
  ∃ bytes, packed f bs data bytes ∧ Z.of_nat (length bytes) ≤ Z.of_nat (length data) + 8 * blocks bs (Z.of_nat (length data)) ∧
    does (do_compress fast malloc heap stack (method_of f) level bs) 0 data [] (archive data bytes).
Proof.
  intros Hm Hb. pose proof (near_small f) as Hn.
  destruct (compress_loop_run (S (length data)) data 1) as (bytes & Hp & Hl & Hdo); [lia|done|done|].
  exists bytes. split; [done|]. split; [done|]. unfold do_compress, archive, header. rewrite <-!(assoc_L (++)).
  eapply does_step; [apply does_reset|]. eapply does_bind; [apply does_write|].
  eapply does_bind; [unfold xwrite32; fold flags; apply does_write|].
  change ([method_of f; level] ++ be32_put bs ++ bytes ++ trailer fast (adler_spec 1 data))
    with ([method_of f] ++ [level] ++ be32_put bs ++ bytes ++ trailer fast (adler_spec 1 data)).
  assert (Hput : ∀ x fi, 0 ≤ x < 256 → does (xputc x) tt fi fi [x]).
  { intros x fi Hx. unfold xputc. replace (Z.land x 0xff) with x; [apply does_write|].
    change 0xff with (Z.ones 8). rewrite Z.land_ones by lia. symmetry. by apply Z.mod_small. }
  eapply does_bind; [apply Hput; by destruct f|]. eapply does_bind; [apply Hput; lia|].
  eapply does_bind; [apply does_write|]. eapply does_step; [apply does_pure|]. cbv zeta.
  assert (Hd : 0 ≤ bs / 8 ≤ bs) by (Z.div_mod_to_equations; lia).
  rewrite overhead_of, (u32_small (bs + _)) by (unfold is_u32; lia).
  destruct (ucl_malloc_run malloc 0 bs Hm ltac:(lia)) as (b1 & -> & _).
  destruct (ucl_malloc_run malloc 1 (bs + (bs / 8 + 256)) Hm ltac:(lia)) as (b2 & -> & _).
  eapply does_step; [apply does_left|]. eapply does_bind; [exact Hdo|]. cbv iota beta.
  unfold trailer. eapply does_bind; [apply does_write|]. eapply does_then; [|apply does_ret].
  unfold flags, sum_of. destruct fast; [apply does_ret|apply does_write].
Qed.
End packing.

(** ** Unpacking *)

Section unpacking.
  Context (f : nrv) (packed_fast fast : bool) (malloc : nat → Z → option (list Z)) (benchmark_loops : nat) (bs : Z).
  Context (Hbs : 1024 ≤ bs ≤ near_offset f).

Let flags : Z := if packed_fast then 0 else 1.
Let unchecked : bool := packed_fast || fast.
Let buf_len : Z := bs + (bs / 8 + 256) + (if decide (benchmark_loops = 0%nat) then 0 else bs).

Lemma sum_flags checksum buf len (l : list Z) :
  is_u32 checksum → bytes_ok l → take (Z.to_nat len) buf = l → 0 ≤ len ≤ Z.of_nat (length buf) →
  (if decide (Z.land flags 1 ≠ 0 ∧ fast = false) then ucl_adler32 checksum (Some buf) len else Ret checksum) =
    Ret (sum_of unchecked checksum l).
Proof.
  intros Hc Hb <- Hlen. unfold sum_of, unchecked, flags. destruct packed_fast; [by rewrite decide_False by naive_solver|].
  destruct fast; [by rewrite decide_False by naive_solver|]. rewrite decide_True by done. by rewrite adler32_run.
Qed.

(** The benchmark decompresses once more what lies at the end of the buffer. *)
Lemma benchmark_run loops ps final rest0 fi :
  let inb := expand [] ps ++ final in
  let out := layout 1 0 (stream f 1 ps final) in
  let n := Z.of_nat (length inb) in
  let off := Z.of_nat (length inb) + Z.of_nat (length rest0) in
  pieces_ok f [] ps → n ≤ bs → n + n / 8 + 12 ≤ off + Z.of_nat (length out) → n < off + Z.of_nat (length out) →
  off + Z.of_nat (length out) < 2 ^ 31 →
  does (do_decompress_benchmark loops f off (Z.of_nat (length out)) n (inb ++ rest0 ++ out)) (inb ++ rest0 ++ out) fi fi [].
Proof.
  intros inb out n off Hok Hn Hroom Hlt Hsmall. pose proof (near_small f) as Hnear.
  induction loops as [|loops IH]; cbn [do_decompress_benchmark]; [apply does_ret|].
  assert (E : run_in_place f Fast off (Z.of_nat (length out)) n (inb ++ rest0 ++ out) = Ret (UCL_E_OK, n, inb ++ rest0 ++ out)).
  { unfold run_in_place. pose proof (in_place_stream (BB := buffer_8) f ps final Fast (inb ++ rest0) [] n
      (block_fuel (Z.of_nat (length out)) n)) as H. cbv zeta in H. change (bb_bytes (BitBuffer := buffer_8)) with 1%nat in H. fold inb out n in H. rewrite !app_nil_r, <-(assoc_L (++)) in H.
    rewrite (length_app inb rest0), Nat2Z.inj_add in H. fold off in H. rewrite H; try done; try lia.
    - by rewrite drop_app_length.
    - rewrite !length_app. lia.
    - unfold block_fuel. lia. }
  rewrite E. eapply does_step; [apply does_pure|]. cbv beta iota. rewrite decide_False by (intros [H|H]; by apply H). exact IH.
Qed.

Lemma decompress_block_run inb blk buf checksum r :
  packed_block f inb blk → 0 < Z.of_nat (length inb) ≤ bs → bytes_ok inb → is_u32 checksum →
  Z.of_nat (length buf) = buf_len →
  ∃ blk' buf', blk = be32_put (Z.of_nat (length inb)) ++ blk' ∧ Z.of_nat (length buf') = buf_len ∧
    does (decompress_block fast benchmark_loops f flags bs buf_len (Z.of_nat (length inb)) buf checksum)
      (inl (buf', sum_of unchecked checksum inb)) (blk' ++ r) r inb.
Proof.
  intros Hblk Hin Hb Hc Hbuf. pose proof (near_small f) as Hnear. set (n := Z.of_nat (length inb)) in *.
  assert (En : Z.of_nat (length inb) = n) by done.
  assert (Hd : 0 ≤ bs / 8 ≤ bs) by (Z.div_mod_to_equations; lia).
  assert (Hd8 : 0 ≤ n / 8) by (apply Z.div_pos; lia).
  assert (Hlen : n + n / 8 + 256 ≤ buf_len < 2 ^ 31).
  { assert (n / 8 ≤ bs / 8) by (apply Z.div_le_mono; lia). unfold buf_len. destruct (decide _); lia. }
  destruct Hblk as [|ps final out Hok Hexp Hout].
  - exists (be32_put n ++ inb), (take (Z.to_nat (buf_len - n)) buf ++ inb). split; [done|].
    split; [rewrite length_app, length_take; lia|]. unfold decompress_block. rewrite <-(assoc_L (++)).
    eapply does_step; [apply does_read32; unfold is_u32; lia|]. rewrite decide_False by lia.
    rewrite u32_small by (unfold is_u32; lia). eapply does_step; [apply does_read_all|]. cbv zeta.
    rewrite decide_False by lia. eapply does_then; [apply does_write|].
    rewrite (sum_flags _ _ _ inb) by (done || lia || (unfold n; by rewrite Nat2Z.id, firstn_all)).
    eapply does_step; [apply does_pure|]. apply does_ret.
  - set (len := Z.of_nat (length out)) in *. assert (Elen : Z.of_nat (length out) = len) by done. set (pre := take (Z.to_nat (buf_len - len)) buf).
    assert (Hpre : Z.of_nat (length pre) = buf_len - len) by (unfold pre; rewrite length_take; lia).
    set (buf' := inb ++ drop (length inb) (pre ++ out)).
    assert (Hbuf' : Z.of_nat (length buf') = buf_len) by (unfold buf'; rewrite length_app, length_drop, length_app; lia).
    exists (be32_put len ++ out), buf'. split; [done|]. split; [done|]. unfold decompress_block. rewrite <-(assoc_L (++)).
    eapply does_step; [apply does_read32; unfold is_u32; lia|]. rewrite decide_False by lia.
    rewrite u32_small by (unfold is_u32; lia). eapply does_step; [apply does_read_all|]. cbv zeta.
    rewrite decide_True by lia. fold pre.
    assert (E : run_in_place f (if fast then Fast else Safe) (buf_len - len) len n (pre ++ out) = Ret (UCL_E_OK, n, buf')).
    { unfold run_in_place. rewrite <-Hpre. unfold buf', n. rewrite <-(app_nil_r (pre ++ out)), <-Hexp, <-(assoc_L (++)).
      apply (in_place_stream (BB := buffer_8) f ps final _ pre []);
        rewrite ?Hexp; change (bb_bytes (BitBuffer := buffer_8)) with 1%nat; fold out n len;
        try done; try lia; try (by destruct fast); try (unfold block_fuel; lia); rewrite !length_app; simpl; lia. }
    rewrite E. eapply does_step; [apply does_pure|]. cbv beta iota. rewrite decide_False by (intros [H|H]; by apply H).
    assert (Ht : take (Z.to_nat n) buf' = inb) by (unfold buf', n; by rewrite Nat2Z.id, take_app_length).
    rewrite Ht. eapply does_then; [apply does_write|].
    rewrite (sum_flags _ _ _ inb) by (done || lia). eapply does_step; [apply does_pure|].
    eapply (does_step _ _ buf'); [|apply does_ret]. destruct (Nat.eq_dec benchmark_loops 0) as [E0|E0]; [rewrite E0; apply does_ret|].
    assert (Hbl : buf_len = bs + (bs / 8 + 256) + bs) by (unfold buf_len; by rewrite decide_False).
    assert (Eb : buf' = inb ++ drop (length inb) pre ++ out) by (unfold buf'; rewrite drop_app_le by lia; done).
    assert (Hoff : buf_len - len = Z.of_nat (length inb) + Z.of_nat (length (drop (length inb) pre))) by (rewrite length_drop; lia).
    rewrite Eb, Hoff. unfold n. rewrite <-Hexp. apply benchmark_run; rewrite ?Hexp; fold out n; try done; lia.
Qed.

Lemma unpack_loop_run fuel data bytes buf checksum r :
  packed f bs data bytes → (length bytes < fuel)%nat → bytes_ok data → is_u32 checksum → Z.of_nat (length buf) = buf_len →
  does (decompress_loop fast fuel benchmark_loops f flags bs buf_len buf checksum)
    (inl (sum_of unchecked checksum data)) (bytes ++ be32_put 0 ++ r) r data.
Proof.
  intros Hp. revert fuel buf checksum. induction Hp as [|inb blk data bytes Hin Hblk Hp IH];
    intros fuel buf checksum Hf Hb Hc Hbuf; (destruct fuel as [|fuel]; [lia|]); cbn [decompress_loop].
  - eapply does_step; [apply (does_read32 0); done|]. rewrite decide_True by done.
    replace (sum_of unchecked checksum []) with checksum; [apply does_ret|].
    unfold sum_of. destruct unchecked; [done|]. by rewrite adler_spec_nil.
  - apply Forall_app in Hb as [Hb1 Hb2]. pose proof (near_small f) as Hnear.
    destruct (decompress_block_run inb blk buf checksum (bytes ++ be32_put 0 ++ r) Hblk Hin Hb1 Hc Hbuf)
      as (blk' & buf' & -> & Hbuf' & Hdo).
    rewrite length_app, length_app, be32_length in Hf.
    eapply does_step; [rewrite <-!(assoc_L (++)); apply does_read32; unfold is_u32; lia|].
    rewrite decide_False by lia. eapply does_bind; [exact Hdo|]. cbv iota beta. rewrite <-sum_of_app.
    apply IH; [lia|done|by apply sum_of_range|done].
Qed.
End unpacking.

Lemma do_decompress_run f packed_fast fast malloc benchmark_loops level bs data bytes r :
  1024 ≤ bs ≤ near_offset f → 1 ≤ level ≤ 10 → memory_ok malloc → bytes_ok data → packed f bs data bytes →
  does (do_decompress fast malloc benchmark_loops) 0 (archive f packed_fast level bs data bytes ++ r)
    r data.
Proof.
  intros Hbs Hl Hm Hb Hp. pose proof (near_small f) as Hnear. unfold do_decompress, archive, header, trailer.
  rewrite <-!(assoc_L (++)).
  eapply does_step; [apply does_reset|]. eapply does_step; [apply (does_read_all magic)|]. rewrite decide_False by auto.
  set (flags := if packed_fast then 0 else 1). eapply does_step; [apply does_read32; by destruct packed_fast|].
  eapply does_step; [apply does_getc|]. eapply does_step; [apply does_getc|].
  eapply does_step; [apply does_read32; unfold is_u32; lia|]. cbv zeta.
  assert (Hname : ∃ name, set_method_name (method_of f) level = Some name).
  { unfold set_method_name. rewrite decide_False by lia. rewrite nrv_of_method. destruct f; by eexists. }
  destruct Hname as [name ->]. rewrite nrv_of_method, overhead_of by lia.
  assert (Hd : 0 ≤ bs / 8 ≤ bs) by (Z.div_mod_to_equations; lia).
  rewrite decide_False by lia. rewrite decide_False by lia. unfold decompress_blocks.
  eapply does_step; [apply does_pure|]. cbv zeta. rewrite (u32_small (bs + _)) by (unfold is_u32; lia).
  set (buf_len := if decide (benchmark_loops ≠ 0%nat) then _ else _).
  assert (Ebl : buf_len = bs + (bs / 8 + 256) + (if decide (benchmark_loops = 0%nat) then 0 else bs)).
  { unfold buf_len. destruct (Nat.eq_dec benchmark_loops 0) as [->|E0].
    - rewrite decide_False, decide_True by auto. lia.
    - rewrite decide_True, decide_False by auto. apply u32_small. unfold is_u32. lia. }
  clearbody buf_len. destruct (ucl_malloc_run malloc 0 buf_len Hm) as (buf & -> & Hbuf & _).
  { rewrite Ebl. destruct (decide _); lia. }
  eapply does_step; [apply does_left|]. rewrite Ebl in *.
  set (rest := (if packed_fast then [] else be32_put (adler_spec 1 data)) ++ r).
  eapply (does_then _ _ _ _ _ rest).
  { apply (unpack_loop_run f packed_fast fast malloc benchmark_loops bs Hbs _ data bytes buf 1); try done.
    rewrite length_app. lia. }
  cbv iota beta. unfold rest, flags. destruct packed_fast; [apply does_ret|]. change (Z.land 1 1) with 1. rewrite decide_True by done.
  eapply does_step; [apply does_read32, adler_spec_range|].
  rewrite decide_False; [apply does_ret|]. intros [-> Hne]. by apply Hne.
Qed.

(** ** The command *)

(** What the options allow *)
Definition options_ok (o : options) : Prop :=
  is_Some (nrv_of (o_method o)) ∧ 1 ≤ o_level o ≤ 10 ∧ 1024 ≤ o_block_size o ≤ 8 * 1024 * 1024.

Lemma option_of_ok a o o' : options_ok o → option_of a o = Some o' → options_ok o'.
Proof.
  intros (Hm & Hl & Hb). unfold option_of.
  assert (Hset : ∀ o1, is_Some (nrv_of (o_method o1)) → 1 ≤ o_level o1 ≤ 10 → 1024 ≤ o_block_size o1 ≤ 8 * 1024 * 1024 →
    Some o1 = Some o' → options_ok o') by (intros o1 ??? [= <-]; done).
  do 6 (destruct (decide _); [apply Hset; cbn [o_level o_block_size o_method set_decompress set_test set_fast set_method]; first [done | by eexists]|]).
  destruct a as [|c0 [|c v]]; [done|done|]. cbv zeta.
  destruct (decide (49 ≤ char_code c ≤ 57 ∧ v = EmptyString)) as [[Hc _]|_]; [apply Hset; cbn [o_level o_block_size o_method set_level]; (done || lia)|].
  destruct (decide (_ ∨ _)); [apply Hset; cbn [o_level o_block_size o_method set_level]; (done || lia)|].
  destruct (decide (char_code c = 98 ∧ _)); [destruct (decide (1024 ≤ _ ≤ _)); [by apply Hset|done]|].
  destruct (decide (char_code c = 68 ∧ _)); [destruct (decide (1 < _)); by apply Hset|].
  destruct (decide _); [by apply Hset|done].
Qed.

Lemma get_options_ok args o o' names : options_ok o → get_options args o = Some (o', names) → options_ok o'.
Proof.
  revert o. induction args as [|a args IH]; intros o Ho; cbn [get_options]; [by intros [= <- _]|].
  destruct a as [|c v]; [by intros [= <- _]|]. destruct (decide _); [|by intros [= <- _]].
  destruct (option_of (String c v) o) as [o1|] eqn:E; [|done]. cbn. apply IH. by eapply option_of_ok.
Qed.

Lemma method_of_nrv m f : nrv_of m = Some f → m = method_of f.
Proof. unfold nrv_of. repeat (destruct (decide _); [by intros [= <-]|]). done. Qed.

Section files.
  Context (writable : string → bool) (malloc : nat → Z → option (list Z)) (heap : nat → nat → option (Z → Z)) (stack space : Z).
  Context (Hmem : memory_ok malloc) (Hheap : ∀ k j, (j < 6)%nat → is_Some (heap k j)).

(** A job that does its work on two files *)
Lemma two_files_run job fi fi' w in_name out_name files :
  does job 0 fi fi' w → files !! in_name = Some fi → in_name ≠ out_name → writable out_name = true → Z.of_nat (length w) ≤ space →
  two_files writable space job in_name out_name files = Ret (0, <[out_name := w]> files).
Proof.
  intros Hj Hin Hne Hw Hs. unfold two_files. rewrite Hin, Hw. cbn [negb]. rewrite lookup_insert_ne, Hin by done. change (default [] (Some fi)) with fi.
  destruct (Hj (mk_streams fi (Some []) space 0 0)) as (s' & -> & _ & Ho & _); [done|by right|].
  unfold finish_job. rewrite Ho. cbn. by rewrite insert_insert_eq.
Qed.

Lemma pack_run args o a b f files data :
  get_options args no_options = Some (o, [a; b]) → o_test o = false → o_decompress o = false →
  nrv_of (o_method o) = Some f → o_block_size o ≤ near_offset f → files !! a = Some data → bytes_ok data → a ≠ b →
  writable b = true → Z.of_nat (length data) + 8 * blocks (o_block_size o) (Z.of_nat (length data)) + 26 ≤ space →
  ∃ bytes, let l := archive f (o_fast o) (o_level o) (o_block_size o) data bytes in
    packed f (o_block_size o) data bytes ∧
    Z.of_nat (length l) ≤ Z.of_nat (length data) + 8 * blocks (o_block_size o) (Z.of_nat (length data)) + 26 ∧
    uclpack_main writable malloc heap stack space args files = Ret (0, <[b := l]> files).
Proof.
  intros Ho Ht Hd Hf Hbs Ha Hb Hne Hw Hs.
  assert (Hok : options_ok o) by (eapply get_options_ok; [|exact Ho]; by split_and!).
  destruct Hok as (_ & Hl & Hb1). destruct (do_compress_run f (o_fast o) malloc heap stack (o_level o) (o_block_size o)
    Hl ltac:(lia) Hheap data Hmem Hb) as (bytes & Hp & Hlen & Hdo).
  exists bytes. cbv zeta. split; [done|].
  assert (Hal : Z.of_nat (length (archive f (o_fast o) (o_level o) (o_block_size o) data bytes)) ≤
    Z.of_nat (length data) + 8 * blocks (o_block_size o) (Z.of_nat (length data)) + 26).
  { unfold archive, header, trailer. rewrite !length_app, !be32_length. simpl. destruct (o_fast o); simpl; lia. }
  split; [done|]. unfold uclpack_main. rewrite Ho, Ht, Hd.
  assert (Hname : is_Some (set_method_name (o_method o) (o_level o))).
  { unfold set_method_name. rewrite decide_False, Hf by lia. destruct f; by eexists. }
  destruct Hname as [name ->]. apply method_of_nrv in Hf. rewrite Hf.
  apply (two_files_run _ data []); (done || lia).
Qed.

Lemma unpack_files_run args o b c f packed_fast level bs data bytes r files :
  get_options args no_options = Some (o, [b; c]) → o_test o = false → o_decompress o = true →
  1024 ≤ bs ≤ near_offset f → 1 ≤ level ≤ 10 → bytes_ok data → packed f bs data bytes →
  files !! b = Some (archive f packed_fast level bs data bytes ++ r) → b ≠ c → writable c = true → Z.of_nat (length data) ≤ space →
  uclpack_main writable malloc heap stack space args files = Ret (0, <[c := data]> files).
Proof.
  intros Ho Ht Hd Hbs Hl Hb Hp Hf Hne Hw Hs. unfold uclpack_main. rewrite Ho, Ht, Hd.
  eapply two_files_run; [by apply do_decompress_run|done..].
Qed.

Lemma test_run args o b f packed_fast level bs data bytes r files :
  get_options args no_options = Some (o, [b]) → o_test o = true →
  1024 ≤ bs ≤ near_offset f → 1 ≤ level ≤ 10 → bytes_ok data → packed f bs data bytes →
  files !! b = Some (archive f packed_fast level bs data bytes ++ r) →
  uclpack_main writable malloc heap stack space args files = Ret (0, files).
Proof.
  intros Ho Ht Hbs Hl Hb Hp Hf. unfold uclpack_main. rewrite Ho, Ht. cbn [test_files]. rewrite Hf.
  destruct (do_decompress_run f packed_fast (o_fast o) malloc (Z.to_nat (o_loops o)) level bs data bytes r Hbs Hl Hmem Hb Hp
    (mk_streams (archive f packed_fast level bs data bytes ++ r) None space 0 0)) as (s' & -> & _); [done|by left|].
  done.
Qed.
End files.

(** ** Any archive *)

Section any.
  Context (fast : bool) (malloc : nat → Z → option (list Z)).
  Context (Hbytes : ∀ k n buf, malloc k n = Some buf → Z.of_nat (length buf) = n ∧ bytes_ok buf).

(** When [m] goes on, it has read [l] and written [w], with [Q]. *)
Definition leaves {A} (m : prog A) (Q : A → list Z → list Z → Prop) : Prop := ∀ s a s' , m s = Fine a s' → bytes_ok (s_fi s) →
  ∃ l w, s_fi s = l ++ s_fi s' ∧ s_fo s' = written w s ∧ Q a l w.

Lemma leaves_bind {A B} (m : prog A) (k : A → prog B) (P : A → list Z → list Z → Prop) (Q : B → list Z → list Z → Prop) :
  leaves m P → (∀ a l w, P a l w → bytes_ok l → leaves (k a) (λ b l' w', Q b (l ++ l') (w ++ w'))) → leaves (m ≫= k) Q.
Proof.
  intros Hm Hk s b s' E Hb. unfold mbind, prog_bind in E. destruct (m s) as [a s1|c s1|f] eqn:E1; [|done|done].
  destruct (Hm s a s1 E1 Hb) as (l & w & Hl & Hw & HP). rewrite Hl in Hb. apply Forall_app in Hb as [Hb1 Hb2].
  destruct (Hk a l w HP Hb1 s1 b s' E Hb2) as (l' & w' & Hl' & Hw' & HQ).
  exists (l ++ l'), (w ++ w'). split; [by rewrite Hl, Hl', (assoc_L (++))|]. split; [|done].
  rewrite Hw'. unfold written in *. rewrite Hw. destruct (s_fo s); [|done]. simpl. by rewrite <-(assoc_L (++)).
Qed.

Lemma leaves_mono {A} (m : prog A) (P Q : A → list Z → list Z → Prop) : leaves m P → (∀ a l w, P a l w → Q a l w) → leaves m Q.
Proof. intros Hm HPQ s a s' E Hb. destruct (Hm s a s' E Hb) as (l & w & ? & ? & ?). exists l, w. by auto. Qed.

Lemma leaves_ret {A} (a : A) (Q : A → list Z → list Z → Prop) : Q a [] [] → leaves (mret a) Q.
Proof. intros HQ s b s' [= <- <-] _. exists [], []. by rewrite written_nil. Qed.

Lemma leaves_pure {A} (o : outcome A) (Q : A → list Z → list Z → Prop) : (∀ a, o = Ret a → Q a [] []) → leaves (pure o) Q.
Proof.
  intros HQ s b s' E _. unfold pure in E. destruct o as [a|]; [|done]. injection E as <- <-. exists [], [].
  rewrite written_nil. by auto.
Qed.

Lemma leaves_read n eof : leaves (xread n eof) (λ l l' w, l' = l ∧ w = [] ∧ (eof = false → Z.of_nat (length l) = n)).
Proof.
  intros s l s' E _. unfold xread in E. destruct (decide _) as [|Hn]; [done|]. injection E as <- <-. cbn.
  eexists _, []. split; [symmetry; apply take_drop|]. split; [by rewrite written_nil|]. split; [done|]. split; [done|].
  intros ->. destruct (decide (Z.of_nat (length (take (Z.to_nat n) (s_fi s))) = n)); [done|]. by destruct Hn.
Qed.

Lemma leaves_write w : leaves (xwrite w) (λ _ l' w', l' = [] ∧ w' = w).
Proof.
  intros s [] s' E _. exists [], w. unfold xwrite, written in *. destruct (s_fo s) as [o|] eqn:Eo.
  - destruct (decide _); [|done]. injection E as <-. simpl. by rewrite Eo.
  - injection E as <-. simpl. by rewrite Eo.
Qed.

Lemma leaves_read32 : leaves xread32 (λ v l w, length l = 4%nat ∧ v = be32_get l ∧ w = []).
Proof.
  unfold xread32. eapply leaves_bind; [apply leaves_read|]. intros b l w (-> & -> & Hl) Hb. apply leaves_ret.
  specialize (Hl eq_refl). rewrite app_nil_r. split; [lia|done].
Qed.

Lemma leaves_getc : leaves xgetc (λ _ l w, length l = 1%nat ∧ w = []).
Proof.
  unfold xgetc. eapply leaves_bind; [apply leaves_read|]. intros b l w (-> & -> & Hl) Hb. apply leaves_ret.
  specialize (Hl eq_refl). rewrite app_nil_r. split; [lia|done].
Qed.

(** What is written adds to the checksum. *)
Definition summed (flags checksum checksum' : Z) (w : list Z) : Prop :=
  bytes_ok w ∧ checksum' = if decide (Z.land flags 1 ≠ 0 ∧ fast = false) then adler_spec checksum w else checksum.

Lemma summed_app flags c1 c2 c3 w1 w2 : summed flags c1 c2 w1 → summed flags c2 c3 w2 → summed flags c1 c3 (w1 ++ w2).
Proof.
  intros [H1 ->] [H2 ->]. split; [by apply Forall_app|]. destruct (decide _); [by rewrite adler_spec_app|done].
Qed.

Lemma summed_nil flags c : is_u32 c → summed flags c c [].
Proof. intros Hc. split; [constructor|]. destruct (decide _); [by rewrite adler_spec_nil|done]. Qed.

Lemma summed_u32 flags c1 c2 w : is_u32 c1 → summed flags c1 c2 w → is_u32 c2.
Proof. intros Hc [_ ->]. destruct (decide _); [apply adler_spec_range|done]. Qed.

Lemma sum_run flags c buf len c' : is_u32 c → bytes_ok buf → 0 ≤ len ≤ Z.of_nat (length buf) →
  (if decide (Z.land flags 1 ≠ 0 ∧ fast = false) then ucl_adler32 c (Some buf) len else Ret c) = Ret c' →
  summed flags c c' (take (Z.to_nat len) buf).
Proof.
  intros Hc Hb Hl E. split; [by apply Forall_take|]. destruct (decide _); [|by injection E].
  rewrite adler32_run in E by (done || by apply Forall_take). by injection E.
Qed.

Lemma leaves_benchmark loops f off in_len out_len buf : bytes_ok buf →
  leaves (do_decompress_benchmark loops f off in_len out_len buf) (λ buf' l w, l = [] ∧ w = [] ∧ bytes_ok buf' ∧ length buf' = length buf).
Proof.
  revert buf. induction loops as [|n IH]; intros buf Hb; cbn [do_decompress_benchmark]; [by apply leaves_ret|].
  eapply leaves_bind; [apply (leaves_pure _ (λ x l w, l = [] ∧ w = [] ∧ bytes_ok x.2 ∧ length x.2 = length buf))|].
  - intros [[r m] b] E. cbn. split; [done|]. split; [done|]. eapply (in_place_bytes (BB := buffer_8) f Fast); [done|exact Hb|exact E].
  - intros [[r m] b] l w (-> & -> & Hb1 & Hl1) _. destruct (decide _); [by intros s a s' [=]|].
    eapply leaves_mono; [by apply IH|]. cbn in *. intros b' l' w' (-> & -> & Hb' & Hl'). split_and!; [done|done|done|congruence].
Qed.

Definition block_left (flags buf_len checksum : Z) (r : list Z * Z + Z) (w : list Z) : Prop :=
  match r with
  | inl (buf, checksum') => bytes_ok buf ∧ Z.of_nat (length buf) = buf_len ∧ summed flags checksum checksum' w
  | inr r => r ≠ 0
  end.

Lemma leaves_block loops f flags bs buf_len out_len buf checksum :
  bytes_ok buf → Z.of_nat (length buf) = buf_len → bs ≤ buf_len < 2 ^ 32 → 0 < out_len → is_u32 checksum →
  leaves (decompress_block fast loops f flags bs buf_len out_len buf checksum) (λ r _ w, block_left flags buf_len checksum r w).
Proof.
  intros Hb Hl Hbs Ho Hc. unfold decompress_block.
  eapply leaves_bind; [apply leaves_read32|]. intros in_len l1 w1 (Hl1 & Ein & ->) Hbl.
  destruct (decide _) as [Hbad|Hok]; [by apply leaves_ret|].
  destruct (be32_bytes l1 Hbl Hl1) as [Hin _]. rewrite <-Ein in Hin. unfold is_u32 in Hin.
  rewrite (u32_small (buf_len - in_len)) by (unfold is_u32; lia).
  eapply leaves_bind; [apply leaves_read|]. intros data l2 w2 (-> & -> & Hdata) Hbd. specialize (Hdata eq_refl). cbv zeta.
  set (buf1 := take _ buf ++ data).
  assert (Hb1 : bytes_ok buf1) by (apply Forall_app; split; [by apply Forall_take|done]).
  assert (Hl1' : Z.of_nat (length buf1) = buf_len) by (unfold buf1; rewrite length_app, length_take; lia).
  destruct (decide (in_len < out_len)) as [Hlt|Hge].
  - eapply leaves_bind.
    { apply (leaves_pure _ (λ x l w, l = [] ∧ w = [] ∧ bytes_ok x.2 ∧ length x.2 = length buf1)). intros [[r n] b] E.
      split; [done|]. split; [done|]. eapply (in_place_bytes (BB := buffer_8) f (if fast then Fast else Safe)); [by destruct fast|exact Hb1|exact E]. }
    intros [[r n] b] l w (-> & -> & Hb2 & Hl2) _. cbn in Hb2, Hl2. destruct (decide _); [by apply leaves_ret|].
    eapply leaves_bind; [apply leaves_write|]. intros [] l w (-> & ->) _.
    eapply leaves_bind; [apply (leaves_pure _ (λ c l w, l = [] ∧ w = [] ∧ summed flags checksum c (take (Z.to_nat out_len) b)))|].
    { intros c E. split; [done|]. split; [done|]. apply sum_run in E; (done || lia). }
    intros c l w (-> & -> & Hsum) _. eapply leaves_bind; [by apply leaves_benchmark|].
    intros b' l w (-> & -> & Hb' & Hl') _. apply leaves_ret. cbn. rewrite !app_nil_r. split; [done|]. split; [lia|done].
  - eapply leaves_bind; [apply leaves_write|]. intros [] l w (-> & ->) _.
    eapply leaves_bind; [apply (leaves_pure _ (λ c l w, l = [] ∧ w = [] ∧ summed flags checksum c (take (Z.to_nat in_len) data)))|].
    { intros c E. split; [done|]. split; [done|]. apply sum_run in E; (done || lia). }
    intros c l w (-> & -> & Hsum) _. apply leaves_ret. cbn. rewrite !app_nil_r.
    replace (take (Z.to_nat in_len) data) with data in Hsum; [done|]. rewrite <-Hdata, Nat2Z.id. by rewrite firstn_all.
Qed.

Definition loop_left (flags checksum : Z) (r : Z + Z) (w : list Z) : Prop :=
  match r with inl checksum' => summed flags checksum checksum' w | inr r => r ≠ 0 end.

Lemma leaves_loop fuel loops f flags bs buf_len buf checksum :
  bytes_ok buf → Z.of_nat (length buf) = buf_len → bs ≤ buf_len < 2 ^ 32 → is_u32 checksum →
  leaves (decompress_loop fast fuel loops f flags bs buf_len buf checksum) (λ r _ w, loop_left flags checksum r w).
Proof.
  revert buf checksum. induction fuel as [|n IH]; intros buf checksum Hb Hl Hbs Hc; cbn [decompress_loop]; [by intros s a s' [=]|].
  eapply leaves_bind; [apply leaves_read32|]. intros out_len l1 w1 (Hl1 & Eo & ->) Hb1.
  destruct (be32_bytes l1 Hb1 Hl1) as [Hr _]. rewrite <-Eo in Hr. unfold is_u32 in Hr.
  destruct (decide (out_len = 0)); [apply leaves_ret; by apply summed_nil|].
  eapply leaves_bind; [apply leaves_block; (done || lia)|]. intros [[buf' c]|r] l w Hq _; [|by apply leaves_ret].
  destruct Hq as (Hb' & Hl' & Hsum). eapply leaves_mono; [apply IH; try done; exact (summed_u32 _ _ _ _ Hc Hsum)|].
  intros [c'|r] l' w' Hq; [|done]. exact (summed_app _ _ _ _ _ _ Hsum Hq).
Qed.

(** The file has been unpacked: unless the archive has none, its last four bytes
    are the checksum of what was written. *)
Definition unpacked (flags r : Z) (l w : list Z) : Prop :=
  r = 0 → Z.land flags 1 ≠ 0 → fast = false → ∃ l', l = l' ++ be32_put (adler_spec 1 w).

Lemma leaves_blocks loops f flags bs overhead :
  1024 ≤ bs ≤ 8 * 1024 * 1024 → 0 ≤ overhead ≤ 2 ^ 24 →
  leaves (decompress_blocks fast malloc loops f flags bs overhead) (λ r l w, bytes_ok w ∧ unpacked flags r l w ∨ r ≠ 0).
Proof.
  intros Hbs Ho. unfold decompress_blocks.
  eapply leaves_bind; [apply (leaves_pure _ (λ c l w, c = 1 ∧ l = [] ∧ w = [])); by intros c [= <-]|].
  intros c l w (-> & -> & ->) _. cbv zeta. set (buf_len := if decide _ then _ else _).
  assert (Hbl : bs ≤ buf_len < 2 ^ 32).
  { unfold buf_len. rewrite (u32_small (bs + _)) by (unfold is_u32; lia). destruct (decide _); [|lia].
    rewrite u32_small by (unfold is_u32; lia). lia. }
  clearbody buf_len. unfold ucl_malloc, ucl_malloc_internal. rewrite decide_False by lia. destruct (decide _); [|apply leaves_ret; by right].
  destruct (malloc 0 buf_len) as [buf|] eqn:Em; [|apply leaves_ret; by right]. destruct (Hbytes _ _ _ Em) as [Hl Hb].
  eapply leaves_bind.
  { instantiate (1 := λ _ l w, l = [] ∧ w = []). intros s a s' [= _ <-] _. exists [], []. by rewrite written_nil. }
  intros k ? ? (-> & ->) _. eapply leaves_bind; [apply leaves_loop; (done || lia)|]. clear l.
  intros [c|r] l w Hq _; cbn in Hq; [|apply leaves_ret; by right]. destruct Hq as [Hw Hc].
  destruct (decide (Z.land flags 1 ≠ 0)) as [Hf|Hf]; [|apply leaves_ret; left; split; [by rewrite app_nil_r|intros _ Hn; by destruct Hf]].
  eapply leaves_bind; [apply leaves_read32|]. intros v l1 w1 (Hl1 & Ev & ->) Hb1. apply leaves_ret.
  destruct (be32_bytes l1 Hb1 Hl1) as [_ Hput]. rewrite <-Ev in Hput.
  destruct (decide (fast = false ∧ v ≠ c)) as [|Hv]; [by right|]. left. cbn. rewrite !app_nil_r. split; [done|].
  intros _ _ Hfast. exists l. f_equal. rewrite <-Hput. f_equal. rewrite decide_True in Hc by done. rewrite <-Hc.
  destruct (decide (v = c)); [done|]. by destruct Hv.
Qed.

Lemma leaves_decompress loops :
  leaves (do_decompress fast malloc loops) (λ r l w,
    r = 0 → take 8 l = magic ∧ bytes_ok w ∧ unpacked (be32_get (take 4 (drop 8 l))) r l w).
Proof.
  unfold do_decompress. eapply leaves_bind.
  { instantiate (1 := λ _ l w, l = [] ∧ w = []). intros s a s' [= _ <-] _. exists [], []. by rewrite written_nil. }
  intros [] ? ? (-> & ->) _. eapply leaves_bind; [apply leaves_read|]. intros m ? ? (-> & -> & _) _.
  destruct (decide (m ≠ magic)) as [|Hm]; [by apply leaves_ret|].
  assert (m = magic) as -> by (destruct (decide (m = magic)); [done|by destruct Hm]).
  eapply leaves_bind; [apply leaves_read32|]. intros flags l1 ? (Hl1 & Ef & ->) _.
  eapply leaves_bind; [apply (leaves_getc)|]. intros method l2 ? (Hl2 & ->) _.
  eapply leaves_bind; [apply (leaves_getc)|]. intros level l3 ? (Hl3 & ->) _.
  eapply leaves_bind; [apply leaves_read32|]. intros bs l4 ? (Hl4 & Ebs & ->) _. cbv zeta.
  destruct (set_method_name method level), (nrv_of method) as [f|]; try by apply leaves_ret.
  destruct (decide _); [by apply leaves_ret|]. destruct (decide (bs < 1024 ∨ _)); [by apply leaves_ret|].
  assert (Hov : 0 ≤ get_overhead method bs ≤ 2 ^ 24).
  { unfold get_overhead. destruct (decide _); [|lia]. rewrite u32_small by (unfold is_u32; Z.div_mod_to_equations; lia).
    Z.div_mod_to_equations. lia. }
  eapply leaves_mono; [apply leaves_blocks; [lia|exact Hov]|]. intros r l w [[Hw Hu]|Hr] E; [|done]. cbn [app].
  split; [done|]. split; [done|]. change (drop 8 (magic ++ ?x)) with x.
  rewrite take_app_le, take_ge by lia. rewrite <-Ef.
  intros E0 Hf Hfast. destruct (Hu E0 Hf Hfast) as [l' ->]. eexists. rewrite !(assoc_L (++)). reflexivity.
Qed.
End any.

(** ** Theorems *)

(** C6: what uclpack packs, it unpacks.  Whatever options come before the names -
    the method, the level, the size of the blocks up to 341 KB (NRV2B: 127 KB),
    [-F] - packing a file with memory and room on the disk returns 0, and the
    archive takes at most eight bytes for each block and 26 more than the file;
    [uclpack -d], with [-F] or without, makes the file out of the archive,
    though each block is decompressed in the buffer it was read to; and
    [uclpack -t] returns 0, however often [-D] decompresses each block. *)
Theorem unpack_packed writable malloc heap stack space args args' args'' o o' o'' a b c f files data :
  memory_ok malloc → (∀ k j, (j < 6)%nat → is_Some (heap k j)) →
  get_options args no_options = Some (o, [a; b]) → o_test o = false → o_decompress o = false →
  nrv_of (o_method o) = Some f → o_block_size o ≤ near_offset f →
  get_options args' no_options = Some (o', [b; c]) → o_test o' = false → o_decompress o' = true →
  get_options args'' no_options = Some (o'', [b]) → o_test o'' = true →
  files !! a = Some data → bytes_ok data → a ≠ b → b ≠ c → writable b = true → writable c = true →
  Z.of_nat (length data) + 8 * blocks (o_block_size o) (Z.of_nat (length data)) + 26 ≤ space →
  ∃ packed, let files' := <[b := packed]> files in
    uclpack_main writable malloc heap stack space args files = Ret (0, files') ∧
    Z.of_nat (length packed) ≤ Z.of_nat (length data) + 8 * blocks (o_block_size o) (Z.of_nat (length data)) + 26 ∧
    uclpack_main writable malloc heap stack space args' files' = Ret (0, <[c := data]> files') ∧
    uclpack_main writable malloc heap stack space args'' files' = Ret (0, files').
Proof.
  intros Hmem Hheap Ho Ht Hd Hf Hbs Ho' Ht' Hd' Ho'' Ht'' Ha Hb Hab Hbc Hwb Hwc Hs.
  assert (Hok : options_ok o) by (eapply get_options_ok; [|exact Ho]; by split_and!). destruct Hok as (_ & Hl & Hb1).
  destruct (pack_run writable malloc heap stack space Hmem Hheap args o a b f files data Ho Ht Hd Hf Hbs Ha Hb Hab Hwb Hs)
    as (bytes & Hp & Hlen & E).
  eexists. cbv zeta. split; [exact E|]. split; [exact Hlen|].
  assert (Hblocks : 0 ≤ blocks (o_block_size o) (Z.of_nat (length data))) by (apply Z.div_pos; lia).
  split; [eapply (unpack_files_run _ _ _ _ _ Hmem _ o' b c f _ (o_level o) (o_block_size o) data bytes [])|
    eapply (test_run _ _ _ _ _ Hmem _ o'' b f _ (o_level o) (o_block_size o) data bytes [])];
    rewrite ?app_nil_r; try done; try lia; by rewrite lookup_insert_eq.
Qed.

(** C20: what passes for unpacked is what was packed, as far as the checksum
    tells.  Whatever a file holds: when [do_decompress] returns 0, the file began
    with the magic number, and if its flags say that there is a checksum and the
    option [-F] is not given, the last four bytes that were read are Adler's
    checksum of everything that was written.  What follows those bytes in the
    file is not looked at, and with [-F] the checksum is not compared. *)
Theorem unpacked_checksum opt_fast malloc benchmark_loops fi space total_in total_out s' :
  (∀ k n buf, malloc k n = Some buf → Z.of_nat (length buf) = n ∧ bytes_ok buf) → bytes_ok fi →
  do_decompress opt_fast malloc benchmark_loops (mk_streams fi (Some []) space total_in total_out) = Fine 0 s' →
  ∃ l w, fi = l ++ s_fi s' ∧ s_fo s' = Some w ∧ take 8 l = magic ∧ bytes_ok w ∧
    (Z.land (be32_get (take 4 (drop 8 l))) 1 ≠ 0 → opt_fast = false → ∃ l', l = l' ++ be32_put (adler_spec 1 w)).
Proof.
  intros Hm Hb E. destruct (leaves_decompress opt_fast malloc Hm benchmark_loops _ 0 s' E Hb) as (l & w & Hl & Hw & Hq).
  exists l, w. split; [exact Hl|]. split; [exact Hw|]. destruct (Hq eq_refl) as (H8 & Hbw & Hu). split; [done|]. split; [done|].
  intros Hf Hfast. by apply Hu.
Qed.

(** The block is read to the very end of the buffer, so when its last byte is
    taken as a literal and the next bit asks for another byte, the decompressor
    reads behind the buffer before any check: eight literals whose control byte
    is the first of nine bytes, for a block of ten. *)
Theorem unpack_overreads x :
  let file := header false 0x2d 7 1024 ++ be32_put 10 ++ be32_put 9 ++ [255; 1; 2; 3; 4; 5; 6; 7; 8] in
  do_decompress false (λ _ n, Some (replicate (Z.to_nat n) x)) 0 (mk_streams file (Some []) 1000 0 0) = Wrong OutOfBounds.
Proof. vm_compute. reflexivity. Qed.

(** The usage message names [-Bxxxx]; the option is [-bxxxx]. *)
Example block_size_option :
  get_options ["-B4096"; "a"; "b"] no_options = None ∧
  get_options ["-b4096"; "a"; "b"] no_options = Some (set_block_size 4096 no_options, ["a"; "b"]).
Proof. done. Qed.

(** *** A file packed into one block, and back over itself *)

Definition sample_malloc (k : nat) (n : Z) : option (list Z) := Some (replicate (Z.to_nat n) 7).

Lemma sample_malloc_bytes k n buf : 0 ≤ n → sample_malloc k n = Some buf → Z.of_nat (length buf) = n ∧ bytes_ok buf.
Proof.
  intros Hn [= <-]. split; [rewrite length_replicate; lia|]. by apply Forall_replicate.
Qed.

Lemma unpack_packed_witness :
  let args := ["--2e"; "-9"; "-b1024"; "text"; "packed"] in
  let files := <["text" := sample_text]> ∅ in
  ∃ l, uclpack_main (λ _, true) sample_malloc (λ _, sample_heap) 0 100 args files = Ret (0, <["packed" := l]> files) ∧
    uclpack_main (λ _, true) sample_malloc (λ _, sample_heap) 0 100 ["-d"; "packed"; "text"] (<["packed" := l]> files) =
      Ret (0, <["text" := sample_text]> (<["packed" := l]> files)) ∧
    uclpack_main (λ _, true) sample_malloc (λ _, sample_heap) 0 100 ["-t"; "-D2"; "packed"] (<["packed" := l]> files) =
      Ret (0, <["packed" := l]> files).
Proof.
  cbv zeta. set (args := ["--2e"; "-9"; "-b1024"; "text"; "packed"]).
  destruct (unpack_packed (λ _, true) sample_malloc (λ _, sample_heap) 0 100 args ["-d"; "packed"; "text"] ["-t"; "-D2"; "packed"]
    (set_block_size 1024 (set_level 9 (set_method 0x2e no_options))) (set_decompress no_options) (set_loops 2 (set_test no_options))
    "text" "packed" "text" NRV2E (<["text" := sample_text]> ∅) sample_text)
    as (l & E1 & _ & E2 & E3).
  - intros k n Hn. eexists. split; [done|]. apply (sample_malloc_bytes k n); [lia|done].
  - intros _. exact sample_memory.
  - by vm_compute.
  - done.
  - done.
  - done.
  - by vm_compute.
  - by vm_compute.
  - done.
  - done.
  - by vm_compute.
  - done.
  - by rewrite lookup_insert_eq.
  - exact sample_bytes.
  - done.
  - done.
  - done.
  - done.
  - by vm_compute.
  - exists l. split; [exact E1|]. split; [exact E2|exact E3].
Defined.

Lemma unpacked_checksum_witness :
  let file := header false 0x2d 7 1024 ++ be32_put 2 ++ be32_put 2 ++ [97; 98] ++ trailer false (adler_spec 1 [97; 98]) in
  ∃ s' w, do_decompress false (λ k n, if decide (0 ≤ n) then sample_malloc k n else None) 0 (mk_streams (file ++ [1]) (Some []) 9 0 0) = Fine 0 s' ∧
    s_fo s' = Some w ∧ w = [97; 98].
Proof.
  cbv zeta. set (file := header _ _ _ _ ++ _). set (m := λ k n, if decide (0 ≤ n) then sample_malloc k n else None).
  destruct (do_decompress false m 0 (mk_streams (file ++ [1]) (Some []) 9 0 0)) as [r s'|r s'|e] eqn:E;
    [|by vm_compute in E..]. assert (r = 0) as -> by (vm_compute in E; by injection E).
  destruct (unpacked_checksum false m 0 (file ++ [1]) 9 0 0 s') as (l & w & Hl & Hw & _); [| |exact E|].
  - intros k n buf. unfold m. destruct (decide (0 ≤ n)); [by apply sample_malloc_bytes|done].
  - apply (bool_decide_unpack _). by vm_compute.
  - exists s', w. split; [done|]. split; [exact Hw|]. vm_compute in E. injection E as <-. by injection Hw.
Defined.
