(* ===== verification/Sstrip.v ===== *)
(** * The stripping tool of the packer (packers/exepak-1.5/sstrip/sstrip.c)

    sstrip cuts off the end of an ELF executable: what no program header
    refers to, section headers first of all, and zeros the loader supplies
    anyway.  A structure that is read and written as it lies in memory is its
    bytes; integers have 32 bits, as in the i386 programs that are packed.  A
    call that may fail asks an oracle with its number. *)

From S2P Require Import Prelude UclBits UclEncode Stub Exepak.

(** ** Data *)

(** An open file: its bytes, the position, how many calls were made. *)
Record fd : Type := mk_fd { fd_bytes : list Z; fd_pos : Z; fd_calls : nat }.

(** The fields of [Elf32_Phdr]; those of [Elf32_Ehdr] are in Exepak, but for
    these. *)
Definition p_type_ : Z := 0.
Definition p_offset_ : Z := 4.
Definition p_filesz_ : Z := 16.
Definition p_memsz_ : Z := 20.
Definition EI_CLASS : Z := 4.
Definition EI_DATA : Z := 5.
Definition e_machine : Z := 18.
Definition ELFCLASS32 : Z := 1.
Definition ELFDATA2LSB : Z := 1.
Definition EM_386 : Z := 3.
Definition ET_DYN : Z := 3.
Definition PT_NULL : Z := 0.

(** [x->f] of a structure, and [x->f = v] *)
Definition field (l : list Z) (off : Z) (n : nat) : Z := from_le (take n (drop (Z.to_nat off) l)).
Definition set_field (l : list Z) (off : Z) (n : nat) (v : Z) : list Z :=
  take (Z.to_nat off) l ++ le_bytes n v ++ drop (Z.to_nat off + n) l.

(** The program headers in the memory [readphdrtable] fills. *)
Fixpoint phdrs_of (n : nat) (l : list Z) : list (list Z) :=
  match n with
  | O => []
  | S n => take 32 l :: phdrs_of n (drop 32 l)
  end.

Section sstrip.
  Context (sys_ok : nat → bool).

(** ** System calls *)

Definition call (f : fd) : bool * fd := (sys_ok (fd_calls f), mk_fd (fd_bytes f) (fd_pos f) (S (fd_calls f))).

(** [read]: [None] is an error. *)
Definition read (n : Z) (f : fd) : option (list Z) * fd :=
  let '(ok, f) := call f in
  if (ok : bool) then
    let l := take (Z.to_nat n) (drop (Z.to_nat (fd_pos f)) (fd_bytes f)) in
    (Some l, mk_fd (fd_bytes f) (fd_pos f + Z.of_nat (length l)) (fd_calls f))
  else (None, f).

(** [lseek(fd, off, SEEK_SET)], with [off_t] of 32 bits *)
Definition lseek (off : Z) (f : fd) : bool * fd :=
  let '(ok, f) := call f in
  if (ok : bool) && bool_decide (0 ≤ s32 off) then (true, mk_fd (fd_bytes f) (s32 off) (fd_calls f)) else (false, f).

(** [write]: everything or nothing; what is skipped is zero. *)
Definition pad (n : nat) (l : list Z) : list Z := l ++ replicate (n - length l) 0.
Definition write (l : list Z) (f : fd) : bool * fd :=
  let '(ok, f) := call f in
  if (ok : bool) then
    let p := Z.to_nat (fd_pos f) in
    (true, mk_fd (take p (pad p (fd_bytes f)) ++ l ++ drop (p + length l) (fd_bytes f))
             (fd_pos f + Z.of_nat (length l)) (fd_calls f))
  else (false, f).

Definition ftruncate (n : Z) (f : fd) : bool * fd :=
  let '(ok, f) := call f in
  if (ok : bool) && bool_decide (0 ≤ s32 n) then
    (true, mk_fd (take (Z.to_nat n) (pad (Z.to_nat n) (fd_bytes f))) (fd_pos f) (fd_calls f))
  else (false, f).

(** ** Operations *)

(** [static int readelfheader(int fd, Elf_Ehdr *ehdr)]: the header, or [FALSE] *)
Definition readelfheader (f : fd) : option (list Z) * fd :=
  let '(r, f) := read sizeof_Ehdr f in
  match r with
  | None => (None, f)
  | Some ehdr =>
      if decide (Z.of_nat (length ehdr) ≠ sizeof_Ehdr) then (None, f)
      else if decide (take 4 ehdr ≠ ELFMAG) then (None, f)
      else if decide (field ehdr EI_DATA 1 ≠ ELFDATA2LSB) then (None, f)
      else if decide (field ehdr EI_CLASS 1 ≠ ELFCLASS32) then (None, f)
      else if decide (field ehdr e_machine 2 ≠ EM_386) then (None, f)
      else if decide (field ehdr e_ehsize 2 ≠ sizeof_Ehdr) then (None, f)
      else if decide (field ehdr e_phentsize 2 ≠ sizeof_Phdr) then (None, f)
      else if decide (field ehdr e_type 2 ≠ ET_EXEC ∧ field ehdr e_type 2 ≠ ET_DYN) then (None, f)
      else (Some ehdr, f)
  end.

(** [static int readphdrtable(int fd, Elf_Ehdr const *ehdr, Elf_Phdr **phdrs)] *)
Definition readphdrtable (ehdr : list Z) (f : fd) : option (list (list Z)) * fd :=
  let phnum := field ehdr e_phnum 2 in
  if decide (field ehdr e_phoff 4 = 0 ∨ phnum = 0) then (None, f)
  else
    let size := phnum * sizeof_Phdr in
    let '(ok, f) := call f in
    if negb ok then (None, f)
    else
      let '(r, f) := read size f in
      match r with
      | Some l => if decide (Z.of_nat (length l) ≠ size) then (None, f) else (Some (phdrs_of (Z.to_nat phnum) l), f)
      | None => (None, f)
      end.

(** [static int getmemorysize(ehdr, phdrs, newsize)] *)
Definition extend_size (size : Z) (phdr : list Z) : Z :=
  if decide (field phdr p_type_ 4 ≠ PT_NULL) then
    let n := u32 (field phdr p_offset_ 4 + field phdr p_filesz_ 4) in
    if decide (size < n) then n else size
  else size.
Definition getmemorysize (ehdr : list Z) (phdrs : list (list Z)) : Z :=
  let size := u32 (field ehdr e_phoff 4 + field ehdr e_phnum 2 * sizeof_Phdr) in
  let size := if decide (size < sizeof_Ehdr) then sizeof_Ehdr else size in
  foldl extend_size size phdrs.

(** [while (n && !contents[--n]) --size;] *)
Fixpoint scan_zeros (contents : list Z) (n : nat) (size : Z) : nat * Z :=
  match n with
  | O => (O, size)
  | S n => if decide (nth n contents 0 = 0) then scan_zeros contents n (size - 1) else (n, size)
  end.

(** [do { ... } while (size && !n);]: the size, or [FALSE] *)
Fixpoint truncate_loop (fuel : nat) (size : Z) (f : fd) : outcome (option Z * fd) :=
  match fuel with
  | O => Err OutOfFuel
  | S fuel =>
      let n := if decide (size < 1024) then size else 1024 in
      let '(ok, f) := lseek (size - n) f in
      if negb ok then Ret (None, f)
      else
        let '(r, f) := read n f in
        match r with
        | None => Ret (None, f)
        | Some contents =>
            if decide (Z.of_nat (length contents) ≠ n) then Ret (None, f)
            else
              let '(n, size) := scan_zeros contents (Z.to_nat n) size in
              if decide (size ≠ 0 ∧ n = O) then truncate_loop fuel size f else Ret (Some size, f)
        end
  end.

(** [static int truncatezeros(int fd, unsigned long *newsize)] *)
Definition truncatezeros (newsize : Z) (f : fd) : outcome (option Z * fd) :=
  '(r, f) ← truncate_loop (Z.to_nat newsize + 2) newsize f;
  match r with
  | Some size => Ret (if decide (size = 0) then None else Some size, f)
  | None => Ret (None, f)
  end.

(** [static int modifyheaders(ehdr, phdrs, newsize)] *)
Definition modify_ehdr (newsize : Z) (ehdr : list Z) : list Z :=
  if decide (newsize ≤ field ehdr e_shoff 4) then
    set_field (set_field (set_field (set_field ehdr e_shoff 4 0) e_shnum 2 0) e_shentsize 2 0) e_shstrndx 2 0
  else ehdr.
Definition modify_phdr (newsize : Z) (phdr : list Z) : list Z :=
  let off := field phdr p_offset_ 4 in
  if decide (newsize ≤ off) then set_field phdr p_filesz_ 4 0
  else if decide (newsize < u32 (off + field phdr p_filesz_ 4)) then set_field phdr p_filesz_ 4 (newsize - off)
  else phdr.
Definition modifyheaders (ehdr : list Z) (phdrs : list (list Z)) (newsize : Z) : list Z * list (list Z) :=
  (modify_ehdr newsize ehdr, modify_phdr newsize <$> phdrs).

(** [static int commitchanges(fd, ehdr, phdrs, newsize)] *)
Definition commitchanges (ehdr : list Z) (phdrs : list (list Z)) (newsize : Z) (f : fd) : bool * fd :=
  let '(ok, f) := lseek 0 f in
  if negb ok then (false, f)
  else
    let '(ok, f) := write ehdr f in
    if negb ok then (false, f)
    else
      let '(ok, f) := lseek (field ehdr e_phoff 4) f in
      if negb ok then (false, f)
      else
        let n := field ehdr e_phnum 2 * sizeof_Phdr in
        let '(ok, f) := write (concat phdrs) f in
        if negb ok then (false, f)
        else
          let newsize := if decide (newsize < u32 (field ehdr e_phoff 4 + n)) then u32 (field ehdr e_phoff 4 + n) else newsize in
          ftruncate newsize f.

(** The body of the loop over the arguments, on an open file *)
Definition strip (f : fd) : outcome (bool * fd) :=
  let '(r, f) := readelfheader f in
  match r with
  | None => Ret (false, f)
  | Some ehdr =>
      let '(r, f) := readphdrtable ehdr f in
      match r with
      | None => Ret (false, f)
      | Some phdrs =>
          '(r, f) ← truncatezeros (getmemorysize ehdr phdrs) f;
          match r with
          | None => Ret (false, f)
          | Some newsize =>
              let '(ehdr, phdrs) := modifyheaders ehdr phdrs newsize in
              Ret (commitchanges ehdr phdrs newsize f)
          end
      end
  end.

(** [for (arg = argv + 1 ; *arg != NULL ; ++arg) { ... }] *)
Fixpoint strip_args (args : list string) (failures : Z) (files : gmap string (list Z)) (calls : nat)
    : outcome (Z * gmap string (list Z) * nat) :=
  match args with
  | [] => Ret (failures, files, calls)
  | arg :: args' =>
      let '(ok, f) := call (mk_fd (default [] (files !! arg)) 0 calls) in
      if (ok : bool) && bool_decide (is_Some (files !! arg)) then
        '(ok, f) ← strip f;
        strip_args args' (if (ok : bool) then failures else failures + 1) (<[arg := fd_bytes f]> files) (fd_calls f)
      else strip_args args' (failures + 1) files (fd_calls f)
  end.

(** [int main(int argc, char *argv[])] on [argv[1]], ...; a first argument that
    begins with [-], as none, gets the usage message. *)
Definition sstrip_main (args : list string) (files : gmap string (list Z)) : outcome (Z * gmap string (list Z)) :=
  match args with
  | [] => Ret (0, files)
  | String c _ :: _ =>
      if decide (char_code c = 45) then Ret (0, files)
      else '(failures, files, _) ← strip_args args 0 files 0; Ret (if decide (failures ≠ 0) then 1 else 0, files)
  | _ => '(failures, files, _) ← strip_args args 0 files 0; Ret (if decide (failures ≠ 0) then 1 else 0, files)
  end.

End sstrip.

(** ** Fields *)

Lemma length_set_field l off n v : 0 ≤ off → off + Z.of_nat n ≤ Z.of_nat (length l) → length (set_field l off n v) = length l.
Proof. intros Ho Hl. unfold set_field. rewrite !length_app, length_take, le_bytes_length, length_drop. lia. Qed.

Lemma set_field_outside l off n v i : 0 ≤ off → off + Z.of_nat n ≤ Z.of_nat (length l) →
  (i < Z.to_nat off ∨ Z.to_nat off + n ≤ i)%nat → set_field l off n v !! i = l !! i.
Proof.
  intros Ho Hl Hi. unfold set_field. destruct Hi as [Hi|Hi].
  - rewrite lookup_app_l by (rewrite length_take; lia). by apply lookup_take_lt.
  - rewrite lookup_app_r by (rewrite length_take; lia). rewrite lookup_app_r by (rewrite length_take, le_bytes_length; lia).
    rewrite lookup_drop, length_take, le_bytes_length. f_equal. lia.
Qed.

(** A field depends on its bytes only. *)
Lemma field_ext l l' off n : 0 ≤ off → (∀ i, Z.to_nat off ≤ i < Z.to_nat off + n → l !! i = l' !! i)%nat → field l off n = field l' off n.
Proof.
  intros Ho Hi. unfold field. f_equal. apply list_eq. intros i.
  destruct (decide (i < n)%nat); [|by rewrite !lookup_take_ge by lia].
  rewrite !lookup_take_lt, !lookup_drop by lia. apply Hi. lia.
Qed.

Lemma field_set l off n v : 0 ≤ off → off + Z.of_nat n ≤ Z.of_nat (length l) → 0 ≤ v < 256 ^ Z.of_nat n →
  field (set_field l off n v) off n = v.
Proof.
  intros Ho Hl Hv. unfold field, set_field. rewrite drop_app_length' by (rewrite length_take; lia).
  rewrite take_app_length' by by rewrite le_bytes_length. by apply from_le_bytes.
Qed.

Lemma from_le_nonneg l : bytes_ok l → 0 ≤ from_le l < 256 ^ Z.of_nat (length l).
Proof.
  induction 1 as [|x l Hx Hl IH]; [done|]. cbn [from_le foldr length]. fold (from_le l).
  rewrite Nat2Z.inj_succ, Z.pow_succ_r by lia. unfold is_byte in Hx. lia.
Qed.

Lemma field_range l off n : bytes_ok l → 0 ≤ field l off n < 256 ^ Z.of_nat n.
Proof.
  intros Hb. unfold field. pose proof (from_le_nonneg (take n (drop (Z.to_nat off) l))) as Hr.
  destruct Hr as [Hr1 Hr2]; [by apply Forall_take, Forall_drop|]. split; [done|]. eapply Z.lt_le_trans; [exact Hr2|].
  apply Z.pow_le_mono_r; [lia|]. rewrite length_take. lia.
Qed.

(** ** Trailing zeros *)

(** The first [s] bytes are the first [m] without the zeros at their end. *)
Definition trimmed (l : list Z) (m s : nat) : Prop :=
  (1 < s ≤ m)%nat ∧ (∀ a, (s ≤ a < m)%nat → nth a l 0 = 0) ∧ nth (s - 1) l 0 ≠ 0.

Lemma scan_run l n size : ∃ n', scan_zeros l n size = (n', size - Z.of_nat n) ∧ n' = O ∧ (∀ a, (a < n)%nat → nth a l 0 = 0) ∨
  scan_zeros l n size = (n', size - Z.of_nat n + Z.of_nat n' + 1) ∧ (n' < n)%nat ∧ nth n' l 0 ≠ 0 ∧
    (∀ a, (n' < a < n)%nat → nth a l 0 = 0).
Proof.
  revert size. induction n as [|n IH]; intros size.
  - exists O. left. cbn. split_and!; [f_equal; lia|done|lia].
  - cbn [scan_zeros]. destruct (decide (nth n l 0 = 0)) as [Hz|Hz].
    + destruct (IH (size - 1)) as (n' & [(E & Hn & Ha)|(E & Hn & Hnz & Ha)]); exists n'.
      * left. rewrite E. split_and!; [f_equal; lia|done|]. intros a Hlt. destruct (decide (a = n)) as [->|]; [done|apply Ha; lia].
      * right. rewrite E. split_and!; [f_equal; lia|lia|done|]. intros a Hlt. destruct (decide (a = n)) as [->|]; [done|apply Ha; lia].
    + exists n. right. split_and!; [f_equal; lia|lia|done|lia].
Qed.

Section calls.
  Context (sys_ok : nat → bool) (Hok : ∀ k, sys_ok k = true).

Lemma read_run n f : 0 ≤ n → 0 ≤ fd_pos f → fd_pos f + n ≤ Z.of_nat (length (fd_bytes f)) →
  read sys_ok n f = (Some (take (Z.to_nat n) (drop (Z.to_nat (fd_pos f)) (fd_bytes f))),
    mk_fd (fd_bytes f) (fd_pos f + n) (S (fd_calls f))).
Proof.
  intros Hn Hp Hl. unfold read, call. rewrite Hok. cbn [fd_bytes fd_pos fd_calls]. rewrite length_take, length_drop.
  repeat f_equal. lia.
Qed.

Lemma lseek_run off f : 0 ≤ off < 2 ^ 31 → lseek sys_ok off f = (true, mk_fd (fd_bytes f) off (S (fd_calls f))).
Proof.
  intros Ho. unfold lseek, call. rewrite Hok. assert (E : s32 off = off) by zwrap. rewrite E.
  by rewrite bool_decide_true by lia.
Qed.

Lemma write_run l f : 0 ≤ fd_pos f → fd_pos f + Z.of_nat (length l) ≤ Z.of_nat (length (fd_bytes f)) →
  write sys_ok l f = (true, mk_fd (take (Z.to_nat (fd_pos f)) (fd_bytes f) ++ l ++ drop (Z.to_nat (fd_pos f) + length l) (fd_bytes f))
    (fd_pos f + Z.of_nat (length l)) (S (fd_calls f))).
Proof.
  intros Hp Hl. unfold write, call, pad. rewrite Hok. cbn [fd_bytes fd_pos fd_calls].
  replace (Z.to_nat (fd_pos f) - length (fd_bytes f))%nat with O by lia. by rewrite app_nil_r.
Qed.

Lemma ftruncate_run n f : 0 ≤ n < 2 ^ 31 → n ≤ Z.of_nat (length (fd_bytes f)) →
  ftruncate sys_ok n f = (true, mk_fd (take (Z.to_nat n) (fd_bytes f)) (fd_pos f) (S (fd_calls f))).
Proof.
  intros Hn Hl. unfold ftruncate, call, pad. rewrite Hok. assert (E : s32 n = n) by zwrap. rewrite E.
  rewrite bool_decide_true by lia. cbn [andb fd_bytes fd_pos fd_calls].
  replace (Z.to_nat n - length (fd_bytes f))%nat with O by lia. by rewrite app_nil_r.
Qed.

(** The loop ends: a byte that is not zero comes in sight, and it is not the
    first of the file. *)
Lemma truncate_run fuel m b f : (m < fuel)%nat → (m ≤ length (fd_bytes f))%nat → Z.of_nat (length (fd_bytes f)) < 2 ^ 31 →
  (1 ≤ b < m)%nat → nth b (fd_bytes f) 0 ≠ 0 →
  ∃ s pos calls, truncate_loop sys_ok fuel (Z.of_nat m) f = Ret (Some (Z.of_nat s), mk_fd (fd_bytes f) pos calls) ∧
    trimmed (fd_bytes f) m s.
Proof.
  revert m f. induction fuel as [|fuel IH]; intros m f Hf Hm Hlen Hb Hnz; [lia|]. cbn [truncate_loop].
  set (n := if decide (Z.of_nat m < 1024) then Z.of_nat m else 1024).
  assert (Hn : 0 < n ≤ Z.of_nat m ∧ (n = 1 → m = 1%nat)) by (unfold n; case_decide; lia). clearbody n.
  rewrite lseek_run by lia. cbn [negb]. rewrite read_run by (cbn; lia). cbn [fd_bytes fd_pos fd_calls].
  set (k := (m - Z.to_nat n)%nat). replace (Z.to_nat (Z.of_nat m - n)) with k by (unfold k; lia).
  set (w := take (Z.to_nat n) (drop k (fd_bytes f))).
  assert (Hw : ∀ a, (a < Z.to_nat n)%nat → nth a w 0 = nth (k + a) (fd_bytes f) 0).
  { intros a Ha. unfold w. rewrite !nth_lookup, lookup_take_lt, lookup_drop by done. done. }
  rewrite decide_False by (unfold w; rewrite length_take, length_drop; lia).
  destruct (scan_run w (Z.to_nat n) (Z.of_nat m)) as (n' & [(E & -> & Hz)|(E & Hn' & Hnz' & Hz)]); rewrite E.
  - assert (Hbk : (b < k)%nat).
    { destruct (decide (b < k)%nat); [done|]. exfalso. apply Hnz. replace b with (k + (b - k))%nat by lia.
      rewrite <-Hw by (unfold k in *; lia). apply Hz. unfold k in *. lia. }
    rewrite decide_True by (unfold k in *; lia).
    replace (Z.of_nat m - Z.of_nat (Z.to_nat n)) with (Z.of_nat k) by (unfold k; lia).
    destruct (IH k (mk_fd (fd_bytes f) (Z.of_nat m - n + n) (S (S (fd_calls f)))))
      as (s & pos & calls & E' & (Hs & Hzs & Hns)); cbn [fd_bytes]; try done; try (unfold k in *; lia).
    exists s, pos, calls. split; [exact E'|]. split; [unfold k in *; lia|]. split; [|done]. intros a Ha.
    destruct (decide (a < k)%nat); [apply Hzs; lia|]. replace a with (k + (a - k))%nat by lia.
    rewrite <-Hw by (unfold k in *; lia). apply Hz. unfold k in *. lia.
  - set (s := (k + n' + 1)%nat). replace (Z.of_nat m - Z.of_nat (Z.to_nat n) + Z.of_nat n' + 1) with (Z.of_nat s) by (unfold s, k; lia).
    rewrite Hw in Hnz' by done.
    assert (Hzs : ∀ a, (s ≤ a < m)%nat → nth a (fd_bytes f) 0 = 0).
    { intros a Ha. replace a with (k + (a - k))%nat by (unfold s in *; lia).
      rewrite <-Hw by (unfold s, k in *; lia). apply Hz. unfold s, k in *. lia. }
    assert (Hbs : (b < s)%nat) by (destruct (decide (b < s)%nat); [done|exfalso; apply Hnz, Hzs; lia]).
    assert (Hs1 : nth (s - 1) (fd_bytes f) 0 ≠ 0) by (unfold s; rewrite Nat.add_sub; exact Hnz').
    case_decide as Hc.
    + destruct (IH s (mk_fd (fd_bytes f) (Z.of_nat m - n + n) (S (S (fd_calls f)))))
        as (s' & pos & calls & E' & (Hs & Hzs' & Hns)); cbn [fd_bytes]; try done; try (unfold s, k in *; lia).
      exists s', pos, calls. split; [exact E'|]. split; [unfold s, k in *; lia|]. split; [|done]. intros a Ha.
      destruct (decide (a < s)%nat); [apply Hzs'; lia|apply Hzs; lia].
    + exists s, (Z.of_nat m - n + n), (S (S (fd_calls f))). split; [done|]. split; [unfold s, k in *; lia|]. done.
Qed.
End calls.

(** ** Program headers *)

Lemma phdrs_of_length n l : length (phdrs_of n l) = n.
Proof. revert l. induction n as [|n IH]; intros l; cbn; [done|]. by rewrite IH. Qed.

Lemma phdrs_of_concat ps r : Forall (λ p, length p = 32%nat) ps → phdrs_of (length ps) (concat ps ++ r) = ps.
Proof.
  induction 1 as [|p ps Hp Hps IH]; [done|]. cbn [length phdrs_of concat]. rewrite <-app_assoc.
  rewrite take_app_length' by done. rewrite drop_app_length' by done. by rewrite IH.
Qed.

Lemma concat_length ps : Forall (λ p : list Z, length p = 32%nat) ps → length (concat ps) = (32 * length ps)%nat.
Proof. induction 1 as [|p ps Hp Hps IH]; [done|]. cbn. rewrite length_app, Hp, IH. lia. Qed.

Lemma phdrs_of_take n l r : (32 * n ≤ length l)%nat → phdrs_of n (l ++ r) = phdrs_of n l.
Proof.
  revert l. induction n as [|n IH]; intros l Hl; [done|]. cbn [phdrs_of]. rewrite take_app_le, drop_app_le by lia.
  rewrite IH; [done|]. rewrite length_drop. lia.
Qed.

Lemma phdrs_of_all n l : (32 * n ≤ length l)%nat → bytes_ok l →
  Forall (λ p, length p = 32%nat ∧ bytes_ok p) (phdrs_of n l).
Proof.
  revert l. induction n as [|n IH]; intros l Hl Hb; cbn [phdrs_of]; constructor.
  - split; [rewrite length_take; lia|by apply Forall_take].
  - apply IH; [rewrite length_drop; lia|by apply Forall_drop].
Qed.

(** The end of what is referred to *)
Lemma memory_size ps size L : size ≤ L → L < 2 ^ 31 → Forall bytes_ok ps →
  (∀ p, p ∈ ps → field p p_type_ 4 ≠ PT_NULL → field p p_offset_ 4 + field p p_filesz_ 4 ≤ L) →
  size ≤ foldl extend_size size ps ≤ L ∧
  (∀ p, p ∈ ps → field p p_type_ 4 ≠ PT_NULL → field p p_offset_ 4 + field p p_filesz_ 4 ≤ foldl extend_size size ps).
Proof.
  intros Hsize HL Hb. revert size Hsize. induction Hb as [|p ps Hp Hps IH]; intros size Hsize Hr; cbn [foldl].
  - split; [lia|]. intros p Hp. by apply not_elem_of_nil in Hp.
  - pose proof (field_range p p_offset_ 4 Hp) as Ho. pose proof (field_range p p_filesz_ 4 Hp) as Hf.
    assert (Hx : size ≤ extend_size size p ≤ L ∧
      (field p p_type_ 4 ≠ PT_NULL → field p p_offset_ 4 + field p p_filesz_ 4 ≤ extend_size size p)).
    { unfold extend_size. destruct (decide (field p p_type_ 4 ≠ PT_NULL)) as [Ht|Ht]; [|split; [lia|done]].
      specialize (Hr p ltac:(left) Ht). rewrite u32_small by (unfold is_u32; lia). case_decide; lia. }
    destruct (IH (extend_size size p) ltac:(lia)) as (Hle & Hall); [intros q Hq; apply Hr; by right|].
    split; [lia|]. intros q Hq Ht. apply elem_of_cons in Hq as [->|Hq]; [|by apply Hall].
    etrans; [by apply Hx|]. lia.
Qed.

(** It is the end of something that is referred to. *)
Lemma memory_size_attained ps size L : size ≤ L → L < 2 ^ 31 → Forall bytes_ok ps →
  (∀ p, p ∈ ps → field p p_type_ 4 ≠ PT_NULL → field p p_offset_ 4 + field p p_filesz_ 4 ≤ L) →
  foldl extend_size size ps = size ∨
  ∃ p, p ∈ ps ∧ field p p_type_ 4 ≠ PT_NULL ∧ foldl extend_size size ps = field p p_offset_ 4 + field p p_filesz_ 4.
Proof.
  intros Hsize HL Hb. revert size Hsize. induction Hb as [|p ps Hp Hps IH]; intros size Hsize Hr; cbn [foldl]; [by left|].
  pose proof (field_range p p_offset_ 4 Hp) as Ho. pose proof (field_range p p_filesz_ 4 Hp) as Hf.
  assert (Hx : extend_size size p = size ∨ field p p_type_ 4 ≠ PT_NULL ∧ extend_size size p = field p p_offset_ 4 + field p p_filesz_ 4).
  { unfold extend_size. destruct (decide (field p p_type_ 4 ≠ PT_NULL)) as [Ht|Ht]; [|by left].
    specialize (Hr p ltac:(left) Ht). rewrite u32_small by (unfold is_u32; lia). case_decide; [by right|by left]. }
  assert (Hle : extend_size size p ≤ L).
  { destruct Hx as [->|[Ht ->]]; [done|]. by apply Hr; [left|]. }
  destruct (IH (extend_size size p) Hle) as [->|(q & Hq & Ht & ->)]; [intros q Hq; apply Hr; by right| |].
  - destruct Hx as [->|[Ht ->]]; [by left|]. right. exists p. by split; [left|].
  - right. exists q. by split; [right|].
Qed.

(** Cutting a segment at [s] *)
Lemma modify_phdr_run s p : length p = 32%nat → bytes_ok p → 0 ≤ s < 2 ^ 32 →
  length (modify_phdr s p) = 32%nat ∧ (∀ j, ¬ (16 ≤ j < 20)%nat → modify_phdr s p !! j = p !! j) ∧
  (field p p_offset_ 4 + field p p_filesz_ 4 < 2 ^ 32 →
   field (modify_phdr s p) p_filesz_ 4 = Z.max 0 (Z.min (field p p_filesz_ 4) (s - field p p_offset_ 4))).
Proof.
  intros Hl Hb Hs. pose proof (field_range p p_offset_ 4 Hb) as Ho. pose proof (field_range p p_filesz_ 4 Hb) as Hf.
  assert (Hset : ∀ v, 0 ≤ v < 2 ^ 32 → length (set_field p p_filesz_ 4 v) = 32%nat ∧
    (∀ j, ¬ (16 ≤ j < 20)%nat → set_field p p_filesz_ 4 v !! j = p !! j) ∧ field (set_field p p_filesz_ 4 v) p_filesz_ 4 = v).
  { intros v Hv. unfold p_filesz_ in *. split_and!.
    - rewrite length_set_field by lia. done.
    - intros j Hj. apply set_field_outside; lia.
    - apply field_set; [lia|lia|exact Hv]. }
  unfold modify_phdr. case_decide as Ha; [|case_decide as Hc].
  - destruct (Hset 0 ltac:(lia)) as (H32 & Hj & E). split_and!; [done..|]. intros _. rewrite E. lia.
  - destruct (Hset (s - field p p_offset_ 4) ltac:(lia)) as (H32 & Hj & E). split_and!; [done..|]. intros Hr. rewrite E.
    rewrite u32_small in Hc by (unfold is_u32; lia). lia.
  - split_and!; [done..|]. intros Hr. rewrite u32_small in Hc by (unfold is_u32; lia). lia.
Qed.

(** The header keeps what the loader reads. *)
Lemma modify_ehdr_run s e : length e = 52%nat → length (modify_ehdr s e) = 52%nat ∧
  (∀ j, ¬ (32 ≤ j < 36)%nat → ¬ (46 ≤ j < 52)%nat → modify_ehdr s e !! j = e !! j).
Proof.
  intros Hl. unfold modify_ehdr. case_decide; [|done].
  set (e1 := set_field e e_shoff 4 0). set (e2 := set_field e1 e_shnum 2 0). set (e3 := set_field e2 e_shentsize 2 0).
  assert (L1 : length e1 = 52%nat) by (unfold e1, e_shoff; rewrite length_set_field; lia).
  assert (L2 : length e2 = 52%nat) by (unfold e2, e_shnum; rewrite length_set_field; lia).
  assert (L3 : length e3 = 52%nat) by (unfold e3, e_shentsize; rewrite length_set_field; lia).
  split; [unfold e_shstrndx; rewrite length_set_field; lia|]. intros j Ha Hb.
  rewrite set_field_outside by (unfold e_shstrndx; lia). unfold e3. rewrite set_field_outside by (unfold e_shentsize; lia).
  unfold e2. rewrite set_field_outside by (unfold e_shnum; lia). unfold e1. by rewrite set_field_outside by (unfold e_shoff; lia).
Qed.

(** ** What sstrip keeps *)

Definition phnum (file : list Z) : nat := Z.to_nat (field file e_phnum 2).
Definition headers (file : list Z) : list (list Z) := phdrs_of (phnum file) (drop 52 file).
Definition table_end (file : list Z) : nat := (52 + 32 * phnum file)%nat.

(** An executable of the usual shape: the program headers follow the header of
    the file, and what they refer to is there. *)
Record plain_elf (file : list Z) : Prop := mk_plain_elf {
  elf_bytes : bytes_ok file;
  elf_small : Z.of_nat (length file) < 2 ^ 31;
  elf_magic : take 4 file = ELFMAG;
  elf_kind : field file EI_DATA 1 = ELFDATA2LSB ∧ field file EI_CLASS 1 = ELFCLASS32 ∧ field file e_machine 2 = EM_386 ∧
    field file e_ehsize 2 = sizeof_Ehdr ∧ field file e_phentsize 2 = sizeof_Phdr ∧
    (field file e_type 2 = ET_EXEC ∨ field file e_type 2 = ET_DYN);
  elf_table : field file e_phoff 4 = 52 ∧ phnum file ≠ O ∧ (table_end file ≤ length file)%nat;
  elf_segments : ∀ p, p ∈ headers file → field p p_type_ 4 ≠ PT_NULL →
    field p p_offset_ 4 + field p p_filesz_ 4 ≤ Z.of_nat (length file)
}.

(** The byte [k] of a segment as the loader puts it into memory: from the file,
    or zero. *)
Definition loaded (file phdr : list Z) (k : nat) : Z :=
  if decide (Z.of_nat k < field phdr p_filesz_ 4) then nth (Z.to_nat (field phdr p_offset_ 4) + k) file 0 else 0.

Lemma field_take file n off m : 0 ≤ off → off + Z.of_nat m ≤ Z.of_nat n → field (take n file) off m = field file off m.
Proof. intros Ho Hn. apply field_ext; [done|]. intros i Hi. apply lookup_take_lt. lia. Qed.

Section keep.
  Context (sys_ok : nat → bool) (Hok : ∀ k, sys_ok k = true).
  Context (file : list Z) (Helf : plain_elf file).

Lemma headers_ok : Forall (λ p, length p = 32%nat ∧ bytes_ok p) (headers file).
Proof.
  destruct Helf as [Hb _ _ _ (_ & _ & Ht) _]. unfold table_end in Ht. apply phdrs_of_all; [rewrite length_drop; lia|by apply Forall_drop].
Qed.

Lemma phnum_word : Z.of_nat (phnum file) = field file e_phnum 2.
Proof. unfold phnum. rewrite Z2Nat.id; [done|]. apply field_range, Helf. Qed.

Lemma header_run calls : readelfheader sys_ok (mk_fd file 0 calls) = (Some (take 52 file), mk_fd file 52 (S calls)).
Proof.
  destruct Helf as [Hb Hs Hm (Hd & Hc & Hma & Hes & Hps & Hty) (_ & _ & Ht) _]. unfold table_end in Ht. unfold readelfheader.
  rewrite read_run by (done || cbn; unfold sizeof_Ehdr; lia). cbn [fd_bytes fd_pos fd_calls].
  change (Z.to_nat 0) with O. rewrite drop_0. change (Z.to_nat sizeof_Ehdr) with 52%nat.
  rewrite decide_False by (rewrite length_take; unfold sizeof_Ehdr; lia).
  rewrite decide_False by (rewrite take_take; change (4 `min` 52)%nat with 4%nat; rewrite Hm; auto).
  rewrite !field_take by (unfold EI_DATA, EI_CLASS, e_machine, e_ehsize, e_phentsize, e_type; lia).
  by rewrite !decide_False by tauto.
Qed.

Lemma table_run calls :
  readphdrtable sys_ok (take 52 file) (mk_fd file 52 calls) =
    (Some (headers file), mk_fd file (Z.of_nat (table_end file)) (S (S calls))).
Proof.
  destruct Helf as [_ _ _ _ (Hoff & Hn & Ht) _]. unfold table_end in *. pose proof phnum_word as Hw. unfold readphdrtable.
  rewrite !field_take by (unfold e_phnum, e_phoff; lia). rewrite <-Hw, Hoff. rewrite decide_False by lia.
  unfold call. rewrite Hok. cbn [negb fd_bytes fd_pos fd_calls]. unfold sizeof_Phdr.
  rewrite read_run by (done || cbn; lia). cbn [fd_bytes fd_pos fd_calls].
  rewrite decide_False by (rewrite length_take, length_drop; lia). rewrite Nat2Z.id. change (Z.to_nat 52) with 52%nat.
  f_equal; [|f_equal; lia]. f_equal. unfold headers.
  rewrite <-(take_drop (Z.to_nat (Z.of_nat (phnum file) * 32)) (drop 52 file)) at 2.
  rewrite phdrs_of_take; [done|]. rewrite length_take, length_drop. lia.
Qed.

(** What is referred to *)
Lemma size_run : let M := getmemorysize (take 52 file) (headers file) in
  Z.of_nat (table_end file) ≤ M ≤ Z.of_nat (length file) ∧
  ∀ p, p ∈ headers file → field p p_type_ 4 ≠ PT_NULL → field p p_offset_ 4 + field p p_filesz_ 4 ≤ M.
Proof.
  destruct Helf as [Hb Hs _ _ (Hoff & Hn & Ht) Hseg]. intros M. unfold table_end in *. pose proof phnum_word as Hw.
  unfold M, getmemorysize. rewrite !field_take by (unfold e_phnum, e_phoff; lia). rewrite <-Hw, Hoff. unfold sizeof_Phdr, sizeof_Ehdr.
  rewrite u32_small by (unfold is_u32; lia). rewrite decide_False by lia.
  replace (Z.of_nat (52 + 32 * phnum file)) with (52 + Z.of_nat (phnum file) * 32) by lia.
  apply memory_size; [lia|done| |exact Hseg]. eapply Forall_impl; [exact headers_ok|]. by intros p [_ ?].
Qed.

Lemma size_attained : let M := getmemorysize (take 52 file) (headers file) in
  M = Z.of_nat (table_end file) ∨
  ∃ p, p ∈ headers file ∧ field p p_type_ 4 ≠ PT_NULL ∧ M = field p p_offset_ 4 + field p p_filesz_ 4.
Proof.
  destruct Helf as [Hb Hs _ _ (Hoff & Hn & Ht) Hseg]. intros M. unfold table_end in *. pose proof phnum_word as Hw.
  unfold M, getmemorysize. rewrite !field_take by (unfold e_phnum, e_phoff; lia). rewrite <-Hw, Hoff. unfold sizeof_Phdr, sizeof_Ehdr.
  rewrite u32_small by (unfold is_u32; lia). rewrite decide_False by lia.
  replace (Z.of_nat (52 + 32 * phnum file)) with (52 + Z.of_nat (phnum file) * 32) by lia.
  apply (memory_size_attained _ _ (Z.of_nat (length file))); [lia|done| |exact Hseg].
  eapply Forall_impl; [exact headers_ok|]. by intros p [_ ?].
Qed.

(** The file that is written, when [s] bytes are left *)
Definition stripped (s : nat) : list Z :=
  take (s `max` table_end file) (modify_ehdr (Z.of_nat s) (take 52 file) ++
    concat (modify_phdr (Z.of_nat s) <$> headers file) ++ drop (table_end file) file).

Lemma modified_lengths s : Z.of_nat s < 2 ^ 31 →
  length (modify_ehdr (Z.of_nat s) (take 52 file)) = 52%nat ∧
  Forall (λ p, length p = 32%nat) (modify_phdr (Z.of_nat s) <$> headers file) ∧
  length (modify_phdr (Z.of_nat s) <$> headers file) = phnum file.
Proof.
  intros Hs. destruct Helf as [_ _ _ _ (_ & _ & Ht) _]. unfold table_end in Ht. split_and!.
  - apply modify_ehdr_run. rewrite length_take. lia.
  - apply Forall_fmap. eapply Forall_impl; [exact headers_ok|]. intros p [Hl Hb]. cbn. apply modify_phdr_run; [done..|].
    lia.
  - rewrite length_fmap. apply phdrs_of_length.
Qed.
Lemma field_of_stripped_header s off m : Z.of_nat s < 2 ^ 31 → 0 ≤ off → off + Z.of_nat m ≤ 52 →
  (off + Z.of_nat m ≤ 32 ∨ 36 ≤ off ∧ off + Z.of_nat m ≤ 46) →
  field (modify_ehdr (Z.of_nat s) (take 52 file)) off m = field file off m.
Proof.
  intros Hs Ho Hm Hr. destruct Helf as [_ _ _ _ (_ & _ & Ht) _]. unfold table_end in Ht.
  rewrite <-(field_take file 52 off m) by lia. apply field_ext; [done|]. intros i Hi.
  apply modify_ehdr_run; [rewrite length_take; lia|lia|lia].
Qed.

Lemma commit_run s pos calls : Z.of_nat s < 2 ^ 31 → (s ≤ length file)%nat →
  ∃ pos' calls', commitchanges sys_ok (modify_ehdr (Z.of_nat s) (take 52 file)) (modify_phdr (Z.of_nat s) <$> headers file)
    (Z.of_nat s) (mk_fd file pos calls) = (true, mk_fd (stripped s) pos' calls').
Proof.
  intros Hs Hlen. destruct (modified_lengths s Hs) as (L1 & L2 & L3). pose proof (concat_length _ L2) as L4. rewrite L3 in L4.
  destruct Helf as [_ Hsm _ _ (Hoff & Hn & Ht) _]. pose proof phnum_word as Hw. unfold commitchanges.
  rewrite !field_of_stripped_header by (unfold e_phoff, e_phnum; lia). rewrite Hoff, <-Hw.
  set (e := modify_ehdr _ _) in *. set (ps := concat _) in *. unfold table_end in *.
  rewrite lseek_run by (done || lia). cbn [negb]. rewrite write_run by (done || cbn; lia). cbn [fd_bytes fd_pos fd_calls].
  change (Z.to_nat 0) with O. rewrite take_0, L1. change (0 + 52)%nat with 52%nat. cbn [app].
  rewrite lseek_run by (done || lia). cbn [negb fd_bytes fd_pos fd_calls].
  rewrite write_run by (done || cbn; rewrite ?length_app, ?length_drop; lia). cbn [fd_bytes fd_pos fd_calls].
  change (Z.to_nat 52) with 52%nat. rewrite take_app_length' by done. rewrite drop_app_ge by lia. rewrite drop_drop, L1, L4.
  replace (52 + (52 + 32 * phnum file - 52))%nat with (52 + 32 * phnum file)%nat by lia.
  unfold sizeof_Phdr. rewrite u32_small by (unfold is_u32; lia).
  assert (E : (if decide (Z.of_nat s < 52 + Z.of_nat (phnum file) * 32) then 52 + Z.of_nat (phnum file) * 32 else Z.of_nat s) =
    Z.of_nat (s `max` table_end file)) by (unfold table_end; case_decide; lia).
  rewrite E. rewrite ftruncate_run; [|done|unfold table_end; lia|].
  - unfold stripped. rewrite Nat2Z.id. unfold e, ps, table_end. by eexists _, _.
  - cbn [fd_bytes]. rewrite !length_app, length_drop, L1, L4. unfold table_end. lia.
Qed.

Lemma strip_run calls : ∃ s pos' calls',
  trimmed file (Z.to_nat (getmemorysize (take 52 file) (headers file))) s ∧ (s ≤ length file)%nat ∧
  strip sys_ok (mk_fd file 0 calls) = Ret (true, mk_fd (stripped s) pos' calls').
Proof.
  destruct size_run as (Hsize & _). pose proof Helf as [_ Hsm Hm _ (_ & _ & Ht) _]. unfold strip.
  rewrite header_run, table_run. set (M := getmemorysize _ _) in *. unfold truncatezeros. unfold table_end in *.
  assert (H1 : nth 1 file 0 ≠ 0).
  { assert (E : nth 1 (take 4 file) 0 = 69) by by rewrite Hm. rewrite nth_lookup, lookup_take_lt, <-nth_lookup in E by lia. by rewrite E. }
  destruct (truncate_run sys_ok Hok (Z.to_nat M + 2) (Z.to_nat M) 1 (mk_fd file (Z.of_nat (52 + 32 * phnum file)) (S (S (S calls)))))
    as (s & pos & calls1 & E & Htr); cbn [fd_bytes]; try done; try lia.
  rewrite Z2Nat.id in E by lia. rewrite E. cbn. destruct Htr as (Hs & Hz & Hnz).
  rewrite decide_False by lia. cbn. destruct (commit_run s pos calls1) as (pos' & calls' & E'); [lia|lia|].
  exists s, pos', calls'. split; [done|]. split; [lia|]. by rewrite E'.
Qed.

Lemma stripped_length s : (s ≤ length file)%nat → length (stripped s) = (s `max` table_end file)%nat.
Proof.
  intros Hs. pose proof Helf as [_ Hsm _ _ (_ & _ & Ht) _]. destruct (modified_lengths s ltac:(lia)) as (L1 & L2 & L3).
  unfold stripped. rewrite length_take, !length_app, L1, (concat_length _ L2), L3, length_drop. unfold table_end in *. lia.
Qed.

Lemma stripped_front s a : (s ≤ length file)%nat → (a < 52)%nat → stripped s !! a = modify_ehdr (Z.of_nat s) (take 52 file) !! a.
Proof.
  intros Hs Ha. pose proof Helf as [_ Hsm _ _ (_ & _ & Ht) _]. destruct (modified_lengths s ltac:(lia)) as (L1 & _ & _).
  unfold stripped, table_end. rewrite lookup_take_lt by lia. by rewrite lookup_app_l by lia.
Qed.

Lemma stripped_back s a : (s ≤ length file)%nat → (table_end file ≤ a < s `max` table_end file)%nat → stripped s !! a = file !! a.
Proof.
  intros Hs Ha. pose proof Helf as [_ Hsm _ _ (_ & _ & Ht) _]. destruct (modified_lengths s ltac:(lia)) as (L1 & L2 & L3).
  unfold stripped. rewrite lookup_take_lt by lia. unfold table_end in *.
  rewrite !lookup_app_r by (rewrite ?L1, ?(concat_length _ L2), ?L3; lia). rewrite L1, (concat_length _ L2), L3, lookup_drop.
  f_equal. lia.
Qed.

Lemma stripped_headers s : (s ≤ length file)%nat → headers (stripped s) = modify_phdr (Z.of_nat s) <$> headers file.
Proof.
  intros Hs. pose proof Helf as [_ Hsm _ _ (_ & _ & Ht) _]. destruct (modified_lengths s ltac:(lia)) as (L1 & L2 & L3).
  assert (Hn : phnum (stripped s) = phnum file).
  { unfold phnum. f_equal. rewrite <-(field_of_stripped_header s e_phnum 2) by (unfold e_phnum; lia).
    apply field_ext; [done|]. intros i Hi. apply stripped_front; [done|]. unfold e_phnum in Hi. lia. }
  unfold headers at 1. rewrite Hn. unfold stripped.
  set (e := modify_ehdr _ _) in *. set (ps := modify_phdr _ <$> headers file) in *.
  assert (E : drop 52 (take (s `max` table_end file) (e ++ concat ps ++ drop (table_end file) file)) =
    concat ps ++ take (s `max` table_end file - table_end file) (drop (table_end file) file)).
  { rewrite skipn_firstn_comm, drop_app_length' by done. rewrite take_app, (concat_length _ L2), L3. unfold table_end.
    rewrite take_ge by (rewrite (concat_length _ L2), L3; lia). f_equal. f_equal. lia. }
  rewrite E, <-L3. by apply phdrs_of_concat.
Qed.

(** A segment is loaded as before, but for what was written over. *)
Lemma stripped_loaded s p k : trimmed file (Z.to_nat (getmemorysize (take 52 file) (headers file))) s → (s ≤ length file)%nat →
  p ∈ headers file → field p p_type_ 4 ≠ PT_NULL → (table_end file ≤ Z.to_nat (field p p_offset_ 4) + k)%nat →
  loaded (stripped s) (modify_phdr (Z.of_nat s) p) k = loaded file p k.
Proof.
  intros (Hs & Hz & _) Hlen Hp Ht Hk. destruct size_run as (HM & Hseg). specialize (Hseg p Hp Ht).
  pose proof Helf as [_ Hsm _ _ _ _]. pose proof headers_ok as Hall. rewrite Forall_forall in Hall.
  destruct (Hall p Hp) as [Hl Hb]. pose proof (field_range p p_offset_ 4 Hb) as Ho. pose proof (field_range p p_filesz_ 4 Hb) as Hf.
  set (M := getmemorysize _ _) in *.
  destruct (modify_phdr_run (Z.of_nat s) p Hl Hb ltac:(lia)) as (_ & Hj & Hsz). specialize (Hsz ltac:(lia)).
  assert (Hoff : field (modify_phdr (Z.of_nat s) p) p_offset_ 4 = field p p_offset_ 4).
  { apply field_ext; [done|]. intros i Hi. apply Hj. unfold p_offset_ in Hi. lia. }
  unfold loaded. rewrite Hsz, Hoff. set (off := field p p_offset_ 4) in *. set (size := field p p_filesz_ 4) in *.
  destruct (decide (Z.of_nat k < size)) as [Hin|Hin]; [|by rewrite decide_False by lia].
  case_decide as Hc.
  - rewrite !nth_lookup, stripped_back by lia. done.
  - symmetry. apply Hz. lia.
Qed.

End keep.

(** C19: when every call succeeds, sstrip shortens an executable of the usual shape
    to what its headers refer to, less the zeros at the end of that, and keeps
    the program.  The file then ends with its program headers, or with a byte
    that is not zero and that a program header referred to; what is left of it
    behind the program headers is as it was.  Every segment is loaded with the
    same bytes, as far as they are not those of the headers themselves; of the
    headers only the place and number of the sections and the sizes of segments
    in the file change, and a segment that still has bytes in the file has all
    of them in what is left. *)
Theorem sstrip_keeps_program sys_ok file calls : (∀ k, sys_ok k = true) → plain_elf file →
  ∃ file' pos' calls', strip sys_ok (mk_fd file 0 calls) = Ret (true, mk_fd file' pos' calls') ∧
    (length file' ≤ length file)%nat ∧
    (length file' = table_end file ∨
     nth (length file' - 1) file' 0 ≠ 0 ∧
     ∃ p, p ∈ headers file ∧ field p p_type_ 4 ≠ PT_NULL ∧ Z.of_nat (length file') ≤ field p p_offset_ 4 + field p p_filesz_ 4) ∧
    (∀ a, (a < 52)%nat → ¬ (32 ≤ a < 36)%nat → (a < 46)%nat → file' !! a = file !! a) ∧
    (∀ a, (table_end file ≤ a < length file')%nat → file' !! a = file !! a) ∧
    (∀ i p, headers file !! i = Some p → ∃ p', headers file' !! i = Some p' ∧
      (∀ j, ¬ (16 ≤ j < 20)%nat → p' !! j = p !! j) ∧
      (field p p_type_ 4 ≠ PT_NULL →
       (field p' p_filesz_ 4 ≠ 0 → field p p_offset_ 4 + field p' p_filesz_ 4 ≤ Z.of_nat (length file')) ∧
       ∀ k, (table_end file ≤ Z.to_nat (field p p_offset_ 4) + k)%nat → loaded file' p' k = loaded file p k)).
Proof.
  intros Hok Helf. destruct (strip_run sys_ok Hok file Helf calls) as (s & pos' & calls' & Htr & Hs & E).
  pose proof Helf as [_ Hsm _ _ (_ & _ & Ht) _]. exists (stripped file s), pos', calls'. split; [exact E|].
  rewrite (stripped_length file Helf s Hs). split; [lia|]. split_and!.
  - destruct (decide (s ≤ table_end file)%nat); [left; lia|right]. replace (s `max` table_end file)%nat with s by lia. split.
    + rewrite nth_lookup, (stripped_back file Helf) by lia. rewrite <-nth_lookup. apply Htr.
    + destruct Htr as [Hle _]. destruct (size_attained file Helf) as [EM|(p & Hp & Hn & EM)]; rewrite EM in Hle; [lia|].
      exists p. split; [done|]. split; [done|lia].
  - intros a Ha Hb Hc. rewrite (stripped_front file Helf) by lia. destruct (modify_ehdr_run (Z.of_nat s) (take 52 file)) as (_ & Hj).
    { rewrite length_take. unfold table_end in Ht. lia. }
    rewrite Hj by lia. by apply lookup_take_lt.
  - intros a Ha. by apply (stripped_back file Helf).
  - intros i p Hp. rewrite (stripped_headers file Helf s Hs), list_lookup_fmap, Hp. eexists. split; [done|].
    pose proof (headers_ok file Helf) as Hall. rewrite Forall_forall in Hall.
    assert (Hin : p ∈ headers file) by by eapply list_elem_of_lookup_2.
    destruct (Hall p Hin) as [Hl Hb]. destruct (modify_phdr_run (Z.of_nat s) p Hl Hb ltac:(lia)) as (_ & Hj & Hsz).
    split; [exact Hj|]. intros Hn. split; [|intros k Hk; by apply (stripped_loaded file Helf)].
    destruct (size_run file Helf) as [HM Hseg]. specialize (Hseg p Hin Hn). rewrite Hsz by lia. lia.
Qed.

(** ** Programs *)

(** The header of a file whose program headers, [phnum] of them, are at [phoff] *)
Definition sample_header (phoff shoff : Z) : list Z :=
  ELFMAG ++ [ELFCLASS32; ELFDATA2LSB; 1] ++ replicate 9 0 ++ le_bytes 2 ET_EXEC ++ le_bytes 2 EM_386 ++ le_bytes 4 1 ++
  le_bytes 4 0x8048054 ++ le_bytes 4 phoff ++ le_bytes 4 shoff ++ le_bytes 4 0 ++
  le_bytes 2 52 ++ le_bytes 2 32 ++ le_bytes 2 1 ++ le_bytes 2 40 ++ le_bytes 2 3 ++ le_bytes 2 2.
Definition sample_phdr (filesz memsz : Z) : list Z :=
  le_bytes 4 1 ++ le_bytes 4 0 ++ le_bytes 4 0x8048000 ++ le_bytes 4 0x8048000 ++ le_bytes 4 filesz ++ le_bytes 4 memsz ++
  le_bytes 4 5 ++ le_bytes 4 4096.

(** sstrip reads the program headers from behind the header of the file and
    writes them where [e_phoff] says: when that is another place, the program
    loses its headers, here the only segment it has. *)
Example table_elsewhere_lost :
  let file := sample_header 60 0 ++ replicate 8 0 ++ sample_phdr 100 120 ++ [2; 2; 2; 2; 2; 2; 2; 2] in
  match strip (λ _, true) (mk_fd file 0 0) with
  | Ret (ok, f) => ok = true ∧ field (drop 60 file) p_type_ 4 = 1 ∧ field (drop 60 (fd_bytes f)) p_type_ 4 = PT_NULL
  | Err _ => False
  end.
Proof. by vm_compute. Qed.

(** One segment, of eight bytes of code behind the headers and four zeros; the
    sections behind it and the zeros go. *)
Definition sample_program : list Z :=
  sample_header 52 96 ++ sample_phdr 96 120 ++ [1; 2; 3; 4; 5; 6; 7; 8; 0; 0; 0; 0] ++ replicate 120 9.

Lemma sstrip_keeps_program_witness :
  ∃ file' pos' calls', strip (λ _, true) (mk_fd sample_program 0 0) = Ret (true, mk_fd file' pos' calls') ∧
    length file' = 92%nat ∧ headers file' = [sample_phdr 92 120] ∧ loaded file' (sample_phdr 92 120) 93 = 0 ∧
    loaded sample_program (sample_phdr 96 120) 93 = 0.
Proof.
  destruct (sstrip_keeps_program (λ _, true) sample_program 0) as (file' & pos' & calls' & E & _).
  - done.
  - split.
    + apply (bool_decide_eq_true_1 (Forall (λ x, 0 ≤ x < 256) sample_program)). by vm_compute.
    + by vm_compute.
    + by vm_compute.
    + split_and!; [by vm_compute..|left; by vm_compute].
    + split_and!; [by vm_compute|by vm_compute|apply Nat.leb_le; by vm_compute].
    + intros p Hp _. unfold headers in Hp. vm_compute in Hp. apply list_elem_of_singleton in Hp as ->. by vm_compute.
  - exists file', pos', calls'. split; [exact E|]. vm_compute in E. injection E as <- _ _. by vm_compute.
Defined.
