(* ===== verification/Clients.v ===== *)
(** * The command-line programs of the guest (domU/c_loader, domU/c_client)

    The loader puts itself on the driver's watch, becomes the program it was
    given, and measures how long that ran; [umalpage] sends the driver one
    command.  Both are sequences of system calls, whose results are a record;
    the driver behind the ioctl is the one of MalReport. *)

From S2P Require Import Prelude Protocol KernelText MalState MalReport Exepak.

(** ** Data *)

Record timeval : Type := mk_timeval { tv_sec : Z; tv_usec : Z }.
Definition time_zero : timeval := mk_timeval 0 0.

(** What the system calls of the loader answer. *)
Record loader_env : Type := mk_loader_env {
  le_open : Z;                       (** [open("/dev/malpage", O_RDWR)] *)
  le_fork : option Z;                (** the child's [getpid()], when [fork] succeeds *)
  le_calloc : bool;
  le_shm_child : bool;               (** [shmget] and [shmat] succeed in the child *)
  le_shm_parent : bool;
  le_start : timeval;                (** [gettimeofday] in the child, and in the parent after [wait] *)
  le_end : timeval;
  le_exec : bool;                    (** [execvp] succeeds, and does not return *)
  le_fopen : string → bool
}.

(** The driver, the shared segment with key 1234, the program a process has
    become, with its arguments, and the files written. *)
Record loader_world : Type := mk_loader_world {
  lw_driver : malpage_state;
  lw_shm : timeval;
  lw_executed : option (string * list string);
  lw_files : gmap string string
}.

Definition set_lw_driver (d : malpage_state) (w : loader_world) : loader_world :=
  mk_loader_world d (lw_shm w) (lw_executed w) (lw_files w).

(** [str+2]: behind the terminating zero there is no object. *)
Definition skip2 (a : string) : outcome string :=
  match a with String _ (String _ a') => Ret a' | _ => Err OutOfBounds end.

Definition newline : string := String (Ascii.ascii_of_nat 10) EmptyString.

(** [%06ld] *)
Definition zeros (n : nat) : string := String.string_of_list_ascii (repeat (digit 0) n).
Definition pad_to (n : nat) (a : string) : string := zeros (n - String.length a) +:+ a.
Definition format_06d (n : Z) : string :=
  if decide (n < 0) then "-" +:+ pad_to 5 (format_u (- n)) else pad_to 6 (format_u n).

(** ** The loader *)

Definition ONE_MILLION : Z := 1000000.

Section loader.
  Context `{AL : Allocator}.
  Context (E : loader_env).

(** The command line: test mode, the command, and the vector for [execvp]. *)
Definition loader_args (argv : list string) : option (bool * string * list string) :=
  match argv with
  | _ :: a1 :: rest =>
      match rest with
      | a2 :: _ => if decide (a1 = "test"%string) then Some (true, a2, rest) else Some (false, a1, a1 :: rest)
      | [] => Some (false, a1, [a1])
      end
  | _ => None
  end.

(** The branch [if (pid == 0)]; a message when the ioctl fails is only printed. *)
Definition loader_child (test_mode : bool) (command : string) (args : list string) (pid : Z) (w : loader_world)
    : outcome loader_world :=
  w1 ← (if negb test_mode then '(_, d) ← malpage_ioctl MALPAGE_WATCH pid (lw_driver w); Ret (set_lw_driver d w)
        else Ret w);
  if negb (le_shm_child E) then Ret w1
  else Ret (mk_loader_world (lw_driver w1) (le_start E)
              (if le_exec E then Some (command, args) else lw_executed w1) (lw_files w1)).

(** [elapsed_sec] and [elapsed_usec] *)
Definition elapsed (start end_ : timeval) : Z * Z :=
  let elapsed_sec := s64 (tv_sec end_ - tv_sec start) in
  let elapsed_usec := s64 (tv_usec end_ - tv_usec start) in
  if decide (elapsed_usec < 0) then (s64 (elapsed_sec - 1), s64 (ONE_MILLION + elapsed_usec))
  else (elapsed_sec, elapsed_usec).

(** The branch of the parent, after [wait(&status)] *)
Definition loader_parent (command : string) (w : loader_world) : outcome (Z * loader_world) :=
  if negb (le_shm_parent E) then Ret (1, w)
  else if negb (le_calloc E) then Err NullDeref
  else
    let '(elapsed_sec, elapsed_usec) := elapsed (lw_shm w) (le_end E) in
    rest ← skip2 command;
    let logfile := ("/root/data_" +:+ rest)%string in
    if negb (le_fopen E logfile) then Err NullDeref
    else
      let line := (format_d elapsed_sec +:+ "." +:+ format_06d elapsed_usec +:+ newline)%string in
      Ret (0, mk_loader_world (lw_driver w) time_zero (lw_executed w) (<[logfile := line]> (lw_files w))).

(** [int main(int argc, char *argv[])] of domU/c_loader/main.c *)
Definition loader_main (argv : list string) (w : loader_world) : outcome (Z * loader_world) :=
  match loader_args argv with
  | None => Ret (-1, w)
  | Some (test_mode, command, args) =>
      if decide (le_open E < 0) then Ret (-1, w)
      else match le_fork E with
           | None => Ret (-1, w)
           | Some pid => w1 ← loader_child test_mode command args pid w; loader_parent command w1
           end
  end.

End loader.

(** ** The commands *)

(** umalpage.c: the codes it was compiled with, and its words. *)
Definition MALPAGE_PRINTMSG : Z := MALPAGE_IOC_MAGIC + 1.
Definition MALPAGE_PAGEINFO : Z := MALPAGE_IOC_MAGIC + 2.
Definition MALPAGE_PFNLIST : Z := MALPAGE_IOC_MAGIC + 3.
Definition MALPAGE_PFNCLR : Z := MALPAGE_IOC_MAGIC + 4.
Definition MALPAGE_PFNCOUNT : Z := MALPAGE_IOC_MAGIC + 5.
Definition MALPAGE_PFNLISTSHOW : Z := MALPAGE_IOC_MAGIC + 6.

Inductive umalpage_action : Type :=
  | Ioctl (code : Z)
  | ReadList
  | NotRecognized.

(** The chain of [strcmp]s. *)
Definition umalpage_command (cmd : string) : umalpage_action :=
  if decide (cmd = "message"%string) then Ioctl MALPAGE_PRINTMSG
  else if decide (cmd = "info"%string) then Ioctl MALPAGE_PAGEINFO
  else if decide (cmd = "listmake"%string) then Ioctl MALPAGE_PFNLIST
  else if decide (cmd = "listclear"%string) then Ioctl MALPAGE_PFNCLR
  else if decide (cmd = "listsize"%string) then Ioctl MALPAGE_PFNCOUNT
  else if decide (cmd = "listshow"%string) then Ioctl MALPAGE_PFNLISTSHOW
  else if decide (cmd = "listread"%string) then ReadList
  else NotRecognized.

(** [int main(int argc, const char *argv[])] of umalpage.c: the exit status, the
    driver's answer where it was asked, and the driver.  [usable] is what
    [calloc(0, 255)] really reserves; the driver has no read operation, which
    the kernel answers with [-EINVAL]. *)
Definition EINVAL : Z := 22.
Definition umalpage_main `{Allocator} (usable fd : Z) (argv : list string) (st : malpage_state)
    : outcome (Z * option Z * malpage_state) :=
  match argv with
  | [_; arg; word] =>
      let pid := atoi arg in
      if decide (usable < slen word + 1) then Err OutOfBounds
      else if decide (fd < 0) then Ret (-1, None, st)
      else match umalpage_command word with
           | Ioctl code => '(r, st1) ← malpage_ioctl code pid st; Ret (0, Some r, st1)
           | ReadList => Ret (-1, Some (- EINVAL), st)
           | NotRecognized => Ret (0, None, st)
           end
  | _ => Ret (-1, None, st)
  end.

(** ** Specification *)

Definition micros (t : timeval) : Z := ONE_MILLION * tv_sec t + tv_usec t.
Definition time_ok (t : timeval) : Prop := 0 ≤ tv_sec t < 2 ^ 62 ∧ 0 ≤ tv_usec t < ONE_MILLION.

(** Every call of the loader succeeds. *)
Definition all_succeed (E : loader_env) (pid : Z) : Prop :=
  0 ≤ le_open E ∧ le_fork E = Some pid ∧ le_calloc E = true ∧ le_shm_child E = true ∧ le_shm_parent E = true ∧
  le_exec E = true.

(** ** Lemmas *)

Lemma elapsed_run t0 t1 : time_ok t0 → time_ok t1 → micros t0 ≤ micros t1 →
  ∃ sec usec, elapsed t0 t1 = (sec, usec) ∧ 0 ≤ sec ∧ 0 ≤ usec < ONE_MILLION ∧
    ONE_MILLION * sec + usec = micros t1 - micros t0.
Proof.
  intros [[S0 S0'] [U0 U0']] [[S1 S1'] [U1 U1']] Hle. unfold elapsed, micros, ONE_MILLION in *.
  rewrite (s64_small (tv_sec t1 - tv_sec t0)), (s64_small (tv_usec t1 - tv_usec t0)) by lia.
  case_decide as Hneg.
  - rewrite !s64_small by lia. eexists _, _. split; [reflexivity|]. lia.
  - eexists _, _. split; [reflexivity|]. lia.
Qed.

Section clients.
  Context `{AL : Allocator} {SC : SlabClasses}.

Lemma watch_ioctl pid st i : malpage_share_info st = Some i → is_u16 (si_domid i) → 0 ≤ pid < 10 ^ 7 →
  malpage_ioctl MALPAGE_WATCH pid st =
    if decide (si_domid i < 100) then Err OutOfBounds else Ret (0, log_all (xs_watch_events (si_domid i) pid) st).
Proof.
  intros Hi Hd Hp. unfold malpage_ioctl. simpl. unfold malpage_watch. rewrite Hi. simpl.
  rewrite s32_small by (unfold is_s32; lia). rewrite (u32_small pid) by (unfold is_u32; lia).
  rewrite (u16_small (si_domid i)) by done. rewrite xs_watch_run by done. by case_decide.
Qed.

(** C30: When its calls succeed, the loader has published its process on the
    watch list before it becomes the program it was given, with the program's
    own arguments, and the file named after the program holds the time from
    then to the program's end, to the microsecond.  For the domains with one or
    two digits the watch overflows its block in the driver instead, and the
    program is not run.  In test mode the driver hears nothing. *)
Theorem loader_watches E name command rest pid file w i :
  all_succeed E pid → malpage_share_info (lw_driver w) = Some i → is_u16 (si_domid i) → 0 ≤ pid < 10 ^ 7 →
  command ≠ "test"%string ∨ rest = [] →
  skip2 command = Ret file → le_fopen E ("/root/data_" +:+ file) = true →
  time_ok (le_start E) → time_ok (le_end E) → micros (le_start E) ≤ micros (le_end E) →
  (si_domid i < 100 → loader_main E (name :: command :: rest) w = Err OutOfBounds) ∧
  ∃ sec usec, ONE_MILLION * sec + usec = micros (le_end E) - micros (le_start E) ∧ 0 ≤ sec ∧ 0 ≤ usec < ONE_MILLION ∧
    let files := <[("/root/data_" +:+ file)%string := (format_d sec +:+ "." +:+ format_06d usec +:+ newline)%string]> (lw_files w) in
    (100 ≤ si_domid i → loader_main E (name :: command :: rest) w =
       Ret (0, mk_loader_world (log_all (xs_watch_events (si_domid i) pid) (lw_driver w)) time_zero
                 (Some (command, command :: rest)) files)) ∧
    loader_main E (name :: "test"%string :: command :: rest) w =
      Ret (0, mk_loader_world (lw_driver w) time_zero (Some (command, command :: rest)) files).
Proof.
  intros (Hopen & Hfork & Hcal & Hs1 & Hs2 & Hex) Hi Hd Hp Hcmd Hskip Hfile Ht0 Ht1 Hle.
  assert (loader_args (name :: command :: rest) = Some (false, command, command :: rest)) as Hargs.
  { simpl. destruct rest as [|a2 rest]; [done|]. rewrite decide_False by naive_solver. done. }
  destruct (elapsed_run _ _ Ht0 Ht1 Hle) as (sec & usec & Eel & H0 & Hu & Hsum).
  assert (∀ d, loader_parent E command (mk_loader_world d (le_start E) (Some (command, command :: rest)) (lw_files w)) =
    Ret (0, mk_loader_world d time_zero (Some (command, command :: rest))
      (<[("/root/data_" +:+ file)%string := (format_d sec +:+ "." +:+ format_06d usec +:+ newline)%string]> (lw_files w)))) as Hparent.
  { intros d. unfold loader_parent. rewrite Hs2, Hcal. cbn [negb lw_shm]. rewrite Eel, Hskip.
    cbn [mbind outcome_bind]. by rewrite Hfile. }
  unfold loader_main. rewrite Hargs, Hfork. rewrite decide_False by lia. unfold loader_child.
  rewrite (watch_ioctl _ _ _ Hi Hd Hp), Hs1, Hex. split.
  - intros Hlt. by rewrite decide_True.
  - exists sec, usec. do 3 (split; [done|]). cbv zeta. split.
    + intros Hge. rewrite decide_False by lia. cbn [negb mbind outcome_bind]. apply Hparent.
    + cbn [loader_args]. rewrite decide_True, decide_False by (done || lia). cbn [negb mbind outcome_bind]. apply Hparent.
Qed.

(** Of [umalpage]'s commands the driver knows one code only, which does nothing
    any more: whatever the command line, the driver is as it was, and only the
    word [message] is not answered with an error. *)
Theorem umalpage_obsolete usable fd argv st r a st' :
  umalpage_main usable fd argv st = Ret (r, a, st') →
  st' = st ∧ (a = None ∨ a = Some MALPAGE_BADCMD ∨ a = Some (- EINVAL) ∨ (a = Some 0 ∧ argv !! 2%nat = Some "message"%string)).
Proof.
  unfold umalpage_main. intros Hr. destruct argv as [|a0 [|a1 [|a2 [|]]]]; simplify_eq; auto.
  repeat (case_decide; simplify_eq; auto).
  assert (∀ p c, c ∈ [MALPAGE_PAGEINFO; MALPAGE_PFNLIST; MALPAGE_PFNCLR; MALPAGE_PFNCOUNT; MALPAGE_PFNLISTSHOW] →
    malpage_ioctl c p st = Ret (MALPAGE_BADCMD, st)) as Hbad.
  { intros p c Hc. rewrite !elem_of_cons, elem_of_nil in Hc. by destruct Hc as [->|[->|[->|[->|[->|[]]]]]]. }
  unfold umalpage_command in Hr. case_decide as Hm.
  { change (malpage_ioctl MALPAGE_PRINTMSG (atoi a1) st) with (Ret (0, st)) in Hr. simplify_eq/=. auto 10. }
  repeat (case_decide; [try rewrite Hbad in Hr by (rewrite !elem_of_cons; tauto); simplify_eq/=; auto|]). simplify_eq. auto.
Qed.

End clients.

(** ** Witnesses *)

Definition toy_loader_env : loader_env :=
  mk_loader_env 3 (Some 77) true true true (mk_timeval 1000 900000) (mk_timeval 1002 150000) true (λ _, true).
Definition toy_loader_world : loader_world :=
  mk_loader_world (set_share_info (Some (mk_share_info 120 8 20 41 0 "uuid" (mk_as_front_ring 0 0 4096))) toy_report_state)
    time_zero None ∅.

Lemma loader_watches_witness :
  ∃ w', @loader_main slab toy_loader_env ["loader"; "./packed"; "-v"]%string toy_loader_world = Ret (0, w') ∧
    lw_executed w' = Some ("./packed"%string, ["./packed"; "-v"]%string) ∧
    lw_files w' !! "/root/data_packed"%string = Some ("1.250000" +:+ newline)%string ∧
    xs_watch_events 120 77 ≠ [] ∧ lw_driver w' = log_all (xs_watch_events 120 77) (lw_driver toy_loader_world).
Proof.
  destruct (@loader_watches slab slab_classes toy_loader_env "loader" "./packed" ["-v"]%string 77 "packed" toy_loader_world
    (mk_share_info 120 8 20 41 0 "uuid" (mk_as_front_ring 0 0 4096))) as (_ & sec & usec & Hsum & Hsec & Hus & Hrun & _);
    try done; try (by left); try (split_and!; done); try (split; done).
  eexists. split; [apply Hrun; simpl; lia|]. cbn [lw_executed lw_files lw_driver].
  assert (sec = 1 ∧ usec = 250000) as [-> ->].
  { unfold micros, ONE_MILLION in *. cbn [toy_loader_env le_start le_end tv_sec tv_usec] in Hsum. lia. }
  split_and!; vm_compute; reflexivity || done.
Defined.

Lemma umalpage_obsolete_witness :
  ∃ r a, @umalpage_main slab 24 3 ["umalpage"; "77"; "listmake"]%string toy_report_state = Ret (r, a, toy_report_state) ∧
    a = Some MALPAGE_BADCMD.
Proof.
  destruct (@umalpage_obsolete slab 24 3 ["umalpage"; "77"; "listmake"]%string toy_report_state 0 (Some MALPAGE_BADCMD)
    toy_report_state eq_refl) as [_ _].
  exists 0, (Some MALPAGE_BADCMD). split; reflexivity.
Defined.
